(* ===== verification/_CoqProject ===== *)
-Q . S2P
Prelude.v
Base64.v
Strconv.v
K8s.v
Metadata.v
Status.v
Api.v
Sanitize.v
Webhook.v
Plugins.v
Override.v
Services.v
Ini.v
Secrets.v
ServerConf.v
PodTemplate.v
StatefulSet.v
Rbac.v
ResourceBuilder.v
PodExecutor.v
Kube.v
Scaling.v
Expansion.v
Controller.v
Tls.v
Replicas.v
Client.v
Quorum.v
PostDeploy.v
Deletion.v
Reconcile.v
Management.v
Settled.v
Convergence.v
Completes.v
Kubectl.v
KubectlSpec.v
Manager.v
ManagerSpec.v
Memory.v
DeepCopy.v
Examples.v
ToolExamples.v
