(* ===== verification/Prelude.v ===== *)
(** * RabbitMQ Cluster Operator: a verification library

    The operator of this repository is a Kubernetes controller: it watches
    RabbitmqCluster custom resources and makes the child resources of each
    (Services, Secrets, ConfigMaps, a ServiceAccount, Role and RoleBinding, a
    StatefulSet) what the custom resource asks for.  This library models the
    Go code of api/, internal/status, internal/metadata, internal/webhook,
    internal/resource, internal/scaling, internal/rabbitmqclient,
    internal/controller, of the operator process (cmd/) and of the kubectl
    plugin (kubectl-rabbitmq/), and proves what that code promises.

    ** Parts, and where they are

    Data and pure functions (a Go function is a Rocq function of the same
    name; a builder's [Build] and [Update] carry a prefix naming the builder):
    - [Prelude]: Go results, strings, maps, integers; [Base64], [Strconv]: the
      parts of Go's encoding/base64 and strconv the programs use; [K8s]: the
      objects of the Kubernetes API with the fields the operator touches;
    - [Metadata]: internal/metadata, labels and annotations;
    - [Status]: internal/status, the four conditions;
    - [Api]: api/v1beta1, the custom resource, its predicates, and the update
      of its conditions;
    - [Sanitize] and [Webhook]: the two layers that keep a user's pod spec
      override unprivileged (sanitizePodSpecOverride in
      internal/resource/statefulset.go; internal/webhook/v1beta1), and the
      defaulting webhook;
    - [Plugins], [Services], [Secrets], [ServerConf], [Rbac]: the builders of
      the corresponding files of internal/resource; [Ini] is the interface of
      the ini library they write configuration files with;
    - [Override], [PodTemplate], [StatefulSet]: internal/resource/statefulset.go;
    - [ResourceBuilder]: internal/resource/rabbitmq_resource_builder.go, the
      ordered list of builders and the dispatch of [Build] and [Update].

    Effectful steps (programs over the calls of [Kube]):
    - [Kube]: calls to the API server, to pods and to the management API, the
      clock and the event recorder; programs, [wp], and one run [run];
    - [Scaling]: internal/scaling, the expansion of volume claims; [Expansion]
      runs it against a server with a state whose calls may fail;
    - [PodExecutor]: internal/controller/pod_executor.go, what a command's output
      is made of;
    - [Controller]: internal/controller/utils.go and the status helpers;
    - [Tls], [Replicas], [Client], [Quorum], [PostDeploy], [Deletion]: the steps
      of internal/controller (reconcile_*.go), of internal/rabbitmqclient and
      of deprecated_feature_controller.go;
    - [Reconcile]: the whole Reconcile method of rabbitmqcluster_controller.go,
      composed of the steps above in the order of the source; [Management]: where
      its requests to the management API go; [Settled]: passes that have nothing
      left to do; [Convergence]: how a pass gets there; [Completes]: that it
      does get there when the API server serves it.

    The generated deep copies:
    - [Memory]: pointers, slices and maps, and the forms of statement that
      zz_generated.deepcopy.go is made of; [DeepCopy]: the copy of each type of
      api/v1beta1 and of internal/status, statement by statement.

    The two processes:
    - [Manager]: cmd/main.go (environment and flags to a running manager or an
      exit, as a small state and error monad over the list of setup steps),
      pkg/profiling, SetupWithManager and the owner index;
    - [Kubectl]: kubectl-rabbitmq, every subcommand of the plugin as a program
      over the tool calls of [Kube] (kubectl, files, the terminal);
    - [ManagerSpec] and [KubectlSpec]: their theorems, which also relate them to
      the operator's builders and controllers.

    [Examples] has concrete clusters, concrete instances of the library
    interfaces and a simulated API server, on which the theorems are applied;
    [ToolExamples] does the same for the two processes.

    ** How the code is represented

    A Go pointer or nil-able value is an [option]; a struct is a record with
    the fields the operator reads or writes; a Quantity is a number of
    nano-units in Z, so that fractions compare exactly; int64 and int32 values
    are Z with their range stated where it matters ([removeHeadroom_spec],
    [ParseInt32]).  A Go map is a [gmap] when its nil value is the empty map,
    an option of one otherwise.  Where Go walks a map, its order is a parameter
    constrained only to be a permutation ([iter]), as is the order in which the
    quorum check's goroutines answer ([arrival]).  A run-time panic is an error
    value, because controller-runtime recovers it as one.  Objects are values:
    where the source relies on, or suffers from, two pointers to one object,
    the definition returns the changed object ([instance_after_Update], the
    cluster returned beside each step's result) or models the sharing
    ([share_capacity], [sts_Update_in_memory]).

    A step of a controller is a tree of calls whose continuations take the
    answer.  Nothing is assumed of the answers: [wp p Q []] says that [Q]
    holds of the final result and of the history of calls and answers in every
    execution, including those with conflicts, missing objects, lying caches
    and a clock that jumps.  Safety properties are stated on every prefix of
    the history; [wp] of a structurally finite tree also says that the step
    ends.

    ** Library code

    Code outside the repository is a class, with its documented behaviour as a
    second class of laws where a theorem needs any: [Ini]/[IniLaws] (ini.v1),
    [OwnerRefs]/[OwnerRefsLaws] (SetControllerReference), [StrategicMerge]
    (strategic merge patch, no law), [Semver] (no law), [Rfc3339] (time
    formatting, no law), [RetryLib]/[RetryLaws] (client-go's retry),
    [CreateOrUpdateLib]/[CreateOrUpdateLaws] (controllerutil.CreateOrUpdate) and
    [SemanticLaws] (the comparison it uses),
    [ClientLib]/[ClientLibLaws] (constructors of rabbit-hole, crypto/x509),
    [Remotecommand] (the executor behind exec, no law),
    [Cobra]/[CobraLaws] (argument validators), [CommandLine] (flag parsing, no
    law), [QuantityLib] and [YamlLib] (no law), [LabelTool]/[LabelToolLaws]
    (kubectl label), [ApiMachinery]/[ApiMachineryOk] (the Kubernetes types inside
    the cluster and their deep copies).  The setup
    steps of the manager are answered by an arbitrary function.
    Each has a concrete instance, and each theorem with a hypothesis is applied
    at a concrete input in [Examples], in [ToolExamples] or in the [Sample] of
    its file.

    ** What the theorems show

    - The pass: [Reconcile_order] (child resources are written in the order of
      the builders, the StatefulSet last and after its checks),
      [Reconcile_outcome] (a pass that ends quietly has either done everything
      or warned), [Reconcile_gate] (deleted and paused clusters),
      [settled_pass_is_quiet] (over children that are as their builders leave
      them, nothing is written), [pass_converges] (when nobody else writes the
      children, a pass that gets through its builders leaves them like that),
      [pass_completes] (it does get through when the server serves it and the
      cluster asks for nothing that is refused, wherever earlier passes
      stopped), [update_is_projection] (every builder's update leaves what it made).
    - Data safety: [Scale_safety] and [Scale_outcome] (volume claims only grow,
      pods are orphaned and never deleted), [interrupted_expansion_completes] (a
      pass without failures ends what interrupted ones began),
      [scale_down_refused], [scale_to_zero_saves], [scale_from_zero_restores].
    - Copies: [generated_copies_isolate] (a deep copy and its original share no
      memory: what the patches of the status rely on), [DeepCopyObject_spec].
    - The StatefulSet: [sts_Update_stable] (updating is idempotent),
      [sts_Update_claims], [sts_recreate_capacity], [sts_Update_identity].
    - Privileges: [webhook_accepts_iff_sanitized], [podTemplateSpec_baseline].
    - Restarts and commands: [restart_iff_stale], [cli_commands_safe],
      [scaling_needs_no_restart], [config_change_requires_restart].
    - Deletion: [prepareForDeletion_spec], [wait_for_label_ends].
    - Requests: [management_requests_addressed] (management requests go to the
      cluster's own pods and Service, with its own credentials, and are verified
      against its CA), [Exec_outputs].
    - Configuration: [user_config_wins], [operatorConfiguration_spec],
      [removeHeadroom_spec].
    - Consistency of the resources with each other: [pod_references_built],
      [pod_mounts_declared], [confd_mounts_projected],
      [container_ports_cover_service], [management_port_found],
      [child_names_distinct], [ResourceBuilders_spec], [pod_annotations_spec].
    - Services and Secrets: [updatePorts_spec], [service_desired_stable],
      [service_ports_tls], [secret_Update_spec].
    - The operator process: [children_watched] (what the builders write is in
      the cache and in the owner index), [main_starts_in_full],
      [main_reaches_start], [getEnvInDuration_bounds], [scope_namespaces_spec].
    - The plugin: [main_scoped], [commands_scoped], [create_spec], [credentials_found],
      [manage_forwards_served_port] (under every schedule of its goroutine),
      [pause_reaches_operator], [delete_and_debug_spec].
    - Status: [SetConditions_transition_times], [conditions_meaning],
      [reachable_conditions_wf], [reconcileTLS_spec], [aggregate_spec].

    ** Bounds

    The wait for the deletion label is the only loop of the source without a
    static bound: it polls until a deadline three seconds ahead.  The model
    gives it [wait_fuel] = 16 rounds of at least 200 milliseconds, and
    [wait_for_label_ends] proves that with a clock that does not go back the
    fuel is never what ends the loop.  The retry of the StatefulSet's deletion
    has the source's ten attempts; [pass_completes] is about servers on which at
    most nine reads still find what was deleted.

    ** What is not modelled

    The streaming of a command's output (the library behind pod_executor.go),
    the registration of the API group with the scheme and of the webhook with
    the manager (declarations), manifests and the test utilities.  Logging is
    omitted, events are not.
    HTTP requests of the management client are calls with arbitrary answers.
    Of the two processes: the parsing of flags, what cobra prints and answers
    itself, and what a library does inside a setup step.  A goroutine's calls
    are interleaved with those of the main thread in the order in which they
    return.  Outside [Memory] and [DeepCopy], objects are values: that the
    cluster and its deep copy are apart is the subject of [DeepCopy]. *)

From stdpp Require Export base option list gmap strings pretty.
From Stdlib Require Export ZArith Lia.

#[global] Open Scope string_scope.
#[global] Open Scope list_scope.

(** ** Go's [(value, error)] results *)

Inductive result (E A : Type) : Type :=
| Ok (a : A)
| Err (e : E).
Arguments Ok {E A} a.
Arguments Err {E A} e.

Definition result_bind {E A B} (m : result E A) (k : A -> result E B) : result E B :=
  match m with Ok a => k a | Err e => Err e end.

Definition map_err {E F A} (f : E -> F) (m : result E A) : result F A :=
  match m with Ok a => Ok a | Err e => Err (f e) end.

Declare Scope go_scope.
Delimit Scope go_scope with go.
Notation "'try' x := c 'in' k" := (result_bind c (fun x => k))
  (at level 10, x pattern, c at level 100, k at level 200) : go_scope.
#[global] Open Scope go_scope.

Definition is_ok {E A} (m : result E A) : bool :=
  match m with Ok _ => true | Err _ => false end.

(** ** Go strings *)

Definition str_eqb (a b : string) : bool := bool_decide (a = b).

Definition newline : Ascii.ascii := Ascii.ascii_of_nat 10.
Definition nl : string := String newline "".
(** a double quote *)
Definition dq : string := String (Ascii.ascii_of_nat 34) "".
Definition quoted (s : string) : string := dq +:+ s +:+ dq.

(** [strings.HasPrefix] *)
Definition HasPrefix (s p : string) : bool := String.prefix p s.

Fixpoint str_drop (n : nat) (s : string) : string :=
  match n, s with
  | O, _ => s
  | S _, EmptyString => EmptyString
  | S n', String _ s' => str_drop n' s'
  end.

(** [s[:n]] *)
Fixpoint str_take (n : nat) (s : string) : string :=
  match n, s with
  | S n', String c s' => String c (str_take n' s')
  | _, _ => ""
  end.

(** [strings.Contains s sub] *)
Fixpoint Contains (s sub : string) : bool :=
  HasPrefix s sub ||
  match s with
  | EmptyString => false
  | String _ s' => Contains s' sub
  end.

(** [strings.TrimPrefix] *)
Definition TrimPrefix (s p : string) : string :=
  if HasPrefix s p then str_drop (String.length p) s else s.

(** [strings.TrimSuffix] *)
Fixpoint TrimSuffix (s suf : string) : string :=
  if str_eqb s suf then EmptyString
  else match s with
       | EmptyString => EmptyString
       | String c s' => String c (TrimSuffix s' suf)
       end.

(** [strings.Join elems sep] *)
Fixpoint Join (elems : list string) (sep : string) : string :=
  match elems with
  | [] => ""
  | [x] => x
  | x :: rest => x +:+ sep +:+ Join rest sep
  end.

(** [strings.Split s ","] and [strings.SplitSeq s ","] *)
Fixpoint split_on (c : Ascii.ascii) (s : string) : list string :=
  match s with
  | EmptyString => [""]
  | String a s' =>
      if bool_decide (a = c) then "" :: split_on c s'
      else match split_on c s' with
           | [] => [String a ""]
           | w :: ws => String a w :: ws
           end
  end.

(** The white space [strings.TrimSpace] removes, restricted to ASCII. *)
Definition is_space (a : Ascii.ascii) : bool :=
  let n := Ascii.nat_of_ascii a in
  bool_decide (n = 32%nat) || ((9 <=? n)%nat && (n <=? 13)%nat).

Fixpoint trim_left (s : string) : string :=
  match s with
  | String a s' => if is_space a then trim_left s' else s
  | EmptyString => ""
  end.

Fixpoint trim_right (s : string) : string :=
  match s with
  | EmptyString => ""
  | String a s' =>
      match trim_right s' with
      | EmptyString => if is_space a then "" else String a ""
      | r => String a r
      end
  end.

(** [strings.TrimSpace] *)
Definition TrimSpace (s : string) : string := trim_right (trim_left s).

(** [strconv.Itoa] and the [%d] verb *)
Definition Itoa (n : Z) : string := pretty n.

(** ** Go maps from strings: [None] is the nil map *)

Abbreviation smap := (option (gmap string string)).

(** [m[k]] with the comma-ok form; reading a nil map finds nothing *)
Definition smap_get (m : smap) (k : string) : option string := m ≫= (fun g => g !! k).

(** the entries of a map; a nil map has none *)
Definition smap_entries (m : smap) : gmap string string := default ∅ m.

(** ** Fixed-width integers *)

Definition int32_ok (n : Z) : Prop := (- 2 ^ 31 <= n < 2 ^ 31)%Z.
Definition int64_ok (n : Z) : Prop := (- 2 ^ 63 <= n < 2 ^ 63)%Z.

Definition wrap (w : Z) (n : Z) : Z := ((n + 2 ^ (w - 1)) mod 2 ^ w - 2 ^ (w - 1))%Z.
Definition wrap32 : Z -> Z := wrap 32.
Definition wrap64 : Z -> Z := wrap 64.

Lemma wrap_id (w n : Z) :
  (0 < w)%Z -> (- 2 ^ (w - 1) <= n < 2 ^ (w - 1))%Z -> wrap w n = n.
Proof.
  intros Hw Hn. unfold wrap.
  assert (2 ^ w = 2 * 2 ^ (w - 1))%Z as E.
  { rewrite <- Z.pow_succ_r by lia. f_equal. lia. }
  rewrite E, Z.mod_small by lia. lia.
Qed.

Lemma wrap64_id (n : Z) : int64_ok n -> wrap64 n = n.
Proof. intros H. apply wrap_id; [lia | exact H]. Qed.

Lemma wrap32_id (n : Z) : int32_ok n -> wrap32 n = n.
Proof. intros H. apply wrap_id; [lia | exact H]. Qed.

(** Go's [/] on integers truncates toward zero. *)
Definition go_div : Z -> Z -> Z := Z.quot.

(** ** Lists *)

Definition find_first {A} (p : A -> bool) (l : list A) : option A := List.find p l.

(** [slices.Contains] *)
Definition slice_contains (l : list string) (x : string) : bool := bool_decide (x ∈ l).

(** [l[i]] for reading and [l[i], l[j] = l[j], l[i]] for swapping: both
    panic ([None]) when an index is out of range. *)
Definition swap_at {A} (i j : nat) (l : list A) : option (list A) :=
  match l !! i, l !! j with
  | Some x, Some y => Some (<[j := x]> (<[i := y]> l))
  | _, _ => None
  end.

(** ** Automation *)

(** Case analysis on the first boolean or option a goal is stuck on. *)
Ltac case_goal :=
  match goal with
  | |- context [match ?x with _ => _ end] => destruct x eqn:?
  end.

Ltac inv_ok :=
  repeat match goal with
  | H : Ok _ = Ok _ |- _ => injection H as H
  | H : Err _ = Err _ |- _ => injection H as H
  | H : Ok _ = Err _ |- _ => discriminate H
  | H : Err _ = Ok _ |- _ => discriminate H
  | H : Some _ = Some _ |- _ => injection H as H
  | H : Some _ = None |- _ => discriminate H
  | H : None = Some _ |- _ => discriminate H
  end.

Create HintDb rmq.
Create Rewrite HintDb rmq.

(** ** Facts on the generic definitions *)

Lemma result_bind_ok {E A B} (m : result E A) (k : A -> result E B) b :
  result_bind m k = Ok b -> exists a, m = Ok a /\ k a = Ok b.
Proof. destruct m as [a|e]; cbn; [eauto | discriminate]. Qed.

Lemma result_bind_err {E A B} (m : result E A) (f : A -> result E B) e :
  result_bind m f = Err e -> m = Err e \/ exists a, m = Ok a /\ f a = Err e.
Proof. destruct m as [a|x]; cbn; [eauto | intros [= ->]; eauto]. Qed.

Lemma map_err_ok {E F A} (f : E -> F) (m : result E A) a : map_err f m = Ok a -> m = Ok a.
Proof. destruct m; [by intros [= ->] | done]. Qed.

Lemma str_eqb_spec a b : str_eqb a b = true <-> a = b.
Proof. unfold str_eqb. by rewrite bool_decide_eq_true. Qed.

Lemma smap_get_entries m k : smap_get m k = smap_entries m !! k.
Proof. destruct m; cbn; [done | by rewrite lookup_empty]. Qed.

Lemma smap_get_some (g : gmap string string) k : smap_get (Some g) k = g !! k.
Proof. done. Qed.

Lemma slice_contains_spec l x : slice_contains l x = true <-> x ∈ l.
Proof. unfold slice_contains. by rewrite bool_decide_eq_true. Qed.

Lemma HasPrefix_app p s : HasPrefix (p +:+ s) p = true.
Proof.
  unfold HasPrefix. induction p as [|a p IH]; [by destruct s|].
  change (String a p +:+ s) with (String a (p +:+ s)). cbn.
  destruct (Ascii.ascii_dec a a); [exact IH | done].
Qed.

Lemma swap_at_length {A} i j (l l' : list A) :
  swap_at i j l = Some l' -> length l' = length l.
Proof.
  unfold swap_at. destruct (l !! i), (l !! j); intros [= <-].
  by rewrite !length_insert.
Qed.

Lemma swap_at_perm {A} i j (l l' : list A) : swap_at i j l = Some l' -> l' ≡ₚ l.
Proof.
  unfold swap_at. destruct (l !! i) as [x|] eqn:Ei; [|done].
  destruct (l !! j) as [y|] eqn:Ej; [|done]. intros [= <-].
  destruct (decide (i = j)) as [->|Hne].
  - rewrite Ei in Ej. injection Ej as ->.
    rewrite list_insert_insert_eq, list_insert_id; done.
  - pose proof (lookup_lt_Some _ _ _ Ei). pose proof (lookup_lt_Some _ _ _ Ej).
    apply Permutation_inj. split; [by rewrite !length_insert|].
    exists (fun k => if decide (k = i) then j else if decide (k = j) then i else k).
    split; [intros a b; repeat case_decide; congruence|].
    intros k. repeat case_decide; subst.
    + by rewrite list_lookup_insert_ne, list_lookup_insert_eq.
    + by rewrite list_lookup_insert_eq by (by rewrite length_insert).
    + by rewrite !list_lookup_insert_ne.
Qed.

Lemma str_app_nil_r s : s +:+ "" = s.
Proof. induction s as [|a s IH]; [done|]. exact (f_equal (String a) IH). Qed.

Lemma str_app_assoc a b c : (a +:+ b) +:+ c = a +:+ b +:+ c.
Proof. induction a as [|x a IH]; [done|]. exact (f_equal (String x) IH). Qed.

Lemma str_length_app (s t : string) : String.length (s +:+ t) = (String.length s + String.length t)%nat.
Proof. induction s as [|a s IH]; [done|]. change (S (String.length (s +:+ t)) = S (String.length s + String.length t)). by rewrite IH. Qed.

Lemma str_take_length n s : (n <= String.length s)%nat -> String.length (str_take n s) = n.
Proof. revert n. induction s as [|a s IH]; intros [|n] Hn; cbn in *; try lia. f_equal. apply IH. lia. Qed.

Lemma str_take_drop n s : str_take n s +:+ str_drop n s = s.
Proof. revert s. induction n as [|n IH]; intros [|c s]; [done..|]. exact (f_equal (String c) (IH s)). Qed.

Lemma swap_at_lookup {A} i j (l l' : list A) k :
  swap_at i j l = Some l' ->
  l' !! k = if decide (k = j) then l !! i else if decide (k = i) then l !! j else l !! k.
Proof.
  unfold swap_at. destruct (l !! i) as [x|] eqn:Ei; [|done].
  destruct (l !! j) as [y|] eqn:Ej; [|done]. intros [= <-].
  pose proof (lookup_lt_Some _ _ _ Ei). pose proof (lookup_lt_Some _ _ _ Ej).
  destruct (decide (k = j)) as [->|Hj].
  - rewrite list_lookup_insert_eq; [done|]. by rewrite length_insert.
  - rewrite list_lookup_insert_ne by done. destruct (decide (k = i)) as [->|Hi].
    + by rewrite list_lookup_insert_eq.
    + by rewrite list_lookup_insert_ne.
Qed.

(** *** Splitting at a character *)

Section Split.
Context (c : Ascii.ascii).

Lemma Contains_char_cons a s : Contains (String a s) (String c "") = bool_decide (a = c) || Contains s (String c "").
Proof.
  cbn [Contains]. f_equal. unfold HasPrefix. cbn. destruct (Ascii.ascii_dec c a) as [->|Hne].
  - rewrite bool_decide_eq_true_2 by done. by destruct s.
  - by rewrite bool_decide_eq_false_2 by congruence.
Qed.

Lemma Contains_char_app s t :
  Contains (s +:+ String c t) (String c "") = Contains s (String c "") || true.
Proof.
  induction s as [|a s IH].
  - change ("" +:+ String c t) with (String c t). rewrite Contains_char_cons. by rewrite bool_decide_eq_true_2.
  - change (String a s +:+ String c t) with (String a (s +:+ String c t)). rewrite !Contains_char_cons, IH.
    by rewrite !orb_true_r.
Qed.

Lemma split_on_app s t :
  Contains s (String c "") = false -> split_on c (s +:+ String c t) = s :: split_on c t.
Proof.
  induction s as [|a s IH].
  - intros _. change ("" +:+ String c t) with (String c t). cbn [split_on]. by rewrite bool_decide_eq_true_2.
  - rewrite Contains_char_cons. intros [Ha Hs]%orb_false_iff.
    change (String a s +:+ String c t) with (String a (s +:+ String c t)). cbn [split_on]. by rewrite Ha, IH.
Qed.

Lemma split_on_none s : Contains s (String c "") = false -> split_on c s = [s].
Proof.
  induction s as [|a s IH]; [done|]. rewrite Contains_char_cons. intros [Ha Hs]%orb_false_iff.
  cbn [split_on]. by rewrite Ha, IH.
Qed.

(** Splitting undoes joining. *)
Lemma split_on_Join l :
  Forall (fun s => Contains s (String c "") = false) l -> l <> [] -> split_on c (Join l (String c "")) = l.
Proof.
  induction 1 as [|s l Hs Hl IH]; [done|]. intros _. destruct l as [|s' l]; [by apply split_on_none|].
  change (Join (s :: s' :: l) (String c "")) with (s +:+ String c (Join (s' :: l) (String c ""))).
  rewrite split_on_app by done. by rewrite IH.
Qed.
End Split.
