(* ===== verification/Base64.v ===== *)
(** * encoding/base64 of Go's standard library

    The two padded encodings the program uses: [URLEncoding] for generated
    credentials, [StdEncoding] for the data of Secrets as the API server
    prints it.  Bytes are numbers in Z; a Go string is the list of its bytes. *)

From S2P Require Import Prelude.

(** ** Bytes and strings *)

Fixpoint bytes_of (s : string) : list Z :=
  match s with
  | EmptyString => []
  | String a s' => Z.of_nat (Ascii.nat_of_ascii a) :: bytes_of s'
  end.

Fixpoint string_of_bytes (bytes : list Z) : string :=
  match bytes with
  | [] => EmptyString
  | b :: rest => String (Ascii.ascii_of_nat (Z.to_nat b)) (string_of_bytes rest)
  end.

Definition is_byte (b : Z) : Prop := (0 <= b < 256)%Z.

(** ** Encodings: an alphabet of 64 characters, padded with [=] *)

Definition alphanumeric : string := "ABCDEFGHIJKLMNOPQRSTUVWXYZabcdefghijklmnopqrstuvwxyz0123456789".
Definition URLEncoding : string := alphanumeric +:+ "-_".
Definition StdEncoding : string := alphanumeric +:+ "+/".

Definition pad : Ascii.ascii := Ascii.ascii_of_nat 61.

Section Encoding.
Context (alphabet : string).

Definition enc_char (n : Z) : Ascii.ascii :=
  match String.get (Z.to_nat n) alphabet with Some a => a | None => pad end.

(** [enc.EncodeToString] *)
Fixpoint EncodeToString (bytes : list Z) : string :=
  match bytes with
  | [] => ""
  | [a] =>
      String (enc_char (Z.shiftr a 2))
        (String (enc_char (Z.shiftl (Z.land a 3) 4)) (String pad (String pad "")))
  | [a; b] =>
      String (enc_char (Z.shiftr a 2))
        (String (enc_char (Z.lor (Z.shiftl (Z.land a 3) 4) (Z.shiftr b 4)))
           (String (enc_char (Z.shiftl (Z.land b 15) 2)) (String pad "")))
  | a :: b :: c :: rest =>
      String (enc_char (Z.shiftr a 2))
        (String (enc_char (Z.lor (Z.shiftl (Z.land a 3) 4) (Z.shiftr b 4)))
           (String (enc_char (Z.lor (Z.shiftl (Z.land b 15) 2) (Z.shiftr c 6)))
              (String (enc_char (Z.land c 63)) (EncodeToString rest))))
  end.

Fixpoint index_from (i : Z) (s : string) (a : Ascii.ascii) : option Z :=
  match s with
  | EmptyString => None
  | String b s' => if bool_decide (b = a) then Some i else index_from (i + 1) s' a
  end.

(** the decode map of an encoding *)
Definition dec_char (a : Ascii.ascii) : option Z := index_from 0 alphabet a.

(** [\r] and [\n] are skipped wherever they are. *)
Fixpoint skip_newlines (s : string) : string :=
  match s with
  | EmptyString => EmptyString
  | String a s' =>
      let n := Ascii.nat_of_ascii a in
      if bool_decide (n = 10%nat \/ n = 13%nat) then skip_newlines s' else String a (skip_newlines s')
  end.

(** The 24 bits of a quantum and the bytes cut out of them. *)
Definition quantum (d0 d1 d2 d3 : Z) : Z :=
  Z.lor (Z.lor (Z.lor (Z.shiftl d0 18) (Z.shiftl d1 12)) (Z.shiftl d2 6)) d3.
Definition byte_at (shift val : Z) : Z := Z.land (Z.shiftr val shift) 255.

(** The quanta of [enc.Decode], which stops with [CorruptInputError] at a
    foreign character, at a quantum that is cut short, and at anything after
    the padding.  The encodings are not strict: bits under the padding are
    ignored. *)
Fixpoint decode_quanta (s : string) : option (list Z) :=
  match s with
  | EmptyString => Some []
  | String c0 (String c1 (String c2 (String c3 rest))) =>
      match dec_char c0, dec_char c1 with
      | Some d0, Some d1 =>
          match dec_char c2, dec_char c3 with
          | Some d2, Some d3 =>
              let v := quantum d0 d1 d2 d3 in
              option_map (fun l => byte_at 16 v :: byte_at 8 v :: byte_at 0 v :: l) (decode_quanta rest)
          | Some d2, None =>
              let v := quantum d0 d1 d2 0 in
              if bool_decide (c3 = pad /\ rest = "") then Some [byte_at 16 v; byte_at 8 v] else None
          | None, _ =>
              let v := quantum d0 d1 0 0 in
              if bool_decide (c2 = pad /\ c3 = pad /\ rest = "") then Some [byte_at 16 v] else None
          end
      | _, _ => None
      end
  | _ => None
  end.

(** [enc.DecodeString]; the offset in the error's text is left out. *)
Definition DecodeString (s : string) : result string (list Z) :=
  match decode_quanta (skip_newlines s) with
  | Some bytes => Ok bytes
  | None => Err "illegal base64 data"
  end.
End Encoding.

(** ** Lemmas *)

Lemma string_of_bytes_of s : string_of_bytes (bytes_of s) = s.
Proof.
  induction s as [|a s IH]; [done|]. cbn. by rewrite Nat2Z.id, Ascii.ascii_nat_embedding, IH.
Qed.

Lemma bytes_of_range s : Forall is_byte (bytes_of s).
Proof.
  induction s as [|a s IH]; constructor; [|done].
  pose proof (Ascii.nat_ascii_bounded a). unfold is_byte. lia.
Qed.

Lemma list_ind3 {A} (P : list A -> Prop) :
  P [] -> (forall a, P [a]) -> (forall a b, P [a; b]) ->
  (forall a b c l, P l -> P (a :: b :: c :: l)) -> forall l, P l.
Proof.
  intros H0 H1 H2 H3. fix IH 1. intros [|a [|b [|c l]]]; [done|apply H1|apply H2|apply H3, IH].
Qed.

Lemma EncodeToString_length alphabet bytes :
  String.length (EncodeToString alphabet bytes) = (4 * ((length bytes + 2) / 3))%nat.
Proof.
  induction bytes as [| | |a b c l IH] using list_ind3; try done.
  cbn [EncodeToString String.length length]. rewrite IH.
  replace (S (S (S (length l))) + 2)%nat with (length l + 2 + 1 * 3)%nat by lia.
  rewrite Nat.div_add by done. lia.
Qed.

(** An alphabet in which each of the 64 characters is decoded to its rank,
    and the padding and the newlines are not in it. *)
Definition good_alphabet (alphabet : string) : Prop :=
  forallb (fun n => bool_decide (dec_char alphabet (enc_char alphabet (Z.of_nat n)) = Some (Z.of_nat n))) (seq 0 64)
    = true /\
  forallb (fun n => bool_decide (skip_newlines (String (enc_char alphabet (Z.of_nat n)) "") <> "")) (seq 0 64)
    = true /\
  dec_char alphabet pad = None.

Lemma StdEncoding_good : good_alphabet StdEncoding.
Proof. repeat split; vm_compute; reflexivity. Qed.
Lemma URLEncoding_good : good_alphabet URLEncoding.
Proof. repeat split; vm_compute; reflexivity. Qed.

Section GoodAlphabet.
Context (alphabet : string) (good : good_alphabet alphabet).

Lemma seq64 n : (0 <= n < 64)%Z -> n = Z.of_nat (Z.to_nat n) /\ In (Z.to_nat n) (seq 0 64).
Proof. intros H. rewrite in_seq. lia. Qed.

Lemma dec_enc n : (0 <= n < 64)%Z -> dec_char alphabet (enc_char alphabet n) = Some n.
Proof.
  intros [E Hin]%seq64. destruct good as (H & _ & _). rewrite forallb_forall in H.
  specialize (H _ Hin). apply bool_decide_eq_true in H. by rewrite <- E in H.
Qed.

Lemma skip_enc n s : (0 <= n < 64)%Z ->
  skip_newlines (String (enc_char alphabet n) s) = String (enc_char alphabet n) (skip_newlines s).
Proof.
  intros [E Hin]%seq64. destruct good as (_ & H & _). rewrite forallb_forall in H.
  specialize (H _ Hin). apply bool_decide_eq_true in H. rewrite <- E in H. cbn in *.
  by destruct (bool_decide _).
Qed.

Lemma skip_pad s : skip_newlines (String pad s) = String pad (skip_newlines s).
Proof. done. Qed.
End GoodAlphabet.

(** *** Bits *)

Lemma byte_bit_high a n : is_byte a -> (8 <= n)%Z -> Z.testbit a n = false.
Proof.
  intros [H0 H1] Hn. destruct (Z.eq_dec a 0) as [->|Hne]; [apply Z.testbit_0_l|].
  apply Z.bits_above_log2; [done|]. apply Z.lt_le_trans with 8%Z; [|done]. apply Z.log2_lt_pow2; [lia|]. exact H1.
Qed.

Lemma below_64 d : (forall n, (6 <= n)%Z -> Z.testbit d n = false) -> (0 <= d)%Z -> (0 <= d < 64)%Z.
Proof.
  intros Hb H0. split; [done|]. destruct (Z_lt_le_dec d 64) as [|Hge]; [done|].
  assert (Z.testbit d (Z.log2 d) = true) as Ht by (apply Z.bit_log2; lia).
  rewrite Hb in Ht; [done|]. apply (Z.log2_le_pow2 d 6); [lia|]. exact Hge.
Qed.

(** Sextets and bytes are compared bit by bit. *)
Ltac bits_normal :=
  repeat first
    [ rewrite Z.land_spec | rewrite Z.lor_spec
    | rewrite Z.shiftr_spec by lia | rewrite Z.shiftl_spec by lia ].
Ltac bits_const :=
  repeat match goal with
  | |- context [Z.testbit (Zpos ?p) ?k] =>
      let b := eval vm_compute in (Z.testbit (Zpos p) k) in
      match b with true => idtac | false => idtac end;
      change (Z.testbit (Zpos p) k) with b
  end.
Ltac bits_byte :=
  repeat match goal with
  | Ha : is_byte ?a |- context [Z.testbit ?a ?k] => rewrite (byte_bit_high a k Ha) by lia
  | |- context [Z.testbit ?a ?k] => rewrite (Z.testbit_neg_r a k) by lia
  end.
Ltac bit_by_bit n :=
  let rec go k := match k with
    | 0%nat => idtac
    | S ?k' => let z := eval vm_compute in (Z.of_nat k') in
               destruct (Z.eq_dec n z) as [->|?]; [|go k']
    end in go 8%nat.

Lemma bytes_eq x y :
  (forall n, (0 <= n)%Z -> (n < 8)%Z -> Z.testbit x n = Z.testbit y n) ->
  (forall n, (8 <= n)%Z -> Z.testbit x n = false /\ Z.testbit y n = false) -> x = y.
Proof.
  intros Hl Hh. apply Z.bits_inj'. intros n Hn. destruct (Z_lt_le_dec n 8); [by apply Hl|].
  by destruct (Hh n) as [-> ->].
Qed.

Lemma sextet_range d (Hd : (0 <= d)%Z) : (forall n, (6 <= n)%Z -> Z.testbit d n = false) -> (0 <= d < 64)%Z.
Proof. intros H. by apply below_64. Qed.

Lemma ones_bit_high p k n : (0 <= k)%Z -> Zpos p = Z.ones k -> (k <= n)%Z -> Z.testbit (Zpos p) n = false.
Proof. intros Hk -> Hn. apply Z.ones_spec_high. lia. Qed.

Ltac sextet :=
  apply below_64;
  [ intros n Hn; bits_normal; bits_byte;
    rewrite ?(ones_bit_high 3 2 n), ?(ones_bit_high 15 4 n), ?(ones_bit_high 63 6 n) by (done || lia);
    rewrite ?andb_false_r; try done
  | rewrite ?Z.lor_nonneg, ?Z.shiftl_nonneg, ?Z.shiftr_nonneg, ?Z.land_nonneg; unfold is_byte in *; lia ].

Section Sextets.
Context (a b c : Z) (Ha : is_byte a) (Hb : is_byte b) (Hc : is_byte c).

Lemma sextet0 : (0 <= Z.shiftr a 2 < 64)%Z.
Proof. sextet. Qed.
Lemma sextet3 : (0 <= Z.land c 63 < 64)%Z.
Proof. sextet. Qed.
Lemma sextet1 : (0 <= Z.lor (Z.shiftl (Z.land a 3) 4) (Z.shiftr b 4) < 64)%Z.
Proof.
  sextet. rewrite (ones_bit_high 3 2 (n - 4)) by (done || lia). by rewrite andb_false_r.
Qed.
Lemma sextet2 : (0 <= Z.lor (Z.shiftl (Z.land b 15) 2) (Z.shiftr c 6) < 64)%Z.
Proof.
  sextet. rewrite (ones_bit_high 15 4 (n - 2)) by (done || lia). by rewrite andb_false_r.
Qed.
End Sextets.

Definition quantum_of (a b c : Z) : Z :=
  quantum (Z.shiftr a 2) (Z.lor (Z.shiftl (Z.land a 3) 4) (Z.shiftr b 4))
    (Z.lor (Z.shiftl (Z.land b 15) 2) (Z.shiftr c 6)) (Z.land c 63).

Ltac bits_index :=
  repeat match goal with
  | |- context [Z.testbit ?x ?k] =>
      let k' := eval vm_compute in k in
      progress change (Z.testbit x k) with (Z.testbit x k')
  end.
Ltac test_bits n :=
  bit_by_bit n; try lia; unfold byte_at, quantum_of, quantum;
  repeat (bits_normal; bits_index; bits_byte); bits_const;
  rewrite ?andb_true_r, ?andb_false_r, ?orb_false_r, ?orb_false_l; reflexivity.

Section Quantum.
Context (a b c : Z) (Ha : is_byte a) (Hb : is_byte b) (Hc : is_byte c).

Lemma byte_at_high k v n : (8 <= n)%Z -> Z.testbit (byte_at k v) n = false.
Proof.
  intros Hn. unfold byte_at. rewrite Z.land_spec, (ones_bit_high 255 8 n) by (done || lia).
  by rewrite andb_false_r.
Qed.

Lemma byte0_of_quantum : byte_at 16 (quantum_of a b c) = a.
Proof.
  apply bytes_eq; [intros n H0 H8 | intros n Hn; by rewrite byte_at_high, byte_bit_high].
  test_bits n.
Qed.
Lemma byte1_of_quantum : byte_at 8 (quantum_of a b c) = b.
Proof.
  apply bytes_eq; [intros n H0 H8 | intros n Hn; by rewrite byte_at_high, byte_bit_high].
  test_bits n.
Qed.
Lemma byte2_of_quantum : byte_at 0 (quantum_of a b c) = c.
Proof.
  apply bytes_eq; [intros n H0 H8 | intros n Hn; by rewrite byte_at_high, byte_bit_high].
  test_bits n.
Qed.
End Quantum.

(** ** Round trip *)

Section RoundTrip.
Context (alphabet : string) (good : good_alphabet alphabet).

Lemma is_byte_0 : is_byte 0.
Proof. unfold is_byte. lia. Qed.

Ltac sextets :=
  rewrite ?(dec_enc alphabet good) by (first [by apply sextet0 | by apply sextet1 | by apply sextet2 | by apply sextet3]).

Lemma decode_step a b c rest : is_byte a -> is_byte b -> is_byte c ->
  decode_quanta alphabet (EncodeToString alphabet (a :: b :: c :: rest)) =
  option_map (fun l => a :: b :: c :: l) (decode_quanta alphabet (EncodeToString alphabet rest)).
Proof.
  intros Ha Hb Hc. cbn [EncodeToString decode_quanta]. sextets.
  change (quantum _ _ _ _) with (quantum_of a b c).
  by rewrite byte0_of_quantum, byte1_of_quantum, byte2_of_quantum.
Qed.

Lemma decode_last2 a b : is_byte a -> is_byte b ->
  decode_quanta alphabet (EncodeToString alphabet [a; b]) = Some [a; b].
Proof.
  intros Ha Hb. cbn [EncodeToString decode_quanta].
  destruct good as (_ & _ & Hpad). rewrite Hpad.
  rewrite <- (Z.lor_0_r (Z.shiftl (Z.land b 15) 2)). change 0%Z with (Z.shiftr 0 6).
  assert (is_byte 0) by apply is_byte_0. sextets.
  rewrite bool_decide_eq_true_2 by done. change (quantum _ _ _ _) with (quantum_of a b 0).
  by rewrite byte0_of_quantum, byte1_of_quantum.
Qed.

Lemma decode_last1 a : is_byte a ->
  decode_quanta alphabet (EncodeToString alphabet [a]) = Some [a].
Proof.
  intros Ha. cbn [EncodeToString decode_quanta].
  destruct good as (_ & _ & Hpad). rewrite Hpad.
  rewrite <- (Z.lor_0_r (Z.shiftl (Z.land a 3) 4)). change 0%Z with (Z.shiftr 0 4) at 1.
  assert (is_byte 0) by apply is_byte_0. sextets.
  rewrite bool_decide_eq_true_2 by done. change (quantum _ _ _ _) with (quantum_of a 0 0).
  by rewrite byte0_of_quantum.
Qed.

Lemma decode_encode bytes : Forall is_byte bytes ->
  decode_quanta alphabet (EncodeToString alphabet bytes) = Some bytes.
Proof.
  induction bytes as [|a|a b|a b c l IH] using list_ind3; intros H.
  - done.
  - apply decode_last1. by inversion H.
  - apply Forall_cons in H as [? H]. apply decode_last2; [done|]. by inversion H.
  - apply Forall_cons in H as [? H]. apply Forall_cons in H as [? H]. apply Forall_cons in H as [? H].
    rewrite decode_step by done. by rewrite IH.
Qed.

Lemma skip_encode bytes : Forall is_byte bytes ->
  skip_newlines (EncodeToString alphabet bytes) = EncodeToString alphabet bytes.
Proof.
  assert (is_byte 0) as H0 by apply is_byte_0.
  induction bytes as [|a|a b|a b c l IH] using list_ind3; intros H; [done| | |];
    repeat (apply Forall_cons in H as [? H]); cbn [EncodeToString].
  - rewrite <- (Z.lor_0_r (Z.shiftl (Z.land a 3) 4)). change 0%Z with (Z.shiftr 0 4) at 1 2.
    by rewrite !(skip_enc alphabet good) by (first [by apply sextet0 | by apply sextet1]).
  - rewrite <- (Z.lor_0_r (Z.shiftl (Z.land b 15) 2)). change 0%Z with (Z.shiftr 0 6) at 1 2.
    by rewrite !(skip_enc alphabet good) by (first [by apply sextet0 | by apply sextet1 | by apply sextet2]).
  - rewrite !(skip_enc alphabet good)
      by (first [by apply sextet0 | by apply sextet1 | by apply sextet2 | by apply sextet3]).
    by rewrite IH.
Qed.

(** Decoding gives back the bytes that were encoded. *)
Theorem DecodeString_EncodeToString bytes :
  Forall is_byte bytes -> DecodeString alphabet (EncodeToString alphabet bytes) = Ok bytes.
Proof. intros H. unfold DecodeString. by rewrite skip_encode, decode_encode. Qed.
End RoundTrip.

(** ** The characters of an encoding *)

Fixpoint str_forall (p : Ascii.ascii -> bool) (s : string) : bool :=
  match s with EmptyString => true | String a s' => p a && str_forall p s' end.

Lemma str_forall_get p s n a : str_forall p s = true -> String.get n s = Some a -> p a = true.
Proof.
  revert n. induction s as [|b s IH]; intros n; [by destruct n|]. cbn.
  intros [Hb Hs]%andb_prop. destruct n as [|n]; [by intros [= <-] | by apply IH].
Qed.

(** The alphabet and the padding are all there is, whatever the bytes. *)
Lemma EncodeToString_chars p alphabet bytes :
  str_forall p alphabet = true -> p pad = true -> str_forall p (EncodeToString alphabet bytes) = true.
Proof.
  intros Ha Hp.
  assert (forall n, p (enc_char alphabet n) = true) as He.
  { intros n. unfold enc_char. destruct (String.get _ _) eqn:E; [by eapply str_forall_get | done]. }
  induction bytes as [|a|a b|a b c l IH] using list_ind3; cbn [EncodeToString str_forall];
    rewrite ?He, ?Hp, ?IH; done.
Qed.
