(* ===== verification/Strconv.v ===== *)
(** * strconv of Go's standard library

    [ParseInt] in base 10 for a width in bits, and [ParseBool]. *)

From S2P Require Import Prelude.

(** ** [strconv.ParseInt(s, 10, bitSize)] *)

Definition digit (a : Ascii.ascii) : option Z :=
  let n := Z.of_nat (Ascii.nat_of_ascii a) in
  if (48 <=? n)%Z && (n <=? 57)%Z then Some (n - 48)%Z else None.

Fixpoint parse_digits (acc : Z) (s : string) : option Z :=
  match s with
  | EmptyString => Some acc
  | String a s' => d ← digit a; parse_digits (acc * 10 + d) s'
  end.

Definition in_width (bitSize n : Z) : option Z :=
  if (- 2 ^ (bitSize - 1) <=? n)%Z && (n <? 2 ^ (bitSize - 1))%Z then Some n else None.

Definition parse_unsigned (s : string) : option Z :=
  match s with EmptyString => None | _ => parse_digits 0 s end.

Definition ParseInt (bitSize : Z) (s : string) : option Z :=
  match s with
  | EmptyString => None
  | String a s' =>
      if bool_decide (a = Ascii.ascii_of_nat 45) then n ← parse_unsigned s'; in_width bitSize (- n)
      else if bool_decide (a = Ascii.ascii_of_nat 43) then n ← parse_unsigned s'; in_width bitSize n
      else n ← parse_unsigned s; in_width bitSize n
  end.

Definition ParseInt32 : string -> option Z := ParseInt 32.
Definition ParseInt64 : string -> option Z := ParseInt 64.

(** ** [strconv.ParseBool] *)

Definition ParseBool (s : string) : option bool :=
  if slice_contains ["1"; "t"; "T"; "true"; "TRUE"; "True"] s then Some true
  else if slice_contains ["0"; "f"; "F"; "false"; "FALSE"; "False"] s then Some false
  else None.

(** ** Lemmas *)

Lemma digit_pretty (x : N) : (x < 10)%N -> digit (pretty_N_char x) = Some (Z.of_N x).
Proof.
  intros Hx. assert (x ∈ [0;1;2;3;4;5;6;7;8;9]%N) as Hin.
  { repeat rewrite elem_of_cons. lia. }
  repeat (apply elem_of_cons in Hin as [->|Hin]; [reflexivity|]). by apply elem_of_nil in Hin.
Qed.

Lemma parse_pretty_go (x : N) (s : string) :
  parse_digits 0 (pretty_N_go x s) = parse_digits (Z.of_N x) s.
Proof.
  revert s. induction (N.lt_wf_0 x) as [x _ IH]; intros s.
  destruct (decide (0 < x)%N) as [Hx|Hx].
  - rewrite pretty_N_go_step by done. rewrite IH by (by apply N.div_lt).
    cbn [parse_digits]. rewrite digit_pretty by (by apply N.mod_lt). cbn [mbind option_bind].
    f_equal. rewrite N2Z.inj_div, N2Z.inj_mod. cbn. pose proof (Z.div_mod (Z.of_N x) 10). lia.
  - assert (x = 0%N) as -> by lia. by rewrite pretty_N_go_0.
Qed.

Lemma pretty_go_head (x : N) (s : string) :
  (0 < x)%N -> exists a s', pretty_N_go x s = String a s' /\ digit a <> None.
Proof.
  revert s. induction (N.lt_wf_0 x) as [x _ IH]; intros s Hx. rewrite pretty_N_go_step by done.
  destruct (decide (0 < x / 10)%N) as [Hd|Hd].
  - apply IH; [by apply N.div_lt | done].
  - assert (x / 10 = 0)%N as -> by (by apply N.le_0_r, N.nlt_ge). rewrite pretty_N_go_0. eexists _, _. split; [done|].
    by rewrite digit_pretty by (by apply N.mod_lt).
Qed.

Lemma parse_unsigned_pretty (p : positive) :
  exists a s', pretty (N.pos p) = String a s' /\ digit a <> None /\
    parse_unsigned (String a s') = Some (Z.pos p).
Proof.
  change (pretty (N.pos p)) with (pretty_N_go (N.pos p) "").
  pose proof (parse_pretty_go (N.pos p) "") as Hp.
  destruct (pretty_go_head (N.pos p) "") as (a & s' & E & Hd); [done|]. rewrite E in *.
  exists a, s'. split; [done|]. split; [done|]. exact Hp.
Qed.

(** A number printed in decimal is read back when it fits. *)
Lemma ParseInt_Itoa (w n : Z) : ParseInt w (Itoa n) = in_width w n.
Proof.
  destruct n as [|p|p]; [done| |].
  - change (Itoa (Z.pos p)) with (pretty (N.pos p)).
    destruct (parse_unsigned_pretty p) as (a & s' & -> & Hd & Hp). cbn [ParseInt].
    rewrite !bool_decide_eq_false_2 by (intros ->; by apply Hd). by rewrite Hp.
  - change (Itoa (Z.neg p)) with (String (Ascii.ascii_of_nat 45) (pretty (N.pos p))).
    destruct (parse_unsigned_pretty p) as (a & s' & -> & Hd & Hp). cbn [ParseInt].
    rewrite bool_decide_eq_true_2 by done. by rewrite Hp.
Qed.

Lemma in_width_ok w n : (- 2 ^ (w - 1) <= n < 2 ^ (w - 1))%Z -> in_width w n = Some n.
Proof.
  intros Hn. unfold in_width.
  destruct (Z.leb_spec (- 2 ^ (w - 1)) n), (Z.ltb_spec n (2 ^ (w - 1))); try done; lia.
Qed.

Lemma in_width_some w n m : in_width w n = Some m -> m = n /\ (- 2 ^ (w - 1) <= n < 2 ^ (w - 1))%Z.
Proof. unfold in_width. destruct (_ && _) eqn:E; [|done]. intros [= <-]. lia. Qed.

Lemma ParseInt_range w s n : ParseInt w s = Some n -> (- 2 ^ (w - 1) <= n < 2 ^ (w - 1))%Z.
Proof.
  destruct s as [|a s']; [done|]. cbn [ParseInt].
  repeat case_bool_decide; intros (m & _ & [-> Hm]%in_width_some)%bind_Some; exact Hm.
Qed.

(** A replica count written into an annotation is read back. *)
Lemma ParseInt32_Itoa (n : Z) : (0 <= n < 2 ^ 31)%Z -> ParseInt32 (Itoa n) = Some n.
Proof. intros Hn. unfold ParseInt32. rewrite ParseInt_Itoa. apply in_width_ok. lia. Qed.
