(* ===== verification/K8s.v ===== *)
(** * Kubernetes objects

    The types of [k8s.io/api] and [k8s.io/apimachinery] that the operator
    reads and writes, with the fields it touches.  Structures it only copies
    (affinity, tolerations, selectors of the user's) are kept whole as a
    [k8sval].  Nil-able Go values are [option]; a slice is an [option] only
    where the operator distinguishes the nil slice from the empty one. *)

From S2P Require Import Prelude.

(** ** Opaque values and quantities *)

(** A value the operator copies without looking inside. *)
Inductive k8sval : Type := K8sVal (repr : string).

#[export] Instance k8sval_eq_dec : EqDecision k8sval.
Proof. solve_decision. Defined.

(** A [resource.Quantity] is a fixed-point number with at most nano
    precision: its value in units of 10^-9. *)
Definition Quantity : Type := Z.

Definition nano : Z := 1000000000.
Definition quantity_of_int (n : Z) : Quantity := (n * nano)%Z.
Definition quantity_of_milli (n : Z) : Quantity := (n * 1000000)%Z.

Definition q_Cmp (a b : Quantity) : Z :=
  match (a ?= b)%Z with Lt => -1 | Eq => 0 | Gt => 1 end.
Definition q_IsZero (a : Quantity) : bool := (a =? 0)%Z.
(** [Value] rounds up to the next integer. *)
Definition q_Value (a : Quantity) : Z := (- ((- a) / nano))%Z.

(** [corev1.ResourceList]; indexing an absent key gives the zero quantity. *)
Abbreviation ResourceList := (option (gmap string Quantity)).
Definition rl_get (l : ResourceList) (k : string) : Quantity :=
  default 0%Z (l ≫= (fun g => g !! k)).

Record ResourceRequirements := mkResources {
  res_Limits : ResourceList;
  res_Requests : ResourceList;
}.

(** ** Metadata *)

Record OwnerReference := mkOwnerRef {
  or_APIVersion : string;
  or_Kind : string;
  or_Name : string;
  or_UID : string;
  or_Controller : option bool;
  or_BlockOwnerDeletion : option bool;
}.

Record ObjectMeta := mkMeta {
  om_Name : string;
  om_Namespace : string;
  om_UID : string;
  om_Generation : Z;
  om_DeletionTimestamp : option Z;
  om_Labels : smap;
  om_Annotations : smap;
  om_OwnerReferences : list OwnerReference;
  om_Finalizers : list string;
}.

(** [metav1.ObjectMeta{Name: n, Namespace: ns}] *)
Definition meta_named (n ns : string) : ObjectMeta :=
  mkMeta n ns "" 0 None None None [] [].

Definition om_with_labels (l : smap) (m : ObjectMeta) : ObjectMeta :=
  mkMeta (om_Name m) (om_Namespace m) (om_UID m) (om_Generation m)
    (om_DeletionTimestamp m) l (om_Annotations m) (om_OwnerReferences m) (om_Finalizers m).
Definition om_with_annotations (a : smap) (m : ObjectMeta) : ObjectMeta :=
  mkMeta (om_Name m) (om_Namespace m) (om_UID m) (om_Generation m)
    (om_DeletionTimestamp m) (om_Labels m) a (om_OwnerReferences m) (om_Finalizers m).
Definition om_with_name (n : string) (m : ObjectMeta) : ObjectMeta :=
  mkMeta n (om_Namespace m) (om_UID m) (om_Generation m)
    (om_DeletionTimestamp m) (om_Labels m) (om_Annotations m) (om_OwnerReferences m) (om_Finalizers m).
Definition om_with_namespace (n : string) (m : ObjectMeta) : ObjectMeta :=
  mkMeta (om_Name m) n (om_UID m) (om_Generation m)
    (om_DeletionTimestamp m) (om_Labels m) (om_Annotations m) (om_OwnerReferences m) (om_Finalizers m).
Definition om_with_owners (o : list OwnerReference) (m : ObjectMeta) : ObjectMeta :=
  mkMeta (om_Name m) (om_Namespace m) (om_UID m) (om_Generation m)
    (om_DeletionTimestamp m) (om_Labels m) (om_Annotations m) o (om_Finalizers m).
Definition om_with_finalizers (f : list string) (m : ObjectMeta) : ObjectMeta :=
  mkMeta (om_Name m) (om_Namespace m) (om_UID m) (om_Generation m)
    (om_DeletionTimestamp m) (om_Labels m) (om_Annotations m) (om_OwnerReferences m) f.

(** ** Containers *)

Inductive FieldSource := FieldRef (fieldPath apiVersion : string).

Record EnvVar := mkEnv {
  env_Name : string;
  env_Value : string;
  env_ValueFrom : option FieldSource;
}.

Record VolumeMount := mkMount {
  vm_Name : string;
  vm_MountPath : string;
  vm_SubPath : string;
  vm_ReadOnly : bool;
}.

Record ContainerPort := mkCPort { cp_Name : string; cp_ContainerPort : Z }.

Inductive IntOrString := FromInt (n : Z) | FromString (s : string).

Inductive ProbeHandler :=
| TCPSocket (port : IntOrString)
| ExecAction (command : list string)
| HTTPGet (path : string) (port : IntOrString) (scheme : string)
| OtherHandler (v : k8sval).

Record Probe := mkProbe {
  pr_Handler : ProbeHandler;
  pr_InitialDelaySeconds : Z;
  pr_TimeoutSeconds : Z;
  pr_PeriodSeconds : Z;
  pr_SuccessThreshold : Z;
  pr_FailureThreshold : Z;
}.

Record Capabilities := mkCaps {
  cap_Add : option (list string);
  cap_Drop : option (list string);
}.

(** [SeccompProfile] is given by its type; [sc_other] stands for the fields
    the operator never sets (RunAsGroup, SELinuxOptions, ProcMount, ...). *)
Record SecurityContext := mkSC {
  sc_Capabilities : option Capabilities;
  sc_Privileged : option bool;
  sc_RunAsUser : option Z;
  sc_RunAsNonRoot : option bool;
  sc_ReadOnlyRootFilesystem : option bool;
  sc_AllowPrivilegeEscalation : option bool;
  sc_SeccompProfile : option string;
  sc_other : option k8sval;
}.

Record Container := mkContainer {
  c_Name : string;
  c_Image : string;
  c_Command : list string;
  c_Args : list string;
  c_Ports : list ContainerPort;
  c_Env : option (list EnvVar);
  c_Resources : ResourceRequirements;
  c_VolumeMounts : option (list VolumeMount);
  c_LivenessProbe : option Probe;
  c_ReadinessProbe : option Probe;
  c_StartupProbe : option Probe;
  c_PreStop : option (list string);
  c_SecurityContext : option SecurityContext;
}.

(** ** Volumes *)

Record KeyToPath := mkKTP { ktp_Key : string; ktp_Path : string }.

Inductive VolumeProjection :=
| ProjConfigMap (name : string) (items : list KeyToPath)
| ProjSecret (name : string) (optional : option bool) (items : list KeyToPath).

Record DownwardItem := mkDown { dw_Path : string; dw_FieldPath : string }.

Inductive VolumeSource :=
| VolConfigMap (name : string)
| VolProjected (sources : list VolumeProjection) (defaultMode : option Z)
| VolEmptyDir (medium : string) (sizeLimit : option Quantity)
| VolSecret (secretName : string)
| VolDownwardAPI (items : list DownwardItem)
| VolHostPath (path : string)
| VolOther (v : k8sval).

Record Volume := mkVolume { v_Name : string; v_Source : VolumeSource }.

(** ** Pods *)

Record PodSecurityContext := mkPSC {
  psc_FSGroup : option Z;
  psc_RunAsUser : option Z;
  psc_RunAsNonRoot : option bool;
  psc_SeccompProfile : option string;
  psc_other : option k8sval;
}.

Record TopologySpreadConstraint := mkTSC {
  tsc_MaxSkew : Z;
  tsc_TopologyKey : string;
  tsc_WhenUnsatisfiable : string;
  tsc_MatchLabels : gmap string string;
}.

Record PodSpec := mkPodSpec {
  ps_Volumes : list Volume;
  ps_InitContainers : list Container;
  ps_Containers : list Container;
  ps_HostPID : bool;
  ps_HostNetwork : bool;
  ps_HostIPC : bool;
  ps_ServiceAccountName : string;
  ps_AutomountServiceAccountToken : option bool;
  ps_SecurityContext : option PodSecurityContext;
  ps_ImagePullSecrets : option (list string);
  ps_TerminationGracePeriodSeconds : option Z;
  ps_Affinity : option k8sval;
  ps_Tolerations : list k8sval;
  ps_TopologySpreadConstraints : list TopologySpreadConstraint;
  ps_other : option k8sval;
}.

Record PodTemplateSpec := mkPodTemplate {
  pt_Meta : ObjectMeta;
  pt_Spec : PodSpec;
}.

(** ** Persistent volume claims *)

Record PersistentVolumeClaimSpec := mkPVCSpec {
  pvcs_AccessModes : list string;
  pvcs_Requests : ResourceList;
  pvcs_StorageClassName : option string;
  pvcs_other : option k8sval;
}.

Record PersistentVolumeClaim := mkPVC {
  pvc_Meta : ObjectMeta;
  pvc_Spec : PersistentVolumeClaimSpec;
}.

(** ** Stateful sets *)

Record MetaLabelSelector := mkSelector { ls_MatchLabels : smap; ls_other : option k8sval }.

Record PVCRetention := mkRetention { ret_WhenDeleted : string; ret_WhenScaled : string }.

Record UpdateStrategy := mkStrategy { us_Type : string; us_Partition : option Z; us_other : option k8sval }.

Record StatefulSetSpec := mkStsSpec {
  sp_Replicas : option Z;
  sp_Selector : option MetaLabelSelector;
  sp_Template : PodTemplateSpec;
  sp_VolumeClaimTemplates : list PersistentVolumeClaim;
  sp_ServiceName : string;
  sp_PodManagementPolicy : string;
  sp_UpdateStrategy : UpdateStrategy;
  sp_MinReadySeconds : Z;
  sp_PVCRetentionPolicy : option PVCRetention;
}.

Record StatefulSetStatus := mkStsStatus {
  ss_ReadyReplicas : Z;
  ss_CurrentRevision : string;
  ss_UpdateRevision : string;
}.

Record StatefulSet := mkSts {
  sts_Meta : ObjectMeta;
  sts_Spec : StatefulSetSpec;
  sts_Status : StatefulSetStatus;
}.

(** ** Services, secrets, config maps, RBAC *)

Record ServicePort := mkSPort {
  port_Name : string;
  port_Protocol : string;
  port_AppProtocol : option string;
  port_Port : Z;
  port_TargetPort : IntOrString;
  port_NodePort : Z;
}.

Record ServiceSpec := mkSvcSpec {
  svc_Type : string;
  svc_ClusterIP : string;
  svc_SessionAffinity : string;
  svc_Selector : smap;
  svc_Ports : list ServicePort;
  svc_PublishNotReadyAddresses : bool;
  svc_IPFamilyPolicy : option string;
  svc_other : option k8sval;
}.

Record Service := mkSvc { svc_Meta : ObjectMeta; svc_Spec : ServiceSpec }.

Record Secret := mkSecret {
  sec_Meta : ObjectMeta;
  sec_Type : string;
  sec_Data : smap;
}.

Record ConfigMap := mkCM { cm_Meta : ObjectMeta; cm_Data : smap }.

Record PolicyRule := mkRule {
  pol_APIGroups : list string;
  pol_Resources : list string;
  pol_Verbs : list string;
}.

Record Role := mkRole { role_Meta : ObjectMeta; role_Rules : list PolicyRule }.

Record Subject := mkSubject { subj_Kind : string; subj_Name : string; subj_Namespace : string }.
Record RoleRef := mkRoleRef { rr_APIGroup : string; rr_Kind : string; rr_Name : string }.

Record RoleBinding := mkRB {
  rb_Meta : ObjectMeta;
  rb_RoleRef : RoleRef;
  rb_Subjects : list Subject;
}.

Record ServiceAccount := mkSA { sa_Meta : ObjectMeta }.

Record Endpoint := mkEndpoint {
  ep_Addresses : list string;
  ep_Hostname : option string;
  ep_TargetRefName : option string;
}.

(** ** [controllerutil.SetControllerReference]

    Code of controller-runtime: a parameter of the builders.  What they rely
    on is that it only touches the owner references of the object. *)
Class OwnerRefs : Type := {
  SetControllerReference : ObjectMeta -> ObjectMeta -> result string ObjectMeta;
  (** [metav1.GetControllerOf] *)
  GetControllerOf : ObjectMeta -> option OwnerReference
}.

Class OwnerRefsLaws `{OwnerRefs} : Prop := {
  setref_only_owners o m m' :
    SetControllerReference o m = Ok m' -> m' = om_with_owners (om_OwnerReferences m') m;
  (** setting the reference again finds it in place *)
  setref_idem o m m' :
    SetControllerReference o m = Ok m' -> SetControllerReference o m' = Ok m';
  (** the owner, a RabbitmqCluster, is then the controller of the object *)
  setref_controls o m m' :
    SetControllerReference o m = Ok m' ->
    exists r, GetControllerOf m' = Some r /\ or_APIVersion r = "rabbitmq.com/v1beta1" /\
      or_Kind r = "RabbitmqCluster" /\ or_Name r = om_Name o;
  (** annotations play no part *)
  setref_with_annotations o m m' a :
    SetControllerReference o m = Ok m' ->
    SetControllerReference o (om_with_annotations a m) = Ok (om_with_annotations a m')
}.

(** An instance used by the concrete examples: append a controller
    reference, fail when another controller owns the object. *)
Definition simple_set_ref (o m : ObjectMeta) : result string ObjectMeta :=
  if existsb (fun r => bool_decide (or_Controller r = Some true) && negb (str_eqb (or_UID r) (om_UID o)))
       (om_OwnerReferences m)
  then Err "Object is already owned by another controller"
  else Ok (om_with_owners
             (mkOwnerRef "rabbitmq.com/v1beta1" "RabbitmqCluster" (om_Name o) (om_UID o)
                (Some true) (Some true)
              :: filter (fun r => or_UID r <> om_UID o) (om_OwnerReferences m)) m).

Definition simple_refs : OwnerRefs := {|
  SetControllerReference := simple_set_ref;
  GetControllerOf m := find_first (fun r => bool_decide (or_Controller r = Some true)) (om_OwnerReferences m)
|}.

Lemma existsb_filter_false {A} (p : A -> bool) (P : A -> Prop) `{forall x, Decision (P x)} l :
  existsb p l = false -> existsb p (filter P l) = false.
Proof.
  intros E. apply not_true_is_false. intros (x & Hx & Hp)%existsb_exists.
  assert (existsb p l = true); [|congruence]. apply existsb_exists. exists x. split; [|done].
  apply list_elem_of_In. apply list_elem_of_In in Hx. by apply list_elem_of_filter in Hx as [_ ?].
Qed.

Lemma simple_refs_laws : @OwnerRefsLaws simple_refs.
Proof.
  constructor; intros o m m'; cbn; unfold simple_set_ref.
  - destruct (existsb _ _); [done|]. by intros [= <-].
  - destruct (existsb _ (om_OwnerReferences m)) eqn:E; [done|]. intros [= <-].
    cbn [existsb om_OwnerReferences om_with_owners or_UID or_Controller].
    rewrite (proj2 (str_eqb_spec (om_UID o) (om_UID o)) eq_refl). cbn [negb].
    rewrite andb_false_r. cbn [orb]. rewrite existsb_filter_false by done.
    f_equal. unfold om_with_owners. cbn [om_Name om_Namespace om_UID om_Generation
      om_DeletionTimestamp om_Labels om_Annotations om_Finalizers]. do 2 f_equal.
    rewrite filter_cons_False by (cbn; tauto).
    rewrite list_filter_filter. apply list_filter_iff. tauto.
  - destruct (existsb _ _); [done|]. intros [= <-]. by eexists.
  - intros a. cbn [om_with_annotations om_OwnerReferences]. destruct (existsb _ _); [done|]. by intros [= <-].
Qed.

(** ** Decidable equality where the operator compares values *)

#[export] Instance EnvVar_eq_dec : EqDecision EnvVar.
Proof. assert (EqDecision FieldSource) by solve_decision. solve_decision. Defined.
#[export] Instance VolumeMount_eq_dec : EqDecision VolumeMount.
Proof. solve_decision. Defined.
#[export] Instance Capabilities_eq_dec : EqDecision Capabilities.
Proof. solve_decision. Defined.
#[export] Instance SecurityContext_eq_dec : EqDecision SecurityContext.
Proof. solve_decision. Defined.
#[export] Instance PodSecurityContext_eq_dec : EqDecision PodSecurityContext.
Proof. solve_decision. Defined.
#[export] Instance OwnerReference_eq_dec : EqDecision OwnerReference.
Proof. solve_decision. Defined.
#[export] Instance ObjectMeta_eq_dec : EqDecision ObjectMeta.
Proof. solve_decision. Defined.
#[export] Instance ConfigMap_eq_dec : EqDecision ConfigMap.
Proof. solve_decision. Defined.
#[export] Instance ResourceRequirements_eq_dec : EqDecision ResourceRequirements.
Proof. solve_decision. Defined.
#[export] Instance ContainerPort_eq_dec : EqDecision ContainerPort.
Proof. solve_decision. Defined.
#[export] Instance IntOrString_eq_dec : EqDecision IntOrString.
Proof. solve_decision. Defined.
#[export] Instance ProbeHandler_eq_dec : EqDecision ProbeHandler.
Proof. solve_decision. Defined.
#[export] Instance Probe_eq_dec : EqDecision Probe.
Proof. solve_decision. Defined.
#[export] Instance Container_eq_dec : EqDecision Container.
Proof. solve_decision. Defined.
#[export] Instance KeyToPath_eq_dec : EqDecision KeyToPath.
Proof. solve_decision. Defined.
#[export] Instance VolumeProjection_eq_dec : EqDecision VolumeProjection.
Proof. solve_decision. Defined.
#[export] Instance DownwardItem_eq_dec : EqDecision DownwardItem.
Proof. solve_decision. Defined.
#[export] Instance VolumeSource_eq_dec : EqDecision VolumeSource.
Proof. solve_decision. Defined.
#[export] Instance Volume_eq_dec : EqDecision Volume.
Proof. solve_decision. Defined.
#[export] Instance TopologySpreadConstraint_eq_dec : EqDecision TopologySpreadConstraint.
Proof. solve_decision. Defined.
#[export] Instance PodSpec_eq_dec : EqDecision PodSpec.
Proof. solve_decision. Defined.
#[export] Instance PodTemplateSpec_eq_dec : EqDecision PodTemplateSpec.
Proof. solve_decision. Defined.
#[export] Instance PersistentVolumeClaimSpec_eq_dec : EqDecision PersistentVolumeClaimSpec.
Proof. solve_decision. Defined.
#[export] Instance PersistentVolumeClaim_eq_dec : EqDecision PersistentVolumeClaim.
Proof. solve_decision. Defined.
#[export] Instance MetaLabelSelector_eq_dec : EqDecision MetaLabelSelector.
Proof. solve_decision. Defined.
#[export] Instance PVCRetention_eq_dec : EqDecision PVCRetention.
Proof. solve_decision. Defined.
#[export] Instance UpdateStrategy_eq_dec : EqDecision UpdateStrategy.
Proof. solve_decision. Defined.
#[export] Instance StatefulSetSpec_eq_dec : EqDecision StatefulSetSpec.
Proof. solve_decision. Defined.
#[export] Instance StatefulSetStatus_eq_dec : EqDecision StatefulSetStatus.
Proof. solve_decision. Defined.
#[export] Instance StatefulSet_eq_dec : EqDecision StatefulSet.
Proof. solve_decision. Defined.
#[export] Instance ServicePort_eq_dec : EqDecision ServicePort.
Proof. solve_decision. Defined.
#[export] Instance ServiceSpec_eq_dec : EqDecision ServiceSpec.
Proof. solve_decision. Defined.
#[export] Instance Service_eq_dec : EqDecision Service.
Proof. solve_decision. Defined.
#[export] Instance Secret_eq_dec : EqDecision Secret.
Proof. solve_decision. Defined.
#[export] Instance PolicyRule_eq_dec : EqDecision PolicyRule.
Proof. solve_decision. Defined.
#[export] Instance Role_eq_dec : EqDecision Role.
Proof. solve_decision. Defined.
#[export] Instance Subject_eq_dec : EqDecision Subject.
Proof. solve_decision. Defined.
#[export] Instance RoleRef_eq_dec : EqDecision RoleRef.
Proof. solve_decision. Defined.
#[export] Instance RoleBinding_eq_dec : EqDecision RoleBinding.
Proof. solve_decision. Defined.
#[export] Instance ServiceAccount_eq_dec : EqDecision ServiceAccount.
Proof. solve_decision. Defined.
#[export] Instance Endpoint_eq_dec : EqDecision Endpoint.
Proof. solve_decision. Defined.

(** ** Facts on quantities and metadata *)

Lemma q_Cmp_lt a b : q_Cmp a b = (-1)%Z <-> (a < b)%Z.
Proof. unfold q_Cmp. destruct (Z.compare_spec a b); split; lia. Qed.

Lemma q_Cmp_gt a b : q_Cmp a b = 1%Z <-> (b < a)%Z.
Proof. unfold q_Cmp. destruct (Z.compare_spec a b); split; lia. Qed.

Lemma q_Cmp_eq a b : q_Cmp a b = 0%Z <-> a = b.
Proof. unfold q_Cmp. destruct (Z.compare_spec a b); split; lia. Qed.

Lemma q_Value_int n : q_Value (quantity_of_int n) = n.
Proof.
  unfold q_Value, quantity_of_int. rewrite <- Z.mul_opp_l, Z.div_mul by done. lia.
Qed.

Section OwnerRefsFacts.
Context `{OwnerRefsLaws}.

Lemma setref_name o m m' : SetControllerReference o m = Ok m' -> om_Name m' = om_Name m.
Proof. intros E. by rewrite (setref_only_owners _ _ _ E). Qed.

Lemma setref_labels o m m' : SetControllerReference o m = Ok m' -> om_Labels m' = om_Labels m.
Proof. intros E. by rewrite (setref_only_owners _ _ _ E). Qed.

Lemma setref_annotations o m m' :
  SetControllerReference o m = Ok m' -> om_Annotations m' = om_Annotations m.
Proof. intros E. by rewrite (setref_only_owners _ _ _ E). Qed.
End OwnerRefsFacts.
