(* ===== verification/Metadata.v ===== *)
(** * Labels and annotations of child resources

    internal/metadata/label.go and internal/metadata/annotation.go. *)

From S2P Require Import Prelude.

(** ** label.go *)

Definition Label (instanceName : string) : gmap string string :=
  <["app.kubernetes.io/name" := instanceName]>
  (<["app.kubernetes.io/component" := "rabbitmq"]>
  (<["app.kubernetes.io/part-of" := "rabbitmq"]> ∅)).

(** One iteration of the loop of [GetLabels] over the instance's labels. *)
Definition add_user_label (label value : string) (allLabels : gmap string string) :=
  if negb (HasPrefix label "app.kubernetes.io") then <[label := value]> allLabels else allLabels.

Definition GetLabels (instanceName : string) (instanceLabels : smap) : gmap string string :=
  map_fold add_user_label (Label instanceName) (smap_entries instanceLabels).

Definition LabelSelector (instanceName : string) : gmap string string :=
  {["app.kubernetes.io/name" := instanceName]}.

(** ** annotation.go *)

Definition isKubernetesAnnotation (k : string) : bool :=
  Contains k "kubernetes.io" || Contains k "k8s.io".

Definition isNotKubernetesAnnotation (k : string) : bool := negb (isKubernetesAnnotation k).

(** The inner loop: every entry of one map that passes the filter is written
    to the result. *)
Definition merge_one (filterFn : string -> bool) (result m : gmap string string) :=
  map_fold (fun k v acc => if filterFn k then <[k := v]> acc else acc) result m.

Definition mergeWithFilter (filterFn : string -> bool) (base : smap) (maps : list smap)
  : gmap string string :=
  fold_left (fun acc m => merge_one filterFn acc (smap_entries m)) maps (smap_entries base).

Definition ReconcileAnnotations (existing : smap) (defaults : list smap) : gmap string string :=
  mergeWithFilter (fun _ => true) existing defaults.

Definition ReconcileAndFilterAnnotations (existing : smap) (defaults : list smap)
  : gmap string string :=
  mergeWithFilter isNotKubernetesAnnotation existing defaults.

(** ** Lookups: what each merge holds under a key *)

Lemma merge_one_lookup f acc m k :
  merge_one f acc m !! k =
  match m !! k with
  | Some v => if f k then Some v else acc !! k
  | None => acc !! k
  end.
Proof.
  unfold merge_one. revert k.
  apply (map_fold_weak_ind (fun r (m : gmap string string) => forall k, r !! k =
    match m !! k with Some v => if f k then Some v else acc !! k | None => acc !! k end)).
  - intros k. by rewrite lookup_empty.
  - intros i x m' r Hi IH k. destruct (decide (i = k)) as [<-|Hne].
    + rewrite lookup_insert_eq. destruct (f i) eqn:Ef.
      * by rewrite lookup_insert_eq.
      * rewrite IH, Hi. done.
    + rewrite lookup_insert_ne by done.
      destruct (f i); [rewrite lookup_insert_ne by done|]; apply IH.
Qed.

#[export] Hint Rewrite merge_one_lookup : rmq.

Lemma GetLabels_lookup n ls k :
  GetLabels n ls !! k =
  if HasPrefix k "app.kubernetes.io" then Label n !! k
  else match smap_get ls k with Some v => Some v | None => Label n !! k end.
Proof.
  rewrite smap_get_entries. unfold GetLabels. revert k.
  apply (map_fold_weak_ind (fun r (m : gmap string string) => forall k, r !! k =
    if HasPrefix k "app.kubernetes.io" then Label n !! k
    else match m !! k with Some v => Some v | None => Label n !! k end)).
  - intros k. rewrite lookup_empty. by destruct (HasPrefix _ _).
  - intros i x m' r Hi IH k. unfold add_user_label.
    destruct (decide (i = k)) as [<-|Hne].
    + rewrite lookup_insert_eq. destruct (HasPrefix i _) eqn:E; cbn.
      * by rewrite IH, E.
      * by rewrite lookup_insert_eq.
    + rewrite (lookup_insert_ne m') by done.
      destruct (HasPrefix i _); cbn; [|rewrite lookup_insert_ne by done]; apply IH.
Qed.

Lemma ReconcileAndFilterAnnotations_lookup ex m k :
  ReconcileAndFilterAnnotations ex [m] !! k =
  match smap_get m k with
  | Some v => if isNotKubernetesAnnotation k then Some v else smap_get ex k
  | None => smap_get ex k
  end.
Proof.
  unfold ReconcileAndFilterAnnotations, mergeWithFilter. cbn [fold_left].
  rewrite merge_one_lookup, !smap_get_entries. done.
Qed.

Lemma ReconcileAnnotations_lookup1 ex m k :
  ReconcileAnnotations ex [m] !! k =
  match smap_get m k with Some v => Some v | None => smap_get ex k end.
Proof.
  unfold ReconcileAnnotations, mergeWithFilter. cbn [fold_left].
  rewrite merge_one_lookup, !smap_get_entries. done.
Qed.

(** ** Properties *)

(** The selector of the Services and of the StatefulSet always matches the
    labels the operator computes, whatever labels the user puts on the
    RabbitmqCluster. *)
Theorem selector_matches_labels (instanceName : string) (instanceLabels : smap) :
  LabelSelector instanceName ⊆ GetLabels instanceName instanceLabels /\
  (forall k, HasPrefix k "app.kubernetes.io" = true ->
             GetLabels instanceName instanceLabels !! k = Label instanceName !! k) /\
  (forall k v, HasPrefix k "app.kubernetes.io" = false ->
             smap_get instanceLabels k = Some v ->
             GetLabels instanceName instanceLabels !! k = Some v).
Proof.
  split; [|split].
  - apply map_singleton_subseteq_l. by rewrite GetLabels_lookup.
  - intros k Hk. by rewrite GetLabels_lookup, Hk.
  - intros k v Hk Hv. by rewrite GetLabels_lookup, Hk, Hv.
Qed.

(** Merging the cluster's annotations is idempotent and never imports a
    Kubernetes-owned key, so a reconcile of an unchanged cluster changes no
    annotation of the child. *)
Theorem filtered_annotations_stable (existing instance : smap) :
  let merged := ReconcileAndFilterAnnotations existing [instance] in
  ReconcileAndFilterAnnotations (Some merged) [instance] = merged /\
  (forall k, isKubernetesAnnotation k = true -> merged !! k = smap_get existing k).
Proof.
  cbn zeta. split.
  - apply map_eq. intros k. rewrite !ReconcileAndFilterAnnotations_lookup.
    rewrite smap_get_some, ReconcileAndFilterAnnotations_lookup.
    by destruct (smap_get instance k), (isNotKubernetesAnnotation k).
  - intros k Hk. rewrite ReconcileAndFilterAnnotations_lookup.
    unfold isNotKubernetesAnnotation. rewrite Hk. by destruct (smap_get instance k).
Qed.
