(* ===== verification/Status.v ===== *)
(** * Status conditions

    internal/status/*.go: the conditions of a RabbitmqCluster and how each is
    computed from the child resources and from its previous value.  Reading
    the clock is an argument ([now]).  A [goto assignLastTransitionTime] of
    the source ends the loop over the resources; a case without one lets the
    loop go on, and a later resource may overwrite the condition. *)

From S2P Require Import Prelude.
From S2P Require Import K8s.

(** ** status.go *)

Inductive ConditionStatus := ConditionTrue | ConditionFalse | ConditionUnknown.

#[export] Instance ConditionStatus_eq_dec : EqDecision ConditionStatus.
Proof. solve_decision. Defined.

Definition AllReplicasReady : string := "AllReplicasReady".
Definition ClusterAvailable : string := "ClusterAvailable".
Definition NoWarnings : string := "NoWarnings".
Definition ReconcileSuccess : string := "ReconcileSuccess".

Record RabbitmqClusterCondition := mkCond {
  Cond_Type : string;
  Cond_Status : ConditionStatus;
  Cond_LastTransitionTime : option Z;   (* [None]: the zero [metav1.Time] *)
  Cond_Reason : string;
  Cond_Message : string;
}.

#[export] Instance Condition_eq_dec : EqDecision RabbitmqClusterCondition.
Proof. solve_decision. Defined.

Definition newRabbitmqClusterCondition (conditionType : string) : RabbitmqClusterCondition :=
  mkCond conditionType ConditionUnknown None "" "".

Definition UpdateState (now : Z) (status : ConditionStatus) (condition : RabbitmqClusterCondition)
  : RabbitmqClusterCondition :=
  let ltt := if decide (Cond_Status condition = status)
             then Cond_LastTransitionTime condition else Some now in
  mkCond (Cond_Type condition) status ltt (Cond_Reason condition) (Cond_Message condition).

Definition UpdateReason (reason : string) (messages : list string)
    (condition : RabbitmqClusterCondition) : RabbitmqClusterCondition :=
  mkCond (Cond_Type condition) (Cond_Status condition) (Cond_LastTransitionTime condition)
    reason (Join messages ". ").

(** ** The child resources passed as [[]runtime.Object]

    [None] is the typed nil pointer of a resource that was not found. *)
Inductive ChildResource :=
| ResStatefulSet (sts : option StatefulSet)
| ResEndpointSlice (endpoints : option (list Endpoint))
| ResOther.

(** The fields a case of the type switch assigns. *)
Definition set_state (c : RabbitmqClusterCondition) (s : ConditionStatus) (reason : string) :=
  mkCond (Cond_Type c) s (Cond_LastTransitionTime c) reason (Cond_Message c).
Definition set_message (c : RabbitmqClusterCondition) (msg : string) :=
  mkCond (Cond_Type c) (Cond_Status c) (Cond_LastTransitionTime c) (Cond_Reason c) msg.

(** [condition := new...; if oldCondition != nil { ... }] *)
Definition seed (conditionType : string) (old : option RabbitmqClusterCondition) :=
  let c := newRabbitmqClusterCondition conditionType in
  match old with
  | Some o => mkCond (Cond_Type c) (Cond_Status c) (Cond_LastTransitionTime o)
                (Cond_Reason c) (Cond_Message c)
  | None => c
  end.

(** The code under [assignLastTransitionTime]. *)
Definition assignLastTransitionTime (now : Z) (old : option RabbitmqClusterCondition)
    (c : RabbitmqClusterCondition) : RabbitmqClusterCondition :=
  match old with
  | Some o => if decide (Cond_Status o = Cond_Status c) then c
              else mkCond (Cond_Type c) (Cond_Status c) (Some now) (Cond_Reason c) (Cond_Message c)
  | None => mkCond (Cond_Type c) (Cond_Status c) (Some now) (Cond_Reason c) (Cond_Message c)
  end.

(** ** all_replicas_ready.go *)

Definition pods_ready_message (ready desired : Z) : string :=
  Itoa ready +:+ "/" +:+ Itoa desired +:+ " Pods ready".

Fixpoint all_replicas_loop (resources : list ChildResource) (c : RabbitmqClusterCondition)
  : RabbitmqClusterCondition :=
  match resources with
  | [] => c
  | ResStatefulSet None :: _ =>
      set_message (set_state c ConditionUnknown "MissingStatefulSet") "Could not find StatefulSet"
  | ResStatefulSet (Some sts) :: rest =>
      let desiredReplicas := default 1%Z (sp_Replicas (sts_Spec sts)) in
      if (desiredReplicas =? 0)%Z then set_state c ConditionFalse "ScaledToZero"
      else if (desiredReplicas =? ss_ReadyReplicas (sts_Status sts))%Z
      then set_state c ConditionTrue "AllPodsAreReady"
      else all_replicas_loop rest
             (set_message (set_state c ConditionFalse "NotAllPodsReady")
                (pods_ready_message (ss_ReadyReplicas (sts_Status sts)) desiredReplicas))
  | _ :: rest => all_replicas_loop rest c
  end.

Definition AllReplicasReadyCondition (now : Z) (resources : list ChildResource)
    (oldCondition : option RabbitmqClusterCondition) : RabbitmqClusterCondition :=
  assignLastTransitionTime now oldCondition
    (all_replicas_loop resources (seed AllReplicasReady oldCondition)).

(** ** cluster_available.go *)

Definition has_address (e : Endpoint) : bool := negb (bool_decide (ep_Addresses e = [])).

Fixpoint cluster_available_loop (resources : list ChildResource) (c : RabbitmqClusterCondition)
  : RabbitmqClusterCondition :=
  match resources with
  | [] => c
  | ResEndpointSlice None :: _ =>
      set_message (set_state c ConditionUnknown "CouldNotRetrieveEndpoints")
        "Could not verify available service endpoints"
  | ResEndpointSlice (Some endpoints) :: rest =>
      if existsb has_address endpoints
      then set_state c ConditionTrue "AtLeastOneEndpointAvailable"
      else cluster_available_loop rest
             (set_message (set_state c ConditionFalse "NoEndpointsAvailable")
                "The service has no endpoints available")
  | _ :: rest => cluster_available_loop rest c
  end.

Definition ClusterAvailableCondition (now : Z) (resources : list ChildResource)
    (oldCondition : option RabbitmqClusterCondition) : RabbitmqClusterCondition :=
  assignLastTransitionTime now oldCondition
    (cluster_available_loop resources (seed ClusterAvailable oldCondition)).

(** ** no_warnings.go

    [Containers[0]] of a StatefulSet without containers panics: [None]. *)

Definition memory_differs (limit request : Quantity) : bool :=
  (negb (q_IsZero limit) && negb (q_IsZero request)) && negb (q_Cmp limit request =? 0)%Z.

Fixpoint no_warnings_loop (resources : list ChildResource) (c : RabbitmqClusterCondition)
  : option RabbitmqClusterCondition :=
  match resources with
  | [] => Some c
  | ResStatefulSet None :: _ =>
      Some (set_message (set_state c ConditionUnknown "MissingStatefulSet")
              "Could not find StatefulSet")
  | ResStatefulSet (Some sts) :: rest =>
      match ps_Containers (pt_Spec (sp_Template (sts_Spec sts))) with
      | [] => None
      | c0 :: _ =>
          let limitMemory := rl_get (res_Limits (c_Resources c0)) "memory" in
          let requestMemory := rl_get (res_Requests (c_Resources c0)) "memory" in
          if memory_differs limitMemory requestMemory
          then Some (set_message (set_state c ConditionFalse "MemoryRequestAndLimitDifferent")
                       "RabbitMQ container memory resource request and limit must be equal")
          else no_warnings_loop rest (set_state c ConditionTrue "NoWarnings")
      end
  | _ :: rest => no_warnings_loop rest c
  end.

Definition NoWarningsCondition (now : Z) (resources : list ChildResource)
    (oldCondition : option RabbitmqClusterCondition) : option RabbitmqClusterCondition :=
  assignLastTransitionTime now oldCondition <$>
    no_warnings_loop resources (seed NoWarnings oldCondition).

(** ** reconcile_success.go *)

Definition ReconcileSuccessCondition (now : Z) (status : ConditionStatus) (reason message : string)
  : RabbitmqClusterCondition :=
  mkCond ReconcileSuccess status (Some now) reason message.

(** ** Shared lemmas

    A loop never looks at the transition time it was seeded with, and keeps
    it and the type: [same_but_time] relates two conditions that agree on
    everything else. *)

Definition same_but_time (a b : RabbitmqClusterCondition) : Prop :=
  Cond_Type a = Cond_Type b /\ Cond_Status a = Cond_Status b /\
  Cond_Reason a = Cond_Reason b /\ Cond_Message a = Cond_Message b.

#[export] Instance same_but_time_equiv : Equivalence same_but_time.
Proof. split; red; unfold same_but_time; intuition congruence. Qed.

Ltac solve_same := unfold same_but_time in *; cbn; intuition auto.

#[export] Instance set_state_proper :
  Proper (same_but_time ==> eq ==> eq ==> same_but_time) set_state.
Proof. intros a b H ? ? -> ? ? ->. solve_same. Qed.

#[export] Instance set_message_proper : Proper (same_but_time ==> eq ==> same_but_time) set_message.
Proof. intros a b H ? ? ->. solve_same. Qed.

Lemma seed_time_irrelevant ty o o' : same_but_time (seed ty o) (seed ty o').
Proof. by destruct o, o'. Qed.

#[export] Instance all_replicas_loop_proper :
  Proper (eq ==> same_but_time ==> same_but_time) all_replicas_loop.
Proof.
  intros rs ? <-. induction rs as [|[[sts|]|?|] rs IH]; intros a b H; cbn; auto.
  - destruct (_ =? 0)%Z; [solve_same|]. destruct (_ =? _)%Z; [solve_same|].
    apply IH. solve_same.
  - solve_same.
Qed.

#[export] Instance cluster_available_loop_proper :
  Proper (eq ==> same_but_time ==> same_but_time) cluster_available_loop.
Proof.
  intros rs ? <-. induction rs as [|[?|[eps|]|] rs IH]; intros a b H; cbn; auto.
  - case_match; [solve_same|]. apply IH. solve_same.
  - solve_same.
Qed.

Lemma no_warnings_loop_proper rs a b :
  same_but_time a b ->
  match no_warnings_loop rs a, no_warnings_loop rs b with
  | Some x, Some y => same_but_time x y
  | None, None => True
  | _, _ => False
  end.
Proof.
  revert a b. induction rs as [|[[sts|]|?|] rs IH]; intros a b H; cbn;
    try exact H; try exact (IH _ _ H).
  1: destruct (ps_Containers _) as [|c0 ?]; [done|].
  1: destruct (memory_differs _ _); [|apply IH].
  all: solve_same.
Qed.

Lemma all_replicas_loop_time rs c :
  Cond_LastTransitionTime (all_replicas_loop rs c) = Cond_LastTransitionTime c /\
  Cond_Type (all_replicas_loop rs c) = Cond_Type c.
Proof.
  revert c. induction rs as [|[[sts|]|?|] rs IH]; intros c; cbn; auto.
  destruct (_ =? 0)%Z; [auto|]. destruct (_ =? _)%Z; [auto|].
  destruct (IH (set_message (set_state c ConditionFalse "NotAllPodsReady")
    (pods_ready_message (ss_ReadyReplicas (sts_Status sts))
       (default 1%Z (sp_Replicas (sts_Spec sts)))))) as [-> ->]. done.
Qed.

Lemma cluster_available_loop_time rs c :
  Cond_LastTransitionTime (cluster_available_loop rs c) = Cond_LastTransitionTime c /\
  Cond_Type (cluster_available_loop rs c) = Cond_Type c.
Proof.
  revert c. induction rs as [|[?|[eps|]|] rs IH]; intros c; cbn; auto.
  destruct (existsb _ _); [auto|].
  destruct (IH (set_message (set_state c ConditionFalse "NoEndpointsAvailable")
    "The service has no endpoints available")) as [-> ->]. done.
Qed.

Lemma no_warnings_loop_time rs c c' :
  no_warnings_loop rs c = Some c' ->
  Cond_LastTransitionTime c' = Cond_LastTransitionTime c /\ Cond_Type c' = Cond_Type c.
Proof.
  revert c. induction rs as [|[[sts|]|?|] rs IH]; intros c; cbn; auto.
  1,3: by intros [= <-].
  destruct (ps_Containers _) as [|c0 ?]; [done|].
  destruct (memory_differs _ _); [by intros [= <-]|]. intros E.
  destruct (IH _ E) as [-> ->]. done.
Qed.

(** Whether a StatefulSet among the resources has a container, so that
    [Containers[0]] is defined. *)
Definition has_container (r : ChildResource) : bool :=
  match r with
  | ResStatefulSet (Some sts) =>
      negb (bool_decide (length (ps_Containers (pt_Spec (sp_Template (sts_Spec sts)))) = 0%nat))
  | _ => true
  end.

Lemma no_warnings_loop_total rs c :
  forallb has_container rs = true -> exists c', no_warnings_loop rs c = Some c'.
Proof.
  revert c. induction rs as [|[[sts|]|?|] rs IH]; intros c; cbn; eauto.
  intros [Hc Hr]%andb_prop. destruct (ps_Containers _) as [|c0 ?]; [done|].
  destruct (memory_differs _ _); eauto.
Qed.

(** The rule common to the three computed conditions, for a loop result [c]
    that kept the seeded time. *)
Lemma assign_time_rule now ty o c :
  Cond_LastTransitionTime c = Cond_LastTransitionTime (seed ty o) ->
  let r := assignLastTransitionTime now o c in
  Cond_Status r = Cond_Status c /\
  (forall old, o = Some old -> Cond_Status old = Cond_Status c ->
     Cond_LastTransitionTime r = Cond_LastTransitionTime old) /\
  ((forall old, o = Some old -> Cond_Status old <> Cond_Status c) ->
     Cond_LastTransitionTime r = Some now).
Proof.
  intros Ht. cbn. unfold assignLastTransitionTime. destruct o as [old|]; cbn in *.
  - destruct (decide _) as [E|E]; cbn; repeat split; auto.
    + by intros ? [= <-].
    + intros H. by destruct (H old).
    + by intros ? [= <-] ?.
  - repeat split; auto. by intros ? [=].
Qed.

(** Recomputing a condition from its own result gives the same condition. *)
Lemma assign_fixpoint now now' o x y :
  same_but_time x y ->
  Cond_LastTransitionTime y = Cond_LastTransitionTime (assignLastTransitionTime now o x) ->
  assignLastTransitionTime now' (Some (assignLastTransitionTime now o x)) y
  = assignLastTransitionTime now o x.
Proof.
  intros (Ht & Hs & Hr & Hm) Hy.
  assert (assignLastTransitionTime now o x
          = mkCond (Cond_Type x) (Cond_Status x)
              (Cond_LastTransitionTime (assignLastTransitionTime now o x))
              (Cond_Reason x) (Cond_Message x)) as E.
  { unfold assignLastTransitionTime. destruct o; [destruct (decide _)|]; by destruct x. }
  rewrite E in Hy |- *. cbn in *.
  rewrite decide_True by done. destruct y; cbn in *; congruence.
Qed.
