(* ===== verification/Api.v ===== *)
(** * The RabbitmqCluster API

    api/v1beta1/rabbitmqcluster_types.go and rabbitmqcluster_status.go: the
    custom resource as records (field by field), the predicates the rest of
    the operator asks of it, and the update of its status conditions. *)

From S2P Require Import Prelude.
From S2P Require Import K8s.
From S2P Require Import Metadata.
From S2P Require Import Status.

(** ** Override structures *)

Record EmbeddedLabelsAnnotations := mkELA { ela_Labels : smap; ela_Annotations : smap }.

Record EmbeddedObjectMeta := mkEOM {
  eom_Name : string;
  eom_Namespace : string;
  eom_Labels : smap;
  eom_Annotations : smap;
}.

Record OverridePodTemplateSpec := mkOPT {
  opt_EmbeddedObjectMeta : option EmbeddedObjectMeta;
  opt_Spec : option PodSpec;
}.

Record OverridePVC := mkOPVC {
  opvc_EmbeddedObjectMeta : EmbeddedObjectMeta;
  opvc_Spec : PersistentVolumeClaimSpec;
}.

Record OverrideStatefulSetSpec := mkOSSpec {
  os_Replicas : option Z;
  os_Selector : option MetaLabelSelector;
  os_Template : option OverridePodTemplateSpec;
  os_VolumeClaimTemplates : list OverridePVC;
  os_ServiceName : string;
  os_PodManagementPolicy : string;
  os_UpdateStrategy : option UpdateStrategy;
  os_MinReadySeconds : Z;
  os_PVCRetentionPolicy : option PVCRetention;
}.

Record OverrideStatefulSet := mkOSts {
  ost_LabelsAnnotations : option EmbeddedLabelsAnnotations;
  ost_Spec : option OverrideStatefulSetSpec;
}.

Record OverrideService := mkOSvc {
  osv_LabelsAnnotations : option EmbeddedLabelsAnnotations;
  osv_Spec : option ServiceSpec;
}.

Record RabbitmqClusterOverrideSpec := mkOverride {
  ov_StatefulSet : option OverrideStatefulSet;
  ov_Service : option OverrideService;
}.

(** ** Secret backends *)

Record VaultTLSSpec := mkVaultTLS {
  vt_PKIIssuerPath : string;
  vt_CommonName : string;
  vt_AltNames : string;
  vt_IpSans : string;
  vt_PKIRootPath : string;
}.

Record VaultSpec := mkVault {
  va_Role : string;
  va_Annotations : smap;
  va_DefaultUserPath : string;
  va_DefaultUserUpdaterImage : option string;
  va_TLS : VaultTLSSpec;
}.

Record SecretBackend := mkBackend {
  sb_Vault : option VaultSpec;
  sb_ExternalSecret_Name : string;
}.

(** ** The rest of the spec *)

Record TLSSpec := mkTLS {
  tls_SecretName : string;
  tls_CaSecretName : string;
  tls_DisableNonTLSListeners : bool;
}.

Record RabbitmqClusterConfigurationSpec := mkRmqConf {
  rc_AdditionalPlugins : list string;
  rc_AdditionalConfig : string;
  rc_AdvancedConfig : string;
  rc_EnvConfig : string;
  rc_ErlangInetConfig : string;
}.

Record RabbitmqClusterEmptyDirSpec := mkEmptyDir {
  ed_Medium : string;
  ed_SizeLimit : option Quantity;
}.

Record RabbitmqClusterPersistenceSpec := mkPersistence {
  per_StorageClassName : option string;
  per_Storage : option Quantity;
  per_EmptyDir : option RabbitmqClusterEmptyDirSpec;
}.

Record RabbitmqClusterServiceSpec := mkServiceSpec {
  ser_Type : string;
  ser_Annotations : smap;
  ser_IPFamilyPolicy : option string;
  ser_Labels : smap;
}.

Record RabbitmqClusterSpec := mkSpec {
  spec_Replicas : option Z;
  spec_Image : string;
  spec_ImagePullSecrets : option (list string);
  spec_Service : RabbitmqClusterServiceSpec;
  spec_Persistence : RabbitmqClusterPersistenceSpec;
  spec_Resources : option ResourceRequirements;
  spec_Affinity : option k8sval;
  spec_Tolerations : list k8sval;
  spec_Rabbitmq : RabbitmqClusterConfigurationSpec;
  spec_TLS : TLSSpec;
  spec_Override : RabbitmqClusterOverrideSpec;
  spec_SkipPostDeploySteps : bool;
  spec_AutoEnableAllFeatureFlags : bool;
  spec_TerminationGracePeriodSeconds : option Z;
  spec_DelayStartSeconds : option Z;
  spec_SecretBackend : SecretBackend;
}.

(** ** Status *)

Record RabbitmqClusterSecretReference := mkSecRef {
  sr_Name : string; sr_Namespace : string; sr_Keys : gmap string string }.
Record RabbitmqClusterServiceReference := mkSvcRef { svr_Name : string; svr_Namespace : string }.

Record RabbitmqClusterDefaultUser := mkDefaultUser {
  du_SecretReference : option RabbitmqClusterSecretReference;
  du_ServiceReference : option RabbitmqClusterServiceReference;
}.

Record RabbitmqClusterStatus := mkStatus {
  st_Conditions : list RabbitmqClusterCondition;
  st_DefaultUser : option RabbitmqClusterDefaultUser;
  st_Binding : option string;
  st_ObservedGeneration : Z;
  st_QuorumStatus : string;
  st_DeprecatedFeaturesUsed : list string;
}.

Record RabbitmqCluster := mkCluster {
  rmq_Meta : ObjectMeta;
  rmq_Spec : RabbitmqClusterSpec;
  rmq_Status : RabbitmqClusterStatus;
}.

#[export] Instance SecretReference_eq_dec : EqDecision RabbitmqClusterSecretReference.
Proof. solve_decision. Defined.
#[export] Instance ServiceReference_eq_dec : EqDecision RabbitmqClusterServiceReference.
Proof. solve_decision. Defined.
#[export] Instance DefaultUser_eq_dec : EqDecision RabbitmqClusterDefaultUser.
Proof. solve_decision. Defined.

Definition st_with_conditions (c : list RabbitmqClusterCondition) (s : RabbitmqClusterStatus) :=
  mkStatus c (st_DefaultUser s) (st_Binding s) (st_ObservedGeneration s)
    (st_QuorumStatus s) (st_DeprecatedFeaturesUsed s).
Definition rmq_with_status (s : RabbitmqClusterStatus) (r : RabbitmqCluster) :=
  mkCluster (rmq_Meta r) (rmq_Spec r) s.
Definition rmq_with_meta (m : ObjectMeta) (r : RabbitmqCluster) :=
  mkCluster m (rmq_Spec r) (rmq_Status r).
Definition rmq_with_spec (s : RabbitmqClusterSpec) (r : RabbitmqCluster) :=
  mkCluster (rmq_Meta r) s (rmq_Status r).

Definition rmq_Name (r : RabbitmqCluster) : string := om_Name (rmq_Meta r).
Definition rmq_Namespace (r : RabbitmqCluster) : string := om_Namespace (rmq_Meta r).
Definition rmq_Labels (r : RabbitmqCluster) : smap := om_Labels (rmq_Meta r).
Definition rmq_Annotations (r : RabbitmqCluster) : smap := om_Annotations (rmq_Meta r).

(** ** Constants *)

Definition DisableDefaultTopologySpreadAnnotation := "rabbitmq.com/disable-default-topology-spread-constraints".
Definition RabbitmqVersionAnnotation := "rabbitmq.com/version".
Definition ErlangVersionAnnotation := "rabbitmq.com/erlang-version".
Definition VersionNotAnnotated := "VersionNotAnnotated".
Definition LegacyStartupProbeAnnotation := "rabbitmq.com/legacy-startup-probe".

(** ** Methods *)

Definition vault_TLSEnabled (spec : VaultSpec) : bool := negb (str_eqb (vt_PKIIssuerPath (va_TLS spec)) "").
Definition vault_RootCAEnabled (spec : VaultSpec) : bool := negb (str_eqb (vt_PKIRootPath (va_TLS spec)) "").
Definition vault_DefaultUserSecretEnabled (spec : VaultSpec) : bool :=
  negb (str_eqb (va_DefaultUserPath spec) "").

Definition vault_of (cluster : RabbitmqCluster) : option VaultSpec :=
  sb_Vault (spec_SecretBackend (rmq_Spec cluster)).

Definition VaultEnabled (cluster : RabbitmqCluster) : bool :=
  match vault_of cluster with Some _ => true | None => false end.

(** [cluster.VaultEnabled() && <test of the vault spec>] *)
Definition vault_test (p : VaultSpec -> bool) (cluster : RabbitmqCluster) : bool :=
  match vault_of cluster with Some v => p v | None => false end.

Definition ExternalSecretEnabled (cluster : RabbitmqCluster) : bool :=
  negb (str_eqb (sb_ExternalSecret_Name (spec_SecretBackend (rmq_Spec cluster))) "").

Definition UsesDefaultUserUpdaterImage (cluster : RabbitmqCluster) (controlRabbitmqImage : bool) : bool :=
  vault_test (fun v => match va_DefaultUserUpdaterImage v with None => true | Some _ => controlRabbitmqImage end)
    cluster.

Definition VaultDefaultUserSecretEnabled (cluster : RabbitmqCluster) : bool :=
  vault_test vault_DefaultUserSecretEnabled cluster.

Definition VaultTLSEnabled (cluster : RabbitmqCluster) : bool := vault_test vault_TLSEnabled cluster.

Definition SecretTLSEnabled (cluster : RabbitmqCluster) : bool :=
  negb (str_eqb (tls_SecretName (spec_TLS (rmq_Spec cluster))) "").

Definition TLSEnabled (cluster : RabbitmqCluster) : bool :=
  SecretTLSEnabled cluster || VaultTLSEnabled cluster.

Definition MutualTLSEnabled (cluster : RabbitmqCluster) : bool :=
  (SecretTLSEnabled cluster && negb (str_eqb (tls_CaSecretName (spec_TLS (rmq_Spec cluster))) ""))
  || VaultTLSEnabled cluster.

(** [Limits.Memory()] of an absent key is a zero quantity. *)
Definition MemoryLimited (cluster : RabbitmqCluster) : bool :=
  match spec_Resources (rmq_Spec cluster) with
  | None => false
  | Some r => match res_Limits r with
              | None => false
              | Some _ => negb (q_IsZero (rl_get (res_Limits r) "memory"))
              end
  end.

Definition SingleTLSSecret (cluster : RabbitmqCluster) : bool :=
  MutualTLSEnabled cluster &&
  str_eqb (tls_CaSecretName (spec_TLS (rmq_Spec cluster))) (tls_SecretName (spec_TLS (rmq_Spec cluster))).

Definition DisableNonTLSListeners (cluster : RabbitmqCluster) : bool :=
  tls_DisableNonTLSListeners (spec_TLS (rmq_Spec cluster)).

Definition AdditionalPluginEnabled (cluster : RabbitmqCluster) (plugin : string) : bool :=
  slice_contains (rc_AdditionalPlugins (spec_Rabbitmq (rmq_Spec cluster))) plugin.

Definition StreamNeeded (cluster : RabbitmqCluster) : bool :=
  AdditionalPluginEnabled cluster "rabbitmq_stream" ||
  AdditionalPluginEnabled cluster "rabbitmq_stream_management" ||
  AdditionalPluginEnabled cluster "rabbitmq_multi_dc_replication".

Definition ServiceSubDomain (cluster : RabbitmqCluster) : string :=
  rmq_Name cluster +:+ "." +:+ rmq_Namespace cluster +:+ ".svc".

Definition ChildResourceName (cluster : RabbitmqCluster) (name : string) : string :=
  TrimSuffix (Join [rmq_Name cluster; name] "-") "-".

Definition PVCName (cluster : RabbitmqCluster) (i : Z) : string :=
  Join ["persistence"; rmq_Name cluster; "server"; Itoa i] "-".

Definition DisableDefaultTopologySpreadConstraints (cluster : RabbitmqCluster) : bool :=
  match smap_get (rmq_Annotations cluster) DisableDefaultTopologySpreadAnnotation with
  | Some value => str_eqb (TrimSpace value) "true"
  | None => false
  end.

Definition annotation_or_default (cluster : RabbitmqCluster) (key : string) : string :=
  match rmq_Annotations cluster with
  | None => VersionNotAnnotated
  | Some a => default VersionNotAnnotated (a !! key)
  end.

Definition GetRabbitMQVersion (cluster : RabbitmqCluster) : string :=
  annotation_or_default cluster RabbitmqVersionAnnotation.
Definition GetErlangVersion (cluster : RabbitmqCluster) : string :=
  annotation_or_default cluster ErlangVersionAnnotation.

(** ** Status conditions *)

(** The [old...Condition] variables after the loop: the last condition of
    the type, if any. *)
Definition old_condition (ty : string) (conditions : list RabbitmqClusterCondition)
  : option RabbitmqClusterCondition :=
  fold_left (fun acc c => if str_eqb (Cond_Type c) ty then Some c else acc) conditions None.

(** The four readings of the clock one call of [SetConditions] may make. *)
Record Clock4 := mkClock4 { now1 : Z; now2 : Z; now3 : Z; now4 : Z }.

Definition SetConditions (t : Clock4) (resources : list ChildResource)
    (clusterStatus : RabbitmqClusterStatus) : option RabbitmqClusterStatus :=
  let old ty := old_condition ty (st_Conditions clusterStatus) in
  let allReplicasReadyCond :=
    AllReplicasReadyCondition (now1 t) resources (old AllReplicasReady) in
  let clusterAvailableCond :=
    ClusterAvailableCondition (now2 t) resources (old ClusterAvailable) in
  noWarningsCond ← NoWarningsCondition (now3 t) resources (old NoWarnings);
  let reconciledCondition :=
    match old ReconcileSuccess with
    | Some c => c
    | None => ReconcileSuccessCondition (now4 t) ConditionUnknown "Initialising" ""
    end in
  Some (st_with_conditions
          [allReplicasReadyCond; clusterAvailableCond; noWarningsCond; reconciledCondition]
          clusterStatus).

Fixpoint set_condition_loop (now : Z) (condType : string) (condStatus : ConditionStatus)
    (reason : string) (messages : list string) (conditions : list RabbitmqClusterCondition)
  : list RabbitmqClusterCondition :=
  match conditions with
  | [] => []
  | c :: rest =>
      if str_eqb (Cond_Type c) condType
      then UpdateReason reason messages (UpdateState now condStatus c) :: rest
      else c :: set_condition_loop now condType condStatus reason messages rest
  end.

Definition SetCondition (now : Z) (condType : string) (condStatus : ConditionStatus)
    (reason : string) (messages : list string) (clusterStatus : RabbitmqClusterStatus)
  : RabbitmqClusterStatus :=
  st_with_conditions
    (set_condition_loop now condType condStatus reason messages (st_Conditions clusterStatus))
    clusterStatus.

(** ** Facts on the conditions *)

Lemma old_condition_four a b c d :
  Cond_Type a = AllReplicasReady -> Cond_Type b = ClusterAvailable ->
  Cond_Type c = NoWarnings -> Cond_Type d = ReconcileSuccess ->
  old_condition AllReplicasReady [a; b; c; d] = Some a /\
  old_condition ClusterAvailable [a; b; c; d] = Some b /\
  old_condition NoWarnings [a; b; c; d] = Some c /\
  old_condition ReconcileSuccess [a; b; c; d] = Some d.
Proof. intros Ha Hb Hc Hd. unfold old_condition. cbn. by rewrite Ha, Hb, Hc, Hd. Qed.

Lemma old_condition_type ty cs c : old_condition ty cs = Some c -> Cond_Type c = ty.
Proof.
  unfold old_condition. assert (forall o, (forall x, o = Some x -> Cond_Type x = ty) ->
    fold_left (fun acc c => if str_eqb (Cond_Type c) ty then Some c else acc) cs o = Some c ->
    Cond_Type c = ty) as H.
  { induction cs as [|x cs IH]; cbn; [eauto|]. intros o Ho. apply IH.
    destruct (str_eqb _ _) eqn:E; [|done]. intros ? [= <-]. by apply str_eqb_spec. }
  by apply H.
Qed.

Lemma assign_type now o c :
  Cond_Type (assignLastTransitionTime now o c) = Cond_Type c.
Proof. unfold assignLastTransitionTime. destruct o; [destruct (decide _)|]; done. Qed.

Lemma SetConditions_unfold t rs st st' :
  SetConditions t rs st = Some st' ->
  exists nw, no_warnings_loop rs (seed NoWarnings (old_condition NoWarnings (st_Conditions st))) = Some nw /\
  st_Conditions st' =
    [ AllReplicasReadyCondition (now1 t) rs (old_condition AllReplicasReady (st_Conditions st));
      ClusterAvailableCondition (now2 t) rs (old_condition ClusterAvailable (st_Conditions st));
      assignLastTransitionTime (now3 t) (old_condition NoWarnings (st_Conditions st)) nw;
      match old_condition ReconcileSuccess (st_Conditions st) with
      | Some c => c
      | None => ReconcileSuccessCondition (now4 t) ConditionUnknown "Initialising" ""
      end ] /\
  st' = st_with_conditions (st_Conditions st') st.
Proof.
  unfold SetConditions, NoWarningsCondition.
  destruct (no_warnings_loop _ _) as [nw|] eqn:E; cbn; [|done].
  intros [= <-]. exists nw. done.
Qed.

Lemma seed_type ty o : Cond_Type (seed ty o) = ty.
Proof. by destruct o. Qed.

Lemma conditions_types t rs st st' :
  SetConditions t rs st = Some st' ->
  map Cond_Type (st_Conditions st') = [AllReplicasReady; ClusterAvailable; NoWarnings; ReconcileSuccess].
Proof.
  intros (nw & Hnw & -> & _)%SetConditions_unfold. cbn.
  unfold AllReplicasReadyCondition, ClusterAvailableCondition. rewrite !assign_type.
  rewrite (proj2 (all_replicas_loop_time _ _)), (proj2 (cluster_available_loop_time _ _)), !seed_type.
  rewrite (proj2 (no_warnings_loop_time _ _ _ Hnw)), seed_type.
  destruct (old_condition ReconcileSuccess _) eqn:E; [|done].
  by rewrite (old_condition_type _ _ _ E).
Qed.

(** ** Properties of the conditions *)

(** Shape: whatever conditions the status held, an update that returns leaves
    exactly the four known conditions, in their order, changes no other
    field of the status, and keeps the last ReconcileSuccess condition as it
    was; and it returns unless the StatefulSet has no container. *)
Theorem SetConditions_shape (t : Clock4) (rs : list ChildResource) (st : RabbitmqClusterStatus) :
  (forallb has_container rs = true -> exists st', SetConditions t rs st = Some st') /\
  (forall st', SetConditions t rs st = Some st' ->
     map Cond_Type (st_Conditions st') =
       [AllReplicasReady; ClusterAvailable; NoWarnings; ReconcileSuccess] /\
     st' = st_with_conditions (st_Conditions st') st /\
     (forall c, old_condition ReconcileSuccess (st_Conditions st) = Some c ->
        last (st_Conditions st') = Some c)).
Proof.
  split.
  - intros H. unfold SetConditions, NoWarningsCondition.
    destruct (no_warnings_loop_total rs (seed NoWarnings (old_condition NoWarnings (st_Conditions st))) H)
      as [nw ->]. cbn. eauto.
  - intros st' E. split; [by eapply conditions_types|].
    apply SetConditions_unfold in E as (nw & _ & Hc & Hst). split; [done|].
    intros c Hc'. rewrite Hc, Hc'. done.
Qed.

(** The rule of the transition times, for one condition and its successor. *)
Definition time_rule (now : Z) (old : option RabbitmqClusterCondition)
    (new : RabbitmqClusterCondition) : Prop :=
  (forall o, old = Some o -> Cond_Status o = Cond_Status new ->
     Cond_LastTransitionTime new = Cond_LastTransitionTime o) /\
  ((forall o, old = Some o -> Cond_Status o <> Cond_Status new) ->
     Cond_LastTransitionTime new = Some now).

Lemma time_rule_assign now ty o c :
  Cond_LastTransitionTime c = Cond_LastTransitionTime (seed ty o) ->
  time_rule now o (assignLastTransitionTime now o c).
Proof.
  intros H. destruct (assign_time_rule now ty o c H) as (Hs & H1 & H2).
  unfold time_rule. rewrite Hs. done.
Qed.

(** The transition times: for each of the three computed conditions, the
    time is kept when the status is the one of the previous condition of the
    type, and is the clock when it differs or there was none. *)
Theorem SetConditions_transition_times (t : Clock4) (rs : list ChildResource)
    (st st' : RabbitmqClusterStatus) :
  SetConditions t rs st = Some st' ->
  exists a c w r, st_Conditions st' = [a; c; w; r] /\
    time_rule (now1 t) (old_condition AllReplicasReady (st_Conditions st)) a /\
    time_rule (now2 t) (old_condition ClusterAvailable (st_Conditions st)) c /\
    time_rule (now3 t) (old_condition NoWarnings (st_Conditions st)) w.
Proof.
  intros (nw & Hnw & Hc & _)%SetConditions_unfold. rewrite Hc.
  eexists _, _, _, _. split; [done|]. repeat split_and.
  1: apply (time_rule_assign _ AllReplicasReady), all_replicas_loop_time.
  1: apply (time_rule_assign _ ClusterAvailable), cluster_available_loop_time.
  apply (time_rule_assign _ NoWarnings). exact (proj1 (no_warnings_loop_time _ _ _ Hnw)).
Qed.

(** Stability: recomputing the conditions from the same child resources, at
    any later time, changes nothing, so [updateStatusConditions] patches at
    most once per change of the children. *)
Theorem SetConditions_stable (t t' : Clock4) (rs : list ChildResource)
    (st st' : RabbitmqClusterStatus) :
  SetConditions t rs st = Some st' -> SetConditions t' rs st' = Some st'.
Proof.
  intros E. pose proof (conditions_types _ _ _ _ E) as Hty.
  apply SetConditions_unfold in E as (nw & Hnw & Hc & Hst).
  rewrite Hc in Hty. cbn in Hty. injection Hty as Ha Hb Hw Hr.
  destruct (old_condition_four _ _ _ _ Ha Hb Hw Hr) as (Oa & Ob & Ow & Or).
  rewrite Hst. unfold SetConditions, NoWarningsCondition. cbn [st_Conditions st_with_conditions].
  rewrite Hc, Oa, Ob, Ow, Or.
  set (ow := old_condition NoWarnings _) in *. set (w' := assignLastTransitionTime _ ow nw) in *.
  pose proof (no_warnings_loop_proper rs _ _ (seed_time_irrelevant NoWarnings ow (Some w'))) as P.
  rewrite Hnw in P. destruct (no_warnings_loop rs (seed NoWarnings (Some w'))) as [nw'|] eqn:E'; [|done].
  cbn. f_equal. unfold st_with_conditions. f_equal. f_equal; [|f_equal; [|f_equal]].
  - apply assign_fixpoint; [|exact (proj1 (all_replicas_loop_time _ _))].
    apply all_replicas_loop_proper; [done | apply (seed_time_irrelevant AllReplicasReady _ (Some _))].
  - apply assign_fixpoint; [|exact (proj1 (cluster_available_loop_time _ _))].
    apply cluster_available_loop_proper; [done | apply (seed_time_irrelevant ClusterAvailable _ (Some _))].
  - apply assign_fixpoint; [done|]. exact (proj1 (no_warnings_loop_time _ _ _ E')).
Qed.

(** What the controller's two child resources make of the conditions. *)
Definition desired_of (sts : StatefulSet) : Z := default 1%Z (sp_Replicas (sts_Spec sts)).
Definition ready_of (sts : StatefulSet) : Z := ss_ReadyReplicas (sts_Status sts).

Definition memory_mismatch (sts : StatefulSet) : Prop :=
  exists c0 rest, ps_Containers (pt_Spec (sp_Template (sts_Spec sts))) = c0 :: rest /\
    let l := rl_get (res_Limits (c_Resources c0)) "memory" in
    let r := rl_get (res_Requests (c_Resources c0)) "memory" in
    l <> 0%Z /\ r <> 0%Z /\ l <> r.

Lemma memory_differs_spec l r :
  memory_differs l r = true <-> l <> 0%Z /\ r <> 0%Z /\ l <> r.
Proof.
  unfold memory_differs, q_IsZero, q_Cmp.
  destruct (Z.eqb_spec l 0), (Z.eqb_spec r 0), (Z.compare_spec l r); cbn; naive_solver lia.
Qed.

Lemma assign_status now o c : Cond_Status (assignLastTransitionTime now o c) = Cond_Status c.
Proof. unfold assignLastTransitionTime. destruct o; [destruct (decide _)|]; done. Qed.

Lemma all_replicas_status now o sts eps :
  let s := Cond_Status (AllReplicasReadyCondition now [ResStatefulSet (Some sts); ResEndpointSlice eps] o) in
  (s = ConditionTrue <-> desired_of sts <> 0%Z /\ desired_of sts = ready_of sts) /\ s <> ConditionUnknown.
Proof.
  unfold AllReplicasReadyCondition, desired_of, ready_of. cbn. rewrite assign_status.
  destruct (Z.eqb_spec (default 1%Z (sp_Replicas (sts_Spec sts))) 0),
    (Z.eqb_spec (default 1%Z (sp_Replicas (sts_Spec sts))) (ss_ReadyReplicas (sts_Status sts))); cbn; naive_solver.
Qed.

Lemma cluster_available_status now o s eps :
  let c := Cond_Status (ClusterAvailableCondition now [ResStatefulSet s; ResEndpointSlice (Some eps)] o) in
  (c = ConditionTrue <-> exists e, e ∈ eps /\ ep_Addresses e <> []) /\ c <> ConditionUnknown.
Proof.
  unfold ClusterAvailableCondition. cbn. rewrite assign_status.
  destruct (existsb has_address eps) eqn:E; cbn.
  - split; [|done]. split; [intros _|done].
    apply existsb_exists in E as (e & Hin & He). exists e.
    split; [by apply list_elem_of_In|]. unfold has_address in He.
    by apply negb_true_iff, bool_decide_eq_false in He.
  - split; [|done]. split; [done|]. intros (e & Hin & He).
    assert (existsb has_address eps = true); [|congruence].
    apply existsb_exists. exists e. split; [by apply list_elem_of_In|].
    unfold has_address. by apply negb_true_iff, bool_decide_eq_false.
Qed.

(** Meaning of the computed conditions: AllReplicasReady is True exactly when
    a non-zero desired count is all ready, ClusterAvailable exactly when some
    endpoint has an address, NoWarnings exactly when the memory limit and
    request of the first container are not two different non-zero values;
    none of them is Unknown when the children were found, and the two that
    depend on a missing child are Unknown when it was not. *)
Theorem conditions_meaning (t : Clock4) (sts : option StatefulSet) (eps : option (list Endpoint))
    (st st' : RabbitmqClusterStatus) :
  SetConditions t [ResStatefulSet sts; ResEndpointSlice eps] st = Some st' ->
  exists a c w r, st_Conditions st' = [a; c; w; r] /\
    match sts with
    | Some s =>
        (Cond_Status a = ConditionTrue <-> desired_of s <> 0%Z /\ desired_of s = ready_of s) /\
        Cond_Status a <> ConditionUnknown /\
        (Cond_Status w = ConditionTrue <-> ~ memory_mismatch s) /\
        Cond_Status w <> ConditionUnknown
    | None => Cond_Status a = ConditionUnknown /\ Cond_Status w = ConditionUnknown
    end /\
    match eps with
    | Some es => (Cond_Status c = ConditionTrue <-> exists e, e ∈ es /\ ep_Addresses e <> []) /\
                 Cond_Status c <> ConditionUnknown
    | None => Cond_Status c = ConditionUnknown
    end.
Proof.
  intros (nw & Hnw & Hc & _)%SetConditions_unfold. rewrite Hc.
  eexists _, _, _, _. split; [done|]. rewrite !assign_status. split.
  - destruct sts as [s|].
    + destruct (all_replicas_status (now1 t) (old_condition AllReplicasReady (st_Conditions st)) s eps) as [H1 H2].
      split; [done|]. split; [done|]. cbn in Hnw.
      destruct (ps_Containers _) as [|c0 rest] eqn:Ec; [done|].
      pose proof (memory_differs_spec (rl_get (res_Limits (c_Resources c0)) "memory")
        (rl_get (res_Requests (c_Resources c0)) "memory")) as M.
      destruct (memory_differs _ _).
      * injection Hnw as <-. cbn. split; [|done]. split; [done|]. intros []. exists c0, rest. naive_solver.
      * injection Hnw as <-. cbn. split; [|done]. split; [intros _|done].
        intros (c1 & r1 & E & Hm). rewrite Ec in E. injection E as <- <-. naive_solver.
    + cbn in Hnw. injection Hnw as <-. unfold AllReplicasReadyCondition. rewrite assign_status. done.
  - destruct eps as [es|]; [apply cluster_available_status|].
    unfold ClusterAvailableCondition. rewrite assign_status. by destruct sts.
Qed.

(** ** The condition state machine

    Every write the operator makes to [status.conditions]: a recomputation
    from the children, or one condition set by type. *)
Inductive status_step : RabbitmqClusterStatus -> RabbitmqClusterStatus -> Prop :=
| step_SetConditions t rs st st' :
    SetConditions t rs st = Some st' -> status_step st st'
| step_SetCondition now ty s reason msgs st :
    status_step st (SetCondition now ty s reason msgs st).

Inductive status_reachable : RabbitmqClusterStatus -> Prop :=
| reach_fresh st : st_Conditions st = [] -> status_reachable st
| reach_step st st' : status_reachable st -> status_step st st' -> status_reachable st'.

(** Well formed: no conditions yet, or the four of them in order, each with
    the time of its last transition. *)
Definition conditions_wf (cs : list RabbitmqClusterCondition) : Prop :=
  cs = [] \/
  (map Cond_Type cs = [AllReplicasReady; ClusterAvailable; NoWarnings; ReconcileSuccess] /\
   Forall (fun c => Cond_LastTransitionTime c <> None) cs).

Lemma set_condition_loop_types now ty s r m cs :
  map Cond_Type (set_condition_loop now ty s r m cs) = map Cond_Type cs.
Proof. induction cs as [|c cs IH]; cbn; [done|]. destruct (str_eqb _ _); cbn; congruence. Qed.

Lemma set_condition_loop_times now ty s r m cs :
  Forall (fun c => Cond_LastTransitionTime c <> None) cs ->
  Forall (fun c => Cond_LastTransitionTime c <> None) (set_condition_loop now ty s r m cs).
Proof.
  induction 1 as [|c cs Hc Hcs IH]; cbn; [done|].
  destruct (str_eqb _ _); constructor; auto.
  cbn. by destruct (decide _).
Qed.

Lemma assign_some now o c :
  (forall x, o = Some x -> Cond_LastTransitionTime x <> None) ->
  Cond_LastTransitionTime c = Cond_LastTransitionTime (seed (Cond_Type c) o) ->
  Cond_LastTransitionTime (assignLastTransitionTime now o c) <> None.
Proof.
  intros Ho Hc. unfold assignLastTransitionTime. destruct o as [x|]; [|done].
  destruct (decide _); [|done]. rewrite Hc. cbn. by apply Ho.
Qed.

Lemma old_condition_in ty cs c : old_condition ty cs = Some c -> c ∈ cs.
Proof.
  unfold old_condition. assert (forall o, fold_left
    (fun acc c => if str_eqb (Cond_Type c) ty then Some c else acc) cs o = Some c ->
    o = Some c \/ c ∈ cs) as H.
  { induction cs as [|x cs IH]; cbn; [auto|]. intros o E.
    apply IH in E as [E|E]; [|set_solver]. destruct (str_eqb _ _); [|auto].
    injection E as ->. set_solver. }
  intros E. by destruct (H _ E).
Qed.

(** C39. Reachable statuses are well formed: from a fresh status, every sequence
    of condition updates leaves either no conditions or exactly the four
    known ones in order, each with a transition time. *)
Theorem reachable_conditions_wf (st : RabbitmqClusterStatus) :
  status_reachable st -> conditions_wf (st_Conditions st).
Proof.
  induction 1 as [st H | st st' _ IH Hs]; [by left|].
  destruct Hs as [t rs st st' E | now ty s r m st].
  - right. split; [by eapply conditions_types|].
    assert (forall ty o, old_condition ty (st_Conditions st) = Some o ->
      Cond_LastTransitionTime o <> None) as Ht.
    { intros ty o Ho. apply old_condition_in in Ho.
      destruct IH as [E'|[_ HF]]; [rewrite E' in Ho; set_solver|].
      rewrite Forall_forall in HF. by apply HF. }
    apply SetConditions_unfold in E as (nw & Hnw & -> & _).
    destruct (no_warnings_loop_time _ _ _ Hnw) as [T1 T2]. rewrite seed_type in T2.
    repeat constructor.
    + apply assign_some; [apply Ht|]. destruct (all_replicas_loop_time rs (seed AllReplicasReady
        (old_condition AllReplicasReady (st_Conditions st)))) as [-> ->]. by rewrite seed_type.
    + apply assign_some; [apply Ht|]. destruct (cluster_available_loop_time rs (seed ClusterAvailable
        (old_condition ClusterAvailable (st_Conditions st)))) as [-> ->]. by rewrite seed_type.
    + apply assign_some; [apply Ht|]. by rewrite T1, T2.
    + destruct (old_condition ReconcileSuccess _) eqn:Eo; [by eapply Ht|done].
  - cbn. destruct IH as [->|[H1 H2]]; [by left|]. right.
    rewrite set_condition_loop_types. split; [done|]. by apply set_condition_loop_times.
Qed.

(** [SetCondition] on a well-formed status rewrites the condition of the
    given type only: status, reason and message are the new ones, the
    transition time moves exactly when the status changes. *)
Theorem SetCondition_spec (now : Z) (ty : string) (s : ConditionStatus) (reason msg : string)
    (st : RabbitmqClusterStatus) (i : nat) (c : RabbitmqClusterCondition) :
  NoDup (map Cond_Type (st_Conditions st)) ->
  st_Conditions st !! i = Some c ->
  st_Conditions (SetCondition now ty s reason [msg] st) !! i =
  Some (if decide (Cond_Type c = ty)
        then mkCond ty s (if decide (Cond_Status c = s) then Cond_LastTransitionTime c else Some now)
               reason msg
        else c).
Proof.
  unfold SetCondition. cbn. intros Hnd. revert i.
  induction (st_Conditions st) as [|x cs IH]; intros i Hi; [done|].
  cbn in Hnd. apply NoDup_cons in Hnd as [Hx Hnd]. cbn.
  destruct (str_eqb (Cond_Type x) ty) eqn:E.
  - apply str_eqb_spec in E. destruct i as [|i]; cbn in *.
    + injection Hi as ->. rewrite decide_True by done. unfold UpdateReason, UpdateState. cbn.
      by rewrite E.
    + rewrite Hi. rewrite decide_False; [done|]. intros <-. apply Hx. rewrite E.
      apply list_elem_of_fmap. exists c. split; [done|]. by eapply list_elem_of_lookup_2.
  - destruct i as [|i]; cbn in *; [|by apply IH]. injection Hi as ->.
    rewrite decide_False; [done|]. intros H. apply str_eqb_spec in H. congruence.
Qed.
