(* ===== verification/Sanitize.v ===== *)
(** * Sanitising the pod spec override

    [sanitizePodSpecOverride] of internal/resource/statefulset.go: the
    reconcile-time layer that strips host-level and privileged settings from
    [spec.override.statefulSet.spec.template.spec]. *)

From S2P Require Import Prelude.
From S2P Require Import K8s.

(** The body of the two loops over containers and init containers. *)
Definition sanitize_context (sc : SecurityContext) : SecurityContext :=
  mkSC
    (match sc_Capabilities sc with
     | Some caps => Some (mkCaps None (cap_Drop caps))
     | None => None
     end)
    (match sc_Privileged sc with Some true => Some false | p => p end)
    (match sc_RunAsUser sc with Some u => if (u =? 0)%Z then None else Some u | None => None end)
    (match sc_RunAsNonRoot sc with Some false => Some true | p => p end)
    (match sc_ReadOnlyRootFilesystem sc with Some _ => Some true | None => None end)
    (match sc_AllowPrivilegeEscalation sc with Some true => Some false | p => p end)
    (sc_SeccompProfile sc)
    (sc_other sc).

Definition c_with_security (sc : option SecurityContext) (c : Container) : Container :=
  mkContainer (c_Name c) (c_Image c) (c_Command c) (c_Args c) (c_Ports c) (c_Env c)
    (c_Resources c) (c_VolumeMounts c) (c_LivenessProbe c) (c_ReadinessProbe c)
    (c_StartupProbe c) (c_PreStop c) sc.

Definition sanitize_container (c : Container) : Container :=
  match c_SecurityContext c with
  | None => c
  | Some sc => c_with_security (Some (sanitize_context sc)) c
  end.

Definition is_hostpath (v : Volume) : bool :=
  match v_Source v with VolHostPath _ => true | _ => false end.

(** The in-place filtering of [podSpecOverride.Volumes]. *)
Fixpoint filter_volumes (vols : list Volume) : list Volume :=
  match vols with
  | [] => []
  | vol :: rest => if is_hostpath vol then filter_volumes rest else vol :: filter_volumes rest
  end.

Definition sanitizePodSpecOverride (p : PodSpec) : PodSpec :=
  mkPodSpec
    (filter_volumes (ps_Volumes p))
    (map sanitize_container (ps_InitContainers p))
    (map sanitize_container (ps_Containers p))
    false false false ""
    (ps_AutomountServiceAccountToken p) (ps_SecurityContext p) (ps_ImagePullSecrets p)
    (ps_TerminationGracePeriodSeconds p) (ps_Affinity p) (ps_Tolerations p)
    (ps_TopologySpreadConstraints p) (ps_other p).

(** ** Lemmas *)

Lemma sanitize_context_idem sc : sanitize_context (sanitize_context sc) = sanitize_context sc.
Proof.
  destruct sc as [caps p u n r a se o]. unfold sanitize_context. cbn. f_equal.
  - by destruct caps.
  - by destruct p as [[]|].
  - destruct u as [u|]; [|done]. destruct (u =? 0)%Z eqn:E; [done|]. by rewrite E.
  - by destruct n as [[]|].
  - by destruct r.
  - by destruct a as [[]|].
Qed.

Lemma sanitize_container_idem c : sanitize_container (sanitize_container c) = sanitize_container c.
Proof.
  unfold sanitize_container. destruct (c_SecurityContext c) as [sc|] eqn:E.
  - cbn. by rewrite sanitize_context_idem.
  - by rewrite E.
Qed.

Lemma filter_volumes_filter vols :
  filter_volumes vols = filter (fun v => is_hostpath v = false) vols.
Proof.
  induction vols as [|v vols IH]; [done|].
  rewrite filter_cons. cbn [filter_volumes].
  destruct (decide (is_hostpath v = false)) as [->|E]; [by rewrite IH|].
  apply not_false_is_true in E. by rewrite E.
Qed.

Lemma filter_volumes_idem vols : filter_volumes (filter_volumes vols) = filter_volumes vols.
Proof.
  induction vols as [|v vols IH]; cbn; [done|].
  destruct (is_hostpath v) eqn:E; [done|]. cbn. by rewrite E, IH.
Qed.

Lemma filter_volumes_id vols :
  forallb (fun v => negb (is_hostpath v)) vols = true <-> filter_volumes vols = vols.
Proof.
  split.
  - induction vols as [|v vols IH]; cbn; [done|].
    destruct (is_hostpath v); cbn; [done|]. intros H. by rewrite IH.
  - intros <-. induction vols as [|v vols IH]; cbn; [done|].
    destruct (is_hostpath v) eqn:E; cbn; [done|]. by rewrite E.
Qed.

(** ** Properties *)

(** Sanitising twice is sanitising once. *)
Theorem sanitize_idempotent (p : PodSpec) :
  sanitizePodSpecOverride (sanitizePodSpecOverride p) = sanitizePodSpecOverride p.
Proof.
  unfold sanitizePodSpecOverride. cbn. rewrite filter_volumes_idem, !map_map.
  f_equal; apply map_ext, sanitize_container_idem.
Qed.

(** Frame: everything that grants no host access is kept: every container
    with its name, image, command, environment, mounts and probes, the
    volumes that are not host paths in their order, and the pod-level fields
    the function does not name. *)
Theorem sanitize_frame (p : PodSpec) :
  let q := sanitizePodSpecOverride p in
  (forall f : Container -> Container, (forall c sc, f (c_with_security sc c) = f c) ->
     map f (ps_Containers q) = map f (ps_Containers p) /\
     map f (ps_InitContainers q) = map f (ps_InitContainers p)) /\
  ps_Volumes q = filter (fun v => is_hostpath v = false) (ps_Volumes p) /\
  ps_AutomountServiceAccountToken q = ps_AutomountServiceAccountToken p /\
  ps_SecurityContext q = ps_SecurityContext p /\
  ps_Affinity q = ps_Affinity p /\ ps_Tolerations q = ps_Tolerations p /\
  ps_ImagePullSecrets q = ps_ImagePullSecrets p /\ ps_other q = ps_other p.
Proof.
  cbn. split; [|by rewrite filter_volumes_filter].
  intros f Hf. assert (forall c, f (sanitize_container c) = f c) as H.
  { intros c. unfold sanitize_container. by destruct (c_SecurityContext c). }
  rewrite !map_map. split; by apply map_ext.
Qed.
