(* ===== verification/Webhook.v ===== *)
(** * Admission webhook

    internal/webhook/v1beta1/rabbitmqcluster_webhook.go: the validator that
    rejects privileged overrides and the defaulter.  The path library
    ([field.Path]) is represented by its elements. *)

From S2P Require Import Prelude.
From S2P Require Import K8s.
From S2P Require Import Metadata.
From S2P Require Import Status.
From S2P Require Import Api.
From S2P Require Import Sanitize.

Inductive PathElem := Child (name : string) | Index (i : nat).

#[export] Instance PathElem_eq_dec : EqDecision PathElem.
Proof. solve_decision. Defined.

Definition Path := list PathElem.

(** [field.Forbidden path detail] *)
Record FieldError := Forbidden { fe_Path : Path; fe_Detail : string }.

#[export] Instance FieldError_eq_dec : EqDecision FieldError.
Proof. solve_decision. Defined.

Definition specPath : Path :=
  map Child ["spec"; "override"; "statefulSet"; "spec"; "template"; "spec"].

Definition err_if (b : bool) (path : Path) (detail : string) : list FieldError :=
  if b then [Forbidden path detail] else [].

(** The tests of one container; the loops over containers and init
    containers have the same body. *)
Definition sc_test (c : Container) (p : SecurityContext -> bool) : bool :=
  match c_SecurityContext c with Some sc => p sc | None => false end.

Definition is_true (o : option bool) : bool := match o with Some b => b | None => false end.
Definition is_false (o : option bool) : bool := match o with Some b => negb b | None => false end.

Definition container_errors (cPath : Path) (c : Container) : list FieldError :=
  err_if (sc_test c (fun sc => is_true (sc_Privileged sc)))
    (cPath ++ [Child "securityContext"; Child "privileged"])
    "privileged containers are not permitted in override" ++
  err_if (sc_test c (fun sc => is_true (sc_AllowPrivilegeEscalation sc)))
    (cPath ++ [Child "securityContext"; Child "allowPrivilegeEscalation"])
    "allowPrivilegeEscalation is not permitted in override" ++
  err_if (sc_test c (fun sc => match sc_RunAsUser sc with Some u => (u =? 0)%Z | None => false end))
    (cPath ++ [Child "securityContext"; Child "runAsUser"])
    "runAsUser 0 is not permitted in override" ++
  err_if (sc_test c (fun sc => is_false (sc_RunAsNonRoot sc)))
    (cPath ++ [Child "securityContext"; Child "runAsNonRoot"])
    "runAsNonRoot false is not permitted in override" ++
  err_if (sc_test c (fun sc => is_false (sc_ReadOnlyRootFilesystem sc)))
    (cPath ++ [Child "securityContext"; Child "readOnlyRootFilesystem"])
    "readOnlyRootFilesystem false is not permitted in override" ++
  err_if (sc_test c (fun sc => match sc_Capabilities sc with
                               | Some caps => match cap_Add caps with Some _ => true | None => false end
                               | None => false end))
    (cPath ++ [Child "securityContext"; Child "capabilities"])
    "adding capabilities is not permitted in override".

Fixpoint indexed_errors {A} (f : nat -> A -> list FieldError) (i : nat) (l : list A) : list FieldError :=
  match l with
  | [] => []
  | x :: rest => f i x ++ indexed_errors f (S i) rest
  end.

Definition volume_error (i : nat) (v : Volume) : list FieldError :=
  err_if (is_hostpath v) (specPath ++ [Child "volumes"; Index i; Child "hostPath"])
    "hostPath volumes are not permitted in override".

Definition pod_spec_errors (podSpec : PodSpec) : list FieldError :=
  err_if (ps_HostPID podSpec) (specPath ++ [Child "hostPID"]) "hostPID is not permitted in override" ++
  err_if (ps_HostNetwork podSpec) (specPath ++ [Child "hostNetwork"])
    "hostNetwork is not permitted in override" ++
  err_if (ps_HostIPC podSpec) (specPath ++ [Child "hostIPC"]) "hostIPC is not permitted in override" ++
  err_if (negb (str_eqb (ps_ServiceAccountName podSpec) "")) (specPath ++ [Child "serviceAccountName"])
    "serviceAccountName is managed by the operator and cannot be overridden" ++
  indexed_errors volume_error 0 (ps_Volumes podSpec) ++
  indexed_errors (fun i => container_errors (specPath ++ [Child "containers"; Index i])) 0
    (ps_Containers podSpec) ++
  indexed_errors (fun i => container_errors (specPath ++ [Child "initContainers"; Index i])) 0
    (ps_InitContainers podSpec).

Definition override_pod_spec (cluster : RabbitmqCluster) : option PodSpec :=
  override ← ov_StatefulSet (spec_Override (rmq_Spec cluster));
  spec ← ost_Spec override;
  template ← os_Template spec;
  opt_Spec template.

(** [apierrors.NewInvalid] of the cluster's name and the errors. *)
Record InvalidError := NewInvalid { inv_Name : string; inv_Errors : list FieldError }.

Definition validatePodSpecOverride (cluster : RabbitmqCluster) : result InvalidError unit :=
  match override_pod_spec cluster with
  | None => Ok tt
  | Some podSpec =>
      match pod_spec_errors podSpec with
      | [] => Ok tt
      | allErrs => Err (NewInvalid (rmq_Name cluster) allErrs)
      end
  end.

Definition ValidateCreate (obj : RabbitmqCluster) : result InvalidError unit :=
  validatePodSpecOverride obj.
Definition ValidateUpdate (oldObj newObj : RabbitmqCluster) : result InvalidError unit :=
  validatePodSpecOverride newObj.
Definition ValidateDelete (obj : RabbitmqCluster) : result InvalidError unit := Ok tt.

(** ** Defaulting *)

Record RabbitmqClusterCustomDefaulter := mkDefaulter {
  d_DefaultRabbitmqImage : string;
  d_DefaultImagePullSecrets : string;
  d_DefaultUserUpdaterImage : string;
}.

(** The loop over [strings.SplitSeq(d.DefaultImagePullSecrets, ",")];
    appending to a nil slice makes it non-nil. *)
Fixpoint append_refs (refs : list string) (acc : option (list string)) : option (list string) :=
  match refs with
  | [] => acc
  | ref :: rest =>
      append_refs rest (if str_eqb ref "" then acc else Some (default [] acc ++ [ref]))
  end.

Definition comma : Ascii.ascii := Ascii.ascii_of_nat 44.

Definition spec_with_defaults (image : string) (pull : option (list string))
    (backend : SecretBackend) (s : RabbitmqClusterSpec) : RabbitmqClusterSpec :=
  mkSpec (spec_Replicas s) image pull (spec_Service s) (spec_Persistence s) (spec_Resources s)
    (spec_Affinity s) (spec_Tolerations s) (spec_Rabbitmq s) (spec_TLS s) (spec_Override s)
    (spec_SkipPostDeploySteps s) (spec_AutoEnableAllFeatureFlags s)
    (spec_TerminationGracePeriodSeconds s) (spec_DelayStartSeconds s) backend.

Definition vault_with_updater (image : option string) (v : VaultSpec) : VaultSpec :=
  mkVault (va_Role v) (va_Annotations v) (va_DefaultUserPath v) image (va_TLS v).

Definition Default (d : RabbitmqClusterCustomDefaulter) (obj : RabbitmqCluster) : RabbitmqCluster :=
  let s := rmq_Spec obj in
  let image := if str_eqb (spec_Image s) "" then d_DefaultRabbitmqImage d else spec_Image s in
  let pull := match spec_ImagePullSecrets s with
              | None => if str_eqb (d_DefaultImagePullSecrets d) "" then None
                        else append_refs (split_on comma (d_DefaultImagePullSecrets d)) None
              | some => some
              end in
  let backend := match sb_Vault (spec_SecretBackend s) with
                 | Some v => match va_DefaultUserUpdaterImage v with
                             | None => mkBackend (Some (vault_with_updater
                                         (Some (d_DefaultUserUpdaterImage d)) v))
                                         (sb_ExternalSecret_Name (spec_SecretBackend s))
                             | Some _ => spec_SecretBackend s
                             end
                 | None => spec_SecretBackend s
                 end in
  rmq_with_spec (spec_with_defaults image pull backend s) obj.

(** ** Lemmas *)

Lemma err_if_nil b p d : err_if b p d = [] <-> b = false.
Proof. by destruct b. Qed.

Lemma app_nil_iff {A} (l k : list A) : l ++ k = [] <-> l = [] /\ k = [].
Proof. split; [apply app_eq_nil | by intros [-> ->]]. Qed.

Lemma indexed_errors_nil {A} (f : nat -> A -> list FieldError) (P : A -> Prop) i l :
  (forall i x, f i x = [] <-> P x) -> indexed_errors f i l = [] <-> Forall P l.
Proof.
  intros Hf. revert i. induction l as [|x l IH]; intros i; cbn.
  - split; [by constructor | done].
  - by rewrite app_nil_iff, Hf, IH, Forall_cons.
Qed.

Lemma indexed_errors_in {A} (f : nat -> A -> list FieldError) (l : list A) i j x e :
  l !! j = Some x -> e ∈ f (i + j)%nat x -> e ∈ indexed_errors f i l.
Proof.
  revert i j. induction l as [|y l IH]; intros i j Hj He; [done|]. cbn.
  apply elem_of_app. destruct j as [|j]; cbn in Hj.
  - injection Hj as ->. left. by rewrite Nat.add_0_r in He.
  - right. apply (IH (S i) j Hj). by rewrite Nat.add_succ_comm.
Qed.

Lemma container_errors_nil p c : container_errors p c = [] <-> sanitize_container c = c.
Proof.
  unfold container_errors, sanitize_container, sc_test. rewrite !app_nil_iff, !err_if_nil.
  destruct c as [n im cm ar po en re vo li rd stp pre sec]; cbn.
  destruct sec as [[caps pr u nr ro al se ot]|]; cbn; [|naive_solver].
  unfold c_with_security, sanitize_context; cbn.
  split.
  - intros (H1 & H2 & H3 & H4 & H5 & H6). do 2 f_equal. f_equal.
    + destruct caps as [[[]]|]; done.
    + destruct pr as [[]|]; done.
    + destruct u as [u|]; [|done]. by rewrite H3.
    + destruct nr as [[]|]; done.
    + destruct ro as [[]|]; done.
    + destruct al as [[]|]; done.
  - intros [= Hc Hp Hu Hn Hr Ha]. repeat split.
    + by destruct pr as [[]|].
    + by destruct al as [[]|].
    + destruct u as [u|]; [|done]. by destruct (u =? 0)%Z.
    + by destruct nr as [[]|].
    + by destruct ro as [[]|].
    + destruct caps as [[[]]|]; done.
Qed.

Lemma map_id_iff {A} (f : A -> A) l : map f l = l <-> Forall (fun x => f x = x) l.
Proof.
  induction l as [|x l IH]; cbn; [split; [by constructor|done]|].
  rewrite Forall_cons, <- IH. split; [by intros [= -> ->] | by intros [-> ->]].
Qed.

Lemma volume_errors_nil vols :
  indexed_errors volume_error 0 vols = [] <-> filter_volumes vols = vols.
Proof.
  rewrite <- filter_volumes_id.
  rewrite (indexed_errors_nil volume_error (fun v => is_hostpath v = false)).
  - rewrite forallb_forall, List.Forall_forall. setoid_rewrite negb_true_iff. done.
  - intros i v. apply err_if_nil.
Qed.

(** ** Properties of the validator *)

(** C17. The two layers agree: the webhook accepts a pod spec override exactly
    when the reconcile-time sanitiser would leave it unchanged. *)
Theorem webhook_accepts_iff_sanitized (cluster : RabbitmqCluster) :
  validatePodSpecOverride cluster = Ok tt <->
  (forall p, override_pod_spec cluster = Some p -> sanitizePodSpecOverride p = p).
Proof.
  unfold validatePodSpecOverride. destruct (override_pod_spec cluster) as [p|]; [|naive_solver].
  assert (pod_spec_errors p = [] <-> sanitizePodSpecOverride p = p) as H.
  { unfold pod_spec_errors. rewrite !app_nil_iff, !err_if_nil, volume_errors_nil.
    rewrite !(indexed_errors_nil _ (fun c => sanitize_container c = c))
      by (intros; apply container_errors_nil).
    rewrite <- !map_id_iff, negb_false_iff, str_eqb_spec.
    destruct p as [vols ini con pid net ipc sa au sec ips tg aff tol tsc ot].
    unfold sanitizePodSpecOverride. cbn. split.
    - by intros (-> & -> & -> & -> & -> & -> & ->).
    - by intros [= -> -> -> <- <- <- <-]. }
  split.
  - intros Hv q [= <-]. apply H. by destruct (pod_spec_errors p).
  - intros Hs. by rewrite (proj2 H (Hs p eq_refl)).
Qed.

(** What is rejected, and where it is reported: an accepted override grants
    nothing of the listed kinds; and when a container asks for privileged
    mode the error names that container by its index. *)
Theorem webhook_reports_privileged (cluster : RabbitmqCluster) (p : PodSpec) (i : nat)
    (c : Container) (sc : SecurityContext) :
  override_pod_spec cluster = Some p ->
  ps_Containers p !! i = Some c -> c_SecurityContext c = Some sc -> sc_Privileged sc = Some true ->
  exists errs, ValidateCreate cluster = Err (NewInvalid (rmq_Name cluster) errs) /\
    Forbidden (specPath ++ [Child "containers"; Index i; Child "securityContext"; Child "privileged"])
      "privileged containers are not permitted in override" ∈ errs.
Proof.
  intros Hp Hc Hsc Hpr. unfold ValidateCreate, validatePodSpecOverride. rewrite Hp.
  assert (Forbidden (specPath ++ [Child "containers"; Index i; Child "securityContext"; Child "privileged"])
      "privileged containers are not permitted in override" ∈ pod_spec_errors p) as Hin.
  { unfold pod_spec_errors. rewrite !elem_of_app. do 5 right. left.
    eapply indexed_errors_in; [exact Hc|]. unfold container_errors, sc_test.
    rewrite Hsc, Hpr. cbn. left. }
  destruct (pod_spec_errors p) as [|e es]; [by apply not_elem_of_nil in Hin|]. eauto.
Qed.

(** ** Properties of the defaulter *)

Lemma append_refs_spec refs acc :
  append_refs refs acc =
  match filter (fun r => r <> "") refs with
  | [] => acc
  | kept => Some (default [] acc ++ kept)
  end.
Proof.
  revert acc. induction refs as [|r refs IH]; intros acc; [done|].
  cbn [append_refs]. rewrite IH, filter_cons. destruct (str_eqb r "") eqn:E.
  - apply str_eqb_spec in E. rewrite decide_False; [done|]. by intros H.
  - rewrite decide_True by (intros ->; done).
    destruct (filter _ refs); cbn; [done|]. by rewrite <- app_assoc.
Qed.

(** Defaulting fills only what the user left unset, and applying it again
    changes nothing. *)
Theorem Default_spec (d : RabbitmqClusterCustomDefaulter) (obj : RabbitmqCluster) :
  let obj' := Default d obj in
  spec_Image (rmq_Spec obj') =
    (if decide (spec_Image (rmq_Spec obj) = "") then d_DefaultRabbitmqImage d
     else spec_Image (rmq_Spec obj)) /\
  (forall refs, spec_ImagePullSecrets (rmq_Spec obj) = Some refs ->
     spec_ImagePullSecrets (rmq_Spec obj') = Some refs) /\
  (spec_ImagePullSecrets (rmq_Spec obj) = None ->
     default [] (spec_ImagePullSecrets (rmq_Spec obj')) =
     filter (fun r => r <> "") (split_on comma (d_DefaultImagePullSecrets d))) /\
  (forall v, vault_of obj = Some v ->
     exists v', vault_of obj' = Some v' /\
     va_DefaultUserUpdaterImage v' =
       Some (default (d_DefaultUserUpdaterImage d) (va_DefaultUserUpdaterImage v))) /\
  (vault_of obj = None -> vault_of obj' = None) /\
  rmq_Meta obj' = rmq_Meta obj /\ rmq_Status obj' = rmq_Status obj /\
  spec_Override (rmq_Spec obj') = spec_Override (rmq_Spec obj).
Proof.
  cbn. unfold vault_of. cbn. repeat split_and.
  - destruct (str_eqb _ _) eqn:E; [apply str_eqb_spec in E; by rewrite decide_True|].
    rewrite decide_False; [done|]. intros H. by apply str_eqb_spec in H; rewrite H in E.
  - by intros refs ->.
  - intros ->. destruct (str_eqb (d_DefaultImagePullSecrets d) "") eqn:E.
    + apply str_eqb_spec in E. by rewrite E.
    + rewrite append_refs_spec. by destruct (filter _ _).
  - intros v Hv. rewrite Hv. destruct (va_DefaultUserUpdaterImage v) as [im|] eqn:E; cbn; [|eauto].
    exists v. by rewrite Hv, E.
  - intros Hv. by rewrite !Hv.
  - done.
  - done.
  - done.
Qed.

Theorem Default_idempotent (d : RabbitmqClusterCustomDefaulter) (obj : RabbitmqCluster) :
  Default d (Default d obj) = Default d obj.
Proof.
  unfold Default, rmq_with_spec, spec_with_defaults. cbn. f_equal. f_equal.
  - destruct (str_eqb (spec_Image _) "") eqn:E; [|by rewrite E].
    by destruct (str_eqb (d_DefaultRabbitmqImage d) "").
  - destruct (spec_ImagePullSecrets _) as [refs|]; [done|].
    destruct (str_eqb (d_DefaultImagePullSecrets d) "") eqn:E; [by rewrite ?E|].
    destruct (append_refs _ None) as [r|] eqn:E'; [done|]. done.
  - destruct (spec_SecretBackend (rmq_Spec obj)) as [[v|] ext]; cbn; [|done].
    destruct (va_DefaultUserUpdaterImage v) as [im|] eqn:E; cbn; [by rewrite E|done].
Qed.
