(* ===== verification/Plugins.v ===== *)
(** * The plugins ConfigMap

    internal/resource/rabbitmq_plugins.go. *)

From S2P Require Import Prelude.
From S2P Require Import K8s.
From S2P Require Import Metadata.
From S2P Require Import Status.
From S2P Require Import Api.

Definition requiredPlugins : list string :=
  ["rabbitmq_peer_discovery_k8s"; "rabbitmq_prometheus"; "rabbitmq_management"].

Definition PluginsConfigName : string := "plugins-conf".

Record RabbitmqPlugins := mkPlugins {
  pl_requiredPlugins : list string;
  pl_additionalPlugins : list string;
}.

Definition NewRabbitmqPlugins (plugins : list string) : RabbitmqPlugins :=
  mkPlugins requiredPlugins plugins.

(** The loop of [DesiredPlugins]: [check] is the map of plugins seen. *)
Fixpoint desired_loop (check : gset string) (allPlugins : list string) : list string :=
  match allPlugins with
  | [] => []
  | p :: rest =>
      if decide (p ∈ check) then desired_loop check rest
      else p :: desired_loop ({[p]} ∪ check) rest
  end.

Definition DesiredPlugins (r : RabbitmqPlugins) : list string :=
  desired_loop ∅ (pl_requiredPlugins r ++ pl_additionalPlugins r).

Definition AsString (r : RabbitmqPlugins) (sep : string) : string := Join (DesiredPlugins r) sep.

Definition desiredPluginsAsString (additionalPlugins : list string) : string :=
  "[" +:+ AsString (NewRabbitmqPlugins additionalPlugins) "," +:+ "].".

Section Builder.
Context `{OwnerRefs}.

Definition plugins_Build (instance : RabbitmqCluster) : ConfigMap :=
  mkCM
    (om_with_labels (Some (GetLabels (rmq_Name instance) (rmq_Labels instance)))
      (om_with_annotations (Some (ReconcileAndFilterAnnotations None [rmq_Annotations instance]))
        (meta_named (ChildResourceName instance PluginsConfigName) (rmq_Namespace instance))))
    (Some {["enabled_plugins" := desiredPluginsAsString []]}).

Definition plugins_Update (instance : RabbitmqCluster) (configMap : ConfigMap)
  : result string ConfigMap :=
  let data := <["enabled_plugins" :=
                desiredPluginsAsString (rc_AdditionalPlugins (spec_Rabbitmq (rmq_Spec instance)))]>
              (smap_entries (cm_Data configMap)) in
  try m := map_err (fun e => "failed setting controller reference: " +:+ e)
             (SetControllerReference (rmq_Meta instance) (cm_Meta configMap)) in
  Ok (mkCM m (Some data)).
End Builder.

(** ** Lemmas on the deduplication loop *)

Lemma desired_loop_elem check l p : p ∈ desired_loop check l <-> p ∈ l /\ p ∉ check.
Proof.
  revert check. induction l as [|x l IH]; intros check; cbn; [set_solver|].
  destruct (decide (x ∈ check)); [rewrite IH; set_solver|].
  rewrite !elem_of_cons, IH. destruct (decide (p = x)); set_solver.
Qed.

Lemma desired_loop_nodup check l : NoDup (desired_loop check l).
Proof.
  revert check. induction l as [|x l IH]; intros check; cbn; [constructor|].
  destruct (decide (x ∈ check)); [apply IH|]. constructor; [|apply IH].
  rewrite desired_loop_elem. set_solver.
Qed.

Lemma desired_loop_sublist check l : desired_loop check l `sublist_of` l.
Proof.
  revert check. induction l as [|x l IH]; intros check; cbn; [done|].
  destruct (decide (x ∈ check)); [by apply sublist_cons | by apply sublist_skip].
Qed.

Lemma desired_loop_app check l k :
  desired_loop check (l ++ k) = desired_loop check l ++ desired_loop (list_to_set l ∪ check) k.
Proof.
  revert check. induction l as [|x l IH]; intros check; cbn.
  - f_equal. set_solver.
  - destruct (decide (x ∈ check)); rewrite IH; cbn; do 2 f_equal.
    + set_solver.
    + f_equal. set_solver.
Qed.

(** ** Properties *)

(** The enabled plugins: the required ones come first and in order, then the
    user's extra ones in the order they were given; nothing is listed twice,
    nothing is lost and nothing is added. *)
Theorem DesiredPlugins_spec (plugins : list string) :
  let desired := DesiredPlugins (NewRabbitmqPlugins plugins) in
  requiredPlugins `prefix_of` desired /\ NoDup desired /\
  (forall p, p ∈ desired <-> p ∈ requiredPlugins \/ p ∈ plugins) /\
  desired `sublist_of` requiredPlugins ++ plugins.
Proof.
  cbn zeta. unfold DesiredPlugins, NewRabbitmqPlugins.
  cbn [pl_requiredPlugins pl_additionalPlugins].
  split; [|split; [|split]].
  - rewrite desired_loop_app. apply prefix_app_r.
    replace (desired_loop ∅ requiredPlugins) with requiredPlugins by (vm_compute; reflexivity).
    done.
  - apply desired_loop_nodup.
  - intros p. rewrite desired_loop_elem. set_solver.
  - apply desired_loop_sublist.
Qed.
