(* ===== verification/Override.v ===== *)
(** * Merging overrides into object metadata

    [mergeMap], [copyLabelsAnnotations] and [copyObjectMeta] of
    internal/resource/statefulset.go, and the interface of the strategic
    merge patch library both override functions rely on. *)

From S2P Require Import Prelude.
From S2P Require Import K8s.
From S2P Require Import Metadata.
From S2P Require Import Status.
From S2P Require Import Api.

(** [maps.Copy(result, override)] on a fresh or existing map. *)
Definition mergeMap (base override : smap) : gmap string string :=
  smap_entries override ∪ smap_entries base.

Definition copyLabelsAnnotations (base : ObjectMeta) (override : EmbeddedLabelsAnnotations) : ObjectMeta :=
  let m1 := match ela_Labels override with
            | Some _ => om_with_labels (Some (mergeMap (om_Labels base) (ela_Labels override))) base
            | None => base end in
  match ela_Annotations override with
  | Some _ => om_with_annotations (Some (mergeMap (om_Annotations m1) (ela_Annotations override))) m1
  | None => m1
  end.

Definition copyObjectMeta (base : ObjectMeta) (override : EmbeddedObjectMeta) : ObjectMeta :=
  let m0 := if str_eqb (eom_Name override) "" then base else om_with_name (eom_Name override) base in
  let m1 := match eom_Labels override with
            | Some _ => om_with_labels (Some (mergeMap (om_Labels m0) (eom_Labels override))) m0
            | None => m0 end in
  match eom_Annotations override with
  | Some _ => om_with_annotations (Some (mergeMap (om_Annotations m1) (eom_Annotations override))) m1
  | None => m1
  end.

(** [json.Marshal] of both values, [strategicpatch.StrategicMergePatch] and
    [json.Unmarshal] of the result: library code, a parameter.  The error is
    the already wrapped message. *)
Class StrategicMerge : Type := {
  merge_service_spec : ServiceSpec -> ServiceSpec -> result string ServiceSpec;
  merge_pod_spec : PodSpec -> PodSpec -> result string PodSpec;
}.

(** An instance for concrete examples: keep the original. *)
Definition merge_keep : StrategicMerge := {|
  merge_service_spec o _ := Ok o;
  merge_pod_spec o _ := Ok o;
|}.

Lemma mergeMap_lookup base override k :
  mergeMap base override !! k =
  match smap_get override k with Some v => Some v | None => smap_get base k end.
Proof.
  rewrite !smap_get_entries. unfold mergeMap. rewrite lookup_union.
  by destruct (smap_entries override !! k), (smap_entries base !! k).
Qed.

Lemma copyObjectMeta_namespace base o : om_Namespace (copyObjectMeta base o) = om_Namespace base.
Proof.
  unfold copyObjectMeta. destruct (str_eqb _ _), (eom_Labels o), (eom_Annotations o); done.
Qed.

Lemma copyLabelsAnnotations_namespace base o :
  om_Namespace (copyLabelsAnnotations base o) = om_Namespace base.
Proof. unfold copyLabelsAnnotations. by destruct (ela_Labels o), (ela_Annotations o). Qed.

(** Overriding labels and annotations never removes a key, and the user's
    value wins on the keys the override names. *)
Theorem copyLabelsAnnotations_spec (base : ObjectMeta) (o : EmbeddedLabelsAnnotations) (k : string) :
  let m := copyLabelsAnnotations base o in
  smap_get (om_Labels m) k =
    match smap_get (ela_Labels o) k with Some v => Some v | None => smap_get (om_Labels base) k end /\
  smap_get (om_Annotations m) k =
    match smap_get (ela_Annotations o) k with
    | Some v => Some v | None => smap_get (om_Annotations base) k end /\
  om_Name m = om_Name base /\ om_Namespace m = om_Namespace base /\
  om_OwnerReferences m = om_OwnerReferences base.
Proof.
  cbn zeta. unfold copyLabelsAnnotations.
  destruct (ela_Labels o) as [l|], (ela_Annotations o) as [a|]; cbn [om_Labels om_Annotations
    om_with_labels om_with_annotations om_Name om_Namespace om_OwnerReferences];
    rewrite ?smap_get_some, ?mergeMap_lookup; done.
Qed.
