(* ===== verification/Services.v ===== *)
(** * The client Service and the headless Service

    internal/resource/service.go and internal/resource/headless_service.go.
    Go iterates over a map in an unspecified order: [iter] is that order,
    any permutation of the entries. *)

From S2P Require Import Prelude.
From S2P Require Import K8s.
From S2P Require Import Metadata.
From S2P Require Import Status.
From S2P Require Import Api.
From S2P Require Import Override.

Definition ServiceSuffix : string := "".
Definition headlessServiceSuffix : string := "nodes".

Definition protocolTCP : string := "TCP".

(** A [corev1.ServicePort] literal of the source: the target port is the
    port, and no node port is set. *)
Definition tcp_port (name : string) (port : Z) (appProtocol : string) : ServicePort :=
  mkSPort name protocolTCP (Some appProtocol) port (FromInt port) 0.

Definition add_port_if (b : bool) (name : string) (port : Z) (app : string)
    (m : gmap string ServicePort) : gmap string ServicePort :=
  if b then <[name := tcp_port name port app]> m else m.

Definition generateServicePortsMap (instance : RabbitmqCluster) : gmap string ServicePort :=
  let plugin := AdditionalPluginEnabled instance in
  let m0 : gmap string ServicePort := ∅ in
  let m1 :=
    if negb (DisableNonTLSListeners instance) then
      let m := <["amqp" := tcp_port "amqp" 5672 "amqp"]> m0 in
      let m := <["management" := tcp_port "management" 15672 "http"]> m in
      let m := add_port_if (plugin "rabbitmq_mqtt") "mqtt" 1883 "mqtt" m in
      let m := add_port_if (plugin "rabbitmq_web_mqtt") "web-mqtt" 15675 "http" m in
      let m := add_port_if (plugin "rabbitmq_stomp") "stomp" 61613 "stomp.github.io/stomp" m in
      let m := add_port_if (plugin "rabbitmq_web_stomp") "web-stomp" 15674 "http" m in
      let m := add_port_if (plugin "rabbitmq_web_amqp") "web-amqp" 15678 "http" m in
      add_port_if (StreamNeeded instance) "stream" 5552 "rabbitmq.com/stream" m
    else m0 in
  if TLSEnabled instance then
    let m := <["amqps" := tcp_port "amqps" 5671 "amqps"]> m1 in
    let m := <["management-tls" := tcp_port "management-tls" 15671 "https"]> m in
    let m := add_port_if (plugin "rabbitmq_stomp") "stomps" 61614 "stomp.github.io/stomp-tls" m in
    let m := add_port_if (plugin "rabbitmq_mqtt") "mqtts" 8883 "mqtts" m in
    let m := add_port_if (plugin "rabbitmq_web_stomp") "web-stomp-tls" 15673 "https" m in
    let m := add_port_if (plugin "rabbitmq_web_mqtt") "web-mqtt-tls" 15676 "https" m in
    let m := add_port_if (plugin "rabbitmq_web_amqp") "web-amqp-tls" 15677 "https" m in
    let m := add_port_if (StreamNeeded instance) "streams" 5551 "rabbitmq.com/stream-tls" m in
    <["prometheus-tls" := tcp_port "prometheus-tls" 15691 "prometheus.io/metric-tls"]> m
  else
    <["prometheus" := tcp_port "prometheus" 15692 "prometheus.io/metrics"]> m1.

Definition port_with_nodePort (n : Z) (p : ServicePort) : ServicePort :=
  mkSPort (port_Name p) (port_Protocol p) (port_AppProtocol p) (port_Port p) (port_TargetPort p) n.

(** The first loop of [updatePorts]: existing ports that are still wanted
    keep their place and their node port, and leave the map. *)
Fixpoint keep_ports (servicePorts : list ServicePort) (m : gmap string ServicePort)
  : list ServicePort * gmap string ServicePort :=
  match servicePorts with
  | [] => ([], m)
  | servicePort :: rest =>
      match m !! port_Name servicePort with
      | Some value =>
          let (ps, m') := keep_ports rest (delete (port_Name servicePort) m) in
          (port_with_nodePort (port_NodePort servicePort) value :: ps, m')
      | None => keep_ports rest m
      end
  end.

Section Service.
Context (iter : gmap string ServicePort -> list (string * ServicePort)).

Definition updatePorts (instance : RabbitmqCluster) (servicePorts : list ServicePort)
  : list ServicePort :=
  let (kept, remaining) := keep_ports servicePorts (generateServicePortsMap instance) in
  kept ++ map snd (iter remaining).

Definition service_Build (instance : RabbitmqCluster) : Service :=
  mkSvc (meta_named (ChildResourceName instance ServiceSuffix) (rmq_Namespace instance))
    (mkSvcSpec "" "" "" None [] false None None).

Definition service_setAnnotations (instance : RabbitmqCluster) (annotations : smap) : smap :=
  let filtered := ReconcileAndFilterAnnotations annotations [rmq_Annotations instance] in
  match ser_Annotations (spec_Service (rmq_Spec instance)) with
  | Some a => Some (ReconcileAnnotations (Some filtered) [Some a])
  | None => Some filtered
  end.

(** The loop over [Spec.Service.Labels]: a label the operator sets wins. *)
Definition add_service_labels (extra : smap) (labels : gmap string string) : gmap string string :=
  map_fold (fun k v acc => match acc !! k with Some _ => acc | None => <[k := v]> acc end)
    labels (smap_entries extra).

Context `{StrategicMerge}.

Definition svc_with_ports (ps : list ServicePort) (s : ServiceSpec) : ServiceSpec :=
  mkSvcSpec (svc_Type s) (svc_ClusterIP s) (svc_SessionAffinity s) (svc_Selector s) ps
    (svc_PublishNotReadyAddresses s) (svc_IPFamilyPolicy s) (svc_other s).

Definition applySvcOverride (svc : Service) (override : OverrideService) : result string Service :=
  let m := match osv_LabelsAnnotations override with
           | Some la => copyLabelsAnnotations (svc_Meta svc) la
           | None => svc_Meta svc
           end in
  match osv_Spec override with
  | None => Ok (mkSvc m (svc_Spec svc))
  | Some o => try patched := merge_service_spec (svc_Spec svc) o in Ok (mkSvc m patched)
  end.

Context `{OwnerRefs}.

Definition is_clusterip (ty : string) : bool := str_eqb ty "ClusterIP" || str_eqb ty "".

(** The Service before the override and the owner reference. *)
Definition service_desired (instance : RabbitmqCluster) (service : Service) : Service :=
  let s := spec_Service (rmq_Spec instance) in
  let annotations := service_setAnnotations instance (om_Annotations (svc_Meta service)) in
  let labels := add_service_labels (ser_Labels s)
                  (GetLabels (rmq_Name instance) (rmq_Labels instance)) in
  let ports := updatePorts instance (svc_Ports (svc_Spec service)) in
  let ports := if is_clusterip (ser_Type s) then map (port_with_nodePort 0) ports else ports in
  let old := svc_Spec service in
  mkSvc (om_with_labels (Some labels) (om_with_annotations annotations (svc_Meta service)))
    (mkSvcSpec (ser_Type s) (svc_ClusterIP old) (svc_SessionAffinity old)
       (Some (LabelSelector (rmq_Name instance))) ports
       (svc_PublishNotReadyAddresses old) (ser_IPFamilyPolicy s) (svc_other old)).

Definition service_Update (instance : RabbitmqCluster) (service : Service) : result string Service :=
  let desired := service_desired instance service in
  try overridden := match ov_Service (spec_Override (rmq_Spec instance)) with
                    | None => Ok desired
                    | Some o => map_err (fun e => "failed applying Service override: " +:+ e)
                                  (applySvcOverride desired o)
                    end in
  try m := map_err (fun e => "failed setting controller reference: " +:+ e)
             (SetControllerReference (rmq_Meta instance) (svc_Meta overridden)) in
  Ok (mkSvc m (svc_Spec overridden)).

(** ** headless_service.go *)

Definition headless_Build (instance : RabbitmqCluster) : Service :=
  mkSvc (meta_named (ChildResourceName instance headlessServiceSuffix) (rmq_Namespace instance))
    (mkSvcSpec "" "" "" None [] false None None).

Definition headless_spec (instance : RabbitmqCluster) : ServiceSpec :=
  mkSvcSpec "ClusterIP" "None" "None" (Some (LabelSelector (rmq_Name instance)))
    [ mkSPort "epmd" protocolTCP None 4369 (FromInt 4369) 0;
      mkSPort "cluster-rpc" protocolTCP None 25672 (FromInt 25672) 0 ]
    true (ser_IPFamilyPolicy (spec_Service (rmq_Spec instance))) None.

Definition headless_Update (instance : RabbitmqCluster) (service : Service) : result string Service :=
  let m := om_with_annotations
             (Some (ReconcileAndFilterAnnotations (om_Annotations (svc_Meta service))
                      [rmq_Annotations instance]))
             (om_with_labels (Some (GetLabels (rmq_Name instance) (rmq_Labels instance)))
                (svc_Meta service)) in
  try m' := map_err (fun e => "failed setting controller reference: " +:+ e)
              (SetControllerReference (rmq_Meta instance) m) in
  Ok (mkSvc m' (headless_spec instance)).
End Service.

(** ** Lemmas on the generated map *)

(** Every entry is a TCP port filed under its own name. *)
Definition well_named (m : gmap string ServicePort) : Prop :=
  forall k p, m !! k = Some p ->
    port_Name p = k /\ port_Protocol p = protocolTCP /\ port_TargetPort p = FromInt (port_Port p) /\
    port_NodePort p = 0%Z.

Lemma well_named_insert m n z app : well_named m -> well_named (<[n := tcp_port n z app]> m).
Proof.
  intros H k p. destruct (decide (n = k)) as [<-|Hne].
  - rewrite lookup_insert_eq. by intros [= <-].
  - rewrite lookup_insert_ne by done. apply H.
Qed.

Lemma well_named_empty : well_named ∅.
Proof. intros k p. by rewrite lookup_empty. Qed.

Lemma well_named_add_if b n z app m : well_named m -> well_named (add_port_if b n z app m).
Proof. destruct b; cbn; [apply well_named_insert | done]. Qed.

#[export] Hint Resolve well_named_insert well_named_empty well_named_add_if : rmq.

Lemma generate_well_named instance : well_named (generateServicePortsMap instance).
Proof.
  unfold generateServicePortsMap. destruct (TLSEnabled instance), (DisableNonTLSListeners instance);
    cbn [negb]; auto 25 with rmq.
Qed.

(** ** Lemmas on the port update *)

(** The node port an existing list of ports assigns to a name: that of the
    first port of the name, none otherwise. *)
Definition node_port_of (servicePorts : list ServicePort) (name : string) : Z :=
  match find_first (fun p => str_eqb (port_Name p) name) servicePorts with
  | Some p => port_NodePort p
  | None => 0
  end.

Lemma node_port_of_head p ps : node_port_of (p :: ps) (port_Name p) = port_NodePort p.
Proof. unfold node_port_of. cbn. by rewrite (proj2 (str_eqb_spec _ _) eq_refl). Qed.

Lemma node_port_of_tail p ps n : port_Name p <> n -> node_port_of (p :: ps) n = node_port_of ps n.
Proof.
  intros Hne. unfold node_port_of. cbn. destruct (str_eqb (port_Name p) n) eqn:E; [|done].
  by apply str_eqb_spec in E.
Qed.

Lemma node_port_of_absent ps n : n ∉ map port_Name ps -> node_port_of ps n = 0%Z.
Proof.
  induction ps as [|p ps IH]; [done|]. cbn. intros [Hne Hn]%not_elem_of_cons.
  rewrite node_port_of_tail by congruence. by apply IH.
Qed.

Lemma well_named_delete m k : well_named m -> well_named (delete k m).
Proof. intros H k' q [_ Hq]%lookup_delete_Some. by apply H. Qed.

(** What the first loop keeps, and what it leaves in the map. *)
Lemma keep_ports_spec ps m kept rest :
  keep_ports ps m = (kept, rest) -> well_named m ->
  NoDup (map port_Name kept) /\
  (forall k, k ∈ map port_Name kept <-> k ∈ dom m /\ k ∈ map port_Name ps) /\
  (forall k, rest !! k = if decide (k ∈ map port_Name ps) then None else m !! k) /\
  (forall p, p ∈ kept -> exists q, m !! port_Name p = Some q /\
     p = port_with_nodePort (node_port_of ps (port_Name p)) q).
Proof.
  revert m kept rest. induction ps as [|p ps IH]; intros m kept rest; cbn.
  - intros [= <- <-] _. cbn. split; [constructor|]. set_solver.
  - destruct (m !! port_Name p) as [v|] eqn:E.
    + destruct (keep_ports ps (delete (port_Name p) m)) as [k0 m0] eqn:Ek.
      intros [= <- <-] Hm. destruct (Hm _ _ E) as (Hn & _).
      destruct (IH _ _ _ Ek (well_named_delete _ _ Hm)) as (N & D & R & P).
      cbn. rewrite Hn. split; [|split; [|split]].
      * constructor; [|done]. rewrite D. set_solver.
      * intros k. rewrite !elem_of_cons, D, dom_delete_L.
        apply elem_of_dom_2 in E. destruct (decide (k = port_Name p)) as [->|]; set_solver.
      * intros k. rewrite R. destruct (decide (k = port_Name p)) as [->|Hk].
        -- rewrite lookup_delete_eq. rewrite (decide_True (P := _ ∈ _ :: _)) by set_solver.
           by destruct (decide _).
        -- rewrite lookup_delete_ne by done.
           destruct (decide (k ∈ map port_Name ps)).
           ++ by rewrite decide_True by set_solver.
           ++ by rewrite decide_False by set_solver.
      * intros q [->|Hq]%elem_of_cons.
        -- exists v. cbn. rewrite Hn. by rewrite node_port_of_head.
        -- destruct (P _ Hq) as (w & [Hne Hw]%lookup_delete_Some & Hv). exists w.
           by rewrite node_port_of_tail.
    + intros Ek Hm. destruct (IH _ _ _ Ek Hm) as (N & D & R & P).
      apply not_elem_of_dom in E. split; [done|]. split; [|split].
      * intros k. rewrite D, elem_of_cons. split; [set_solver|]. intros [? [->|?]]; [done|done].
      * intros k. rewrite R. destruct (decide (k = port_Name p)) as [->|Hk].
        -- rewrite (decide_True (P := _ ∈ _ :: _)) by set_solver.
           apply not_elem_of_dom in E. rewrite E. by destruct (decide _).
        -- destruct (decide (k ∈ map port_Name ps)).
           ++ by rewrite decide_True by set_solver.
           ++ by rewrite decide_False by set_solver.
      * intros q Hq. destruct (P _ Hq) as (w & Hw & Hv). exists w. split; [done|].
        rewrite node_port_of_tail; [done|]. intros Heq. apply E. rewrite Heq. by eapply elem_of_dom_2.
Qed.

(** A list the operator produced is kept as it is. *)
Lemma keep_ports_id ps m kept rest :
  keep_ports ps m = (kept, rest) -> NoDup (map port_Name ps) ->
  (forall p, p ∈ ps -> exists q, m !! port_Name p = Some q /\ p = port_with_nodePort (port_NodePort p) q) ->
  kept = ps.
Proof.
  revert m kept rest. induction ps as [|p ps IH]; intros m kept rest; cbn; [by intros [= <- <-]|].
  intros Ek [Hp Hnd]%NoDup_cons Hall. destruct (Hall p) as (q & Hq & Hpq); [set_solver|].
  rewrite Hq in Ek. destruct (keep_ports ps (delete (port_Name p) m)) as [k0 m0] eqn:E0.
  injection Ek as <- <-. rewrite <- Hpq. f_equal. apply (IH _ _ _ E0 Hnd).
  intros p' Hp'. destruct (Hall p') as (q' & Hq' & E'); [set_solver|]. exists q'. split; [|done].
  rewrite lookup_delete_ne; [done|]. intros Heq. apply Hp. rewrite Heq.
  apply list_elem_of_fmap. by exists p'.
Qed.

(** ** Properties *)

Section Properties.
Context (iter : gmap string ServicePort -> list (string * ServicePort)).

(** the order in which Go walks the map is some order of its entries *)
Context (iter_perm : forall m, iter m ≡ₚ map_to_list m).

Lemma iter_elem m k p : (k, p) ∈ iter m <-> m !! k = Some p.
Proof. by rewrite iter_perm, elem_of_map_to_list. Qed.

Lemma iter_empty : iter ∅ = [].
Proof. apply Permutation_nil. by rewrite iter_perm, map_to_list_empty. Qed.

Lemma iter_names m : well_named m -> map port_Name (map snd (iter m)) = map fst (iter m).
Proof.
  intros Hm. rewrite map_map. apply map_ext_in. intros [k p] Hin%list_elem_of_In.
  apply iter_elem in Hin. cbn. by destruct (Hm _ _ Hin).
Qed.

Lemma updatePorts_facts (instance : RabbitmqCluster) (servicePorts : list ServicePort) :
  let wanted := generateServicePortsMap instance in
  let ports := updatePorts iter instance servicePorts in
  NoDup (map port_Name ports) /\
  (forall k, k ∈ map port_Name ports <-> k ∈ dom wanted) /\
  (forall p, p ∈ ports -> exists q, wanted !! port_Name p = Some q /\
     p = port_with_nodePort (node_port_of servicePorts (port_Name p)) q).
Proof.
  cbn zeta. unfold updatePorts. pose proof (generate_well_named instance) as Hw.
  destruct (keep_ports _ _) as [kept rest] eqn:E.
  destruct (keep_ports_spec _ _ _ _ E Hw) as (N & D & R & P).
  assert (well_named rest) as Hr.
  { intros k p. rewrite R. destruct (decide _); [done|]. apply Hw. }
  rewrite map_app, iter_names by done.
  assert (forall k, k ∈ map fst (iter rest) <-> k ∈ dom (generateServicePortsMap instance) /\
    k ∉ map port_Name servicePorts) as Hit.
  { intros k. rewrite elem_of_dom. split.
    - intros ([k' p] & -> & Hin)%list_elem_of_fmap. apply iter_elem in Hin. rewrite R in Hin.
      cbn. destruct (decide _); [done|]. eauto.
    - intros [[p Hp] Hn]. apply list_elem_of_fmap. exists (k, p). split; [done|].
      apply iter_elem. by rewrite R, decide_False. }
  split; [|split].
  - apply NoDup_app. split; [done|]. split.
    + intros k [_ Hk]%D [_ Hk']%Hit. done.
    + rewrite iter_perm. apply NoDup_fst_map_to_list.
  - intros k. rewrite elem_of_app, D, Hit. destruct (decide (k ∈ map port_Name servicePorts)); tauto.
  - intros p [Hp|Hp]%elem_of_app; [by apply P|].
    apply list_elem_of_fmap in Hp as ([k q] & -> & Hin). apply iter_elem in Hin.
    destruct (Hr _ _ Hin) as (Hn & _ & _ & H0). cbn. exists q. rewrite Hn.
    rewrite R in Hin. destruct (decide _); [done|]. split; [done|].
    rewrite node_port_of_absent by done. destruct q; cbn in *. by rewrite H0.
Qed.

(** The ports of the Service after an update are exactly the wanted ones,
    once each, whatever ports it had and whatever order Go walks the map:
    each is the generated port with the node port it already had. *)
Theorem updatePorts_spec (instance : RabbitmqCluster) (servicePorts : list ServicePort) :
  let wanted := generateServicePortsMap instance in
  let ports := updatePorts iter instance servicePorts in
  NoDup (map port_Name ports) /\
  (forall k, k ∈ map port_Name ports <-> k ∈ dom wanted) /\
  (forall p, p ∈ ports -> exists q, wanted !! port_Name p = Some q /\
     p = port_with_nodePort (node_port_of servicePorts (port_Name p)) q).
Proof. apply updatePorts_facts. Qed.

(** A list that holds exactly the wanted ports is left alone. *)
Definition settled (instance : RabbitmqCluster) (r : list ServicePort) : Prop :=
  NoDup (map port_Name r) /\
  (forall k, k ∈ map port_Name r <-> k ∈ dom (generateServicePortsMap instance)) /\
  (forall p, p ∈ r -> exists q, generateServicePortsMap instance !! port_Name p = Some q /\
     p = port_with_nodePort (port_NodePort p) q).

Lemma updatePorts_settled instance ps : settled instance (updatePorts iter instance ps).
Proof.
  destruct (updatePorts_facts instance ps) as (N & D & P). split; [done|]. split; [done|].
  intros p Hp. destruct (P p Hp) as (q & Hq & E). exists q. split; [done|].
  rewrite E at 2. rewrite E at 1. done.
Qed.

Lemma settled_fixed instance r : settled instance r -> updatePorts iter instance r = r.
Proof.
  intros (N & D & P). unfold updatePorts. destruct (keep_ports r _) as [kept rest] eqn:E.
  destruct (keep_ports_spec _ _ _ _ E (generate_well_named instance)) as (_ & _ & R & _).
  rewrite (keep_ports_id _ _ _ _ E N P).
  assert (rest = ∅) as ->; [|by rewrite iter_empty, app_nil_r].
  apply map_empty. intros k. rewrite R. destruct (decide _) as [|Hn]; [done|].
  apply not_elem_of_dom. by rewrite <- D.
Qed.

Lemma settled_zero instance r : settled instance r -> settled instance (map (port_with_nodePort 0) r).
Proof.
  assert (map port_Name (map (port_with_nodePort 0) r) = map port_Name r) as Hn by (by rewrite map_map).
  intros (N & D & P). unfold settled. rewrite Hn. split; [done|]. split; [done|].
  intros p (p' & -> & Hp')%list_elem_of_fmap. destruct (P p' Hp') as (q & Hq & E).
  exists q. split; [done|]. by rewrite E.
Qed.

Lemma add_service_labels_lookup extra labels k :
  add_service_labels extra labels !! k =
  match labels !! k with Some v => Some v | None => smap_get extra k end.
Proof.
  rewrite smap_get_entries. unfold add_service_labels. revert k.
  apply (map_fold_weak_ind (fun r (m : gmap string string) => forall k, r !! k =
    match labels !! k with Some v => Some v | None => m !! k end)).
  - intros k. rewrite lookup_empty. by destruct (labels !! k).
  - intros i x m' r Hi IH k. destruct (decide (i = k)) as [<-|Hne].
    + rewrite lookup_insert_eq, (IH i), Hi. destruct (labels !! i) eqn:E.
      * by rewrite IH, E.
      * by rewrite lookup_insert_eq.
    + rewrite (lookup_insert_ne m') by done.
      destruct (r !! i); [apply IH|]. rewrite lookup_insert_ne by done. apply IH.
Qed.

Lemma setAnnotations_stable instance a :
  service_setAnnotations instance (service_setAnnotations instance a) =
  service_setAnnotations instance a.
Proof.
  unfold service_setAnnotations. destruct (ser_Annotations _) as [s|]; f_equal; apply map_eq; intros k;
    rewrite ?ReconcileAnnotations_lookup1, ?smap_get_some, ?ReconcileAndFilterAnnotations_lookup,
      ?smap_get_some, ?ReconcileAnnotations_lookup1, ?smap_get_some,
      ?ReconcileAndFilterAnnotations_lookup.
  - by destruct (s !! k), (smap_get (rmq_Annotations instance) k), (isNotKubernetesAnnotation k).
  - by destruct (smap_get (rmq_Annotations instance) k), (isNotKubernetesAnnotation k).
Qed.

Lemma service_desired_twice (instance : RabbitmqCluster) (service : Service) :
  service_desired iter instance (service_desired iter instance service) =
  service_desired iter instance service.
Proof.
  assert (settled instance (svc_Ports (svc_Spec (service_desired iter instance service)))) as S.
  { cbn. pose proof (updatePorts_settled instance (svc_Ports (svc_Spec service))).
    destruct (is_clusterip _); [by apply settled_zero | done]. }
  set (d := service_desired iter instance service) in *.
  unfold service_desired at 1. rewrite (settled_fixed _ _ S).
  subst d. cbn [svc_Meta svc_Spec service_desired om_Annotations om_with_labels om_with_annotations
    svc_ClusterIP svc_SessionAffinity svc_Ports svc_PublishNotReadyAddresses svc_other].
  rewrite setAnnotations_stable. unfold service_desired. f_equal. f_equal.
  destruct (is_clusterip _); [|done]. by rewrite map_map.
Qed.

(** Reconciling the Service is stable: the Service computed from an already
    reconciled Service is that Service, so an unchanged cluster never
    triggers another update; node ports included. *)
Theorem service_desired_stable (instance : RabbitmqCluster) (service : Service) :
  service_desired iter instance (service_desired iter instance service) =
  service_desired iter instance service.
Proof. apply service_desired_twice. Qed.

(** What the client Service always is: its selector selects the cluster's
    pods, the labels it needs for the operator's cache are in place, and a
    ClusterIP Service has no node port. *)
Theorem service_desired_spec (instance : RabbitmqCluster) (service : Service) :
  let d := service_desired iter instance service in
  svc_Selector (svc_Spec d) = Some (LabelSelector (rmq_Name instance)) /\
  (forall k v, GetLabels (rmq_Name instance) (rmq_Labels instance) !! k = Some v ->
     smap_get (om_Labels (svc_Meta d)) k = Some v) /\
  (is_clusterip (ser_Type (spec_Service (rmq_Spec instance))) = true ->
     forall p, p ∈ svc_Ports (svc_Spec d) -> port_NodePort p = 0%Z).
Proof.
  cbn zeta. split; [done|]. split.
  - intros k v Hk. cbn. rewrite add_service_labels_lookup. by rewrite Hk.
  - intros Hc p. cbn. rewrite Hc. by intros (q & -> & _)%list_elem_of_fmap.
Qed.
End Properties.

(** ** Which ports are exposed *)

Definition tls_port_names : list string :=
  ["amqps"; "management-tls"; "stomps"; "mqtts"; "web-stomp-tls"; "web-mqtt-tls";
   "web-amqp-tls"; "streams"; "prometheus-tls"].

(** All ports of the map listed under their names satisfy [P]. *)
Definition ports_all (P : string -> ServicePort -> Prop) (m : gmap string ServicePort) : Prop :=
  map_Forall P m.

Lemma ports_all_insert P m n z app :
  ports_all P m -> P n (tcp_port n z app) -> ports_all P (<[n := tcp_port n z app]> m).
Proof. intros. by apply map_Forall_insert_2. Qed.

Lemma ports_all_add_if P m b n z app :
  ports_all P m -> (b = true -> P n (tcp_port n z app)) -> ports_all P (add_port_if b n z app m).
Proof. destruct b; cbn; [|done]. intros. apply ports_all_insert; auto. Qed.

Ltac solve_ports_all :=
  repeat lazymatch goal with
  | |- ports_all _ (add_port_if _ _ _ _ _) => apply ports_all_add_if; [|intros _]
  | |- ports_all _ (<[_ := tcp_port _ _ _]> _) => apply ports_all_insert
  | |- ports_all _ ∅ => apply map_Forall_empty
  end.

(** With non-TLS listeners disabled (and TLS on, as [reconcileTLS] demands)
    the Service exposes only TLS ports: no client can reach a plain-text
    listener through it.  With TLS off it never exposes a TLS port. *)
Theorem service_ports_tls (instance : RabbitmqCluster) :
  (DisableNonTLSListeners instance = true -> TLSEnabled instance = true ->
     forall k, k ∈ dom (generateServicePortsMap instance) -> k ∈ tls_port_names) /\
  (TLSEnabled instance = false ->
     forall k, k ∈ dom (generateServicePortsMap instance) -> k ∉ tls_port_names).
Proof.
  assert (forall (P : string -> Prop) m, ports_all (fun k _ => P k) m -> forall k, k ∈ dom m -> P k) as H.
  { intros P m HP k [p Hp]%elem_of_dom. by apply (HP k p). }
  assert (forall k, bool_decide (k ∈ tls_port_names) = true -> k ∈ tls_port_names) as Hin
    by (intros k; apply bool_decide_eq_true).
  assert (forall k, bool_decide (k ∈ tls_port_names) = false -> k ∉ tls_port_names) as Hnot
    by (intros k; apply bool_decide_eq_false).
  unfold generateServicePortsMap. split.
  - intros -> ->. apply (H (fun k => k ∈ tls_port_names)). cbn [negb].
    solve_ports_all; apply Hin; reflexivity.
  - intros ->. apply (H (fun k => k ∉ tls_port_names)).
    destruct (DisableNonTLSListeners instance); cbn [negb]; solve_ports_all; apply Hnot; reflexivity.
Qed.
