(* ===== verification/Ini.v ===== *)
(** * The ini library as an interface

    gopkg.in/ini.v1 is library code: the builders of the ConfigMap and of the
    default user Secret use it through the operations below, all on the
    default section.  [IniLaws] states the documented behaviour they rely on;
    [line_ini] is a small concrete instance, used to evaluate examples and to
    show that the laws can hold. *)

From S2P Require Import Prelude.

Class Ini : Type := {
  ini : Type;
  (** [ini.Load(data)] *)
  ini_Load : string -> result string ini;
  (** [ini.Empty()] *)
  ini_Empty : ini;
  (** [Section("").Key(k)] with [HasKey] *)
  ini_Get : ini -> string -> option string;
  (** [Section("").KeyStrings()] *)
  ini_KeyStrings : ini -> list string;
  (** [Section("").NewKey(k, v)] *)
  ini_NewKey : string -> string -> ini -> result string ini;
  (** [Section("").DeleteKey(k)] *)
  ini_DeleteKey : string -> ini -> ini;
  (** [file.Append(data)] *)
  ini_Append : string -> ini -> result string ini;
  (** [file.WriteTo(w)] *)
  ini_Write : ini -> result string string
}.

Class IniLaws `{Ini} : Prop := {
  ini_empty_get k : ini_Get ini_Empty k = None;
  ini_keys f k : k ∈ ini_KeyStrings f <-> is_Some (ini_Get f k);
  (** creating a key that exists replaces its value *)
  ini_newkey_ok k v f : k <> "" -> exists f', ini_NewKey k v f = Ok f';
  ini_newkey_eq k v f f' : ini_NewKey k v f = Ok f' -> ini_Get f' k = Some v;
  ini_newkey_ne k v f f' k' : ini_NewKey k v f = Ok f' -> k <> k' -> ini_Get f' k' = ini_Get f k';
  ini_delete_eq k f : ini_Get (ini_DeleteKey k f) k = None;
  ini_delete_ne k f k' : k <> k' -> ini_Get (ini_DeleteKey k f) k' = ini_Get f k';
  (** a later source overrides an earlier one, and removes nothing *)
  ini_append_load s f f' : ini_Append s f = Ok f' -> exists g, ini_Load s = Ok g;
  ini_append_wins s f f' g k v :
    ini_Append s f = Ok f' -> ini_Load s = Ok g -> ini_Get g k = Some v -> ini_Get f' k = Some v;
  ini_append_dom s f f' g k :
    ini_Append s f = Ok f' -> ini_Load s = Ok g ->
    is_Some (ini_Get f' k) <-> is_Some (ini_Get f k) \/ is_Some (ini_Get g k);
  (** keys are listed in the order of their creation *)
  ini_newkey_keys k v f f' :
    ini_NewKey k v f = Ok f' ->
    ini_KeyStrings f' =
      if decide (k ∈ ini_KeyStrings f) then ini_KeyStrings f else ini_KeyStrings f ++ [k];
  ini_delete_keys k f : ini_KeyStrings (ini_DeleteKey k f) = filter (fun k' => k' <> k) (ini_KeyStrings f);
  (** what is written depends on the keys, their order and their values *)
  ini_write_ext f g :
    ini_KeyStrings f = ini_KeyStrings g -> (forall k, ini_Get f k = ini_Get g k) ->
    ini_Write f = ini_Write g
}.

(** ** A concrete instance: [key = value] lines in order *)

Definition kv := (string * string)%type.

Fixpoint kv_get (f : list kv) (k : string) : option string :=
  match f with
  | [] => None
  | (k', v) :: rest => if decide (k' = k) then Some v else kv_get rest k
  end.

Fixpoint kv_set (k v : string) (f : list kv) : list kv :=
  match f with
  | [] => [(k, v)]
  | (k', v') :: rest => if decide (k' = k) then (k, v) :: rest else (k', v') :: kv_set k v rest
  end.

Definition equals_sign : Ascii.ascii := Ascii.ascii_of_nat 61.

Definition parse_line (line : string) : result string (option kv) :=
  match split_on equals_sign line with
  | [] => Ok None
  | [w] => if str_eqb (TrimSpace w) "" then Ok None
           else Err ("key-value delimiter not found: " +:+ w)
  | k :: vs => Ok (Some (TrimSpace k, TrimSpace (Join vs "=")))
  end.

Fixpoint parse_lines (lines : list string) (f : list kv) : result string (list kv) :=
  match lines with
  | [] => Ok f
  | l :: rest =>
      try o := parse_line l in
      parse_lines rest (match o with Some (k, v) => kv_set k v f | None => f end)
  end.

Definition kv_append (s : string) (f : list kv) : result string (list kv) :=
  parse_lines (split_on newline s) f.

Definition kv_newkey (k v : string) (f : list kv) : result string (list kv) :=
  if str_eqb k "" then Err "error creating new key: empty key name" else Ok (kv_set k v f).

Definition kv_write (f : list kv) : string :=
  String.concat "" (map (fun k => k +:+ " = " +:+ default "" (kv_get f k) +:+ nl) (map fst f)).

#[export] Instance line_ini : Ini | 100 := {|
  ini := list kv;
  ini_Load s := kv_append s [];
  ini_Empty := [];
  ini_Get := kv_get;
  ini_KeyStrings f := map fst f;
  ini_NewKey := kv_newkey;
  ini_DeleteKey k f := filter (fun e => fst e <> k) f;
  ini_Append := kv_append;
  ini_Write f := Ok (kv_write f);
|}.

Lemma kv_get_set_eq k v f : kv_get (kv_set k v f) k = Some v.
Proof.
  induction f as [|[k' v'] f IH]; cbn; [by rewrite decide_True|].
  destruct (decide (k' = k)) as [->|Hne]; cbn; [by rewrite decide_True|by rewrite decide_False].
Qed.

Lemma kv_get_set_ne k v f k' : k <> k' -> kv_get (kv_set k v f) k' = kv_get f k'.
Proof.
  intros Hne. induction f as [|[k0 v0] f IH]; cbn; [by rewrite decide_False|].
  destruct (decide (k0 = k)) as [->|Hk]; cbn.
  - by rewrite !decide_False.
  - destruct (decide (k0 = k')); [done|apply IH].
Qed.

Lemma kv_get_set k v f k' : kv_get (kv_set k v f) k' = if decide (k = k') then Some v else kv_get f k'.
Proof.
  destruct (decide (k = k')) as [<-|]; [apply kv_get_set_eq | by apply kv_get_set_ne].
Qed.

Lemma kv_set_keys k v f :
  map fst (kv_set k v f) = if decide (k ∈ map fst f) then map fst f else map fst f ++ [k].
Proof.
  induction f as [|[k' v'] f IH]; [done|]. cbn [kv_set map fst].
  destruct (decide (k' = k)) as [->|Hne]; cbn [map fst].
  - by rewrite decide_True by set_solver.
  - rewrite IH. destruct (decide (k ∈ map fst f)).
    + by rewrite decide_True by set_solver.
    + by rewrite decide_False by set_solver.
Qed.

Lemma parse_lines_gen lines f f' :
  parse_lines lines f = Ok f' ->
  exists g, parse_lines lines [] = Ok g /\
  forall k, kv_get f' k = match kv_get g k with Some v => Some v | None => kv_get f k end.
Proof.
  assert (forall lines f g0 f', parse_lines lines f = Ok f' ->
    (forall h, (forall k, kv_get f k = match kv_get g0 k with Some v => Some v | None => kv_get h k end) ->
    exists g, parse_lines lines g0 = Ok g /\
    forall k, kv_get f' k = match kv_get g k with Some v => Some v | None => kv_get h k end)) as H.
  { clear. intros lines. induction lines as [|l lines IH]; intros f g0 f'; cbn.
    - intros [= <-] h Hh. eauto.
    - destruct (parse_line l) as [[[k v]|]|]; cbn; [| |done].
      + intros E h Hh. apply (IH _ _ _ E h). intros k'. rewrite !kv_get_set.
        by destruct (decide (k = k')).
      + intros E h Hh. by apply (IH _ _ _ E h). }
  intros E. by apply (H _ _ [] _ E f).
Qed.

Lemma line_ini_laws : @IniLaws line_ini.
Proof.
  constructor; cbn.
  - done.
  - intros f k. induction f as [|[k' v] f IH]; cbn.
    + split; [by intros ?%elem_of_nil | by intros [? ?]].
    + rewrite elem_of_cons, IH. destruct (decide (k' = k)) as [->|Hne]; [by naive_solver|].
      split; [by intros [->|]|auto].
  - intros k v f Hk. unfold kv_newkey. destruct (str_eqb k "") eqn:E; [by apply str_eqb_spec in E|eauto].
  - intros k v f f'. unfold kv_newkey. destruct (str_eqb k ""); [done|]. intros [= <-]. apply kv_get_set_eq.
  - intros k v f f' k'. unfold kv_newkey. destruct (str_eqb k ""); [done|]. intros [= <-].
    apply kv_get_set_ne.
  - intros k f. induction f as [|[k' v] f IH]; [done|]. rewrite filter_cons.
    destruct (decide _) as [Hne|Heq]; cbn in *; [|done]. by rewrite decide_False.
  - intros k f k' Hk. induction f as [|[k0 v] f IH]; [done|]. rewrite filter_cons.
    destruct (decide _) as [Hne|Heq]; cbn in *.
    + destruct (decide (k0 = k')); [done|apply IH].
    + rewrite decide_False; [done|]. intros ->. apply Heq. by intros ->.
  - intros s f f' E. apply parse_lines_gen in E as (g & Hg & _). eauto.
  - intros s f f' g k v E Hg Hk. apply parse_lines_gen in E as (g' & Hg' & Hall).
    unfold kv_append in Hg. rewrite Hg in Hg'. injection Hg' as <-. by rewrite Hall, Hk.
  - intros s f f' g k E Hg. apply parse_lines_gen in E as (g' & Hg' & Hall).
    unfold kv_append in Hg. rewrite Hg in Hg'. injection Hg' as <-. rewrite Hall.
    destruct (kv_get g k) eqn:Ek; [naive_solver|]. split; [auto|]. by intros [?|[? ?]].
  - intros k v f f'. unfold kv_newkey. destruct (str_eqb k ""); [done|]. intros [= <-]. apply kv_set_keys.
  - intros k f. induction f as [|[k' v] f IH]; [done|]. destruct (decide (k' = k)) as [->|Hne].
    + cbn [map fst]. rewrite !filter_cons_False by (cbn; tauto). exact IH.
    + cbn [map fst]. rewrite !filter_cons_True by done. cbn [map fst]. by f_equal.
  - intros f g Hk Hg. unfold kv_write. rewrite Hk. do 2 f_equal. apply map_ext. intros k. by rewrite Hg.
Qed.
