(* ===== verification/Secrets.v ===== *)
(** * The default user Secret and the Erlang cookie

    internal/resource/default_user_secret.go and erlang_cookie.go.  The bytes
    of [crypto/rand] are an argument.  Writing to a nil map panics in Go;
    the reconciler's caller turns a panic into an error, so it is an [Err]. *)

From S2P Require Import Prelude.
From S2P Require Import Base64.
From S2P Require Import K8s.
From S2P Require Import Metadata.
From S2P Require Import Status.
From S2P Require Import Api.
From S2P Require Import Ini.

(** [rand.Read] of [n] bytes: a source of randomness, or its failure. *)
Definition RandSource := nat -> result string (list Z).

Definition randomEncodedString (rand : RandSource) (dataLen : nat) : result string string :=
  try randomBytes := rand dataLen in Ok (EncodeToString URLEncoding randomBytes).

(** ** default_user_secret.go *)

Definition DefaultUserSecretName : string := "default-user".
Definition bindingProvider : string := "rabbitmq".
Definition bindingType : string := "rabbitmq".
Definition usernamePrefix : string := "default_user_".

(** [encodedSlice[0 : len(encodedSlice)-len(usernamePrefix)]] panics when
    the encoding is shorter than the prefix. *)
Definition generateUsername (rand : RandSource) (l : nat) : result string string :=
  try encoded := randomEncodedString rand l in
  if (String.length encoded <? String.length usernamePrefix)%nat
  then Err "panic: slice bounds out of range"
  else Ok (usernamePrefix +:+
           str_take (String.length encoded - String.length usernamePrefix) encoded).

Section DefaultUser.
Context `{Ini}.

Definition generateDefaultUserConf (username password : string) : result string string :=
  try cfg := ini_Load "" in
  try cfg := ini_NewKey "default_user" username cfg in
  try cfg := ini_NewKey "default_pass" password cfg in
  ini_Write cfg.

Definition AMQPPort : string := "5672".
Definition AMQPSPort : string := "5671".

Definition portNames : list (string * string) :=
  [ ("rabbitmq_mqtt", "mqtt-port"); ("rabbitmq_stomp", "stomp-port");
    ("rabbitmq_stream", "stream-port"); ("rabbitmq_web_mqtt", "web-mqtt-port");
    ("rabbitmq_web_stomp", "web-stomp-port"); ("rabbitmq_web_amqp", "web-amqp-port") ].

Definition TLSPort : gmap string string := list_to_map
  [ ("mqtt-port", "8883"); ("stomp-port", "61614"); ("stream-port", "5551");
    ("web-mqtt-port", "15676"); ("web-stomp-port", "15673"); ("web-amqp-port", "15677") ].

Definition plainPort : gmap string string := list_to_map
  [ ("mqtt-port", "1883"); ("stomp-port", "61613"); ("stream-port", "5552");
    ("web-mqtt-port", "15675"); ("web-stomp-port", "15674"); ("web-amqp-port", "15678") ].

(** The loop over [portNames] (a map in the source; its port names are
    distinct, so the order does not matter). *)
Definition set_plugin_port (instance : RabbitmqCluster) (ports : gmap string string)
    (data : gmap string string) (e : string * string) : gmap string string :=
  let (plugin, portName) := e in
  if AdditionalPluginEnabled instance plugin
  then <[portName := default "" (ports !! portName)]> data
  else delete portName data.

Definition secret_updatePorts (instance : RabbitmqCluster) (data : gmap string string)
  : gmap string string :=
  if negb (str_eqb (tls_SecretName (spec_TLS (rmq_Spec instance))) "")
  then fold_left (set_plugin_port instance TLSPort) portNames (<["port" := AMQPSPort]> data)
  else fold_left (set_plugin_port instance plainPort) portNames (<["port" := AMQPPort]> data).

(** [%s] of an absent entry prints nothing. *)
Definition entry (data : gmap string string) (k : string) : string := default "" (data !! k).

Definition connection_string (scheme : string) (data : gmap string string) : string :=
  scheme +:+ "://" +:+ entry data "username" +:+ ":" +:+ entry data "password" +:+ "@" +:+
  entry data "host" +:+ ":" +:+ entry data "port" +:+ "/".

Definition updateConnectionString (instance : RabbitmqCluster) (data : gmap string string)
  : gmap string string :=
  if negb (str_eqb (tls_SecretName (spec_TLS (rmq_Spec instance))) "")
  then <["connection_string" := connection_string "amqps" data]> data
  else <["connection_string" := connection_string "amqp" data]> data.

(** The [default_user] and [default_pass] of the user's configuration. *)
Definition configured_credentials (additionalConfig : string) : result string (string * string) :=
  if str_eqb additionalConfig "" then Ok ("", "")
  else
    try cfg := map_err (fun e => "failed to parse additionalConfig: " +:+ e)
                 (ini_Load additionalConfig) in
    Ok (default "" (ini_Get cfg "default_user"), default "" (ini_Get cfg "default_pass")).

Definition secret_Build (rand : RandSource) (instance : RabbitmqCluster) : result string Secret :=
  try creds := configured_credentials (rc_AdditionalConfig (spec_Rabbitmq (rmq_Spec instance))) in
  try username := (if str_eqb (fst creds) "" then generateUsername rand 24 else Ok (fst creds)) in
  try password := (if str_eqb (snd creds) "" then randomEncodedString rand 24 else Ok (snd creds)) in
  try defaultUserConf := generateDefaultUserConf username password in
  let data : gmap string string := list_to_map
    [ ("username", username); ("password", password); ("default_user.conf", defaultUserConf);
      ("provider", bindingProvider); ("type", bindingType);
      ("host", ServiceSubDomain instance) ] in
  Ok (mkSecret (meta_named (ChildResourceName instance DefaultUserSecretName) (rmq_Namespace instance))
        "Opaque"
        (Some (updateConnectionString instance (secret_updatePorts instance data)))).

Context `{OwnerRefs}.

Definition child_meta (instance : RabbitmqCluster) (m : ObjectMeta) : ObjectMeta :=
  om_with_annotations (Some (ReconcileAndFilterAnnotations (om_Annotations m) [rmq_Annotations instance]))
    (om_with_labels (Some (GetLabels (rmq_Name instance) (rmq_Labels instance))) m).

Definition secret_Update (instance : RabbitmqCluster) (secret : Secret) : result string Secret :=
  match sec_Data secret with
  | None => Err "panic: assignment to entry in nil map"
  | Some data =>
      let data' := updateConnectionString instance (secret_updatePorts instance data) in
      try m := map_err (fun e => "failed setting controller reference: " +:+ e)
                 (SetControllerReference (rmq_Meta instance) (child_meta instance (sec_Meta secret))) in
      Ok (mkSecret m (sec_Type secret) (Some data'))
  end.

(** ** erlang_cookie.go *)

Definition erlangCookieName : string := "erlang-cookie".

Definition cookie_Build (rand : RandSource) (instance : RabbitmqCluster) : result string Secret :=
  try cookie := randomEncodedString rand 24 in
  Ok (mkSecret (meta_named (ChildResourceName instance erlangCookieName) (rmq_Namespace instance))
        "Opaque" (Some {[".erlang.cookie" := cookie]})).

Definition cookie_Update (instance : RabbitmqCluster) (secret : Secret) : result string Secret :=
  try m := map_err (fun e => "failed setting controller reference: " +:+ e)
             (SetControllerReference (rmq_Meta instance) (child_meta instance (sec_Meta secret))) in
  Ok (mkSecret m (sec_Type secret) (sec_Data secret)).
End DefaultUser.

(** ** Lemmas *)

(** The ports of the plugins: written once each, other entries untouched. *)
Lemma set_plugin_port_lookup instance ports l data k :
  NoDup (map snd l) ->
  fold_left (set_plugin_port instance ports) l data !! k =
  match find_first (fun e => str_eqb (snd e) k) l with
  | Some e => if AdditionalPluginEnabled instance (fst e)
              then Some (default "" (ports !! k)) else None
  | None => data !! k
  end.
Proof.
  revert data. induction l as [|[p n] l IH]; intros data Hnd; [done|].
  apply NoDup_cons in Hnd as [Hn Hnd]. cbn [fold_left]. rewrite (IH _ Hnd). unfold find_first.
  cbn [List.find snd fst]. destruct (str_eqb n k) eqn:E.
  - apply str_eqb_spec in E as ->.
    destruct (List.find _ l) as [[p' n']|] eqn:Ef.
    + apply find_some in Ef as [Hin E%str_eqb_spec]. cbn in E. subst. destruct Hn.
      apply list_elem_of_fmap. exists (p', k). split; [done|]. by apply list_elem_of_In.
    + unfold set_plugin_port. cbn [fst]. destruct (AdditionalPluginEnabled instance p);
        [by rewrite lookup_insert_eq | by rewrite lookup_delete_eq].
  - destruct (List.find _ l); [done|].
    assert (n <> k) by (intros H; apply str_eqb_spec in H; congruence).
    unfold set_plugin_port. destruct (AdditionalPluginEnabled instance p);
      [by rewrite lookup_insert_ne | by rewrite lookup_delete_ne].
Qed.

Lemma portNames_nodup : NoDup (map snd portNames).
Proof. apply (bool_decide_unpack _). by vm_compute. Qed.

Lemma portNames_find e :
  e ∈ portNames ->
  find_first (fun e' => str_eqb (snd e') (snd e)) portNames = Some e /\
  is_Some (TLSPort !! snd e) /\ is_Some (plainPort !! snd e).
Proof.
  revert e. apply Forall_forall.
  repeat constructor; first [reflexivity | eexists; vm_compute; reflexivity].
Qed.

Lemma connection_string_no_port : "connection_string" ∉ map snd portNames.
Proof. apply (bool_decide_unpack _). by vm_compute. Qed.

Lemma secret_updatePorts_lookup instance data k :
  secret_updatePorts instance data !! k =
  match find_first (fun e => str_eqb (snd e) k) portNames with
  | Some e => if AdditionalPluginEnabled instance (fst e)
              then Some (default "" ((if SecretTLSEnabled instance then TLSPort else plainPort) !! k))
              else None
  | None => if decide (k = "port")
            then Some (if SecretTLSEnabled instance then AMQPSPort else AMQPPort)
            else data !! k
  end.
Proof.
  unfold secret_updatePorts, SecretTLSEnabled.
  destruct (negb _); rewrite set_plugin_port_lookup by apply portNames_nodup;
    (destruct (find_first _ _); [done|]); destruct (decide (k = "port")) as [->|Hk];
    first [by rewrite lookup_insert_eq | by rewrite lookup_insert_ne].
Qed.

Lemma updateConnectionString_lookup_ne instance data k :
  k <> "connection_string" -> updateConnectionString instance data !! k = data !! k.
Proof. intros Hk. unfold updateConnectionString. destruct (negb _); by rewrite lookup_insert_ne. Qed.

(** ** Properties *)

(** Generated credentials: 24 random bytes give a 32-character password and
    a 32-character username that starts with the prefix. *)
Theorem generateUsername_spec (rand : RandSource) (bytes : list Z) :
  rand 24%nat = Ok bytes -> length bytes = 24%nat ->
  exists u p, generateUsername rand 24 = Ok u /\ randomEncodedString rand 24 = Ok p /\
    String.length u = 32%nat /\ String.length p = 32%nat /\ HasPrefix u usernamePrefix = true.
Proof.
  intros Hr Hl. unfold generateUsername, randomEncodedString. rewrite Hr. cbn [result_bind].
  assert (String.length (EncodeToString URLEncoding bytes) = 32%nat) as L by (rewrite EncodeToString_length, Hl; reflexivity).
  rewrite L. cbn [Nat.ltb Nat.leb usernamePrefix String.length].
  eexists _, _. split; [reflexivity|]. split; [reflexivity|].
  split; [|split; [done|apply HasPrefix_app]].
  rewrite str_length_app, str_take_length by (rewrite L; cbn; lia). reflexivity.
Qed.

Section Properties.
Context `{Ini} `{OwnerRefs}.

(** C38. Updating the Secret never touches the credentials nor anything else it
    does not own: it rewrites the AMQP port, the plugin ports and the
    connection string, which always agrees with the port and the scheme. *)
Theorem secret_Update_spec (instance : RabbitmqCluster) (secret secret' : Secret)
    (data : gmap string string) :
  sec_Data secret = Some data -> secret_Update instance secret = Ok secret' ->
  exists data', sec_Data secret' = Some data' /\
    (forall k, k <> "port" -> k <> "connection_string" -> k ∉ map snd portNames ->
       data' !! k = data !! k) /\
    data' !! "port" = Some (if SecretTLSEnabled instance then "5671" else "5672") /\
    data' !! "connection_string" =
      Some (connection_string (if SecretTLSEnabled instance then "amqps" else "amqp") data') /\
    (forall plugin portName, (plugin, portName) ∈ portNames ->
       data' !! portName =
       if AdditionalPluginEnabled instance plugin
       then (if SecretTLSEnabled instance then TLSPort else plainPort) !! portName else None).
Proof.
  intros Hd. unfold secret_Update. rewrite Hd.
  intros (m & _ & [= <-])%result_bind_ok. eexists. split; [reflexivity|].
  split; [|split; [|split]].
  - intros k Hp Hc Hk. rewrite updateConnectionString_lookup_ne by done.
    rewrite secret_updatePorts_lookup. destruct (find_first _ _) as [[p n]|] eqn:E.
    + apply find_some in E as [Hin Hn%str_eqb_spec]. cbn in Hn. subst. destruct Hk.
      apply list_elem_of_fmap. exists (p, k). split; [done|]. by apply list_elem_of_In.
    + by rewrite decide_False.
  - rewrite updateConnectionString_lookup_ne by done. by rewrite secret_updatePorts_lookup.
  - set (d := secret_updatePorts instance data).
    assert (forall scheme x, connection_string scheme (<["connection_string" := x]> d)
              = connection_string scheme d) as Hcs.
    { intros scheme x. unfold connection_string, entry. by rewrite !lookup_insert_ne. }
    unfold updateConnectionString, SecretTLSEnabled.
    destruct (negb _); by rewrite Hcs, lookup_insert_eq.
  - intros p n Hin.
    assert (n <> "connection_string") as Hn.
    { intros ->. apply connection_string_no_port, list_elem_of_fmap. by exists (p, "connection_string"). }
    rewrite updateConnectionString_lookup_ne by done. rewrite secret_updatePorts_lookup.
    destruct (portNames_find _ Hin) as (F & [x Hx] & [y Hy]). cbn [fst snd] in *. rewrite F. cbn [fst].
    destruct (AdditionalPluginEnabled instance p), (SecretTLSEnabled instance);
      rewrite ?Hx, ?Hy; done.
Qed.

(** Updating an updated Secret changes no data, so the operator does not
    rewrite it on every reconcile. *)
Theorem secret_data_stable (instance : RabbitmqCluster) (data : gmap string string) :
  let data' := updateConnectionString instance (secret_updatePorts instance data) in
  updateConnectionString instance (secret_updatePorts instance data') = data'.
Proof.
  cbn zeta. set (d := secret_updatePorts instance data).
  assert (forall x, secret_updatePorts instance (<["connection_string" := x]> d)
            = <["connection_string" := x]> d) as E.
  { intros x. apply map_eq. intros k. rewrite secret_updatePorts_lookup.
    destruct (decide (k = "connection_string")) as [->|Hk].
    - by rewrite lookup_insert_eq.
    - rewrite lookup_insert_ne by done. unfold d. rewrite secret_updatePorts_lookup.
      by destruct (find_first _ _), (decide (k = "port")). }
  unfold updateConnectionString.
  destruct (negb _); rewrite E, insert_insert_eq; f_equal;
    unfold connection_string, entry; by rewrite !lookup_insert_ne.
Qed.
End Properties.
