(* ===== verification/ServerConf.v ===== *)
(** * The server ConfigMap

    internal/resource/configmap.go: the contents of operatorDefaults.conf and
    userDefinedConfiguration.conf, and the decision whether a change needs a
    restart of the StatefulSet. *)

From S2P Require Import Prelude.
From S2P Require Import K8s.
From S2P Require Import Metadata.
From S2P Require Import Status.
From S2P Require Import Api.
From S2P Require Import Ini.

Definition ServerConfigMapName : string := "server-conf".

Definition defaultRabbitmqConf : string := "
log.console = true
queue_master_locator = min-masters
disk_free_limit.absolute = 2GB
cluster_partition_handling = pause_minority
cluster_formation.peer_discovery_backend = rabbit_peer_discovery_k8s
cluster_formation.k8s.host = kubernetes.default
cluster_formation.k8s.address_type = hostname".

Definition defaultTLSConf : string := "
ssl_options.certfile = /etc/rabbitmq-tls/tls.crt
ssl_options.keyfile = /etc/rabbitmq-tls/tls.key
listeners.ssl.default = 5671

management.ssl.certfile   = /etc/rabbitmq-tls/tls.crt
management.ssl.keyfile    = /etc/rabbitmq-tls/tls.key
management.ssl.port       = 15671

prometheus.ssl.certfile  = /etc/rabbitmq-tls/tls.crt
prometheus.ssl.keyfile   = /etc/rabbitmq-tls/tls.key
prometheus.ssl.port      = 15691
".

Definition tlsCertDir : string := "/etc/rabbitmq-tls/".
Definition caCertFilename : string := "ca.crt".
Definition caCertPath : string := tlsCertDir +:+ caCertFilename.
Definition tlsCertFilename : string := "tls.crt".
Definition tlsCertPath : string := tlsCertDir +:+ tlsCertFilename.
Definition tlsKeyFilename : string := "tls.key".
Definition tlsKeyPath : string := tlsCertDir +:+ tlsKeyFilename.

(** ** Pure helpers *)

Definition GiB : Z := 1073741824.

(** int64 arithmetic; Go's division truncates. *)
Definition removeHeadroom (memLimit : Z) : Z :=
  if (go_div memLimit 5 >? 2 * GiB)%Z then wrap64 (memLimit - 2 * GiB)
  else wrap64 (memLimit - go_div memLimit 5).

Inductive BuildError := ErrInvalidEnvConfig | ErrOther (msg : string).

(** The back quote, ASCII 96. *)
Definition backtick : string := String (Ascii.ascii_of_nat 96) "".

Definition validateEnvConfig (envConfig : string) : result BuildError unit :=
  if Contains envConfig "$(" || Contains envConfig backtick then Err ErrInvalidEnvConfig else Ok tt.

Definition updateProperty (key value : string) (configMapData : gmap string string) : gmap string string :=
  if str_eqb value "" then delete key configMapData else <[key := value]> configMapData.

Section ServerConf.
Context `{Ini}.

Definition areAuthMechanismsConfigued (additionalConfig : string) : result string bool :=
  try iniFile := map_err (fun e => "failed to load spec.rabbitmq.additionalConfig: " +:+ e)
                   (ini_Load additionalConfig) in
  Ok (existsb (fun key => HasPrefix key "auth_mechanisms") (ini_KeyStrings iniFile)).

(** A run of [NewKey] calls on the default section, stopping at the first
    error. *)
Fixpoint new_keys (keys : list (string * string)) (f : ini) : result string ini :=
  match keys with
  | [] => Ok f
  | (k, v) :: rest => try f' := ini_NewKey k v f in new_keys rest f'
  end.

Definition size_hint_key : string := "cluster_formation.target_cluster_size_hint".

Definition auth_keys (authMechsConfigured : bool) : list (string * string) :=
  if authMechsConfigured then []
  else [("auth_mechanisms.1", "PLAIN"); ("auth_mechanisms.2", "AMQPLAIN")].

(** operatorDefaults.conf before it is written; dereferencing nil replicas
    panics. *)
Definition operatorConfiguration (instance : RabbitmqCluster) : result string ini :=
  try f := ini_Load defaultRabbitmqConf in
  match spec_Replicas (rmq_Spec instance) with
  | None => Err "panic: nil pointer dereference"
  | Some replicas =>
      try f := new_keys [(size_hint_key, Itoa replicas); ("cluster_name", rmq_Name instance)] f in
      try auth := areAuthMechanismsConfigued (rc_AdditionalConfig (spec_Rabbitmq (rmq_Spec instance))) in
      new_keys (auth_keys auth) f
  end.

Definition keys_if (b : bool) (ks : list (string * string)) := if b then ks else [].

(** The [NewKey] calls under [if TLSEnabled()], in order. *)
Definition tls_keys (instance : RabbitmqCluster) : list (string * string) :=
  let plugin := AdditionalPluginEnabled instance in
  let noplain := DisableNonTLSListeners instance in
  (if noplain then [("listeners.tcp", "none")]
   else [("management.tcp.port", "15672"); ("prometheus.tcp.port", "15692")]) ++
  keys_if (plugin "rabbitmq_mqtt")
    (("mqtt.listeners.ssl.default", "8883") :: keys_if noplain [("mqtt.listeners.tcp", "none")]) ++
  keys_if (plugin "rabbitmq_stomp")
    (("stomp.listeners.ssl.1", "61614") :: keys_if noplain [("stomp.listeners.tcp", "none")]) ++
  keys_if (plugin "rabbitmq_web_mqtt")
    ([("web_mqtt.ssl.port", "15676"); ("web_mqtt.ssl.certfile", tlsCertPath);
      ("web_mqtt.ssl.keyfile", tlsKeyPath)] ++ keys_if noplain [("web_mqtt.tcp.listener", "none")]) ++
  keys_if (plugin "rabbitmq_web_stomp")
    ([("web_stomp.ssl.port", "15673"); ("web_stomp.ssl.certfile", tlsCertPath);
      ("web_stomp.ssl.keyfile", tlsKeyPath)] ++ keys_if noplain [("web_stomp.tcp.listener", "none")]) ++
  keys_if (plugin "rabbitmq_web_amqp")
    (keys_if (negb noplain) [("web_amqp.tcp.port", "15678")] ++
     [("web_amqp.tls.port", "15677"); ("web_amqp.tls.certfile", tlsCertPath);
      ("web_amqp.tls.keyfile", tlsKeyPath)]) ++
  keys_if (plugin "rabbitmq_stream")
    (("stream.listeners.ssl.default", "5551") :: keys_if noplain [("stream.listeners.tcp", "none")]).

(** The [NewKey] calls under [if MutualTLSEnabled()]. *)
Definition mtls_keys (instance : RabbitmqCluster) : list (string * string) :=
  let plugin := AdditionalPluginEnabled instance in
  [("ssl_options.cacertfile", caCertPath); ("ssl_options.verify", "verify_peer");
   ("management.ssl.cacertfile", caCertPath); ("prometheus.ssl.cacertfile", caCertPath)] ++
  keys_if (plugin "rabbitmq_web_mqtt") [("web_mqtt.ssl.cacertfile", caCertPath)] ++
  keys_if (plugin "rabbitmq_web_stomp") [("web_stomp.ssl.cacertfile", caCertPath)] ++
  keys_if (plugin "rabbitmq_web_amqp") [("web_amqp.tls.cacertfile", caCertPath)].

Definition memory_limit (instance : RabbitmqCluster) : Quantity :=
  match spec_Resources (rmq_Spec instance) with
  | Some r => rl_get (res_Limits r) "memory"
  | None => 0%Z
  end.

Definition memory_keys (instance : RabbitmqCluster) : list (string * string) :=
  keys_if (MemoryLimited instance)
    [("total_memory_available_override_value", Itoa (removeHeadroom (q_Value (memory_limit instance))))].

(** userDefinedConfiguration.conf before the user's own settings. *)
Definition userBaseConfiguration (instance : RabbitmqCluster) : result string ini :=
  try f := (if TLSEnabled instance
            then try f := ini_Append defaultTLSConf ini_Empty in new_keys (tls_keys instance) f
            else Ok ini_Empty) in
  try f := (if MutualTLSEnabled instance then new_keys (mtls_keys instance) f else Ok f) in
  new_keys (memory_keys instance) f.

Definition userConfiguration (instance : RabbitmqCluster) : result string ini :=
  try f := userBaseConfiguration instance in
  map_err (fun e => "failed to append spec.rabbitmq.additionalConfig: " +:+ e)
    (ini_Append (rc_AdditionalConfig (spec_Rabbitmq (rmq_Spec instance))) f).

(** Deletes from operatorDefaults.conf every key that starts with the size
    hint. *)
Definition drop_size_hints (conf : ini) : ini :=
  fold_left (fun f key => if HasPrefix key size_hint_key then ini_DeleteKey key f else f)
    (ini_KeyStrings conf) conf.

Definition removeConfigNotRequiringNodeRestart (data : smap) : result string smap :=
  let operatorConf := default "" (smap_get data "operatorDefaults.conf") in
  if str_eqb operatorConf "" then Ok data
  else
    try conf := map_err (fun e => "failed to load operatorDefaults.conf when deciding whether to restart STS: " +:+ e)
                  (ini_Load operatorConf) in
    try b := map_err (fun e => "failed to write operatorDefaults.conf when deciding whether to restart STS: " +:+ e)
               (ini_Write (drop_size_hints conf)) in
    Ok (Some (<["operatorDefaults.conf" := b]> (smap_entries data))).

(** [equality.Semantic.DeepEqual] does not tell a nil map from an empty
    one. *)
Definition semantic_meta (m : ObjectMeta) : ObjectMeta :=
  om_with_labels (Some (smap_entries (om_Labels m)))
    (om_with_annotations (Some (smap_entries (om_Annotations m))) m).

Definition semantic_equal (a b : ConfigMap) : bool :=
  bool_decide (semantic_meta (cm_Meta a) = semantic_meta (cm_Meta b)) &&
  bool_decide (smap_entries (cm_Data a) = smap_entries (cm_Data b)).

Context `{OwnerRefs}.

Definition server_Build (instance : RabbitmqCluster) : ConfigMap :=
  mkCM
    (om_with_labels (Some (GetLabels (rmq_Name instance) (rmq_Labels instance)))
      (om_with_annotations (Some (ReconcileAndFilterAnnotations None [rmq_Annotations instance]))
        (meta_named (ChildResourceName instance ServerConfigMapName) (rmq_Namespace instance))))
    None.

(** The data of the updated ConfigMap. *)
Definition server_data (instance : RabbitmqCluster) (data : smap)
  : result BuildError (gmap string string) :=
  let rmqProperties := spec_Rabbitmq (rmq_Spec instance) in
  try opConf := map_err ErrOther (operatorConfiguration instance) in
  try base := map_err ErrOther (userBaseConfiguration instance) in
  try opText := map_err ErrOther (ini_Write opConf) in
  try user := map_err (fun e => ErrOther ("failed to append spec.rabbitmq.additionalConfig: " +:+ e))
                (ini_Append (rc_AdditionalConfig rmqProperties) base) in
  try userText := map_err ErrOther (ini_Write user) in
  try _ := validateEnvConfig (rc_EnvConfig rmqProperties) in
  Ok (updateProperty "erl_inetrc" (rc_ErlangInetConfig rmqProperties)
       (updateProperty "rabbitmq-env.conf" (rc_EnvConfig rmqProperties)
         (updateProperty "advanced.config" (rc_AdvancedConfig rmqProperties)
           (<["userDefinedConfiguration.conf" := userText]>
             (<["operatorDefaults.conf" := opText]> (smap_entries data)))))).

(** [requiresRestart] is the builder's field [UpdateRequiresStsRestart],
    read and written by [Update]. *)
Definition server_Update (instance : RabbitmqCluster) (requiresRestart : bool) (configMap : ConfigMap)
  : result BuildError (ConfigMap * bool) :=
  try data := server_data instance (cm_Data configMap) in
  try m := map_err (fun e => ErrOther ("failed setting controller reference: " +:+ e))
             (SetControllerReference (rmq_Meta instance) (cm_Meta configMap)) in
  let updated := mkCM m (Some data) in
  try previousStripped := map_err ErrOther (removeConfigNotRequiringNodeRestart (cm_Data configMap)) in
  try updatedStripped := map_err ErrOther (removeConfigNotRequiringNodeRestart (Some data)) in
  Ok (updated,
      if semantic_equal (mkCM (cm_Meta configMap) previousStripped) (mkCM m updatedStripped)
      then false else requiresRestart).
End ServerConf.

(** ** Properties of the helpers *)

(** C31. The headroom: for any memory limit an int64 can hold, the value left to
    RabbitMQ is the limit less the smaller of a fifth of it and 2 GiB; it is
    never negative nor above the limit, it does not wrap around, and it never
    decreases when the limit grows. *)
Theorem removeHeadroom_spec (memLimit : Z) :
  (0 <= memLimit < 2 ^ 63)%Z ->
  removeHeadroom memLimit = (memLimit - Z.min (memLimit / 5) (2 * GiB))%Z /\
  (0 <= removeHeadroom memLimit <= memLimit)%Z /\
  (forall smaller, (0 <= smaller <= memLimit)%Z -> (removeHeadroom smaller <= removeHeadroom memLimit)%Z).
Proof.
  assert (forall m, 5 * (m / 5) <= m < 5 * (m / 5) + 5)%Z as D.
  { intros m. pose proof (Z.mul_div_le m 5). pose proof (Z.mul_succ_div_gt m 5). lia. }
  assert (forall m, (0 <= m < 2 ^ 63)%Z ->
    removeHeadroom m = (m - Z.min (m / 5) (2 * GiB))%Z) as H.
  { intros m Hm. unfold removeHeadroom, go_div. rewrite Z.quot_div_nonneg by lia.
    specialize (D m). unfold GiB in *. destruct (Z.gtb_spec (m / 5) (2 * 1073741824));
      rewrite wrap64_id by (unfold int64_ok; lia); lia. }
  intros Hm. pose proof (D memLimit). split; [by apply H|]. unfold GiB in *. split.
  - rewrite H by done. lia.
  - intros s Hs. specialize (D s). rewrite !H by lia. lia.
Qed.

Lemma Contains_prefix s sub : HasPrefix s sub = true -> Contains s sub = true.
Proof. intros H. destruct s; cbn in *; by rewrite H. Qed.

(** ** Lemmas on ini files *)

Section Properties.
Context {I : Ini} {IL : @IniLaws I}.

Lemma new_keys_get keys f f' k :
  new_keys keys f = Ok f' -> k ∉ map fst keys -> ini_Get f' k = ini_Get f k.
Proof.
  revert f. induction keys as [|[k0 v0] keys IH]; intros f; cbn; [by intros [= <-]|].
  intros (f0 & E & Hn)%result_bind_ok [Hne Hk]%not_elem_of_cons.
  rewrite (IH _ Hn Hk). by apply (ini_newkey_ne _ _ _ _ _ E).
Qed.

Lemma new_keys_in keys f f' k v :
  new_keys keys f = Ok f' -> NoDup (map fst keys) -> (k, v) ∈ keys -> ini_Get f' k = Some v.
Proof.
  revert f. induction keys as [|[k0 v0] keys IH]; intros f; cbn; [by intros _ _ ?%elem_of_nil|].
  intros (f0 & E & Hn)%result_bind_ok [Hk0 Hnd]%NoDup_cons [[= -> ->]|Hin]%elem_of_cons.
  - rewrite (new_keys_get _ _ _ _ Hn Hk0). apply (ini_newkey_eq _ _ _ _ E).
  - by apply (IH _ Hn Hnd).
Qed.

Lemma new_keys_dom keys f f' k :
  new_keys keys f = Ok f' -> is_Some (ini_Get f' k) <-> is_Some (ini_Get f k) \/ k ∈ map fst keys.
Proof.
  revert f. induction keys as [|[k0 v0] keys IH]; intros f; cbn; [intros [= <-]; set_solver|].
  intros (f0 & E & Hn)%result_bind_ok. rewrite (IH _ Hn), elem_of_cons.
  destruct (decide (k0 = k)) as [<-|Hne].
  - rewrite (ini_newkey_eq _ _ _ _ E). naive_solver.
  - rewrite (ini_newkey_ne _ _ _ _ _ E Hne). naive_solver.
Qed.

(** Same keys written in the same order keep two files aligned. *)
Lemma new_keys_same_keys keys1 keys2 f g f' g' :
  map fst keys1 = map fst keys2 -> ini_KeyStrings f = ini_KeyStrings g ->
  new_keys keys1 f = Ok f' -> new_keys keys2 g = Ok g' -> ini_KeyStrings f' = ini_KeyStrings g'.
Proof.
  revert keys2 f g. induction keys1 as [|[k v] keys1 IH]; intros [|[k2 v2] keys2] f g; cbn; try done.
  - by intros _ ? [= <-] [= <-].
  - intros [= -> Hk] Hks (f0 & Ef & Hf)%result_bind_ok (g0 & Eg & Hg)%result_bind_ok.
    refine (IH _ f0 g0 Hk _ Hf Hg).
    rewrite (ini_newkey_keys _ _ _ _ Ef), (ini_newkey_keys _ _ _ _ Eg). by rewrite Hks.
Qed.

Lemma drop_loop_get ks f k :
  ini_Get (fold_left (fun f key => if HasPrefix key size_hint_key then ini_DeleteKey key f else f) ks f) k =
  if HasPrefix k size_hint_key && bool_decide (k ∈ ks) then None else ini_Get f k.
Proof.
  revert f. induction ks as [|k0 ks IH]; intros f; cbn.
  - rewrite bool_decide_eq_false_2 by set_solver. by rewrite andb_false_r.
  - rewrite IH. destruct (decide (k0 = k)) as [<-|Hne].
    + rewrite (bool_decide_eq_true_2 (_ ∈ _ :: _)) by set_solver.
      destruct (HasPrefix k0 size_hint_key); cbn; [|done].
      rewrite ini_delete_eq. by destruct (bool_decide _).
    + replace (bool_decide (k ∈ k0 :: ks)) with (bool_decide (k ∈ ks))
        by (apply bool_decide_ext; set_solver).
      destruct (HasPrefix k size_hint_key && bool_decide (k ∈ ks)); [done|].
      destruct (HasPrefix k0 size_hint_key); [|done]. by apply ini_delete_ne.
Qed.

Lemma drop_loop_keys ks f g :
  ini_KeyStrings f = ini_KeyStrings g ->
  ini_KeyStrings (fold_left (fun f key => if HasPrefix key size_hint_key then ini_DeleteKey key f else f) ks f) =
  ini_KeyStrings (fold_left (fun f key => if HasPrefix key size_hint_key then ini_DeleteKey key f else f) ks g).
Proof.
  revert f g. induction ks as [|k ks IH]; intros f g Hfg; cbn; [done|]. apply IH.
  destruct (HasPrefix k size_hint_key); [by rewrite !ini_delete_keys, Hfg|done].
Qed.

Lemma drop_size_hints_get f k :
  ini_Get (drop_size_hints f) k = if HasPrefix k size_hint_key then None else ini_Get f k.
Proof.
  unfold drop_size_hints. rewrite drop_loop_get.
  destruct (HasPrefix k size_hint_key); cbn; [|done].
  destruct (bool_decide (k ∈ ini_KeyStrings f)) eqn:E; [done|].
  apply bool_decide_eq_false in E. rewrite ini_keys in E.
  destruct (ini_Get f k) as [v|]; [|done]. destruct E. eauto.
Qed.

(** ** The operator's part of the configuration *)

Definition with_replicas (n : Z) (instance : RabbitmqCluster) : RabbitmqCluster :=
  let s := rmq_Spec instance in
  rmq_with_spec
    (mkSpec (Some n) (spec_Image s) (spec_ImagePullSecrets s) (spec_Service s) (spec_Persistence s)
       (spec_Resources s) (spec_Affinity s) (spec_Tolerations s) (spec_Rabbitmq s) (spec_TLS s)
       (spec_Override s) (spec_SkipPostDeploySteps s) (spec_AutoEnableAllFeatureFlags s)
       (spec_TerminationGracePeriodSeconds s) (spec_DelayStartSeconds s) (spec_SecretBackend s))
    instance.

Lemma operatorConfiguration_ok instance f :
  operatorConfiguration instance = Ok f ->
  exists n f0 f1 auth, spec_Replicas (rmq_Spec instance) = Some n /\
    ini_Load defaultRabbitmqConf = Ok f0 /\
    areAuthMechanismsConfigued (rc_AdditionalConfig (spec_Rabbitmq (rmq_Spec instance))) = Ok auth /\
    new_keys [(size_hint_key, Itoa n); ("cluster_name", rmq_Name instance)] f0 = Ok f1 /\
    new_keys (auth_keys auth) f1 = Ok f.
Proof.
  unfold operatorConfiguration. intros (f0 & E0 & E)%result_bind_ok.
  destruct (spec_Replicas _) as [n|]; [|done].
  apply result_bind_ok in E as (f1 & E1 & (auth & Ea & E2)%result_bind_ok). eauto 10.
Qed.

(** The operator's defaults hold the size hint and the cluster name, and
    restrict the authentication mechanisms to PLAIN and AMQPLAIN exactly
    when the user configured none. *)
Theorem operatorConfiguration_spec (instance : RabbitmqCluster) (f : ini) :
  operatorConfiguration instance = Ok f ->
  exists n auth, spec_Replicas (rmq_Spec instance) = Some n /\
    areAuthMechanismsConfigued (rc_AdditionalConfig (spec_Rabbitmq (rmq_Spec instance))) = Ok auth /\
    ini_Get f size_hint_key = Some (Itoa n) /\
    ini_Get f "cluster_name" = Some (rmq_Name instance) /\
    (auth = false -> ini_Get f "auth_mechanisms.1" = Some "PLAIN" /\
                     ini_Get f "auth_mechanisms.2" = Some "AMQPLAIN") /\
    (auth = true -> forall f0 k, ini_Load defaultRabbitmqConf = Ok f0 ->
       HasPrefix k "auth_mechanisms" = true -> ini_Get f k = ini_Get f0 k).
Proof.
  intros (n & f0 & f1 & auth & Hn & H0 & Ha & H1 & H2)%operatorConfiguration_ok.
  assert (forall k, k ∉ ["auth_mechanisms.1"; "auth_mechanisms.2"] -> ini_Get f k = ini_Get f1 k) as Hf.
  { intros k Hk. apply (new_keys_get _ _ _ _ H2). destruct auth; cbn; set_solver. }
  exists n, auth. split; [done|]. split; [done|].
  assert (NoDup (map fst [(size_hint_key, Itoa n); ("cluster_name", rmq_Name instance)])) as Hnd
    by (apply (bool_decide_unpack _); by vm_compute).
  split; [|split; [|split]].
  - rewrite Hf by (apply (bool_decide_unpack _); by vm_compute).
    eapply new_keys_in; [exact H1 | exact Hnd | set_solver].
  - rewrite Hf by (apply (bool_decide_unpack _); by vm_compute).
    eapply new_keys_in; [exact H1 | exact Hnd | set_solver].
  - intros ->. assert (NoDup (map fst (auth_keys false))) as Hnd'
      by (apply (bool_decide_unpack _); by vm_compute).
    split; (eapply new_keys_in; [exact H2 | exact Hnd' | cbn; set_solver]).
  - intros -> f0' k E Hk. rewrite H0 in E. injection E as <-. cbn in H2. injection H2 as <-.
    apply (new_keys_get _ _ _ _ H1). cbn. intros [->|[->|Hin]%elem_of_cons]%elem_of_cons;
      [discriminate Hk | discriminate Hk | by apply elem_of_nil in Hin].
Qed.

End Properties.

(** ** When a restart is required *)

Lemma updateProperty_lookup k v data k' :
  updateProperty k v data !! k' =
  if decide (k = k') then (if str_eqb v "" then None else Some v) else data !! k'.
Proof.
  unfold updateProperty. destruct (str_eqb v ""), (decide (k = k')) as [<-|];
    first [by rewrite lookup_delete_eq | by rewrite lookup_delete_ne
          | by rewrite lookup_insert_eq | by rewrite lookup_insert_ne].
Qed.

Section Restart.
Context {I : Ini} {IL : @IniLaws I} {O : OwnerRefs} {OL : @OwnerRefsLaws O}.

(** The texts the update writes. *)
Lemma server_data_ok instance data d :
  server_data instance data = Ok d ->
  exists op opText user userText,
    operatorConfiguration instance = Ok op /\ ini_Write op = Ok opText /\
    userConfiguration instance = Ok user /\ ini_Write user = Ok userText /\
    validateEnvConfig (rc_EnvConfig (spec_Rabbitmq (rmq_Spec instance))) = Ok tt /\
    d = updateProperty "erl_inetrc" (rc_ErlangInetConfig (spec_Rabbitmq (rmq_Spec instance)))
       (updateProperty "rabbitmq-env.conf" (rc_EnvConfig (spec_Rabbitmq (rmq_Spec instance)))
         (updateProperty "advanced.config" (rc_AdvancedConfig (spec_Rabbitmq (rmq_Spec instance)))
           (<["userDefinedConfiguration.conf" := userText]>
             (<["operatorDefaults.conf" := opText]> (smap_entries data))))).
Proof.
  unfold server_data, userConfiguration.
  destruct (operatorConfiguration instance) as [op|]; cbn; [|done].
  destruct (userBaseConfiguration instance) as [base|]; cbn; [|done].
  destruct (ini_Write op) as [opText|] eqn:E1; cbn; [|done].
  destruct (ini_Append _ base) as [user|]; cbn; [|done].
  destruct (ini_Write user) as [userText|] eqn:E2; cbn; [|done].
  destruct (validateEnvConfig _) as [[]|] eqn:Ev; cbn; [|done].
  intros [= <-]. exists op, opText, user, userText. by repeat split.
Qed.

Lemma server_Update_ok instance flag cm cm' r :
  server_Update instance flag cm = Ok (cm', r) ->
  exists d p u, server_data instance (cm_Data cm) = Ok d /\ cm_Data cm' = Some d /\
    SetControllerReference (rmq_Meta instance) (cm_Meta cm) = Ok (cm_Meta cm') /\
    removeConfigNotRequiringNodeRestart (cm_Data cm) = Ok p /\
    removeConfigNotRequiringNodeRestart (Some d) = Ok u /\
    r = if semantic_equal (mkCM (cm_Meta cm) p) (mkCM (cm_Meta cm') u) then false else flag.
Proof.
  unfold server_Update. intros (d & Hd & E)%result_bind_ok.
  destruct (SetControllerReference _ _) as [m|] eqn:Em; cbn in E; [|done].
  destruct (removeConfigNotRequiringNodeRestart (cm_Data cm)) as [p|] eqn:Ep; cbn in E; [|done].
  destruct (removeConfigNotRequiringNodeRestart (Some d)) as [u|] eqn:Eu; cbn in E; [|done].
  injection E as <- <-. exists d, p, u. by repeat split.
Qed.

(** Only operatorDefaults.conf is rewritten before comparing. *)
Lemma remove_other data p k :
  removeConfigNotRequiringNodeRestart data = Ok p -> k <> "operatorDefaults.conf" ->
  smap_get p k = smap_get data k.
Proof.
  unfold removeConfigNotRequiringNodeRestart. intros E Hk.
  destruct (str_eqb _ _); [by injection E as <-|].
  apply result_bind_ok in E as (conf & _ & (b & _ & [= <-])%result_bind_ok).
  rewrite smap_get_some, lookup_insert_ne by done. by rewrite smap_get_entries.
Qed.


(** An envConfig with a shell command substitution is refused before
    anything is written. *)
Theorem env_config_rejected (instance : RabbitmqCluster) (flag : bool) (cm : ConfigMap)
    (data : gmap string string) :
  let env := rc_EnvConfig (spec_Rabbitmq (rmq_Spec instance)) in
  (Contains env "$(" = true \/ Contains env backtick = true ->
     exists e, server_Update instance flag cm = Err e) /\
  (server_data instance (cm_Data cm) = Ok data ->
     Contains env "$(" = false /\ Contains env backtick = false).
Proof.
  cbn zeta. split.
  - intros Hc. unfold server_Update. destruct (server_data instance (cm_Data cm)) as [d|e] eqn:E;
      [|by eexists]. apply server_data_ok in E as (? & ? & ? & ? & _ & _ & _ & _ & Hv & _).
    unfold validateEnvConfig in Hv. exfalso. destruct Hc as [Hc|Hc]; rewrite Hc in Hv.
    + done.
    + by rewrite orb_true_r in Hv.
  - intros (? & ? & ? & ? & _ & _ & _ & _ & Hv & _)%server_data_ok. unfold validateEnvConfig in Hv.
    destruct (Contains _ "$("), (Contains _ backtick); done.
Qed.

(** Two operator configurations that differ in the replica count agree
    once the size hints are dropped. *)
Lemma operatorConfiguration_scaled instance n m f g :
  operatorConfiguration (with_replicas n instance) = Ok f ->
  operatorConfiguration (with_replicas m instance) = Ok g ->
  ini_Write (drop_size_hints f) = ini_Write (drop_size_hints g).
Proof.
  intros (n' & f0 & f1 & auth & Hn & H0 & Ha & H1 & H2)%operatorConfiguration_ok
    (m' & g0 & g1 & auth' & Hm & H0' & Ha' & H1' & H2')%operatorConfiguration_ok.
  rewrite H0 in H0'. injection H0' as <-. cbn [with_replicas rmq_Spec rmq_with_spec spec_Rabbitmq] in Ha, Ha'.
  rewrite Ha in Ha'. injection Ha' as <-.
  assert (ini_KeyStrings f = ini_KeyStrings g) as Hks.
  { eapply (new_keys_same_keys _ _ _ _ _ _ eq_refl); [|exact H2|exact H2'].
    eapply (fun E => new_keys_same_keys _ _ _ _ _ _ E eq_refl H1 H1'). done. }
  apply ini_write_ext.
  - unfold drop_size_hints. rewrite Hks. by apply drop_loop_keys.
  - intros k. rewrite !drop_size_hints_get. destruct (HasPrefix k size_hint_key) eqn:Ep; [done|].
    assert (k <> size_hint_key) as Hk by (intros ->; done).
    destruct (decide (k ∈ map fst (auth_keys auth))) as [Hin|Hnot].
    + apply list_elem_of_fmap in Hin as ([k' v] & -> & Hin). cbn.
      assert (NoDup (map fst (auth_keys auth))) as Hnd
        by (destruct auth; apply (bool_decide_unpack _); by vm_compute).
      by rewrite (new_keys_in _ _ _ _ _ H2 Hnd Hin), (new_keys_in _ _ _ _ _ H2' Hnd Hin).
    + rewrite (new_keys_get _ _ _ _ H2 Hnot), (new_keys_get _ _ _ _ H2' Hnot).
      cbn in H1, H1'. apply result_bind_ok in H1 as (a & Ha1 & (b & Hb & [= <-])%result_bind_ok).
      apply result_bind_ok in H1' as (a' & Ha1' & (b' & Hb' & [= <-])%result_bind_ok).
      destruct (decide ("cluster_name" = k)) as [<-|Hc].
      * by rewrite (ini_newkey_eq _ _ _ _ Hb), (ini_newkey_eq _ _ _ _ Hb').
      * rewrite (ini_newkey_ne _ _ _ _ _ Hb Hc), (ini_newkey_ne _ _ _ _ _ Hb' Hc).
        by rewrite (ini_newkey_ne _ _ _ _ _ Ha1), (ini_newkey_ne _ _ _ _ _ Ha1').
Qed.

(** C28. Scaling alone restarts nothing: after a reconcile, an update of a
    cluster that differs only in its replica count asks for no restart.
    The hypothesis on the library is that the operator's own defaults are
    read back as they were written. *)
Theorem scaling_needs_no_restart (instance : RabbitmqCluster) (n m : Z) (cm cm' cm'' : ConfigMap)
    (flag r r' : bool) :
  (forall k f t, k = n \/ k = m ->
     operatorConfiguration (with_replicas k instance) = Ok f -> ini_Write f = Ok t ->
     t <> "" /\ ini_Load t = Ok f) ->
  server_Update (with_replicas n instance) flag cm = Ok (cm', r) ->
  server_Update (with_replicas m instance) true cm' = Ok (cm'', r') ->
  r' = false.
Proof.
  intros Hround (d & _ & _ & Hd & Ed & Href & _)%server_Update_ok
    (d' & p & u & Hd' & _ & Href' & Hp & Hu & ->)%server_Update_ok.
  pose proof (setref_idem _ _ _ Href) as Hidem. cbn [rmq_Meta with_replicas rmq_with_spec] in Href, Href', Hidem.
  rewrite Hidem in Href'. injection Href' as Hm. rewrite <- Hm.
  apply server_data_ok in Hd as (op & t & us & ut & Hop & Ht & Hus & Hut & _ & Ed1).
  apply server_data_ok in Hd' as (op' & t' & us' & ut' & Hop' & Ht' & Hus' & Hut' & _ & Ed2).
  change (userConfiguration (with_replicas m instance)) with (userConfiguration (with_replicas n instance)) in Hus'.
  rewrite Hus in Hus'. injection Hus' as <-. rewrite Hut in Hut'. injection Hut' as <-.
  destruct (Hround n _ _ (or_introl eq_refl) Hop Ht) as [Hne HL]. destruct (Hround m _ _ (or_intror eq_refl) Hop' Ht') as [Hne' HL'].
  cbn [with_replicas rmq_Spec rmq_with_spec spec_Rabbitmq] in Ed1, Ed2.
  rewrite Ed in Ed2, Hp. cbn [smap_entries default] in Ed2.
  assert (forall dd o tt bb, dd !! "operatorDefaults.conf" = Some tt -> tt <> "" -> ini_Load tt = Ok o ->
    removeConfigNotRequiringNodeRestart (Some dd) = Ok bb ->
    exists b, ini_Write (drop_size_hints o) = Ok b /\ bb = Some (<["operatorDefaults.conf" := b]> dd)) as Hrem.
  { intros dd o tt bb Hdd Htt Hl. unfold removeConfigNotRequiringNodeRestart.
    rewrite smap_get_some, Hdd. cbn [from_option id smap_entries default]. destruct (str_eqb tt "") eqn:E; [by apply str_eqb_spec in E|].
    rewrite Hl. cbn. destruct (ini_Write (drop_size_hints o)) as [b|]; cbn; [|done].
    intros E'. injection E' as E'. rewrite <- E'. eauto. }
  destruct (Hrem d op t p) as (b & Hb & ->); [|done..|].
  { rewrite Ed1, !updateProperty_lookup. cbn. by rewrite lookup_insert_ne, lookup_insert_eq. }
  destruct (Hrem d' op' t' u) as (b' & Hb' & ->); [|done..|].
  { rewrite Ed2, !updateProperty_lookup. cbn. by rewrite lookup_insert_ne, lookup_insert_eq. }
  rewrite (operatorConfiguration_scaled _ _ _ _ _ Hop Hop') in Hb. rewrite Hb in Hb'. injection Hb' as <-.
  unfold semantic_equal. rewrite !bool_decide_eq_true_2; [done| |done].
  unfold smap_entries. cbn [cm_Data from_option id]. apply map_eq. intros k.
  destruct (decide ("operatorDefaults.conf" = k)) as [<-|Hk]; [by rewrite !lookup_insert_eq|].
  rewrite !(lookup_insert_ne _ "operatorDefaults.conf") by done.
  rewrite Ed2, Ed1, !updateProperty_lookup. repeat (case_decide; [done|]). unfold id.
  destruct (decide ("userDefinedConfiguration.conf" = k)) as [<-|Hu']; [by rewrite !lookup_insert_eq|].
  rewrite !(lookup_insert_ne _ "userDefinedConfiguration.conf"), !(lookup_insert_ne _ "operatorDefaults.conf") by done.
  rewrite ?updateProperty_lookup. repeat (rewrite decide_False by done). by rewrite ?lookup_insert_ne.
Qed.
End Restart.
