(* ===== verification/PodTemplate.v ===== *)
(** * The pod template

    The functions of internal/resource/statefulset.go that compute the pod
    template of the StatefulSet: volumes and mounts, containers and their
    ports, probes, environment and the Vault annotations.  [None] is a nil
    pointer dereference: the custom resource definition gives every pointer
    dereferenced here a default. *)

From S2P Require Import Prelude.
From S2P Require Import K8s.
From S2P Require Import Metadata.
From S2P Require Import Status.
From S2P Require Import Api.
From S2P Require Import Plugins.
From S2P Require Import Services.
From S2P Require Import Ini.
From S2P Require Import Secrets.
From S2P Require Import ServerConf.

Definition stsSuffix : string := "server".
Definition defaultPVCName : string := "persistence".
Definition DeletionMarker : string := "skipPreStopChecks".
Definition serviceAccountName : string := "server".


Definition Mi : Z := 1048576.
Definition Ki : Z := 1024.

(** ** Container ports *)

Definition port_if (b : bool) (name : string) (port : Z) : list ContainerPort :=
  if b then [mkCPort name port] else [].

Definition updateContainerPortsOnlyTLSListeners (instance : RabbitmqCluster) : list ContainerPort :=
  let plugin := AdditionalPluginEnabled instance in
  [ mkCPort "epmd" 4369; mkCPort "amqps" 5671; mkCPort "management-tls" 15671;
    mkCPort "prometheus-tls" 15691 ]
  ++ port_if (plugin "rabbitmq_mqtt") "mqtts" 8883
  ++ port_if (plugin "rabbitmq_stomp") "stomps" 61614
  ++ port_if (StreamNeeded instance) "streams" 5551.

Definition updateContainerPorts (instance : RabbitmqCluster) : list ContainerPort :=
  let plugin := AdditionalPluginEnabled instance in
  if DisableNonTLSListeners instance then updateContainerPortsOnlyTLSListeners instance
  else
    [ mkCPort "epmd" 4369; mkCPort "amqp" 5672; mkCPort "management" 15672; mkCPort "prometheus" 15692 ]
    ++ port_if (plugin "rabbitmq_mqtt") "mqtt" 1883
    ++ port_if (plugin "rabbitmq_web_mqtt") "web-mqtt" 15675
    ++ port_if (plugin "rabbitmq_stomp") "stomp" 61613
    ++ port_if (plugin "rabbitmq_web_stomp") "web-stomp" 15674
    ++ port_if (plugin "rabbitmq_web_amqp") "web-amqp" 15678
    ++ port_if (StreamNeeded instance) "stream" 5552
    ++ (if TLSEnabled instance then
          [ mkCPort "amqps" 5671; mkCPort "management-tls" 15671; mkCPort "prometheus-tls" 15691 ]
          ++ port_if (plugin "rabbitmq_mqtt") "mqtts" 8883
          ++ port_if (plugin "rabbitmq_stomp") "stomps" 61614
          ++ port_if (StreamNeeded instance) "streams" 5551
          ++ port_if (plugin "rabbitmq_web_mqtt") "web-mqtt-tls" 15676
          ++ port_if (plugin "rabbitmq_web_stomp") "web-stomp-tls" 15673
          ++ port_if (plugin "rabbitmq_web_amqp") "web-amqp-tls" 15677
        else []).

(** ** Environment and probes *)

Definition envVarsK8sObjects (instance : RabbitmqCluster) : list EnvVar :=
  [ mkEnv "MY_POD_NAME" "" (Some (FieldRef "metadata.name" "v1"));
    mkEnv "MY_POD_NAMESPACE" "" (Some (FieldRef "metadata.namespace" "v1"));
    mkEnv "K8S_SERVICE_NAME" (ChildResourceName instance headlessServiceSuffix) None ].

Definition rabbitmq_env (instance : RabbitmqCluster) : list EnvVar :=
  envVarsK8sObjects instance ++
  [ mkEnv "RABBITMQ_ENABLED_PLUGINS_FILE" "/operator/enabled_plugins" None;
    mkEnv "RABBITMQ_USE_LONGNAME" "true" None;
    mkEnv "RABBITMQ_NODENAME" "rabbit@$(MY_POD_NAME).$(K8S_SERVICE_NAME).$(MY_POD_NAMESPACE)" None;
    mkEnv "K8S_HOSTNAME_SUFFIX" ".$(K8S_SERVICE_NAME).$(MY_POD_NAMESPACE)" None ].

Definition startupProbe (instance : RabbitmqCluster) : Probe :=
  match smap_get (rmq_Annotations instance) LegacyStartupProbeAnnotation with
  | Some _ =>
      mkProbe (ExecAction ["/bin/bash"; "-c";
        "[[ " +:+ quoted "true" +:+ " == " +:+
        quoted "$(rabbitmqctl eval 'rabbit_nodes:reached_target_cluster_size().')" +:+ " ]]"])
        10 5 10 0 30
  | None =>
      let port := if DisableNonTLSListeners instance then "management-tls" else "management" in
      let scheme := if DisableNonTLSListeners instance then "HTTPS" else "HTTP" in
      mkProbe (HTTPGet "/api/health/checks/reached-target-cluster-size" (FromString port) scheme)
        10 5 10 0 30
  end.

Definition readinessProbe (instance : RabbitmqCluster) : Probe :=
  let readinessProbePort := if DisableNonTLSListeners instance then "amqps" else "amqp" in
  mkProbe (TCPSocket (FromString readinessProbePort)) 10 5 10 1 3.

(** ** Volumes *)

Definition rabbitmqConfigurationIsSet (instance : RabbitmqCluster) : bool :=
  let r := spec_Rabbitmq (rmq_Spec instance) in
  negb (str_eqb (rc_AdvancedConfig r) "") || negb (str_eqb (rc_EnvConfig r) "")
  || negb (str_eqb (rc_ErlangInetConfig r) "").

(** The volumes every pod has.  The only volume named [rabbitmq-confd] is the
    projected one. *)
Definition base_volumes (instance : RabbitmqCluster) : list Volume :=
  [ mkVolume "plugins-conf" (VolConfigMap (ChildResourceName instance PluginsConfigName));
    mkVolume "rabbitmq-confd"
      (VolProjected [ProjConfigMap (ChildResourceName instance ServerConfigMapName)
         [mkKTP "operatorDefaults.conf" "operatorDefaults.conf";
          mkKTP "userDefinedConfiguration.conf" "userDefinedConfiguration.conf"]] None);
    mkVolume "rabbitmq-erlang-cookie" (VolEmptyDir "" None);
    mkVolume "erlang-cookie-secret" (VolSecret (ChildResourceName instance erlangCookieName));
    mkVolume "rabbitmq-plugins" (VolEmptyDir "" None);
    mkVolume "pod-info"
      (VolDownwardAPI [mkDown DeletionMarker ("metadata.labels['" +:+ DeletionMarker +:+ "']")]) ].

Definition appendDefaultUserSecretVolumeProjection (volumes : list Volume) (instance : RabbitmqCluster)
    (secretName : string) : list Volume :=
  let secretName := if str_eqb secretName "" then ChildResourceName instance DefaultUserSecretName
                    else secretName in
  map (fun value =>
    if str_eqb (v_Name value) "rabbitmq-confd" then
      match v_Source value with
      | VolProjected sources mode =>
          mkVolume (v_Name value)
            (VolProjected (sources ++ [ProjSecret secretName None
               [mkKTP "default_user.conf" "default_user.conf"]]) mode)
      | _ => value
      end
    else value) volumes.

Definition tls_volume (instance : RabbitmqCluster) : Volume :=
  let tlsSpec := spec_TLS (rmq_Spec instance) in
  let secretEnforced := true in
  let filePermissions := 400%Z in
  mkVolume "rabbitmq-tls"
    (VolProjected
       (ProjSecret (tls_SecretName tlsSpec) (Some secretEnforced)
          [mkKTP "tls.crt" "tls.crt"; mkKTP "tls.key" "tls.key"]
        :: (if MutualTLSEnabled instance
            then [ProjSecret (tls_CaSecretName tlsSpec) (Some secretEnforced) [mkKTP "ca.crt" "ca.crt"]]
            else []))
       (Some filePermissions)).

(** The emptyDir that stands for the persistent volume. *)
Definition persistence_volume (instance : RabbitmqCluster) : Volume :=
  mkVolume "persistence"
    match per_EmptyDir (spec_Persistence (rmq_Spec instance)) with
    | None => VolEmptyDir "" None
    | Some e => VolEmptyDir (ed_Medium e) (ed_SizeLimit e)
    end.

Definition pod_volumes (instance : RabbitmqCluster) (storage : Quantity) : list Volume :=
  let base := base_volumes instance in
  let base :=
    if negb (VaultDefaultUserSecretEnabled instance) && negb (ExternalSecretEnabled instance)
    then appendDefaultUserSecretVolumeProjection base instance ""
    else if ExternalSecretEnabled instance
    then appendDefaultUserSecretVolumeProjection base instance
           (sb_ExternalSecret_Name (spec_SecretBackend (rmq_Spec instance)))
    else base in
  base
  ++ (if rabbitmqConfigurationIsSet instance
      then [mkVolume "server-conf" (VolConfigMap (ChildResourceName instance ServerConfigMapName))] else [])
  ++ (if (q_Cmp storage 0 =? 0)%Z then [persistence_volume instance] else [])
  ++ (if SecretTLSEnabled instance then [tls_volume instance] else []).

(** ** Mounts *)

Definition mount (name path : string) : VolumeMount := mkMount name path "" false.
Definition mount_sub (name path sub : string) : VolumeMount := mkMount name path sub false.
Definition tls_mount : VolumeMount := mkMount "rabbitmq-tls" "/etc/rabbitmq-tls/" "" true.

Definition conf_mount (value path sub : string) : list VolumeMount :=
  if negb (str_eqb value "") then [mount_sub "server-conf" path sub] else [].

Definition rabbitmqContainerVolumeMounts (instance : RabbitmqCluster) : list VolumeMount :=
  let r := spec_Rabbitmq (rmq_Spec instance) in
  [ mount "rabbitmq-erlang-cookie" "/var/lib/rabbitmq/";
    mount "persistence" "/var/lib/rabbitmq/mnesia/";
    mount "rabbitmq-plugins" "/operator";
    mount_sub "rabbitmq-confd" "/etc/rabbitmq/conf.d/10-operatorDefaults.conf" "operatorDefaults.conf";
    mount_sub "rabbitmq-confd" "/etc/rabbitmq/conf.d/90-userDefinedConfiguration.conf"
      "userDefinedConfiguration.conf";
    mount "pod-info" "/etc/pod-info/" ]
  ++ (if negb (VaultDefaultUserSecretEnabled instance)
      then [mount_sub "rabbitmq-confd" "/etc/rabbitmq/conf.d/11-default_user.conf" "default_user.conf"]
      else [])
  ++ conf_mount (rc_EnvConfig r) "/etc/rabbitmq/rabbitmq-env.conf" "rabbitmq-env.conf"
  ++ conf_mount (rc_AdvancedConfig r) "/etc/rabbitmq/advanced.config" "advanced.config"
  ++ conf_mount (rc_ErlangInetConfig r) "/etc/rabbitmq/erl_inetrc" "erl_inetrc"
  ++ (if SecretTLSEnabled instance then [tls_mount] else []).

(** ** Containers *)

Definition resource_list (cpu memory : Quantity) : ResourceList :=
  Some (<["cpu" := cpu]> {["memory" := memory]}).

Definition initContainerCPU : Quantity := quantity_of_milli 20.
Definition initContainerMemory : Quantity := quantity_of_int (64 * Mi).

(** [ptr.Deref(p, d)] *)
Definition Deref {A} (p : option A) (d : A) : A := default d p.

Definition setup_command (defaultUserConf : string) (delay : Z) : string :=
  "cp /tmp/erlang-cookie-secret/.erlang.cookie /var/lib/rabbitmq/.erlang.cookie " +:+
  "&& chmod 600 /var/lib/rabbitmq/.erlang.cookie ; " +:+
  "cp /tmp/rabbitmq-plugins/enabled_plugins /operator/enabled_plugins ; " +:+
  "echo '[default]' > /var/lib/rabbitmq/.rabbitmqadmin.conf " +:+
  "&& sed -e 's/default_user/username/' -e 's/default_pass/password/' " +:+ defaultUserConf +:+
  " >> /var/lib/rabbitmq/.rabbitmqadmin.conf " +:+
  "&& chmod 600 /var/lib/rabbitmq/.rabbitmqadmin.conf ; " +:+
  "sleep " +:+ Itoa delay.

Definition restricted_context : SecurityContext :=
  mkSC (Some (mkCaps None (Some ["ALL"]))) (Some false) None (Some true) (Some true) (Some false)
    (Some "RuntimeDefault") None.

Definition setupContainer (instance : RabbitmqCluster) : Container :=
  let vault := VaultDefaultUserSecretEnabled instance in
  let resources := resource_list initContainerCPU initContainerMemory in
  mkContainer "setup-container" (spec_Image (rmq_Spec instance))
    [ "sh"; "-c";
      setup_command (if vault then "/etc/rabbitmq/conf.d/11-default_user.conf" else "/tmp/default_user.conf")
        (Deref (spec_DelayStartSeconds (rmq_Spec instance)) 30%Z) ]
    [] [] None (mkResources resources resources)
    (Some ([ mount "plugins-conf" "/tmp/rabbitmq-plugins/";
             mount "rabbitmq-erlang-cookie" "/var/lib/rabbitmq/";
             mount "erlang-cookie-secret" "/tmp/erlang-cookie-secret/";
             mount "rabbitmq-plugins" "/operator";
             mount "persistence" "/var/lib/rabbitmq/mnesia/" ]
           ++ (if vault then []
               else [mount_sub "rabbitmq-confd" "/tmp/default_user.conf" "default_user.conf"])))
    None None None None (Some restricted_context).

Definition defaultUserCredentialUpdater (instance : RabbitmqCluster) (image : string) : Container :=
  let managementURI := if TLSEnabled instance then "https://$(HOSTNAME_DOMAIN):15671"
                       else "http://127.0.0.1:15672" in
  mkContainer "default-user-credential-updater" image []
    [ "--management-uri"; managementURI; "-v"; "4" ] []
    (Some (envVarsK8sObjects instance ++
       [mkEnv "HOSTNAME_DOMAIN" "$(MY_POD_NAME).$(K8S_SERVICE_NAME).$(MY_POD_NAMESPACE)" None]))
    (mkResources (resource_list (quantity_of_milli 500) (quantity_of_int (128 * Mi)))
       (resource_list (quantity_of_milli 10) (quantity_of_int (512 * Ki))))
    (Some (mount "rabbitmq-erlang-cookie" "/var/lib/rabbitmq/"
           :: (if SecretTLSEnabled instance then [tls_mount] else [])))
    None None None None None.

Definition preStop_command (t : Z) : list string :=
  [ "/bin/bash"; "-c";
    "if [ ! -z " +:+ quoted ("$(cat /etc/pod-info/" +:+ DeletionMarker +:+ ")") +:+ " ]; then exit 0; fi;" +:+
    " rabbitmq-upgrade await_online_quorum_plus_one -t " +:+ Itoa t +:+ " &&" +:+
    " rabbitmq-upgrade await_online_synchronized_mirror -t " +:+ Itoa t +:+ " || true &&" +:+
    " rabbitmq-upgrade drain -t " +:+ Itoa t ].

Definition rabbitmq_container (instance : RabbitmqCluster) (resources : ResourceRequirements)
    (gracePeriod : Z) : Container :=
  mkContainer "rabbitmq" (spec_Image (rmq_Spec instance)) [] [] (updateContainerPorts instance)
    (Some (rabbitmq_env instance)) resources (Some (rabbitmqContainerVolumeMounts instance))
    None (Some (readinessProbe instance)) (Some (startupProbe instance))
    (Some (preStop_command gracePeriod)) (Some restricted_context).

(** ** Vault annotations *)

Definition podHostName (instance : RabbitmqCluster) (i : Z) : string :=
  ChildResourceName instance stsSuffix +:+ "-" +:+ Itoa i +:+ "." +:+
  ChildResourceName instance headlessServiceSuffix +:+ "." +:+ rmq_Namespace instance.

(** [for i = range n]: from 0 to [n - 1], nothing when [n] is negative *)
Definition int_range (n : Z) : list Z := map Z.of_nat (seq 0 (Z.to_nat n)).

Definition podHostNames (instance : RabbitmqCluster) : string :=
  TrimPrefix
    (fold_left (fun altNames i => altNames +:+ "," +:+ podHostName instance i)
       (int_range (Deref (spec_Replicas (rmq_Spec instance)) 1%Z)) "") ",".

Definition vault_open (path commonName altNames ipSans : string) : string :=
  nl +:+ "{{- with secret " +:+ quoted path +:+ " " +:+ quoted ("common_name=" +:+ commonName) +:+ " " +:+
  quoted ("alt_names=" +:+ altNames) +:+ " " +:+ quoted ("ip_sans=" +:+ ipSans) +:+ " -}}" +:+ nl.

Definition generateVaultTLSTemplate (commonName altNames vaultPath ipSans tlsAttribute : string) : string :=
  vault_open vaultPath commonName altNames ipSans +:+ "{{ .Data." +:+ tlsAttribute +:+ " }}" +:+ nl +:+
  "{{- end }}".

Definition generateVaultCATemplate (commonName altNames : string) (vault : VaultSpec) : string :=
  let tls := va_TLS vault in
  if str_eqb (vt_PKIRootPath tls) ""
  then generateVaultTLSTemplate commonName altNames (vt_PKIIssuerPath tls) (vt_IpSans tls) "issuing_ca"
  else nl +:+ "{{- with secret " +:+ quoted (vt_PKIRootPath tls) +:+ " -}}" +:+ nl +:+
       "{{ .Data.certificate }}" +:+ nl +:+ "{{- end }}".

Definition generateVaultTLSCertificateTemplate (commonName altNames : string) (vault : VaultSpec) : string :=
  let tls := va_TLS vault in
  vault_open (vt_PKIIssuerPath tls) commonName altNames (vt_IpSans tls) +:+
  Join [ "{{ .Data.certificate }}"; "{{- if .Data.ca_chain -}}";
         "{{- $lastintermediatecertindex := len .Data.ca_chain | subtract 1 -}}";
         "{{ range $index, $cacert := .Data.ca_chain }}";
         "{{ if (lt $index $lastintermediatecertindex) }}"; "{{ $cacert }}"; "{{ end }}"; "{{ end }}";
         "{{- end -}}"; "{{- end -}}" ] nl.

Definition vault_key (s : string) : string := "vault.hashicorp.com/" +:+ s.

(** [m[k] = v] for each pair in order *)
Definition assign_all (kvs : list (string * string)) (m : gmap string string) : gmap string string :=
  fold_left (fun acc kv => <[fst kv := snd kv]> acc) kvs m.

Definition vault_default_user_annotations (vault : VaultSpec) : list (string * string) :=
  if vault_DefaultUserSecretEnabled vault then
    let secretName := "11-default_user.conf" in
    [ (vault_key ("secret-volume-path-" +:+ secretName), "/etc/rabbitmq/conf.d");
      (vault_key ("agent-inject-perms-" +:+ secretName), "0640");
      (vault_key ("agent-inject-secret-" +:+ secretName), va_DefaultUserPath vault);
      (vault_key ("agent-inject-template-" +:+ secretName),
       nl +:+ "{{- with secret " +:+ quoted (va_DefaultUserPath vault) +:+ " -}}" +:+ nl +:+
       "default_user = {{ .Data.data.username }}" +:+ nl +:+
       "default_pass = {{ .Data.data.password }}" +:+ nl +:+ "{{- end }}") ]
  else [].

Definition vault_tls_annotations (instance : RabbitmqCluster) (vault : VaultSpec) : list (string * string) :=
  if vault_TLSEnabled vault then
    let tls := va_TLS vault in
    let pathCert := vt_PKIIssuerPath tls in
    let commonName := if negb (str_eqb (vt_CommonName tls) "") then vt_CommonName tls
                      else ServiceSubDomain instance in
    let altNames := podHostNames instance in
    let altNames := if negb (str_eqb (vt_AltNames tls) "") then altNames +:+ "," +:+ vt_AltNames tls
                    else altNames in
    let certDir := TrimSuffix tlsCertDir "/" in
    let file name template :=
      [ (vault_key ("secret-volume-path-" +:+ name), certDir);
        (vault_key ("agent-inject-secret-" +:+ name), pathCert);
        (vault_key ("agent-inject-template-" +:+ name), template) ] in
    file tlsCertFilename (generateVaultTLSCertificateTemplate commonName altNames vault)
    ++ file tlsKeyFilename
         (generateVaultTLSTemplate commonName altNames (vt_PKIIssuerPath tls) (vt_IpSans tls) "private_key")
    ++ file caCertFilename (generateVaultCATemplate commonName altNames vault)
  else [].

Definition vaultAnnotations (instance : RabbitmqCluster) (vault : VaultSpec) : gmap string string :=
  assign_all
    ([ (vault_key "agent-inject", "true"); (vault_key "agent-init-first", "true");
       (vault_key "role", va_Role vault) ]
     ++ vault_default_user_annotations vault ++ vault_tls_annotations instance vault) ∅.

Definition appendVaultAnnotations (currentAnnotations : smap) (instance : RabbitmqCluster)
    (vault : VaultSpec) : gmap string string :=
  ReconcileAnnotations currentAnnotations [Some (vaultAnnotations instance vault); va_Annotations vault].

(** ** The template *)

Definition defaultTopologySpreadConstraints (instance : RabbitmqCluster) : list TopologySpreadConstraint :=
  if DisableDefaultTopologySpreadConstraints instance then []
  else [mkTSC 1 "topology.kubernetes.io/zone" "ScheduleAnyway" (LabelSelector (rmq_Name instance))].

Definition defaultPodAnnotations (instance : RabbitmqCluster) : gmap string string :=
  match vault_of instance with
  | Some vault => appendVaultAnnotations (Some ∅) instance vault
  | None => ∅
  end.

Definition updater_containers (instance : RabbitmqCluster) : list Container :=
  if VaultDefaultUserSecretEnabled instance then
    match vault_of instance ≫= va_DefaultUserUpdaterImage with
    | Some image => if negb (str_eqb image "") then [defaultUserCredentialUpdater instance image] else []
    | None => []
    end
  else [].

Definition podTemplateSpec (instance : RabbitmqCluster) (previousPodAnnotations : smap)
  : option PodTemplateSpec :=
  let s := rmq_Spec instance in
  storage ← per_Storage (spec_Persistence s);
  resources ← spec_Resources s;
  gracePeriod ← spec_TerminationGracePeriodSeconds s;
  Some (mkPodTemplate
    (om_with_annotations
       (Some (ReconcileAnnotations previousPodAnnotations [Some (defaultPodAnnotations instance)]))
       (om_with_labels (Some (Label (rmq_Name instance))) (meta_named "" "")))
    (mkPodSpec (pod_volumes instance storage) [setupContainer instance]
       (rabbitmq_container instance resources gracePeriod :: updater_containers instance)
       false false false
       (ChildResourceName instance serviceAccountName) (Some true)
       (Some (mkPSC (Some 0%Z) (Some 999%Z) (Some true) (Some "RuntimeDefault") None))
       (spec_ImagePullSecrets s) (Some gracePeriod) (spec_Affinity s) (spec_Tolerations s)
       (defaultTopologySpreadConstraints instance) None)).

(** ** Lemmas *)

Lemma podTemplateSpec_ok instance prev pt :
  podTemplateSpec instance prev = Some pt ->
  exists storage resources gracePeriod,
    per_Storage (spec_Persistence (rmq_Spec instance)) = Some storage /\
    spec_Resources (rmq_Spec instance) = Some resources /\
    spec_TerminationGracePeriodSeconds (rmq_Spec instance) = Some gracePeriod /\
    ps_Volumes (pt_Spec pt) = pod_volumes instance storage /\
    ps_InitContainers (pt_Spec pt) = [setupContainer instance] /\
    ps_Containers (pt_Spec pt) =
      rabbitmq_container instance resources gracePeriod :: updater_containers instance /\
    ps_ServiceAccountName (pt_Spec pt) = ChildResourceName instance serviceAccountName /\
    ps_AutomountServiceAccountToken (pt_Spec pt) = Some true /\
    om_Labels (pt_Meta pt) = Some (Label (rmq_Name instance)) /\
    om_Annotations (pt_Meta pt) =
      Some (ReconcileAnnotations prev [Some (defaultPodAnnotations instance)]).
Proof.
  unfold podTemplateSpec. destruct (per_Storage _) as [st|]; [|done]. cbn.
  destruct (spec_Resources _) as [r|]; [|done]. cbn.
  destruct (spec_TerminationGracePeriodSeconds _) as [g|]; [|done]. cbn.
  intros [= <-]. exists st, r, g. by repeat split.
Qed.

Lemma append_projection_names vs instance n :
  map v_Name (appendDefaultUserSecretVolumeProjection vs instance n) = map v_Name vs.
Proof.
  unfold appendDefaultUserSecretVolumeProjection. rewrite map_map. apply map_ext. intros v.
  destruct (str_eqb (v_Name v) _); [|done]. by destruct (v_Source v).
Qed.

Definition base_volume_names : list string :=
  ["plugins-conf"; "rabbitmq-confd"; "rabbitmq-erlang-cookie"; "erlang-cookie-secret";
   "rabbitmq-plugins"; "pod-info"].

Lemma pod_volume_names instance storage :
  map v_Name (pod_volumes instance storage) =
  base_volume_names
  ++ (if rabbitmqConfigurationIsSet instance then ["server-conf"] else [])
  ++ (if (q_Cmp storage 0 =? 0)%Z then ["persistence"] else [])
  ++ (if SecretTLSEnabled instance then ["rabbitmq-tls"] else []).
Proof.
  unfold pod_volumes. rewrite !map_app. f_equal.
  - destruct (negb _ && negb _); [by rewrite append_projection_names|].
    destruct (ExternalSecretEnabled _); [by rewrite append_projection_names | done].
  - by destruct (rabbitmqConfigurationIsSet _), (_ =? 0)%Z, (SecretTLSEnabled _).
Qed.

Definition mounts_of (c : Container) : list VolumeMount := default [] (c_VolumeMounts c).
Definition template_containers (pt : PodTemplateSpec) : list Container :=
  ps_InitContainers (pt_Spec pt) ++ ps_Containers (pt_Spec pt).

Definition mount_ok (names : list string) (pvc : bool) (m : VolumeMount) : Prop :=
  vm_Name m ∈ names \/ (pvc = true /\ vm_Name m = defaultPVCName).
#[export] Instance mount_ok_dec names pvc m : Decision (mount_ok names pvc m).
Proof. unfold mount_ok. apply _. Defined.

(** All mounts of a list name something, on distinct paths. *)
Definition mounts_ok (names : list string) (pvc : bool) (ms : list VolumeMount) : Prop :=
  Forall (mount_ok names pvc) ms /\ NoDup (map vm_MountPath ms).
#[export] Instance mounts_ok_dec names pvc ms : Decision (mounts_ok names pvc ms).
Proof. unfold mounts_ok. apply _. Defined.

Ltac decide_goal := apply (bool_decide_unpack _); by vm_compute.

Lemma rabbitmq_mounts_ok instance storage :
  mounts_ok (map v_Name (pod_volumes instance storage)) (negb (q_Cmp storage 0 =? 0)%Z)
    (rabbitmqContainerVolumeMounts instance).
Proof.
  rewrite pod_volume_names. unfold rabbitmqContainerVolumeMounts, rabbitmqConfigurationIsSet, conf_mount.
  destruct (str_eqb (rc_EnvConfig _) ""), (str_eqb (rc_AdvancedConfig _) ""),
    (str_eqb (rc_ErlangInetConfig _) ""), (SecretTLSEnabled _), (VaultDefaultUserSecretEnabled _),
    (_ =? 0)%Z; decide_goal.
Qed.

Lemma setup_mounts_ok instance storage :
  mounts_ok (map v_Name (pod_volumes instance storage)) (negb (q_Cmp storage 0 =? 0)%Z)
    (mounts_of (setupContainer instance)).
Proof.
  rewrite pod_volume_names. unfold setupContainer, mounts_of. cbn [c_VolumeMounts from_option id].
  destruct (rabbitmqConfigurationIsSet _), (SecretTLSEnabled _), (VaultDefaultUserSecretEnabled _),
    (_ =? 0)%Z; decide_goal.
Qed.

Lemma updater_mounts_ok instance storage image :
  mounts_ok (map v_Name (pod_volumes instance storage)) (negb (q_Cmp storage 0 =? 0)%Z)
    (mounts_of (defaultUserCredentialUpdater instance image)).
Proof.
  rewrite pod_volume_names. unfold defaultUserCredentialUpdater, mounts_of.
  cbn [c_VolumeMounts from_option id].
  destruct (rabbitmqConfigurationIsSet _), (SecretTLSEnabled _), (_ =? 0)%Z; decide_goal.
Qed.

Lemma template_containers_cases instance prev pt c :
  podTemplateSpec instance prev = Some pt -> c ∈ template_containers pt ->
  c = setupContainer instance \/
  (exists r g, c = rabbitmq_container instance r g) \/
  (exists image, c = defaultUserCredentialUpdater instance image).
Proof.
  intros (st & r & g & _ & _ & _ & _ & Hi & Hc & _)%podTemplateSpec_ok.
  unfold template_containers. rewrite Hi, Hc. cbn.
  intros [->|[->|Hin]%elem_of_cons]%elem_of_cons; [by left | right; left; eauto|].
  right; right. unfold updater_containers in Hin.
  destruct (VaultDefaultUserSecretEnabled _); [|by apply elem_of_nil in Hin].
  destruct (_ ≫= _) as [image|]; [|by apply elem_of_nil in Hin].
  destruct (negb _); [|by apply elem_of_nil in Hin].
  apply list_elem_of_singleton in Hin. eauto.
Qed.

(** the paths the projected volume provides *)
Definition projection_paths (p : VolumeProjection) : list string :=
  match p with
  | ProjConfigMap _ items => map ktp_Path items
  | ProjSecret _ _ items => map ktp_Path items
  end.
Definition volume_paths (v : Volume) : list string :=
  match v_Source v with
  | VolProjected sources _ => concat (map projection_paths sources)
  | _ => []
  end.

Definition is_tls_only_gap (name : string) : bool :=
  slice_contains ["web-mqtt-tls"; "web-stomp-tls"; "web-amqp-tls"] name.

#[export] Instance ContainerPort_eq_dec : EqDecision ContainerPort.
Proof. solve_decision. Defined.

Definition probe_port (p : Probe) : option string :=
  match pr_Handler p with
  | TCPSocket (FromString s) => Some s
  | HTTPGet _ (FromString s) _ => Some s
  | _ => None
  end.

(** The plugins and listeners a cluster uses, as the port lists see them. *)
Ltac port_cases instance :=
  destruct (AdditionalPluginEnabled instance "rabbitmq_mqtt"),
    (AdditionalPluginEnabled instance "rabbitmq_web_mqtt"),
    (AdditionalPluginEnabled instance "rabbitmq_stomp"),
    (AdditionalPluginEnabled instance "rabbitmq_web_stomp"),
    (AdditionalPluginEnabled instance "rabbitmq_web_amqp"),
    (StreamNeeded instance).

(** ** Properties *)

(** C36. Every volume mount of every container of the generated pod is backed: it
    names a volume of the pod, or the persistent volume claim when the
    cluster has storage; the volumes have distinct names and no container
    mounts twice on one path, whatever the secret backend, the TLS settings
    and the configuration files of the cluster. *)
Theorem pod_mounts_declared (instance : RabbitmqCluster) (prev : smap) (pt : PodTemplateSpec)
    (storage : Quantity) :
  podTemplateSpec instance prev = Some pt ->
  per_Storage (spec_Persistence (rmq_Spec instance)) = Some storage ->
  NoDup (map v_Name (ps_Volumes (pt_Spec pt))) /\
  forall c, c ∈ template_containers pt ->
    (forall m, m ∈ mounts_of c ->
       vm_Name m ∈ map v_Name (ps_Volumes (pt_Spec pt)) \/
       (storage <> 0%Z /\ vm_Name m = defaultPVCName)) /\
    NoDup (map vm_MountPath (mounts_of c)).
Proof.
  intros Hpt Hst. pose proof Hpt as (st & r & g & Hst' & _ & _ & Hv & _)%podTemplateSpec_ok.
  rewrite Hst in Hst'. injection Hst' as <-. rewrite Hv. split.
  - rewrite pod_volume_names.
    destruct (rabbitmqConfigurationIsSet _), (_ =? 0)%Z, (SecretTLSEnabled _); decide_goal.
  - intros c Hc. assert (mounts_ok (map v_Name (pod_volumes instance storage))
      (negb (q_Cmp storage 0 =? 0)%Z) (mounts_of c)) as [Hm Hnd].
    { destruct (template_containers_cases _ _ _ _ Hpt Hc) as [->|[(r' & g' & ->)|(image & ->)]];
        [apply setup_mounts_ok | apply rabbitmq_mounts_ok | apply updater_mounts_ok]. }
    split; [|done]. intros m Hin. rewrite Forall_forall in Hm.
    destruct (Hm m Hin) as [?|[E ?]]; [by left|]. right. split; [|done]. intros ->. done.
Qed.

(** Every file the rabbitmq container mounts out of the projected
    configuration volume is one of the paths that volume provides. *)
Theorem confd_mounts_projected (instance : RabbitmqCluster) (prev : smap) (pt : PodTemplateSpec)
    (c : Container) (m : VolumeMount) :
  podTemplateSpec instance prev = Some pt -> c ∈ template_containers pt ->
  m ∈ mounts_of c -> vm_Name m = "rabbitmq-confd" ->
  exists v, v ∈ ps_Volumes (pt_Spec pt) /\ v_Name v = "rabbitmq-confd" /\ vm_SubPath m ∈ volume_paths v.
Proof.
  intros Hpt Hc Hm Hn. pose proof Hpt as (st & r & g & _ & _ & _ & -> & _)%podTemplateSpec_ok.
  assert (vm_SubPath m ∈ (["operatorDefaults.conf"; "userDefinedConfiguration.conf"] ++
    (if negb (VaultDefaultUserSecretEnabled instance) then ["default_user.conf"] else []))) as Hsub.
  { assert (Forall (fun m => vm_Name m = "rabbitmq-confd" -> vm_SubPath m ∈
      (["operatorDefaults.conf"; "userDefinedConfiguration.conf"] ++
       (if negb (VaultDefaultUserSecretEnabled instance) then ["default_user.conf"] else [])))
      (mounts_of c)) as HF; [|rewrite Forall_forall in HF; by apply HF].
    destruct (template_containers_cases _ _ _ _ Hpt Hc) as [->|[(r' & g' & ->)|(image & ->)]];
      unfold mounts_of; cbn [c_VolumeMounts setupContainer rabbitmq_container
        defaultUserCredentialUpdater from_option id].
    - destruct (VaultDefaultUserSecretEnabled _); decide_goal.
    - unfold rabbitmqContainerVolumeMounts, conf_mount.
      destruct (str_eqb (rc_EnvConfig _) ""), (str_eqb (rc_AdvancedConfig _) ""),
        (str_eqb (rc_ErlangInetConfig _) ""), (SecretTLSEnabled _), (VaultDefaultUserSecretEnabled _);
        decide_goal.
    - destruct (SecretTLSEnabled _), (VaultDefaultUserSecretEnabled _); decide_goal. }
  unfold pod_volumes, appendDefaultUserSecretVolumeProjection, base_volumes.
  destruct (VaultDefaultUserSecretEnabled _), (ExternalSecretEnabled _); cbn -[ChildResourceName] in *;
    (eexists; split; [right; left | split; [done|]]; cbn; set_solver).
Qed.


(** The hosts of a string builder loop, joined. *)
Lemma comma_loop {A} (h : A -> string) l acc :
  fold_left (fun a i => a +:+ "," +:+ h i) l acc =
  acc +:+ match l with [] => "" | _ => "," +:+ Join (map h l) "," end.
Proof.
  revert acc. induction l as [|x l IH]; intros acc; cbn [fold_left map Join].
  - by rewrite str_app_nil_r.
  - rewrite IH. destruct l as [|y l]; cbn [map].
    + by rewrite str_app_nil_r.
    + by rewrite !str_app_assoc.
Qed.

(** The alternative names of the Vault certificate: the host names of the
    replicas, in order, separated by commas; none when there is no replica. *)
Theorem podHostNames_spec (instance : RabbitmqCluster) :
  podHostNames instance =
  Join (map (podHostName instance) (int_range (Deref (spec_Replicas (rmq_Spec instance)) 1%Z))) ",".
Proof.
  unfold podHostNames. rewrite comma_loop. destruct (int_range _) as [|i l]; [done|].
  generalize (Join (map (podHostName instance) (i :: l)) ","). intros x.
  change ("" +:+ "," +:+ x) with ("," +:+ x). unfold TrimPrefix. by rewrite HasPrefix_app.
Qed.

Lemma defaultPodAnnotations_lookup instance k :
  defaultPodAnnotations instance !! k =
  match vault_of instance with
  | None => None
  | Some v => match smap_get (va_Annotations v) k with
              | Some x => Some x
              | None => vaultAnnotations instance v !! k
              end
  end.
Proof.
  unfold defaultPodAnnotations. destruct (vault_of instance) as [v|]; [|by rewrite lookup_empty].
  unfold appendVaultAnnotations, ReconcileAnnotations, mergeWithFilter. cbn [fold_left].
  rewrite !merge_one_lookup, <- !smap_get_entries. cbn [smap_get mbind option_bind].
  destruct (smap_get (va_Annotations v) k); [done|].
  destruct (vaultAnnotations instance v !! k); [done|]. by rewrite lookup_empty.
Qed.

(** The annotations of the pod: the user's Vault annotations win over the
    generated ones, which win over those the template had, and every other
    annotation the template had survives (the restart and plugin-update
    marks the controller puts there are never lost by a reconcile). *)
Theorem pod_annotations_spec (instance : RabbitmqCluster) (prev : smap) (pt : PodTemplateSpec) (k : string) :
  podTemplateSpec instance prev = Some pt ->
  smap_get (om_Annotations (pt_Meta pt)) k =
  match vault_of instance with
  | None => smap_get prev k
  | Some vault =>
      match smap_get (va_Annotations vault) k with
      | Some v => Some v
      | None => match vaultAnnotations instance vault !! k with
                | Some v => Some v
                | None => smap_get prev k
                end
      end
  end.
Proof.
  intros (st & r & g & _ & _ & _ & _ & _ & _ & _ & _ & _ & ->)%podTemplateSpec_ok.
  rewrite smap_get_some, ReconcileAnnotations_lookup1, smap_get_some, defaultPodAnnotations_lookup.
  destruct (vault_of instance) as [v|]; [|done].
  destruct (smap_get (va_Annotations v) k); [done|]. by destruct (vaultAnnotations instance v !! k).
Qed.

Definition unprivileged (c : Container) : Prop :=
  exists sc, c_SecurityContext c = Some sc /\ sc_Privileged sc = Some false /\
    sc_AllowPrivilegeEscalation sc = Some false /\ sc_RunAsNonRoot sc = Some true /\
    sc_ReadOnlyRootFilesystem sc = Some true /\
    sc_Capabilities sc = Some (mkCaps None (Some ["ALL"])).

(** The template exists exactly when storage, resources and the grace period
    are given (the custom resource definition defaults all three); the pods
    carry the labels the StatefulSet and the Services select, run under the
    operator's service account, share no host namespace, and the setup and
    rabbitmq containers are unprivileged. *)
Theorem podTemplateSpec_baseline (instance : RabbitmqCluster) (prev : smap) :
  (is_Some (podTemplateSpec instance prev) <->
   is_Some (per_Storage (spec_Persistence (rmq_Spec instance))) /\
   is_Some (spec_Resources (rmq_Spec instance)) /\
   is_Some (spec_TerminationGracePeriodSeconds (rmq_Spec instance))) /\
  (forall pt, podTemplateSpec instance prev = Some pt ->
     (forall k v, LabelSelector (rmq_Name instance) !! k = Some v ->
        smap_get (om_Labels (pt_Meta pt)) k = Some v) /\
     ps_ServiceAccountName (pt_Spec pt) = ChildResourceName instance serviceAccountName /\
     ps_AutomountServiceAccountToken (pt_Spec pt) = Some true /\
     (exists rmq updaters, ps_Containers (pt_Spec pt) = rmq :: updaters /\ c_Name rmq = "rabbitmq" /\
        unprivileged rmq) /\
     Forall unprivileged (ps_InitContainers (pt_Spec pt))).
Proof.
  split.
  - unfold podTemplateSpec. destruct (per_Storage _), (spec_Resources _),
      (spec_TerminationGracePeriodSeconds _); cbn; split; [eauto | eauto | ..];
      intros; destruct_and?; repeat match goal with H : is_Some None |- _ => by destruct H end.
  - intros pt (st & r & g & _ & _ & _ & _ & Hi & Hcs & Hsa & Hat & Hl & _)%podTemplateSpec_ok.
    rewrite Hi, Hcs, Hsa, Hat, Hl.
    assert (forall c, c_SecurityContext c = Some restricted_context -> unprivileged c) as Hc.
    { intros c E. exists restricted_context. by repeat split. }
    split; [|split; [done|split; [done|split]]].
    + intros k v Hk. unfold LabelSelector in Hk. apply lookup_singleton_Some in Hk as [<- <-]. rewrite smap_get_some. apply lookup_insert_eq.
    + eexists _, _. split; [done|]. split; [done|]. by apply Hc.
    + constructor; [by apply Hc | constructor].
Qed.
