(* ===== verification/StatefulSet.v ===== *)
(** * The StatefulSet

    The builder of internal/resource/statefulset.go: [Build], [Update] and
    the application of the user's override.  [Panic] is a Go run-time panic
    (an index out of range, a nil pointer, a write to a nil map), which the
    reconciler's caller recovers as an error. *)

From S2P Require Import Prelude.
From S2P Require Import K8s.
From S2P Require Import Metadata.
From S2P Require Import Status.
From S2P Require Import Api.
From S2P Require Import Sanitize.
From S2P Require Import Override.
From S2P Require Import Services.
From S2P Require Import PodTemplate.

Inductive StsError := Panic | Failed (msg : string).

Definition or_panic {A} (o : option A) : result StsError A :=
  match o with Some a => Ok a | None => Err Panic end.

(** ** Sorting environment variables and mounts *)

(** A loop over the indices of a slice that moves the element at [i] to the
    place its name asks for, swapping the two. *)
Fixpoint swap_loop {A} (target : string -> option nat) (name : A -> string)
    (n i : nat) (l : list A) : option (list A) :=
  match n with
  | O => Some l
  | S n' =>
      e ← l !! i;
      match target (name e) with
      | Some t => l' ← swap_at t i l; swap_loop target name n' (S i) l'
      | None => swap_loop target name n' (S i) l
      end
  end.

Definition env_target (name : string) : option nat :=
  if str_eqb name "MY_POD_NAME" then Some 0%nat
  else if str_eqb name "MY_POD_NAMESPACE" then Some 1%nat
  else if str_eqb name "K8S_SERVICE_NAME" then Some 2%nat
  else None.

Definition sortEnvVar (envVar : list EnvVar) : option (list EnvVar) :=
  swap_loop env_target env_Name (length envVar) 0 envVar.

Definition mount_target (name : string) : option nat :=
  if str_eqb name "rabbitmq-erlang-cookie" then Some 0%nat
  else if str_eqb name defaultPVCName then Some 1%nat
  else None.

Definition sortVolumeMounts (mounts : list VolumeMount) : option (list VolumeMount) :=
  swap_loop mount_target vm_Name (length mounts) 0 mounts.

(** ** Patching the pod spec *)

(** The zero [corev1.Container]. *)
Definition empty_container : Container :=
  mkContainer "" "" [] [] [] None (mkResources None None) None None None None None None.

Definition containerRabbitmq (containers : list Container) : Container :=
  default empty_container (find_first (fun c => str_eqb (c_Name c) "rabbitmq") containers).

Definition c_with_env (e : option (list EnvVar)) (c : Container) : Container :=
  mkContainer (c_Name c) (c_Image c) (c_Command c) (c_Args c) (c_Ports c) e (c_Resources c)
    (c_VolumeMounts c) (c_LivenessProbe c) (c_ReadinessProbe c) (c_StartupProbe c) (c_PreStop c)
    (c_SecurityContext c).
Definition c_with_mounts (m : option (list VolumeMount)) (c : Container) : Container :=
  mkContainer (c_Name c) (c_Image c) (c_Command c) (c_Args c) (c_Ports c) (c_Env c) (c_Resources c)
    m (c_LivenessProbe c) (c_ReadinessProbe c) (c_StartupProbe c) (c_PreStop c) (c_SecurityContext c).
Definition c_with_probes (live ready startup : option Probe) (c : Container) : Container :=
  mkContainer (c_Name c) (c_Image c) (c_Command c) (c_Args c) (c_Ports c) (c_Env c) (c_Resources c)
    (c_VolumeMounts c) live ready startup (c_PreStop c) (c_SecurityContext c).

Definition empty_context : SecurityContext := mkSC None None None None None None None None.
Definition empty_pod_context : PodSecurityContext := mkPSC None None None None None.

Definition if_set {A} (o old : option A) : option A := match o with Some _ => o | None => old end.

(** [f] on the first container, when the guard holds *)
Definition on_first (guard : bool) (f : Container -> option Container) (cs : list Container)
  : option (list Container) :=
  if guard then
    match cs with
    | c :: rest => c' ← f c; Some (c' :: rest)
    | [] => None
    end
  else Some cs.

Definition given {A} (o : option A) : bool := match o with Some _ => true | None => false end.

Definition sort_env_of (c : Container) : option Container :=
  match c_Env c with
  | Some e => e' ← sortEnvVar e; Some (c_with_env (Some e') c)
  | None => Some c
  end.
Definition sort_mounts_of (c : Container) : option Container :=
  match c_VolumeMounts c with
  | Some m => m' ← sortVolumeMounts m; Some (c_with_mounts (Some m') c)
  | None => Some c
  end.

(** The loops that drop a security context the override gives as the empty
    structure, by index. *)
Fixpoint clear_contexts (overrides : list Container) (i : nat) (patched : list Container)
  : option (list Container) :=
  match overrides with
  | [] => Some patched
  | o :: rest =>
      if bool_decide (c_SecurityContext o = Some empty_context) then
        c ← patched !! i;
        clear_contexts rest (S i) (<[i := c_with_security None c]> patched)
      else clear_contexts rest (S i) patched
  end.

Definition ps_with_containers (init containers : list Container) (p : PodSpec) : PodSpec :=
  mkPodSpec (ps_Volumes p) init containers (ps_HostPID p) (ps_HostNetwork p) (ps_HostIPC p)
    (ps_ServiceAccountName p) (ps_AutomountServiceAccountToken p) (ps_SecurityContext p)
    (ps_ImagePullSecrets p) (ps_TerminationGracePeriodSeconds p) (ps_Affinity p) (ps_Tolerations p)
    (ps_TopologySpreadConstraints p) (ps_other p).
Definition ps_with_security (sc : option PodSecurityContext) (p : PodSpec) : PodSpec :=
  mkPodSpec (ps_Volumes p) (ps_InitContainers p) (ps_Containers p) (ps_HostPID p) (ps_HostNetwork p)
    (ps_HostIPC p) (ps_ServiceAccountName p) (ps_AutomountServiceAccountToken p) sc
    (ps_ImagePullSecrets p) (ps_TerminationGracePeriodSeconds p) (ps_Affinity p) (ps_Tolerations p)
    (ps_TopologySpreadConstraints p) (ps_other p).
Definition ps_with_identity (sa : string) (automount : option bool) (p : PodSpec) : PodSpec :=
  mkPodSpec (ps_Volumes p) (ps_InitContainers p) (ps_Containers p) (ps_HostPID p) (ps_HostNetwork p)
    (ps_HostIPC p) sa automount (ps_SecurityContext p)
    (ps_ImagePullSecrets p) (ps_TerminationGracePeriodSeconds p) (ps_Affinity p) (ps_Tolerations p)
    (ps_TopologySpreadConstraints p) (ps_other p).

(** What [patchPodSpec] does to the containers of the merged spec. *)
Definition patch_containers (override : list Container) (containers : list Container)
  : option (list Container) :=
  let rmqContainer := containerRabbitmq override in
  cs ← on_first (given (c_Env rmqContainer)) sort_env_of containers;
  cs ← on_first (given (c_VolumeMounts rmqContainer)) sort_mounts_of cs;
  on_first (given (c_LivenessProbe rmqContainer) || given (c_ReadinessProbe rmqContainer)
            || given (c_StartupProbe rmqContainer))
    (fun c => Some (c_with_probes (if_set (c_LivenessProbe rmqContainer) (c_LivenessProbe c))
                      (if_set (c_ReadinessProbe rmqContainer) (c_ReadinessProbe c))
                      (if_set (c_StartupProbe rmqContainer) (c_StartupProbe c)) c)) cs.

Section StatefulSet.
Context `{StrategicMerge}.

Definition patchPodSpec (podSpec podSpecOverride : PodSpec) : result StsError PodSpec :=
  try patched := map_err Failed (merge_pod_spec podSpec podSpecOverride) in
  try containers := or_panic (patch_containers (ps_Containers podSpecOverride) (ps_Containers patched)) in
  let patched :=
    if bool_decide (ps_SecurityContext podSpecOverride = Some empty_pod_context)
    then ps_with_security None patched else patched in
  try init := or_panic (clear_contexts (ps_InitContainers podSpecOverride) 0 (ps_InitContainers patched)) in
  try containers := or_panic (clear_contexts (ps_Containers podSpecOverride) 0 containers) in
  Ok (ps_with_containers init containers patched).

(** ** Persistent volume claims *)

Definition persistentVolumeClaim (instance : RabbitmqCluster) : result StsError (list PersistentVolumeClaim) :=
  try storage := or_panic (per_Storage (spec_Persistence (rmq_Spec instance))) in
  if (q_Cmp storage 0 =? 0)%Z then Ok []
  else
    Ok [mkPVC
          (om_with_labels (Some (Label (rmq_Name instance)))
            (om_with_annotations (Some (ReconcileAndFilterAnnotations (Some ∅) [rmq_Annotations instance]))
              (meta_named defaultPVCName (rmq_Namespace instance))))
          (mkPVCSpec ["ReadWriteOnce"] (Some {["storage" := storage]})
             (per_StorageClassName (spec_Persistence (rmq_Spec instance))) None)].

Definition pvc_with_requests (r : ResourceList) (p : PersistentVolumeClaim) : PersistentVolumeClaim :=
  mkPVC (pvc_Meta p) (mkPVCSpec (pvcs_AccessModes (pvc_Spec p)) r (pvcs_StorageClassName (pvc_Spec p))
                        (pvcs_other (pvc_Spec p))).

(** one iteration of [updatePersistenceStorageCapacity] *)
Definition set_capacity (capacity : option Quantity) (t : PersistentVolumeClaim)
  : option PersistentVolumeClaim :=
  if str_eqb (om_Name (pvc_Meta t)) defaultPVCName then
    c ← capacity;
    requests ← pvcs_Requests (pvc_Spec t);
    Some (pvc_with_requests (Some (<["storage" := c]> requests)) t)
  else Some t.

Definition updatePersistenceStorageCapacity (templates : list PersistentVolumeClaim)
    (capacity : option Quantity) : option (list PersistentVolumeClaim) :=
  mapM (set_capacity capacity) templates.

Definition unblock (r : OwnerReference) : OwnerReference :=
  mkOwnerRef (or_APIVersion r) (or_Kind r) (or_Name r) (or_UID r) (or_Controller r) (Some false).

Definition disableBlockOwnerDeletion (m : ObjectMeta) : ObjectMeta :=
  om_with_owners (map unblock (om_OwnerReferences m)) m.

Context `{OwnerRefs}.

(** one iteration of the loop over the claim templates of the override *)
Definition override_pvc (instance : RabbitmqCluster) (namespace : string) (o : OverridePVC)
  : result StsError PersistentVolumeClaim :=
  let m := om_with_namespace namespace (copyObjectMeta (meta_named "" "") (opvc_EmbeddedObjectMeta o)) in
  try m := map_err (fun e => Failed ("failed setting controller reference: " +:+ e))
             (SetControllerReference (rmq_Meta instance) m) in
  Ok (mkPVC (disableBlockOwnerDeletion m) (opvc_Spec o)).

Fixpoint override_pvcs (instance : RabbitmqCluster) (namespace : string) (os : list OverridePVC)
  : result StsError (list PersistentVolumeClaim) :=
  match os with
  | [] => Ok []
  | o :: rest =>
      try p := override_pvc instance namespace o in
      try ps := override_pvcs instance namespace rest in
      Ok (p :: ps)
  end.

(** ** The override *)

Definition override_templates (instance : RabbitmqCluster) (namespace : string)
    (o : OverrideStatefulSetSpec) (templates : list PersistentVolumeClaim)
  : result StsError (list PersistentVolumeClaim) :=
  match os_VolumeClaimTemplates o with
  | [] => Ok templates
  | os =>
      try storage := or_panic (per_Storage (spec_Persistence (rmq_Spec instance))) in
      if (q_Cmp storage 0 =? 0)%Z then Ok templates else override_pvcs instance namespace os
  end.

Definition override_template (instance : RabbitmqCluster) (o : option OverridePodTemplateSpec)
    (template : PodTemplateSpec) : result StsError PodTemplateSpec :=
  match o with
  | None => Ok template
  | Some t =>
      let m := match opt_EmbeddedObjectMeta t with
               | Some eom => copyObjectMeta (pt_Meta template) eom
               | None => pt_Meta template
               end in
      try spec := match opt_Spec t with
                  | Some o => patchPodSpec (pt_Spec template) (sanitizePodSpecOverride o)
                  | None => Ok (pt_Spec template)
                  end in
      Ok (mkPodTemplate m
            (ps_with_identity (ChildResourceName instance serviceAccountName) (Some true) spec))
  end.

Definition applyStsOverride (instance : RabbitmqCluster) (sts : StatefulSet)
    (stsOverride : OverrideStatefulSet) : result StsError StatefulSet :=
  let m := match ost_LabelsAnnotations stsOverride with
           | Some la => copyLabelsAnnotations (sts_Meta sts) la
           | None => sts_Meta sts
           end in
  match ost_Spec stsOverride with
  | None => Ok (mkSts m (sts_Spec sts) (sts_Status sts))
  | Some o =>
      let s := sts_Spec sts in
      try pvcs := override_templates instance (om_Namespace m) o (sp_VolumeClaimTemplates s) in
      try template := override_template instance (os_Template o) (sp_Template s) in
      Ok (mkSts m
            (mkStsSpec (if_set (os_Replicas o) (sp_Replicas s)) (sp_Selector s) template pvcs
               (sp_ServiceName s)
               (if negb (str_eqb (os_PodManagementPolicy o) "") then os_PodManagementPolicy o
                else sp_PodManagementPolicy s)
               (default (sp_UpdateStrategy s) (os_UpdateStrategy o))
               (if negb (os_MinReadySeconds o =? 0)%Z then os_MinReadySeconds o else sp_MinReadySeconds s)
               (if_set (os_PVCRetentionPolicy o) (sp_PVCRetentionPolicy s)))
            (sts_Status sts))
  end.

(** ** Build and Update *)

(** The zero values of the fields [Build] leaves to [Update]. *)
Definition empty_pod_spec : PodSpec :=
  mkPodSpec [] [] [] false false false "" None None None None None [] [] None.
Definition empty_template : PodTemplateSpec := mkPodTemplate (meta_named "" "") empty_pod_spec.

Definition sts_Build (instance : RabbitmqCluster) : result StsError StatefulSet :=
  try pvc := persistentVolumeClaim instance in
  let override := ov_StatefulSet (spec_Override (rmq_Spec instance)) ≫= ost_Spec in
  let selector := match override ≫= os_Selector with
                  | Some s => Some s
                  | None => Some (mkSelector (Some (LabelSelector (rmq_Name instance))) None)
                  end in
  let serviceName :=
    match override with
    | Some o => if negb (str_eqb (os_ServiceName o) "") then os_ServiceName o
                else ChildResourceName instance headlessServiceSuffix
    | None => ChildResourceName instance headlessServiceSuffix
    end in
  Ok (mkSts (meta_named (ChildResourceName instance stsSuffix) (rmq_Namespace instance))
        (mkStsSpec None selector empty_template pvc serviceName "Parallel"
           (mkStrategy "" None None) 0 (Some (mkRetention "Delete" "Retain")))
        (mkStsStatus 0 "" "")).

Definition rolling_update : UpdateStrategy := mkStrategy "RollingUpdate" (Some 0%Z) None.

(** The StatefulSet before the override and the owner reference. *)
Definition sts_desired (instance : RabbitmqCluster) (sts : StatefulSet) : result StsError StatefulSet :=
  let s := sts_Spec sts in
  try pvcs := or_panic (updatePersistenceStorageCapacity (sp_VolumeClaimTemplates s)
                          (per_Storage (spec_Persistence (rmq_Spec instance)))) in
  try template := or_panic (podTemplateSpec instance (om_Annotations (pt_Meta (sp_Template s)))) in
  Ok (mkSts
        (om_with_labels (Some (GetLabels (rmq_Name instance) (rmq_Labels instance)))
          (om_with_annotations
             (Some (ReconcileAndFilterAnnotations (om_Annotations (sts_Meta sts)) [rmq_Annotations instance]))
             (sts_Meta sts)))
        (mkStsSpec (spec_Replicas (rmq_Spec instance)) (sp_Selector s) template pvcs (sp_ServiceName s)
           (sp_PodManagementPolicy s) rolling_update (sp_MinReadySeconds s) (sp_PVCRetentionPolicy s))
        (sts_Status sts)).

Definition wrap_override_error (e : StsError) : StsError :=
  match e with
  | Panic => Panic
  | Failed msg => Failed ("failed applying StatefulSet override: " +:+ msg)
  end.

Definition sts_Update (instance : RabbitmqCluster) (sts : StatefulSet) : result StsError StatefulSet :=
  try desired := sts_desired instance sts in
  try overridden := match ov_StatefulSet (spec_Override (rmq_Spec instance)) with
                    | None => Ok desired
                    | Some o => map_err wrap_override_error (applyStsOverride instance desired o)
                    end in
  try m := map_err (fun e => Failed ("failed setting controller reference: " +:+ e))
             (SetControllerReference (rmq_Meta instance) (sts_Meta overridden)) in
  Ok (mkSts m (sts_Spec overridden) (sts_Status overridden)).
End StatefulSet.

(** ** What an update leaves in the cluster

    [Update] works on pointers into the cluster: it sanitises the pod spec of
    the override in place, and the claims of the override share their map of
    requests with the claim templates of the updated object. *)

Definition os_with (template : option OverridePodTemplateSpec) (claims : list OverridePVC)
    (o : OverrideStatefulSetSpec) : OverrideStatefulSetSpec :=
  mkOSSpec (os_Replicas o) (os_Selector o) template claims (os_ServiceName o) (os_PodManagementPolicy o)
    (os_UpdateStrategy o) (os_MinReadySeconds o) (os_PVCRetentionPolicy o).

Definition map_sts_override (f : OverrideStatefulSetSpec -> OverrideStatefulSetSpec)
    (instance : RabbitmqCluster) : RabbitmqCluster :=
  let s := rmq_Spec instance in
  let override := mkOverride
    (option_map (fun ov => mkOSts (ost_LabelsAnnotations ov) (option_map f (ost_Spec ov)))
       (ov_StatefulSet (spec_Override s)))
    (ov_Service (spec_Override s)) in
  rmq_with_spec
    (mkSpec (spec_Replicas s) (spec_Image s) (spec_ImagePullSecrets s) (spec_Service s) (spec_Persistence s)
       (spec_Resources s) (spec_Affinity s) (spec_Tolerations s) (spec_Rabbitmq s) (spec_TLS s) override
       (spec_SkipPostDeploySteps s) (spec_AutoEnableAllFeatureFlags s)
       (spec_TerminationGracePeriodSeconds s) (spec_DelayStartSeconds s) (spec_SecretBackend s)) instance.

Definition sanitize_template (t : OverridePodTemplateSpec) : OverridePodTemplateSpec :=
  mkOPT (opt_EmbeddedObjectMeta t) (option_map sanitizePodSpecOverride (opt_Spec t)).

(** The cluster after a successful [Update]. *)
Definition instance_after_Update (instance : RabbitmqCluster) : RabbitmqCluster :=
  map_sts_override (fun o => os_with (option_map sanitize_template (os_Template o))
                               (os_VolumeClaimTemplates o) o) instance.

(** Writing the capacity into a claim template that shares its requests with
    the override. *)
Definition share_capacity (capacity : Quantity) (o : OverridePVC) : OverridePVC :=
  if str_eqb (eom_Name (opvc_EmbeddedObjectMeta o)) defaultPVCName then
    let s := opvc_Spec o in
    mkOPVC (opvc_EmbeddedObjectMeta o)
      (mkPVCSpec (pvcs_AccessModes s) (option_map <["storage" := capacity]> (pvcs_Requests s))
         (pvcs_StorageClassName s) (pvcs_other s))
  else o.

(** The cluster once [Update] has written the capacity into the claim
    templates of an object that still shares them with the override. *)
Definition share_override (instance : RabbitmqCluster) : RabbitmqCluster :=
  match per_Storage (spec_Persistence (rmq_Spec instance)) with
  | Some c =>
      if (q_Cmp c 0 =? 0)%Z then instance
      else map_sts_override (fun o => os_with (os_Template o)
                         (map (share_capacity c) (os_VolumeClaimTemplates o)) o) instance
  | None => instance
  end.

(** [Update] of an object the same pass has updated before and not read from
    the server since: when the override gives the claims, the capacity is
    written into the override as well. *)
Definition sts_Update_in_memory `{StrategicMerge} `{OwnerRefs} (instance : RabbitmqCluster) (sts : StatefulSet)
  : result StsError StatefulSet := sts_Update (share_override instance) sts.

(** ** Lemmas on the swapping loop *)

Section SwapLoop.
Context {A : Type} (target : string -> option nat) (name : A -> string).

Lemma swap_loop_perm n i l l' : swap_loop target name n i l = Some l' -> l' ≡ₚ l.
Proof.
  revert i l. induction n as [|n IH]; intros i l; cbn; [by intros [= <-]|].
  destruct (l !! i) as [e|]; cbn; [|done]. destruct (target (name e)) as [t|]; [|apply IH].
  destruct (swap_at t i l) as [l1|] eqn:E; cbn; [|done].
  intros ->%IH. by eapply swap_at_perm.
Qed.

(** Rule of invariants for the loop. *)
Lemma swap_loop_inv (P : nat -> list A -> Prop) :
  (forall i l e, P i l -> l !! i = Some e ->
     match target (name e) with
     | None => P (S i) l
     | Some t => forall l', swap_at t i l = Some l' -> P (S i) l'
     end) ->
  forall n i l l', P i l -> swap_loop target name n i l = Some l' -> P (i + n)%nat l'.
Proof.
  intros Hstep n. induction n as [|n IH]; intros i l l' HP; cbn.
  - intros [= <-]. by rewrite Nat.add_0_r.
  - rewrite Nat.add_succ_r, <- Nat.add_succ_l.
    destruct (l !! i) as [e|] eqn:Ee; cbn; [|done].
    specialize (Hstep i l e HP Ee). destruct (target (name e)) as [t|]; [|by apply IH].
    destruct (swap_at t i l) as [l1|]; cbn; [|done]. by apply IH, Hstep.
Qed.

(** The loop does not panic when every place it moves to exists. *)
Lemma swap_loop_total n i l :
  (forall s t, target s = Some t -> (t < length l)%nat) -> (i + n <= length l)%nat ->
  is_Some (swap_loop target name n i l).
Proof.
  revert i l. induction n as [|n IH]; intros i l Ht Hn; cbn; [eauto|].
  destruct (lookup_lt_is_Some_2 l i) as [e Ee]; [lia|]. rewrite Ee. cbn.
  destruct (target (name e)) as [t|] eqn:E; [|apply IH; [done|lia]].
  destruct (lookup_lt_is_Some_2 l t) as [e' Ee']; [by eapply Ht|].
  unfold swap_at. rewrite Ee, Ee'. cbn. apply IH; rewrite !length_insert; [done | lia].
Qed.
End SwapLoop.

Lemma env_target_spec s t :
  env_target s = Some t <->
  (s = "MY_POD_NAME" /\ t = 0%nat) \/ (s = "MY_POD_NAMESPACE" /\ t = 1%nat) \/
  (s = "K8S_SERVICE_NAME" /\ t = 2%nat).
Proof.
  unfold env_target, str_eqb. repeat case_bool_decide; subst; naive_solver.
Qed.

Lemma mount_target_spec s t :
  mount_target s = Some t <->
  (s = "rabbitmq-erlang-cookie" /\ t = 0%nat) \/ (s = "persistence" /\ t = 1%nat).
Proof.
  unfold mount_target, str_eqb, defaultPVCName. repeat case_bool_decide; subst; naive_solver.
Qed.

(** ** The invariant of the mount sort *)

Definition named_at (l : list VolumeMount) (j : nat) (s : string) : Prop :=
  vm_Name <$> l !! j = Some s.

(** Once a mount of one of the two names was seen, it is at its place. *)
Definition mounts_inv (i : nat) (l : list VolumeMount) : Prop :=
  (forall j, (j < i)%nat -> named_at l j "rabbitmq-erlang-cookie" ->
     named_at l 0%nat "rabbitmq-erlang-cookie") /\
  (forall j, (j < i)%nat -> named_at l j "persistence" -> named_at l 1%nat "persistence").

Lemma swap_names j l l' t i :
  swap_at t i l = Some l' ->
  vm_Name <$> l' !! j = if decide (j = i) then vm_Name <$> l !! t
    else if decide (j = t) then vm_Name <$> l !! i else vm_Name <$> l !! j.
Proof. intros Hs. rewrite (swap_at_lookup _ _ _ _ j Hs). by repeat case_decide. Qed.

Lemma mounts_inv_cookie i l l' :
  mounts_inv i l -> named_at l i "rabbitmq-erlang-cookie" -> swap_at 0 i l = Some l' ->
  mounts_inv (S i) l'.
Proof.
  intros [IHc IHv] En Hs. unfold named_at in *. split; unfold named_at; intros j Hj;
    rewrite !(swap_names _ _ _ _ _ Hs); intros Hat.
  - repeat case_decide; subst; (done || congruence).
  - assert (i <> 0%nat) as Hi0.
    { intros ->. repeat case_decide; subst; try lia; congruence. }
    assert (vm_Name <$> l !! 1%nat = Some "persistence") as H1.
    { repeat case_decide; subst; [apply (IHv 0%nat); [lia|done] | congruence | apply (IHv j); [lia|done]]. }
    repeat case_decide; subst; (done || congruence).
Qed.

Lemma mounts_inv_persistence i l l' :
  mounts_inv i l -> named_at l i "persistence" -> swap_at 1 i l = Some l' -> mounts_inv (S i) l'.
Proof.
  intros [IHc IHv] En Hs. unfold named_at in *. split; unfold named_at; intros j Hj;
    rewrite !(swap_names _ _ _ _ _ Hs); intros Hat.
  - destruct (decide (i = 0%nat)) as [->|Hi0].
    + repeat case_decide; subst; try lia; done.
    + assert (vm_Name <$> l !! 0%nat = Some "rabbitmq-erlang-cookie") as H0.
      { repeat case_decide; subst; try congruence; [|apply (IHc j); [lia|done]].
        apply (IHc 1%nat); [|done]. assert (i <> 1%nat); [|lia]. intros ->. congruence. }
      repeat case_decide; subst; (done || congruence).
  - repeat case_decide; subst; (done || congruence).
Qed.

Lemma mounts_inv_other i l e :
  mounts_inv i l -> l !! i = Some e -> mount_target (vm_Name e) = None -> mounts_inv (S i) l.
Proof.
  intros [IHc IHv] Ee Et. split; intros j Hj Hat; unfold named_at in *.
  - apply (IHc j); [|done]. assert (j <> i); [|lia]. intros ->. rewrite Ee in Hat. by injection Hat as E; rewrite E in Et.
  - apply (IHv j); [|done]. assert (j <> i); [|lia]. intros ->. rewrite Ee in Hat. by injection Hat as E; rewrite E in Et.
Qed.

Lemma sortVolumeMounts_inv mounts mounts' :
  sortVolumeMounts mounts = Some mounts' -> mounts_inv (length mounts) mounts'.
Proof.
  apply (swap_loop_inv mount_target vm_Name mounts_inv); [|split; intros j Hj; lia].
  intros i l e HP Ee. destruct (mount_target (vm_Name e)) as [t|] eqn:Et; [|by eapply mounts_inv_other].
  intros l' Hs. apply mount_target_spec in Et as [[Hn ->]|[Hn ->]].
  - eapply mounts_inv_cookie; [done | | done]. unfold named_at. by rewrite Ee, <- Hn.
  - eapply mounts_inv_persistence; [done | | done]. unfold named_at. by rewrite Ee, <- Hn.
Qed.

(** ** The invariant of the environment sort *)

(** The three variables at [a < b < c] of the original list: those before
    [i] are at their places, and the rest of the list is as it was. *)
Definition env_inv (l0 : list EnvVar) (a b c i : nat) (l : list EnvVar) : Prop :=
  ((a < i)%nat -> l !! 0%nat = l0 !! a) /\ ((b < i)%nat -> l !! 1%nat = l0 !! b) /\
  ((c < i)%nat -> l !! 2%nat = l0 !! c) /\ (forall k, (i <= k)%nat -> l !! k = l0 !! k).

Lemma sortEnvVar_inv l0 a b c l :
  (a < b < c)%nat ->
  (forall k e t, l0 !! k = Some e -> env_target (env_Name e) = Some t ->
     (k = a /\ t = 0%nat) \/ (k = b /\ t = 1%nat) \/ (k = c /\ t = 2%nat)) ->
  (forall k e, l0 !! k = Some e -> env_target (env_Name e) = None -> k <> a /\ k <> b /\ k <> c) ->
  sortEnvVar l0 = Some l -> env_inv l0 a b c (length l0) l.
Proof.
  intros Habc Hsome Hnone. apply (swap_loop_inv env_target env_Name (env_inv l0 a b c)).
  2:{ repeat split; intros; lia. }
  intros i l1 e (Ia & Ib & Ic & Ir) Ee. rewrite (Ir i) in Ee by lia.
  destruct (env_target (env_Name e)) as [t|] eqn:Et.
  - intros l2 Hs.
    pose proof (fun k => swap_at_lookup _ _ _ _ k Hs) as Hl. rewrite (Ir i (Nat.le_refl _)) in Hl.
    destruct (Hsome i e t Ee Et) as [[-> ->]|[[-> ->]|[-> ->]]]; split_and!; intros; rewrite Hl;
      repeat case_decide; subst; first [lia | done | (by apply Ia) | (by apply Ib) | (apply Ir; lia) | (apply Ia; lia) | (apply Ib; lia) | idtac].
  - destruct (Hnone i e Ee Et) as (Ha & Hb & Hc).
    split_and!; intros; [apply Ia | apply Ib | apply Ic | apply Ir]; lia.
Qed.

(** ** Properties of the sorts *)

(** Whatever mounts the override adds, and wherever the merge put them, the
    Erlang cookie's mount comes first and the persistent volume's second, and
    no mount is lost or duplicated; with at least two mounts the sort never
    runs out of the slice. *)
Theorem sortVolumeMounts_spec (mounts : list VolumeMount) :
  ((2 <= length mounts)%nat -> is_Some (sortVolumeMounts mounts)) /\
  (forall mounts', sortVolumeMounts mounts = Some mounts' ->
     mounts' ≡ₚ mounts /\
     ("rabbitmq-erlang-cookie" ∈ map vm_Name mounts ->
        vm_Name <$> mounts' !! 0%nat = Some "rabbitmq-erlang-cookie") /\
     ("persistence" ∈ map vm_Name mounts -> vm_Name <$> mounts' !! 1%nat = Some "persistence")).
Proof.
  split.
  { intros Hl. apply swap_loop_total; [|lia]. intros s t Ht%mount_target_spec. lia. }
  intros mounts' E. pose proof (swap_loop_perm _ _ _ _ _ _ E) as Hp. split; [done|].
  destruct (sortVolumeMounts_inv _ _ E) as [Hc Hv].
  assert (forall s, s ∈ map vm_Name mounts -> exists j, (j < length mounts)%nat /\ named_at mounts' j s) as Hex.
  { intros s (m & -> & Hin)%list_elem_of_fmap. rewrite <- Hp in Hin.
    apply list_elem_of_lookup in Hin as (j & Hj). exists j. split.
    - rewrite <- (Permutation_length Hp). by eapply lookup_lt_Some.
    - unfold named_at. by rewrite Hj. }
  split; intros (j & Hj & Hat)%Hex; [by eapply Hc | by eapply Hv].
Qed.

(** The environment sort: when the list names the three operator variables
    once each and in the operator's own order (the order a merge preserves),
    they come first, in that order, and no variable is lost; with at least
    three variables the sort never runs out of the slice. *)
Theorem sortEnvVar_spec (envVar : list EnvVar) :
  ((3 <= length envVar)%nat -> is_Some (sortEnvVar envVar)) /\
  (forall envVar', sortEnvVar envVar = Some envVar' -> envVar' ≡ₚ envVar) /\
  (forall envVar' a b c,
     sortEnvVar envVar = Some envVar' ->
     NoDup (map env_Name envVar) -> (a < b < c)%nat ->
     map env_Name envVar !! a = Some "MY_POD_NAME" ->
     map env_Name envVar !! b = Some "MY_POD_NAMESPACE" ->
     map env_Name envVar !! c = Some "K8S_SERVICE_NAME" ->
     take 3 (map env_Name envVar') = ["MY_POD_NAME"; "MY_POD_NAMESPACE"; "K8S_SERVICE_NAME"]).
Proof.
  split; [|split].
  - intros Hl. apply swap_loop_total; [|lia]. intros s t Ht%env_target_spec. lia.
  - intros envVar'. apply swap_loop_perm.
  - intros l a b c E Hnd Habc Ha Hb Hc.
    assert (forall k e j s, envVar !! k = Some e -> env_Name e = s -> map env_Name envVar !! j = Some s -> k = j) as Huniq.
    { intros k e j s Hk <- Hj. eapply NoDup_lookup; [exact Hnd | | exact Hj].
      by rewrite list_lookup_fmap, Hk. }
    destruct (sortEnvVar_inv envVar a b c l Habc) as (Ia & Ib & Ic & _); [| |exact E|].
    + intros k e t Hk [[Hn ->]|[[Hn ->]|[Hn ->]]]%env_target_spec; eauto 10.
    + intros k e Hk Ht.
      assert (forall j s t, env_target s = Some t -> map env_Name envVar !! j = Some s -> k <> j) as Hne.
      { intros j s t Hs Hj ->. rewrite list_lookup_fmap, Hk in Hj. injection Hj as <-. congruence. }
      repeat split; eapply Hne; try done; done.
    + pose proof (lookup_lt_Some _ _ _ Hc) as Hlt. rewrite length_map in Hlt.
      assert (forall j s m, l !! j = envVar !! m -> map env_Name envVar !! m = Some s ->
        map env_Name l !! j = Some s) as Hmap.
      { intros j s m Hj Hm. rewrite list_lookup_fmap, Hj, <- list_lookup_fmap. done. }
      pose proof (Hmap _ _ _ (Ia ltac:(lia)) Ha) as H0. pose proof (Hmap _ _ _ (Ib ltac:(lia)) Hb) as H1.
      pose proof (Hmap _ _ _ (Ic ltac:(lia)) Hc) as H2.
      destruct (map env_Name l) as [|x [|y [|z r]]]; simplify_eq/=. by rewrite take_0.
Qed.

(** The order of the three variables in the input matters: from this list,
    the sort leaves MY_POD_NAME last. *)
Example sortEnvVar_order_matters :
  let env n := mkEnv n "" None in
  option_map (map env_Name)
    (sortEnvVar (map env ["X"; "K8S_SERVICE_NAME"; "MY_POD_NAME"; "MY_POD_NAMESPACE"])) =
  Some ["X"; "MY_POD_NAMESPACE"; "K8S_SERVICE_NAME"; "MY_POD_NAME"].
Proof. vm_compute. reflexivity. Qed.

(** ** Lemmas on the update *)

Section UpdateLemmas.
Context `{StrategicMerge} `{OwnerRefs}.

Lemma applyStsOverride_ok instance sts o sts' :
  applyStsOverride instance sts o = Ok sts' ->
  sts_Meta sts' = match ost_LabelsAnnotations o with
                  | Some la => copyLabelsAnnotations (sts_Meta sts) la
                  | None => sts_Meta sts end /\
  sts_Status sts' = sts_Status sts /\
  match ost_Spec o with
  | None => sts_Spec sts' = sts_Spec sts
  | Some os =>
      override_templates instance (om_Namespace (sts_Meta sts')) os
        (sp_VolumeClaimTemplates (sts_Spec sts)) = Ok (sp_VolumeClaimTemplates (sts_Spec sts')) /\
      override_template instance (os_Template os) (sp_Template (sts_Spec sts)) =
        Ok (sp_Template (sts_Spec sts'))
  end.
Proof.
  unfold applyStsOverride. destruct (ost_Spec o) as [os|]; [|by intros [= <-]].
  intros (pvcs & Hp & (t & Ht & [= <-])%result_bind_ok)%result_bind_ok. done.
Qed.

Lemma sts_desired_ok instance sts d :
  sts_desired instance sts = Ok d ->
  exists pvcs template,
    updatePersistenceStorageCapacity (sp_VolumeClaimTemplates (sts_Spec sts))
      (per_Storage (spec_Persistence (rmq_Spec instance))) = Some pvcs /\
    podTemplateSpec instance (om_Annotations (pt_Meta (sp_Template (sts_Spec sts)))) = Some template /\
    sp_Template (sts_Spec d) = template /\ sp_VolumeClaimTemplates (sts_Spec d) = pvcs /\
    om_Namespace (sts_Meta d) = om_Namespace (sts_Meta sts).
Proof.
  unfold sts_desired. destruct (updatePersistenceStorageCapacity _ _) as [pvcs|]; cbn; [|done].
  destruct (podTemplateSpec _ _) as [t|]; cbn; [|done]. intros [= <-]. by exists pvcs, t.
Qed.

Lemma sts_Update_ok instance sts sts' :
  sts_Update instance sts = Ok sts' ->
  exists d o, sts_desired instance sts = Ok d /\
    match ov_StatefulSet (spec_Override (rmq_Spec instance)) with
    | None => o = d
    | Some ov => applyStsOverride instance d ov = Ok o
    end /\
    SetControllerReference (rmq_Meta instance) (sts_Meta o) = Ok (sts_Meta sts') /\
    sts_Spec sts' = sts_Spec o /\ sts_Status sts' = sts_Status o.
Proof.
  unfold sts_Update. intros (d & Hd & (o & Ho & (m & Hm & [= <-])%result_bind_ok)%result_bind_ok)%result_bind_ok.
  exists d, o. split; [done|]. split; [|split; [|done]].
  - destruct (ov_StatefulSet _) as [ov|]; [|by injection Ho as <-].
    by destruct (applyStsOverride _ _ _); [injection Ho as <-|].
  - cbn. by destruct (SetControllerReference _ _); [injection Hm as <-|].
Qed.

Lemma override_template_identity instance o t t' :
  override_template instance o t = Ok t' ->
  ps_ServiceAccountName (pt_Spec t) = ChildResourceName instance serviceAccountName ->
  ps_AutomountServiceAccountToken (pt_Spec t) = Some true ->
  ps_ServiceAccountName (pt_Spec t') = ChildResourceName instance serviceAccountName /\
  ps_AutomountServiceAccountToken (pt_Spec t') = Some true.
Proof.
  unfold override_template. destruct o as [o|]; [|by intros [= <-]].
  by intros (s & Hs & [= <-])%result_bind_ok.
Qed.

Lemma set_capacity_spec c t t' :
  set_capacity c t = Some t' ->
  pvc_Meta t' = pvc_Meta t /\ set_capacity c t' = Some t' /\
  (om_Name (pvc_Meta t) = defaultPVCName ->
     Some (rl_get (pvcs_Requests (pvc_Spec t')) "storage") = c) /\
  (om_Name (pvc_Meta t) <> defaultPVCName -> t' = t).
Proof.
  unfold set_capacity. destruct (str_eqb _ _) eqn:E.
  - apply str_eqb_spec in E. destruct c as [q|]; cbn; [|done].
    destruct (pvcs_Requests _) as [r|]; cbn; [|done]. intros [= <-]. cbn.
    rewrite (proj2 (str_eqb_spec _ _) E). cbn. rewrite lookup_insert_eq, insert_insert_eq. done.
  - intros [= <-]. split; [done|]. rewrite E. split; [done|].
    assert (om_Name (pvc_Meta t) <> defaultPVCName); [|naive_solver].
    intros Hn. apply str_eqb_spec in Hn. congruence.
Qed.

Lemma updatePersistence_stable c ts ts' :
  updatePersistenceStorageCapacity ts c = Some ts' ->
  Forall2 (fun t t' => set_capacity c t = Some t') ts ts' /\
  updatePersistenceStorageCapacity ts' c = Some ts'.
Proof.
  unfold updatePersistenceStorageCapacity. intros HF%mapM_Some. split; [done|].
  apply mapM_Some. induction HF as [|t t' ts ts' Ht _ IH]; constructor; [|done].
  by apply set_capacity_spec in Ht as (_ & ? & _).
Qed.

Lemma override_pvcs_ok instance ns os ps :
  override_pvcs instance ns os = Ok ps ->
  Forall2 (fun o p => override_pvc instance ns o = Ok p) os ps.
Proof.
  revert ps. induction os as [|o os IH]; intros ps; cbn; [by intros [= <-]|].
  intros (p & Hp & (ps' & Hps & [= <-])%result_bind_ok)%result_bind_ok. constructor; [done|by apply IH].
Qed.
End UpdateLemmas.

(** ** Updating twice *)

Lemma om_owners_reset w m : om_with_owners (om_OwnerReferences (om_with_owners w m)) m = om_with_owners w m.
Proof. done. Qed.

Lemma if_set_idem {A} (o x : option A) : if_set o (if_set o x) = if_set o x.
Proof. by destruct o. Qed.

Lemma Reconcile_merge_stable prev d o :
  let merged := mergeMap (Some (ReconcileAnnotations prev [Some d])) o in
  mergeMap (Some (ReconcileAnnotations (Some merged) [Some d])) o = merged.
Proof.
  cbn zeta. apply map_eq. intros k.
  rewrite !mergeMap_lookup, !smap_get_some, !ReconcileAnnotations_lookup1, !smap_get_some,
    mergeMap_lookup, smap_get_some, ReconcileAnnotations_lookup1, smap_get_some.
  by destruct (smap_get o k), (d !! k).
Qed.

Lemma Reconcile_stable prev d :
  ReconcileAnnotations (Some (ReconcileAnnotations prev [Some d])) [Some d] =
  ReconcileAnnotations prev [Some d].
Proof.
  apply map_eq. intros k. rewrite !ReconcileAnnotations_lookup1, !smap_get_some, ReconcileAnnotations_lookup1, smap_get_some.
  by destruct (d !! k).
Qed.

Lemma Filter_merge_stable prev d o :
  let merged := mergeMap (Some (ReconcileAndFilterAnnotations prev [d])) o in
  mergeMap (Some (ReconcileAndFilterAnnotations (Some merged) [d])) o = merged.
Proof.
  cbn zeta. apply map_eq. intros k.
  rewrite !mergeMap_lookup, !smap_get_some, !ReconcileAndFilterAnnotations_lookup, !smap_get_some,
    mergeMap_lookup, smap_get_some, ReconcileAndFilterAnnotations_lookup.
  by destruct (smap_get o k), (smap_get d k), (isNotKubernetesAnnotation k).
Qed.

Lemma Filter_stable prev d :
  ReconcileAndFilterAnnotations (Some (ReconcileAndFilterAnnotations prev [d])) [d] =
  ReconcileAndFilterAnnotations prev [d].
Proof.
  apply map_eq. intros k. rewrite !ReconcileAndFilterAnnotations_lookup, !smap_get_some, ReconcileAndFilterAnnotations_lookup.
  by destruct (smap_get d k), (isNotKubernetesAnnotation k).
Qed.

(** Metadata with the given labels and annotations, overridden. *)
Definition override_meta (la : option EmbeddedLabelsAnnotations) (m : ObjectMeta) : ObjectMeta :=
  match la with Some o => copyLabelsAnnotations m o | None => m end.

Lemma override_meta_stable la labels d w m :
  let computed a m := override_meta la (om_with_labels (Some labels)
     (om_with_annotations (Some (ReconcileAndFilterAnnotations a [d])) m)) in
  let m' := om_with_owners w (computed (om_Annotations m) m) in
  computed (om_Annotations m') m' = m'.
Proof.
  cbn zeta. destruct la as [[lo ao]|]; cbn [override_meta].
  - destruct lo as [lo|], ao as [ao|]; unfold copyLabelsAnnotations; cbn [ela_Labels ela_Annotations
      om_with_labels om_with_annotations om_with_owners om_Name om_Namespace om_UID om_Generation
      om_DeletionTimestamp om_Labels om_Annotations om_OwnerReferences om_Finalizers];
      rewrite ?Filter_merge_stable, ?Filter_stable; reflexivity.
  - cbn [om_with_labels om_with_annotations om_with_owners om_Name om_Namespace om_UID om_Generation
      om_DeletionTimestamp om_Labels om_Annotations om_OwnerReferences om_Finalizers].
    rewrite Filter_stable. reflexivity.
Qed.

(** The template computed again from its own annotations. *)
Lemma podTemplateSpec_again instance prev prev' pt :
  podTemplateSpec instance prev = Some pt ->
  podTemplateSpec instance prev' =
  Some (mkPodTemplate
          (om_with_annotations (Some (ReconcileAnnotations prev' [Some (defaultPodAnnotations instance)])) (pt_Meta pt))
          (pt_Spec pt)).
Proof.
  unfold podTemplateSpec. destruct (per_Storage _) as [st|]; [|done]. cbn.
  destruct (spec_Resources _) as [r|]; [|done]. cbn.
  destruct (spec_TerminationGracePeriodSeconds _) as [g|]; [|done]. cbn. by intros [= <-].
Qed.

Lemma podTemplateSpec_no_storage instance prev :
  per_Storage (spec_Persistence (rmq_Spec instance)) = None -> podTemplateSpec instance prev = None.
Proof. unfold podTemplateSpec. by intros ->. Qed.

(** The projections of a StatefulSet record. *)
Ltac sts_simpl_in_goal :=
  cbn [sts_Spec sts_Meta sts_Status sp_VolumeClaimTemplates sp_Template sp_Selector sp_ServiceName
    sp_PodManagementPolicy sp_MinReadySeconds sp_PVCRetentionPolicy sp_UpdateStrategy sp_Replicas
    or_panic result_bind].

Section UpdateTwice.
Context `{StrategicMerge} `{OwnerRefsLaws}.

Lemma override_template_stable instance o prev pt t :
  podTemplateSpec instance prev = Some pt ->
  override_template instance o pt = Ok t ->
  exists pt', podTemplateSpec instance (om_Annotations (pt_Meta t)) = Some pt' /\
    override_template instance o pt' = Ok t.
Proof.
  intros Hpt Ho. rewrite (podTemplateSpec_again _ _ _ _ Hpt). eexists. split; [done|].
  apply podTemplateSpec_ok in Hpt as (? & ? & ? & _ & _ & _ & _ & _ & _ & _ & _ & _ & Ha).
  destruct pt as [m sp]. cbn [pt_Meta] in Ha. unfold override_template in *. cbn [pt_Meta pt_Spec] in *.
  destruct o as [o|].
  - apply result_bind_ok in Ho as (s & Hs & [= <-]). rewrite Hs. cbn [result_bind pt_Meta].
    do 2 f_equal. destruct m as [n ns u g dt ls an ow fi]. cbn [om_Annotations] in Ha. subst an.
    destruct (opt_EmbeddedObjectMeta o) as [[en ens el ea]|];
      [unfold copyObjectMeta; cbn [eom_Name eom_Labels eom_Annotations]; destruct (str_eqb en ""), el, ea|];
      cbn [om_with_labels om_with_annotations om_with_name om_Name om_Namespace om_UID om_Generation
        om_DeletionTimestamp om_Labels om_Annotations om_OwnerReferences om_Finalizers];
      rewrite ?Reconcile_merge_stable, ?Reconcile_stable; reflexivity.
  - injection Ho as <-. cbn [pt_Meta pt_Spec]. rewrite Ha, Reconcile_stable.
    destruct m as [n ns u g dt ls an ow fi]. cbn [om_Annotations] in Ha. by rewrite Ha.
Qed.

(** The claim templates can be computed again when the override's claims
    all name their requests. *)
Lemma override_templates_stable instance ns o c ts ts1 ts2 :
  Forall (fun p => is_Some (pvcs_Requests (opvc_Spec p))) (os_VolumeClaimTemplates o) ->
  per_Storage (spec_Persistence (rmq_Spec instance)) = Some c ->
  updatePersistenceStorageCapacity ts (Some c) = Some ts1 ->
  override_templates instance ns o ts1 = Ok ts2 ->
  exists ts3, updatePersistenceStorageCapacity ts2 (Some c) = Some ts3 /\
    override_templates instance ns o ts3 = Ok ts2.
Proof.
  intros Hreq Hst Hu. unfold override_templates. rewrite Hst.
  apply updatePersistence_stable in Hu as [_ Hu].
  destruct (os_VolumeClaimTemplates o) as [|p ps]; [intros [= <-]; by exists ts1|].
  cbn [or_panic result_bind]. destruct (_ =? 0)%Z; [intros [= <-]; by exists ts1|].
  intros Ho. pose proof (override_pvcs_ok _ _ _ _ Ho) as HF.
  assert (is_Some (updatePersistenceStorageCapacity ts2 (Some c))) as [ts3 H3]; [|by exists ts3].
  unfold updatePersistenceStorageCapacity. apply mapM_is_Some. clear Ho Hu.
  induction HF as [|x y xs ys Hx _ IH]; constructor; [|apply IH; by inversion Hreq].
  apply result_bind_ok in Hx as (m & _ & [= <-]). unfold set_capacity. cbn.
  inversion Hreq as [|? ? [r Hr] _]. rewrite Hr. destruct (str_eqb _ _); cbn; eauto.
Qed.

Definition with_meta (m : ObjectMeta) (s : StatefulSet) : StatefulSet := mkSts m (sts_Spec s) (sts_Status s).

Lemma desired_stable instance sts d w :
  sts_desired instance sts = Ok d ->
  let d1 := with_meta (om_with_owners w (sts_Meta d)) d in
  sts_desired instance d1 = Ok d1.
Proof.
  unfold sts_desired, with_meta.
  destruct (updatePersistenceStorageCapacity _ _) as [pvcs|] eqn:Ep; cbn [or_panic result_bind]; [|done].
  destruct (podTemplateSpec _ _) as [pt|] eqn:Et; cbn [or_panic result_bind]; [|done].
  intros [= <-]. sts_simpl_in_goal.
  destruct (updatePersistence_stable _ _ _ Ep) as [_ ->]. cbn [or_panic result_bind].
  destruct (override_template_stable instance None _ _ _ Et eq_refl) as (pt' & -> & [= ->]).
  cbn [or_panic result_bind].
  pose proof (override_meta_stable None (GetLabels (rmq_Name instance) (rmq_Labels instance))
    (rmq_Annotations instance) w (sts_Meta sts)) as Hmeta.
  cbn zeta in Hmeta. unfold override_meta in Hmeta. by rewrite Hmeta.
Qed.

Lemma override_stable instance sts d ov o w :
  sts_desired instance sts = Ok d -> applyStsOverride instance d ov = Ok o ->
  (forall os, ost_Spec ov = Some os ->
     Forall (fun p => is_Some (pvcs_Requests (opvc_Spec p))) (os_VolumeClaimTemplates os)) ->
  let o1 := with_meta (om_with_owners w (sts_Meta o)) o in
  exists d', sts_desired instance o1 = Ok d' /\ applyStsOverride instance d' ov = Ok o1.
Proof.
  intros Hd Ha Hreq. unfold sts_desired, with_meta in *.
  destruct (updatePersistenceStorageCapacity _ _) as [pvcs|] eqn:Ep; cbn [or_panic result_bind] in Hd; [|done].
  destruct (podTemplateSpec _ _) as [pt|] eqn:Et; cbn [or_panic result_bind] in Hd; [|done].
  injection Hd as <-.
  pose proof (override_meta_stable (ost_LabelsAnnotations ov)
    (GetLabels (rmq_Name instance) (rmq_Labels instance)) (rmq_Annotations instance) w (sts_Meta sts)) as Hmeta.
  cbn zeta in Hmeta. unfold override_meta in Hmeta.
  unfold applyStsOverride in *. cbn [sts_Spec sts_Meta sts_Status sp_VolumeClaimTemplates sp_Template sp_Selector
    sp_ServiceName sp_PodManagementPolicy sp_MinReadySeconds sp_PVCRetentionPolicy sp_UpdateStrategy
    sp_Replicas] in *.
  destruct (ost_Spec ov) as [os|].
  - apply result_bind_ok in Ha as (ts & Hts & (t & Ht & [= <-])%result_bind_ok).
    sts_simpl_in_goal.
    destruct (per_Storage (spec_Persistence (rmq_Spec instance))) as [c|] eqn:Ec.
    2:{ by rewrite (podTemplateSpec_no_storage _ _ Ec) in Et. }
    destruct (override_templates_stable instance _ os c _ _ _ (Hreq os eq_refl) Ec Ep Hts) as (ts3 & -> & Hts3).
    destruct (override_template_stable instance (os_Template os) _ _ _ Et Ht) as (pt' & -> & Ht').
    cbn [or_panic result_bind]. eexists. split; [done|].
    sts_simpl_in_goal.
    rewrite Hmeta. cbn [om_Namespace om_with_owners]. rewrite Hts3. cbn [result_bind]. rewrite Ht'. cbn [result_bind].
    rewrite if_set_idem. by destruct (negb (str_eqb _ _)), (negb (_ =? _)%Z).
  - injection Ha as <-. sts_simpl_in_goal.
    destruct (updatePersistence_stable _ _ _ Ep) as [_ ->].
    destruct (override_template_stable instance None _ _ _ Et eq_refl) as (pt' & -> & [= ->]).
    cbn [or_panic result_bind]. eexists. split; [done|].
    sts_simpl_in_goal. by rewrite Hmeta.
Qed.

Lemma sts_Update_twice (instance : RabbitmqCluster) (sts sts' : StatefulSet) :
  (forall ov os, ov_StatefulSet (spec_Override (rmq_Spec instance)) = Some ov -> ost_Spec ov = Some os ->
     Forall (fun p => is_Some (pvcs_Requests (opvc_Spec p))) (os_VolumeClaimTemplates os)) ->
  sts_Update instance sts = Ok sts' -> sts_Update instance sts' = Ok sts'.
Proof.
  intros Hreq. unfold sts_Update. intros (d & Hd & (o & Ho & (m & Hm & [= <-])%result_bind_ok)%result_bind_ok)%result_bind_ok.
  destruct (SetControllerReference _ _) as [m'|] eqn:Er; [injection Hm as ->|done].
  cbn [sts_Meta sts_Spec sts_Status].
  assert (exists d', sts_desired instance (mkSts m (sts_Spec o) (sts_Status o)) = Ok d' /\
    match ov_StatefulSet (spec_Override (rmq_Spec instance)) with
    | Some ov => map_err wrap_override_error (applyStsOverride instance d' ov)
    | None => Ok d'
    end = Ok (mkSts m (sts_Spec o) (sts_Status o))) as (d' & Hd' & Ho').
  2:{ rewrite Hd'. cbn [result_bind]. rewrite Ho'. cbn [result_bind sts_Meta sts_Spec sts_Status].
      by rewrite (setref_idem _ _ _ Er). }
  rewrite (setref_only_owners _ _ _ Er). clear Er. generalize (om_OwnerReferences m). intros w. clear m.
  destruct (ov_StatefulSet _) as [ov|].
  - destruct (applyStsOverride instance d ov) as [o'|] eqn:Ea; [injection Ho as ->|done].
    destruct (override_stable instance sts d ov o w Hd Ea) as (d' & Hd' & Ea').
    { intros os Hos. by eapply Hreq. }
    exists d'. split; [done|]. by rewrite Ea'.
  - injection Ho as <-. exists (mkSts (om_with_owners w (sts_Meta d)) (sts_Spec d) (sts_Status d)).
    split; [|done]. by apply desired_stable with (sts := sts).
Qed.

End UpdateTwice.

(** ** Properties of the update *)

Section UpdateProperties.
Context `{StrategicMerge} `{OwnerRefsLaws}.

(** C16. The pods' identity cannot be overridden: whatever the strategic merge
    of the user's pod spec returns, after a successful update they run
    under the operator's service account, with its token mounted. *)
Theorem sts_Update_identity (instance : RabbitmqCluster) (sts sts' : StatefulSet) :
  sts_Update instance sts = Ok sts' ->
  let pod := pt_Spec (sp_Template (sts_Spec sts')) in
  ps_ServiceAccountName pod = ChildResourceName instance serviceAccountName /\
  ps_AutomountServiceAccountToken pod = Some true.
Proof.
  intros (d & o & (pvcs & t & _ & Ht & Hdt & _)%sts_desired_ok & Ho & _ & -> & _)%sts_Update_ok.
  apply podTemplateSpec_ok in Ht as (? & ? & ? & _ & _ & _ & _ & _ & _ & Hsa & Hat & _). cbn.
  rewrite <- Hdt in Hsa, Hat.
  destruct (ov_StatefulSet _) as [ov|]; [|by subst o].
  apply applyStsOverride_ok in Ho as (_ & _ & Hs). destruct (ost_Spec ov) as [os|]; [|by rewrite Hs].
  destruct Hs as [_ Hs]. by eapply override_template_identity.
Qed.

Lemma sts_Update_claims_facts (instance : RabbitmqCluster) (sts sts' : StatefulSet) (storage : Quantity) :
  sts_Update instance sts = Ok sts' ->
  per_Storage (spec_Persistence (rmq_Spec instance)) = Some storage ->
  let claims := default [] (option_map os_VolumeClaimTemplates
                  (ov_StatefulSet (spec_Override (rmq_Spec instance)) ≫= ost_Spec)) in
  if bool_decide (claims = [] \/ storage = 0%Z) then
    Forall2 (fun t t' => pvc_Meta t' = pvc_Meta t /\
        if str_eqb (om_Name (pvc_Meta t)) defaultPVCName
        then rl_get (pvcs_Requests (pvc_Spec t')) "storage" = storage
        else t' = t)
      (sp_VolumeClaimTemplates (sts_Spec sts)) (sp_VolumeClaimTemplates (sts_Spec sts'))
  else
    Forall2 (fun o p => pvc_Spec p = opvc_Spec o /\ om_Namespace (pvc_Meta p) = om_Namespace (sts_Meta sts) /\
        Forall (fun r => or_BlockOwnerDeletion r = Some false) (om_OwnerReferences (pvc_Meta p)))
      claims (sp_VolumeClaimTemplates (sts_Spec sts')).
Proof.
  intros (d & o & (pvcs & t & Hp & _ & _ & Hdp & Hns)%sts_desired_ok & Ho & Hr & Hs & _)%sts_Update_ok Hst.
  cbn zeta. rewrite Hs. rewrite Hst in Hp.
  assert (Forall2 (fun t t' => pvc_Meta t' = pvc_Meta t /\
    if str_eqb (om_Name (pvc_Meta t)) defaultPVCName
    then rl_get (pvcs_Requests (pvc_Spec t')) "storage" = storage else t' = t)
    (sp_VolumeClaimTemplates (sts_Spec sts)) pvcs) as Hbase.
  { destruct (updatePersistence_stable _ _ _ Hp) as [HF _]. eapply Forall2_impl; [exact HF|].
    intros x x' (Hm & _ & Hc1 & Hc2)%set_capacity_spec. split; [done|].
    destruct (str_eqb _ _) eqn:E; [apply str_eqb_spec, Hc1 in E; by injection E|].
    apply Hc2. intros ?%str_eqb_spec. congruence. }
  destruct (ov_StatefulSet _) as [ov|]; cbn [mbind option_bind].
  2:{ subst o. rewrite bool_decide_eq_true_2 by auto. by rewrite Hdp. }
  apply applyStsOverride_ok in Ho as (Hm & _ & Ho). destruct (ost_Spec ov) as [os|]; cbn [option_map from_option id].
  2:{ rewrite bool_decide_eq_true_2 by auto. by rewrite Ho, Hdp. }
  destruct Ho as [Ho _]. unfold override_templates in Ho.
  rewrite Hdp, Hst in Ho. cbn [or_panic result_bind] in Ho.
  destruct (os_VolumeClaimTemplates os) as [|c cs] eqn:Ec.
  { rewrite bool_decide_eq_true_2 by auto. by injection Ho as <-. }
  destruct (Z.eqb_spec (q_Cmp storage 0%Z) 0) as [E|E].
  { apply (proj1 (q_Cmp_eq _ _)) in E. rewrite bool_decide_eq_true_2 by auto. by injection Ho as <-. }
  rewrite bool_decide_eq_false_2.
  2:{ intros [|E']; [done|]. apply E, q_Cmp_eq, E'. }
  apply override_pvcs_ok in Ho. eapply Forall2_impl; [exact Ho|].
  intros oc p (m & Hm' & [= <-])%result_bind_ok. cbn. split; [done|].
  destruct (SetControllerReference _ (om_with_namespace _ _)) as [m'|] eqn:Er; [|done].
  injection Hm' as <-. split.
  - rewrite (setref_only_owners _ _ _ Er). cbn. rewrite Hm, <- Hns.
    destruct (ost_LabelsAnnotations ov) as [la|]; [|done].
    by rewrite (copyLabelsAnnotations_namespace _ la).
  - apply Forall_map. by apply Forall_true.
Qed.

(** The claim templates after an update.  Without a claim override, every
    template keeps its metadata, the one named persistence asks for the
    storage of the spec and the others are unchanged; with a claim
    override and non-zero storage, they are the override's, in the
    namespace of the StatefulSet and with no owner reference that blocks
    deletion; with zero storage the claim override is ignored. *)
Theorem sts_Update_claims (instance : RabbitmqCluster) (sts sts' : StatefulSet) (storage : Quantity) :
  sts_Update instance sts = Ok sts' ->
  per_Storage (spec_Persistence (rmq_Spec instance)) = Some storage ->
  let claims := default [] (option_map os_VolumeClaimTemplates
                  (ov_StatefulSet (spec_Override (rmq_Spec instance)) ≫= ost_Spec)) in
  if bool_decide (claims = [] \/ storage = 0%Z) then
    Forall2 (fun t t' => pvc_Meta t' = pvc_Meta t /\
        if str_eqb (om_Name (pvc_Meta t)) defaultPVCName
        then rl_get (pvcs_Requests (pvc_Spec t')) "storage" = storage
        else t' = t)
      (sp_VolumeClaimTemplates (sts_Spec sts)) (sp_VolumeClaimTemplates (sts_Spec sts'))
  else
    Forall2 (fun o p => pvc_Spec p = opvc_Spec o /\ om_Namespace (pvc_Meta p) = om_Namespace (sts_Meta sts) /\
        Forall (fun r => or_BlockOwnerDeletion r = Some false) (om_OwnerReferences (pvc_Meta p)))
      claims (sp_VolumeClaimTemplates (sts_Spec sts')).
Proof. apply sts_Update_claims_facts. Qed.

Lemma persistence_after_map f instance :
  spec_Persistence (rmq_Spec (map_sts_override f instance)) = spec_Persistence (rmq_Spec instance) /\
  (ov_StatefulSet (spec_Override (rmq_Spec (map_sts_override f instance))) ≫= ost_Spec) =
    option_map f (ov_StatefulSet (spec_Override (rmq_Spec instance)) ≫= ost_Spec).
Proof. split; [done|]. cbn. by destruct (ov_StatefulSet _). Qed.

(** C15. Recreating the StatefulSet loses the capacity of an override's claim:
    the object a pass prepares asks for the storage of the override's
    persistence claim, which is what the claims are grown to; but when the
    pass updates the same object again, as it does when it creates the
    StatefulSet it has just deleted, the claim template asks for the storage
    of spec.persistence, which was written through the shared map. *)
Theorem sts_recreate_capacity (instance : RabbitmqCluster) (sts sts1 sts2 : StatefulSet) (capacity : Quantity)
    (os : OverrideStatefulSetSpec) (claim : OverridePVC) (requests : gmap string Quantity) :
  ov_StatefulSet (spec_Override (rmq_Spec instance)) ≫= ost_Spec = Some os ->
  os_VolumeClaimTemplates os = [claim] -> eom_Name (opvc_EmbeddedObjectMeta claim) = defaultPVCName ->
  pvcs_Requests (opvc_Spec claim) = Some requests ->
  per_Storage (spec_Persistence (rmq_Spec instance)) = Some capacity -> capacity <> 0%Z ->
  sts_Update instance sts = Ok sts1 -> sts_Update_in_memory instance sts1 = Ok sts2 ->
  let storages s := map (fun t => rl_get (pvcs_Requests (pvc_Spec t)) "storage")
                      (sp_VolumeClaimTemplates (sts_Spec s)) in
  storages sts1 = [default 0%Z (requests !! "storage")] /\ storages sts2 = [capacity].
Proof.
  intros Hos Hvct Hname Hreq Hcap Hnz Hu1 Hu2. cbn zeta. split.
  - pose proof (sts_Update_claims_facts _ _ _ _ Hu1 Hcap) as Hc. cbn zeta in Hc. rewrite Hos in Hc.
    cbn [option_map from_option id default] in Hc. rewrite Hvct in Hc.
    rewrite bool_decide_eq_false_2 in Hc by (by intros [|]).
    inversion Hc as [|? p ? ps (E & _) Hnil]. inversion Hnil. cbn [map]. rewrite E, Hreq.
    unfold rl_get. cbn. by destruct (requests !! "storage").
  - unfold sts_Update_in_memory, share_override in Hu2. rewrite Hcap in Hu2.
    rewrite (proj2 (Z.eqb_neq (q_Cmp capacity 0%Z) 0)) in Hu2 by (intros E; apply Hnz, q_Cmp_eq, E).
    match type of Hu2 with sts_Update (map_sts_override ?f _) _ = _ =>
      destruct (persistence_after_map f instance) as (Hp & Ho) end.
    rewrite <- Hp in Hcap. pose proof (sts_Update_claims_facts _ _ _ _ Hu2 Hcap) as Hc. cbn zeta in Hc.
    rewrite Ho, Hos in Hc. cbn [option_map from_option id default os_with os_VolumeClaimTemplates] in Hc.
    rewrite Hvct in Hc. cbn [map] in Hc.
    rewrite bool_decide_eq_false_2 in Hc by (by intros [|]).
    inversion Hc as [|? p ? ps (E & _) Hnil]. inversion Hnil. cbn [map]. rewrite E.
    unfold share_capacity. rewrite (proj2 (str_eqb_spec _ _) Hname). cbn. rewrite Hreq. cbn.
    unfold rl_get. cbn. by rewrite lookup_insert_eq.
Qed.
End UpdateProperties.
