(* ===== verification/Rbac.v ===== *)
(** * Service account, role and role binding

    internal/resource/service_account.go, role.go and role_binding.go. *)

From S2P Require Import Prelude.
From S2P Require Import K8s.
From S2P Require Import Metadata.
From S2P Require Import Status.
From S2P Require Import Api.
From S2P Require Import Secrets.
From S2P Require Import PodTemplate.

Definition roleName : string := "peer-discovery".
Definition roleBindingName : string := "server".

Section Rbac.
Context `{OwnerRefs}.

(** the last step of the three updates *)
Definition set_owner (instance : RabbitmqCluster) (m : ObjectMeta) : result string ObjectMeta :=
  map_err (fun e => "failed setting controller reference: " +:+ e)
    (SetControllerReference (rmq_Meta instance) m).

Definition sa_Build (instance : RabbitmqCluster) : ServiceAccount :=
  mkSA (meta_named (ChildResourceName instance serviceAccountName) (rmq_Namespace instance)).

Definition sa_Update (instance : RabbitmqCluster) (serviceAccount : ServiceAccount)
  : result string ServiceAccount :=
  try m := set_owner instance (child_meta instance (sa_Meta serviceAccount)) in
  Ok (mkSA m).

Definition role_Build (instance : RabbitmqCluster) : Role :=
  mkRole (meta_named (ChildResourceName instance roleName) (rmq_Namespace instance)) [].

Definition role_rules : list PolicyRule :=
  [ mkRule [""] ["endpoints"] ["get"]; mkRule [""] ["events"] ["create"] ].

Definition role_Update (instance : RabbitmqCluster) (role : Role) : result string Role :=
  try m := set_owner instance (child_meta instance (role_Meta role)) in
  Ok (mkRole m role_rules).

Definition rb_Build (instance : RabbitmqCluster) : RoleBinding :=
  mkRB (meta_named (ChildResourceName instance roleBindingName) (rmq_Namespace instance))
    (mkRoleRef "" "" "") [].

Definition rb_Update (instance : RabbitmqCluster) (roleBinding : RoleBinding) : result string RoleBinding :=
  try m := set_owner instance (child_meta instance (rb_Meta roleBinding)) in
  Ok (mkRB m
        (mkRoleRef "rbac.authorization.k8s.io" "Role" (ChildResourceName instance roleName))
        [mkSubject "ServiceAccount" (ChildResourceName instance serviceAccountName)
           (rmq_Namespace instance)]).
End Rbac.

(** The peer discovery wiring: after an update the binding grants the role
    the operator builds, and nothing else, to the service account the pods
    run under, and the role allows reading endpoints and creating events
    only. *)
Theorem rbac_wiring `{OwnerRefsLaws} (instance : RabbitmqCluster) (role role' : Role)
    (rb rb' : RoleBinding) (prev : smap) (pt : PodTemplateSpec) :
  role_Update instance role = Ok role' -> rb_Update instance rb = Ok rb' ->
  podTemplateSpec instance prev = Some pt ->
  role_Rules role' = [ mkRule [""] ["endpoints"] ["get"]; mkRule [""] ["events"] ["create"] ] /\
  rr_Kind (rb_RoleRef rb') = "Role" /\
  rr_Name (rb_RoleRef rb') = om_Name (role_Meta (role_Build instance)) /\
  rb_Subjects rb' = [mkSubject "ServiceAccount" (ps_ServiceAccountName (pt_Spec pt)) (rmq_Namespace instance)] /\
  om_Name (role_Meta role') = om_Name (role_Meta role) /\ om_Name (rb_Meta rb') = om_Name (rb_Meta rb).
Proof.
  intros (m & Hm & [= <-])%result_bind_ok (m' & Hm' & [= <-])%result_bind_ok
    (? & ? & ? & _ & _ & _ & _ & _ & _ & -> & _)%podTemplateSpec_ok.
  unfold set_owner in *. cbn.
  destruct (SetControllerReference _ (child_meta _ (role_Meta _))) as [n|] eqn:E; [injection Hm as ->|done].
  destruct (SetControllerReference _ (child_meta _ (rb_Meta _))) as [n'|] eqn:E'; [injection Hm' as ->|done].
  by rewrite (setref_name _ _ _ E), (setref_name _ _ _ E').
Qed.
