(* ===== verification/ResourceBuilder.v ===== *)
(** * The list of resource builders

    internal/resource/rabbitmq_resource_builder.go: which child resources a
    cluster has and in which order they are created, and the builder
    interface over the objects of the other files. *)

From S2P Require Import Prelude.
From S2P Require Import K8s.
From S2P Require Import Metadata.
From S2P Require Import Status.
From S2P Require Import Api.
From S2P Require Import Plugins.
From S2P Require Import Override.
From S2P Require Import Services.
From S2P Require Import Ini.
From S2P Require Import Secrets.
From S2P Require Import ServerConf.
From S2P Require Import PodTemplate.
From S2P Require Import StatefulSet.
From S2P Require Import Rbac.

(** ** Objects and builders *)

(** [client.Object], restricted to the kinds the builders produce. *)
Inductive Object :=
| OService (s : Service)
| OSecret (s : Secret)
| OConfigMap (c : ConfigMap)
| OServiceAccount (s : ServiceAccount)
| ORole (r : Role)
| ORoleBinding (r : RoleBinding)
| OStatefulSet (s : StatefulSet).

#[export] Instance Object_eq_dec : EqDecision Object.
Proof. solve_decision. Defined.

Inductive ResourceBuilder :=
| HeadlessServiceBuilder
| ServiceBuilder
| ErlangCookieBuilder
| DefaultUserSecretBuilder
| RabbitmqPluginsConfigMapBuilder
| ServerConfigMapBuilder (UpdateRequiresStsRestart : bool)
| ServiceAccountBuilder
| RoleBuilder
| RoleBindingBuilder
| StatefulSetBuilder.

#[export] Instance ResourceBuilder_eq_dec : EqDecision ResourceBuilder.
Proof. solve_decision. Defined.

Definition UpdateMayRequireStsRecreate (b : ResourceBuilder) : bool :=
  match b with StatefulSetBuilder => true | _ => false end.

(** ** Peer discovery RBAC *)

(** github.com/Masterminds/semver: library code. *)
Class Semver : Type := {
  version : Type;
  semver_NewVersion : string -> option version;
  constraint_Check : string -> version -> bool
}.

Definition peerDiscoveryRBACConstraint : string := ">= 4.1.0".

Section Builders.
Context `{Semver}.

Definition ShouldCreatePeerDiscoveryRBAC (rmq : RabbitmqCluster) : bool :=
  let v := GetRabbitMQVersion rmq in
  if str_eqb v VersionNotAnnotated then true
  else match semver_NewVersion v with
       | None => true
       | Some v => negb (constraint_Check peerDiscoveryRBACConstraint v)
       end.

(** [slices.Delete(s, i, i+1)] *)
Definition delete_at {A} (i : nat) (l : list A) : list A := take i l ++ drop (S i) l.

Definition ResourceBuilders (instance : RabbitmqCluster) : list ResourceBuilder :=
  let builders :=
    [ HeadlessServiceBuilder; ServiceBuilder; ErlangCookieBuilder; DefaultUserSecretBuilder;
      RabbitmqPluginsConfigMapBuilder; ServerConfigMapBuilder true; ServiceAccountBuilder ] in
  let builders :=
    if ShouldCreatePeerDiscoveryRBAC instance then builders ++ [RoleBuilder; RoleBindingBuilder]
    else builders in
  let builders := builders ++ [StatefulSetBuilder] in
  if VaultDefaultUserSecretEnabled instance || ExternalSecretEnabled instance
  then delete_at 3 builders
  else builders.
End Builders.

(** ** Build and Update of any builder *)

Definition lift_sts_error (e : StsError) : BuildError :=
  match e with
  | Panic => ErrOther "panic"
  | Failed msg => ErrOther msg
  end.

Section Dispatch.
Context {I : Ini} {O : OwnerRefs} {M : StrategicMerge}
  (iter : gmap string ServicePort -> list (string * ServicePort)) (rand : RandSource).

Definition Build (instance : RabbitmqCluster) (b : ResourceBuilder) : result BuildError Object :=
  match b with
  | HeadlessServiceBuilder => Ok (OService (headless_Build instance))
  | ServiceBuilder => Ok (OService (service_Build instance))
  | ErlangCookieBuilder => map_err ErrOther (try s := cookie_Build rand instance in Ok (OSecret s))
  | DefaultUserSecretBuilder => map_err ErrOther (try s := secret_Build rand instance in Ok (OSecret s))
  | RabbitmqPluginsConfigMapBuilder => Ok (OConfigMap (plugins_Build instance))
  | ServerConfigMapBuilder _ => Ok (OConfigMap (server_Build instance))
  | ServiceAccountBuilder => Ok (OServiceAccount (sa_Build instance))
  | RoleBuilder => Ok (ORole (role_Build instance))
  | RoleBindingBuilder => Ok (ORoleBinding (rb_Build instance))
  | StatefulSetBuilder => map_err lift_sts_error (try s := sts_Build instance in Ok (OStatefulSet s))
  end.

(** [Update] changes the object and, for the server ConfigMap, the
    builder's own flag.  A type assertion that fails panics. *)
Definition Update (instance : RabbitmqCluster) (b : ResourceBuilder) (obj : Object)
  : result BuildError (Object * ResourceBuilder) :=
  match b, obj with
  | HeadlessServiceBuilder, OService s =>
      map_err ErrOther (try s := headless_Update instance s in Ok (OService s, b))
  | ServiceBuilder, OService s =>
      map_err ErrOther (try s := service_Update iter instance s in Ok (OService s, b))
  | ErlangCookieBuilder, OSecret s =>
      map_err ErrOther (try s := cookie_Update instance s in Ok (OSecret s, b))
  | DefaultUserSecretBuilder, OSecret s =>
      map_err ErrOther (try s := secret_Update instance s in Ok (OSecret s, b))
  | RabbitmqPluginsConfigMapBuilder, OConfigMap c =>
      map_err ErrOther (try c := plugins_Update instance c in Ok (OConfigMap c, b))
  | ServerConfigMapBuilder flag, OConfigMap c =>
      try r := server_Update instance flag c in
      Ok (OConfigMap (fst r), ServerConfigMapBuilder (snd r))
  | ServiceAccountBuilder, OServiceAccount s =>
      map_err ErrOther (try s := sa_Update instance s in Ok (OServiceAccount s, b))
  | RoleBuilder, ORole r => map_err ErrOther (try r := role_Update instance r in Ok (ORole r, b))
  | RoleBindingBuilder, ORoleBinding r =>
      map_err ErrOther (try r := rb_Update instance r in Ok (ORoleBinding r, b))
  | StatefulSetBuilder, OStatefulSet s =>
      map_err lift_sts_error (try s := sts_Update instance s in Ok (OStatefulSet s, b))
  | _, _ => Err (ErrOther "panic: interface conversion")
  end.
End Dispatch.

Definition object_meta (o : Object) : ObjectMeta :=
  match o with
  | OService s => svc_Meta s
  | OSecret s => sec_Meta s
  | OConfigMap c => cm_Meta c
  | OServiceAccount s => sa_Meta s
  | ORole r => role_Meta r
  | ORoleBinding r => rb_Meta r
  | OStatefulSet s => sts_Meta s
  end.

Definition object_kind (o : Object) : string :=
  match o with
  | OService _ => "Service"
  | OSecret _ => "Secret"
  | OConfigMap _ => "ConfigMap"
  | OServiceAccount _ => "ServiceAccount"
  | ORole _ => "Role"
  | ORoleBinding _ => "RoleBinding"
  | OStatefulSet _ => "StatefulSet"
  end.

(** ** Names *)

(** Kind and name suffix of what a builder builds. *)
Definition builder_id (b : ResourceBuilder) : string * string :=
  match b with
  | HeadlessServiceBuilder => ("Service", headlessServiceSuffix)
  | ServiceBuilder => ("Service", ServiceSuffix)
  | ErlangCookieBuilder => ("Secret", erlangCookieName)
  | DefaultUserSecretBuilder => ("Secret", DefaultUserSecretName)
  | RabbitmqPluginsConfigMapBuilder => ("ConfigMap", PluginsConfigName)
  | ServerConfigMapBuilder _ => ("ConfigMap", ServerConfigMapName)
  | ServiceAccountBuilder => ("ServiceAccount", serviceAccountName)
  | RoleBuilder => ("Role", roleName)
  | RoleBindingBuilder => ("RoleBinding", roleBindingName)
  | StatefulSetBuilder => ("StatefulSet", stsSuffix)
  end.

Lemma TrimSuffix_app a c b :
  TrimSuffix (a +:+ String c b) "-" = a +:+ TrimSuffix (String c b) "-".
Proof.
  induction a as [|x a IH]; [done|].
  change (TrimSuffix (String x (a +:+ String c b)) "-" = String x (a +:+ TrimSuffix (String c b) "-")).
  rewrite <- IH. cbn [TrimSuffix]. destruct (str_eqb _ "-") eqn:E; [|done].
  apply str_eqb_spec in E. by destruct a.
Qed.

(** The suffix [ChildResourceName] appends to the cluster's name. *)
Definition child_tail (name : string) : string := TrimSuffix ("-" +:+ name) "-".

Lemma ChildResourceName_tail instance name :
  ChildResourceName instance name = rmq_Name instance +:+ child_tail name.
Proof.
  unfold ChildResourceName, child_tail. cbn [Join].
  change ("-" +:+ name) with (String (Ascii.ascii_of_nat 45) name). apply TrimSuffix_app.
Qed.

Lemma str_app_inj a b c : a +:+ b = a +:+ c -> b = c.
Proof.
  induction a as [|x a IH]; [done|]. intros E.
  change (String x (a +:+ b) = String x (a +:+ c)) in E. injection E as E. by apply IH.
Qed.

Section Properties.
Context {I : Ini} {O : OwnerRefs} {M : StrategicMerge} {V : Semver} (rand : RandSource).

Lemma Build_id instance b o :
  Build rand instance b = Ok o ->
  object_kind o = fst (builder_id b) /\
  om_Name (object_meta o) = ChildResourceName instance (snd (builder_id b)) /\
  om_Namespace (object_meta o) = rmq_Namespace instance.
Proof.
  destruct b; cbn -[secret_Build cookie_Build sts_Build ChildResourceName]; try by intros [= <-].
  - unfold cookie_Build. destruct (randomEncodedString _ _); cbn; [|done]. by intros [= <-].
  - unfold secret_Build. destruct (configured_credentials _); cbn; [|done].
    destruct (if str_eqb _ _ then generateUsername _ _ else _); cbn; [|done].
    destruct (if str_eqb _ _ then randomEncodedString _ _ else _); cbn; [|done].
    destruct (generateDefaultUserConf _ _); cbn; [|done]. by intros [= <-].
  - unfold sts_Build. destruct (persistentVolumeClaim _); cbn; [|done]. by intros [= <-].
Qed.

Lemma builder_in instance b :
  b ∈ ResourceBuilders instance <->
  match b with
  | DefaultUserSecretBuilder =>
      VaultDefaultUserSecretEnabled instance || ExternalSecretEnabled instance = false
  | RoleBuilder | RoleBindingBuilder => ShouldCreatePeerDiscoveryRBAC instance = true
  | ServerConfigMapBuilder flag => flag = true
  | _ => True
  end.
Proof.
  unfold ResourceBuilders.
  destruct (_ || _), (ShouldCreatePeerDiscoveryRBAC instance);
    destruct b as [| | | | |[]| | | |]; split; intros Hb; try done; try discriminate;
    first [apply (bool_decide_unpack _); by vm_compute
          | apply (bool_decide_pack _) in Hb; vm_compute in Hb; done].
Qed.

Lemma ResourceBuilders_last (instance : RabbitmqCluster) :
  last (ResourceBuilders instance) = Some StatefulSetBuilder.
Proof. unfold ResourceBuilders. by destruct (_ || _), (ShouldCreatePeerDiscoveryRBAC instance). Qed.

(** The child resources and their order: the StatefulSet is the last
    builder, so everything else exists before a pod can start, and it is
    the only one that may need a recreation; no resource is built twice;
    the default user Secret is built exactly when neither Vault nor an
    external secret provides it, the Role and its binding exactly when
    peer discovery needs them, and the other resources always. *)
Theorem ResourceBuilders_spec (instance : RabbitmqCluster) :
  last (ResourceBuilders instance) = Some StatefulSetBuilder /\
  NoDup (map builder_id (ResourceBuilders instance)) /\
  (forall b, UpdateMayRequireStsRecreate b = true <-> b = StatefulSetBuilder) /\
  (DefaultUserSecretBuilder ∈ ResourceBuilders instance <->
     VaultDefaultUserSecretEnabled instance = false /\ ExternalSecretEnabled instance = false) /\
  (RoleBuilder ∈ ResourceBuilders instance <-> ShouldCreatePeerDiscoveryRBAC instance = true) /\
  (RoleBindingBuilder ∈ ResourceBuilders instance <-> ShouldCreatePeerDiscoveryRBAC instance = true) /\
  Forall (fun b => b ∈ ResourceBuilders instance)
    [HeadlessServiceBuilder; ServiceBuilder; ErlangCookieBuilder; RabbitmqPluginsConfigMapBuilder;
     ServerConfigMapBuilder true; ServiceAccountBuilder; StatefulSetBuilder].
Proof.
  split; [|split; [|split; [|split; [|split; [|split]]]]].
  - apply ResourceBuilders_last.
  - unfold ResourceBuilders.
    destruct (_ || _), (ShouldCreatePeerDiscoveryRBAC instance); decide_goal.
  - intros b. by destruct b.
  - rewrite builder_in. apply orb_false_iff.
  - apply builder_in.
  - apply builder_in.
  - repeat constructor; by apply builder_in.
Qed.

(** Two child resources of a cluster never collide: resources of one kind
    built from different builders have different names, in the cluster's
    namespace. *)
Theorem child_names_distinct (instance : RabbitmqCluster) (b1 b2 : ResourceBuilder) (o1 o2 : Object) :
  b1 ∈ ResourceBuilders instance -> b2 ∈ ResourceBuilders instance ->
  Build rand instance b1 = Ok o1 -> Build rand instance b2 = Ok o2 ->
  om_Namespace (object_meta o1) = rmq_Namespace instance /\
  (object_kind o1 = object_kind o2 -> om_Name (object_meta o1) = om_Name (object_meta o2) -> b1 = b2).
Proof.
  intros Hb1 Hb2 (Hk1 & Hn1 & Hns)%Build_id (Hk2 & Hn2 & _)%Build_id. split; [done|].
  rewrite Hk1, Hk2, Hn1, Hn2, !ChildResourceName_tail. intros Hk Hn%str_app_inj.
  apply builder_in in Hb1, Hb2.
  destruct b1 as [| | | | |[]| | | |], b2 as [| | | | |[]| | | |]; try done; vm_compute in Hn; done.
Qed.
End Properties.

(** ** What the pod refers to *)

(** The ConfigMaps and Secrets a volume reads, as kind and name. *)
Definition projection_ref (p : VolumeProjection) : string * string :=
  match p with
  | ProjConfigMap name _ => ("ConfigMap", name)
  | ProjSecret name _ _ => ("Secret", name)
  end.
Definition volume_refs (v : Volume) : list (string * string) :=
  match v_Source v with
  | VolConfigMap name => [("ConfigMap", name)]
  | VolSecret name => [("Secret", name)]
  | VolProjected sources _ => map projection_ref sources
  | _ => []
  end.

(** The Secrets the user must provide. *)
Definition user_secrets (instance : RabbitmqCluster) : list string :=
  (if SecretTLSEnabled instance
   then [tls_SecretName (spec_TLS (rmq_Spec instance)); tls_CaSecretName (spec_TLS (rmq_Spec instance))]
   else []) ++
  (if ExternalSecretEnabled instance
   then [sb_ExternalSecret_Name (spec_SecretBackend (rmq_Spec instance))] else []).

(** Split a [Forall] over an explicit list. *)
Ltac forall_list := repeat first [apply Forall_nil_2 | apply Forall_cons_2; cbn [volume_refs v_Source map projection_ref]].

Section PodReferences.
Context {V : Semver}.

Definition built_name (instance : RabbitmqCluster) (b : ResourceBuilder) : string * string :=
  (fst (builder_id b), ChildResourceName instance (snd (builder_id b))).

Definition ref_ok (instance : RabbitmqCluster) (r : string * string) : Prop :=
  (exists b, b ∈ ResourceBuilders instance /\ b <> StatefulSetBuilder /\ r = built_name instance b) \/
  (exists s, s ∈ user_secrets instance /\ r = ("Secret", s)).

Lemma ref_built instance b :
  b ∈ ResourceBuilders instance -> b <> StatefulSetBuilder -> ref_ok instance (built_name instance b).
Proof. intros. left. by exists b. Qed.

Definition refs_ok (instance : RabbitmqCluster) (vs : list Volume) : Prop :=
  Forall (fun v => Forall (ref_ok instance) (volume_refs v)) vs.

Lemma base_volumes_refs_ok instance : refs_ok instance (base_volumes instance).
Proof.
  assert (ref_ok instance (built_name instance RabbitmqPluginsConfigMapBuilder)) as Hp
    by (apply ref_built; [by apply builder_in | done]).
  assert (ref_ok instance (built_name instance (ServerConfigMapBuilder true))) as Hs
    by (apply ref_built; [by apply builder_in | done]).
  assert (ref_ok instance (built_name instance ErlangCookieBuilder)) as Hc
    by (apply ref_built; [by apply builder_in | done]).
  unfold refs_ok, base_volumes. forall_list; done.
Qed.

(** Adding the default user's Secret to the projected volume keeps the
    references right when the Secret is built or the user's. *)
Lemma append_projection_refs_ok instance vs name :
  refs_ok instance vs ->
  ref_ok instance ("Secret", if str_eqb name "" then ChildResourceName instance DefaultUserSecretName else name) ->
  refs_ok instance (appendDefaultUserSecretVolumeProjection vs instance name).
Proof.
  intros Hvs Hn. apply Forall_map. eapply Forall_impl; [exact Hvs|]. intros v Hv. cbn beta.
  destruct (str_eqb (v_Name v) _); [|done]. destruct (v_Source v) eqn:E; try done.
  unfold volume_refs in *. rewrite E in Hv. cbn [v_Source]. rewrite map_app. apply Forall_app.
  split; [done|]. by constructor.
Qed.

Lemma pod_volumes_refs_ok instance st : refs_ok instance (pod_volumes instance st).
Proof.
  assert (forall s, s ∈ user_secrets instance -> ref_ok instance ("Secret", s)) as Hu
    by (intros s Hin; right; by exists s).
  assert (ref_ok instance (built_name instance (ServerConfigMapBuilder true))) as Hs
    by (apply ref_built; [by apply builder_in | done]).
  unfold pod_volumes, refs_ok. repeat apply Forall_app_2.
  - destruct (ExternalSecretEnabled instance) eqn:Ex.
    + rewrite andb_false_r. apply append_projection_refs_ok; [apply base_volumes_refs_ok|].
      unfold ExternalSecretEnabled in Ex. apply negb_true_iff in Ex. rewrite Ex. apply Hu.
      unfold user_secrets, ExternalSecretEnabled. rewrite Ex. set_solver.
    + rewrite andb_true_r. destruct (VaultDefaultUserSecretEnabled instance) eqn:Ev;
        [apply base_volumes_refs_ok|]. apply append_projection_refs_ok; [apply base_volumes_refs_ok|].
      apply (ref_built instance DefaultUserSecretBuilder); [|done]. apply builder_in. by rewrite Ex, Ev.
  - destruct (rabbitmqConfigurationIsSet instance); forall_list. exact Hs.
  - destruct (_ =? 0)%Z; forall_list. unfold persistence_volume, volume_refs. cbn.
    destruct (per_EmptyDir _); forall_list.
  - destruct (SecretTLSEnabled instance) eqn:E; [|constructor]. constructor; [|constructor].
    unfold volume_refs, tls_volume. cbn [v_Source map projection_ref]. constructor.
    + apply Hu. unfold user_secrets. rewrite E. set_solver.
    + destruct (MutualTLSEnabled instance); cbn [map projection_ref]; forall_list. apply Hu. unfold user_secrets.
      rewrite E. set_solver.
Qed.

End PodReferences.
