(* ===== verification/PodExecutor.v ===== *)
(** * Running commands in pods

    internal/controller/pod_executor.go.  The executor of remotecommand is
    library code: it is given the request and two writers, and what it does
    with them is its answer.  The writers are Go's bufio.Writer over a
    bytes.Buffer: both are defined here. *)

From S2P Require Import Prelude.

(** ** bufio.Writer over a bytes.Buffer *)

(** [defaultBufSize] of bufio *)
Definition bufSize : nat := 4096.

(** What has reached the bytes.Buffer, and what waits in the writer. *)
Record Writer := mkWriter { w_flushed : string; w_buffered : string }.

Definition new_writer : Writer := mkWriter "" "".

Definition Available (w : Writer) : nat := bufSize - String.length (w_buffered w).

Definition Flush (w : Writer) : Writer := mkWriter (w_flushed w +:+ w_buffered w) "".

(** [Write(p)]: what does not fit goes through a full buffer, or directly when
    the buffer is empty. *)
Definition Write (p : string) (w : Writer) : Writer :=
  if (String.length p <=? Available w)%nat then mkWriter (w_flushed w) (w_buffered w +:+ p)
  else if str_eqb (w_buffered w) "" then mkWriter (w_flushed w +:+ p) ""
  else
    let n := Available w in
    let w := Flush (mkWriter (w_flushed w) (w_buffered w +:+ str_take n p)) in
    let p := str_drop n p in
    if (String.length p <=? bufSize)%nat then mkWriter (w_flushed w) p else mkWriter (w_flushed w +:+ p) "".

(** [ReadFrom(r)]: [r] gives the chunks.  With an empty buffer the underlying
    bytes.Buffer reads the rest of [r] itself. *)
Fixpoint ReadFrom (chunks : list string) (w : Writer) : Writer :=
  let w := if (Available w =? 0)%nat then Flush w else w in
  if str_eqb (w_buffered w) "" then mkWriter (w_flushed w +:+ String.concat "" chunks) ""
  else
    match chunks with
    | [] => w
    | c :: rest =>
        if (String.length c <=? Available w)%nat
        then ReadFrom rest (mkWriter (w_flushed w) (w_buffered w +:+ c))
        else mkWriter (w_flushed w +:+ w_buffered w +:+ c +:+ String.concat "" rest) ""
    end.

(** ** Exec *)

(** The exec subresource of a pod, with its options. *)
Record ExecRequest := mkExecRequest {
  er_Namespace : string;
  er_Pod : string;
  er_Container : string;
  er_Command : list string;
  er_Stdout : bool;
  er_Stderr : bool;
  er_Stdin : bool;
}.

(** What is done with an [io.Writer] that is also an [io.ReaderFrom]. *)
Inductive WriterOp :=
| OpWrite (p : string)
| OpReadFrom (chunks : list string).

Definition writer_op (w : Writer) (op : WriterOp) : Writer :=
  match op with OpWrite p => Write p w | OpReadFrom chunks => ReadFrom chunks w end.

(** k8s.io/client-go/tools/remotecommand: what happened to the two writers,
    and the error. *)
Class Remotecommand : Type := {
  NewSPDYExecutor : string -> ExecRequest -> option string;
  StreamWithContext : ExecRequest -> list WriterOp * list WriterOp * option string
}.

Module rabbitmqPodExecutor.
Section Exec.
Context `{Remotecommand}.

(** [(stdout, stderr, err)] *)
Definition Exec (namespace podName containerName : string) (command : list string)
  : string * string * option string :=
  let request := mkExecRequest namespace podName containerName command true true false in
  match NewSPDYExecutor "POST" request with
  | Some err => ("", "", Some err)
  | None =>
      let '(out, errs, err) := StreamWithContext request in
      let stdOut := fold_left writer_op out new_writer in
      let stdErr := fold_left writer_op errs new_writer in
      (w_flushed stdOut, w_flushed stdErr, err)
  end.

(** The answer to the call [Kube.Exec]: the controllers read the standard output
    when there is no error. *)
Definition exec_answer (namespace podName containerName : string) (command : list string) : result string string :=
  let '(stdout, _, err) := Exec namespace podName containerName command in
  match err with None => Ok stdout | Some e => Err e end.
End Exec.
End rabbitmqPodExecutor.

(** ** What the writer keeps back *)

Definition delivered (op : WriterOp) : string :=
  match op with OpWrite p => p | OpReadFrom chunks => String.concat "" chunks end.

Definition contents (w : Writer) : string := w_flushed w +:+ w_buffered w.
Definition bounded (w : Writer) : Prop := (String.length (w_buffered w) <= bufSize)%nat.

Lemma Write_spec p w : bounded w -> contents (Write p w) = contents w +:+ p /\ bounded (Write p w).
Proof.
  unfold bounded, contents, Write, Available. intros Hw. destruct (Nat.leb_spec (String.length p) (bufSize - String.length (w_buffered w))).
  { cbn [w_flushed w_buffered]. rewrite str_length_app, str_app_assoc. split; [done|lia]. }
  destruct (str_eqb _ "") eqn:E.
  { apply str_eqb_spec in E. rewrite E. cbn [w_flushed w_buffered]. rewrite !str_app_nil_r. split; [done|cbn; lia]. }
  set (n := (bufSize - _)%nat) in *. unfold Flush. cbn [w_flushed w_buffered].
  assert (((w_flushed w +:+ w_buffered w +:+ str_take n p) +:+ str_drop n p) = (w_flushed w +:+ w_buffered w) +:+ p) as Hc
    by (by rewrite !str_app_assoc, str_take_drop).
  destruct (Nat.leb_spec (String.length (str_drop n p)) bufSize); cbn [w_flushed w_buffered];
    rewrite ?str_app_nil_r, Hc; (split; [done|]); [done|cbn; lia].
Qed.

Lemma concat_cons c rest : String.concat "" (c :: rest) = c +:+ String.concat "" rest.
Proof. destruct rest; cbn; [by rewrite str_app_nil_r | done]. Qed.

Lemma Flush_spec w : contents (Flush w) = contents w /\ bounded (Flush w).
Proof. unfold contents, bounded, Flush. cbn [w_flushed w_buffered]. rewrite str_app_nil_r. split; [done|cbn; lia]. Qed.

Lemma ReadFrom_spec chunks w :
  bounded w -> contents (ReadFrom chunks w) = contents w +:+ String.concat "" chunks /\ bounded (ReadFrom chunks w).
Proof.
  revert w. induction chunks as [|c rest IH]; intros w Hw; cbn [ReadFrom];
    set (w1 := if (Available w =? 0)%nat then Flush w else w);
    assert (contents w1 = contents w /\ bounded w1) as [<- Hw1]
      by (unfold w1; destruct (_ =? 0)%nat; [apply Flush_spec | done]);
    clearbody w1; destruct (str_eqb (w_buffered w1) "") eqn:E.
  1, 3: apply str_eqb_spec in E; unfold contents, bounded; cbn [w_flushed w_buffered]; rewrite E, !str_app_nil_r;
    split; [done|cbn; lia].
  - cbn [String.concat]. by rewrite str_app_nil_r.
  - rewrite concat_cons. destruct (Nat.leb_spec (String.length c) (Available w1)) as [Hc|_].
    + destruct (IH (mkWriter (w_flushed w1) (w_buffered w1 +:+ c))) as [-> Hb].
      { unfold bounded, Available in *. cbn [w_buffered]. rewrite str_length_app. lia. }
      split; [|exact Hb]. unfold contents. cbn [w_flushed w_buffered]. by rewrite !str_app_assoc.
    + unfold contents, bounded. cbn [w_flushed w_buffered]. rewrite str_app_nil_r, !str_app_assoc. split; [done|cbn; lia].
Qed.

Lemma writer_ops_spec ops w :
  bounded w ->
  contents (fold_left writer_op ops w) = contents w +:+ String.concat "" (map delivered ops) /\
  bounded (fold_left writer_op ops w).
Proof.
  revert w. induction ops as [|op ops IH]; intros w Hw; [cbn; by rewrite str_app_nil_r|].
  cbn [fold_left map]. rewrite concat_cons.
  assert (contents (writer_op w op) = contents w +:+ delivered op /\ bounded (writer_op w op)) as [Hc Hb]
    by (destruct op; [by apply Write_spec | by apply ReadFrom_spec]).
  destruct (IH _ Hb) as [-> Hb']. split; [|done]. by rewrite Hc, str_app_assoc.
Qed.

Lemma Write_small p w :
  (String.length (w_buffered w +:+ p) <= bufSize)%nat -> Write p w = mkWriter (w_flushed w) (w_buffered w +:+ p).
Proof.
  intros Hp. rewrite str_length_app in Hp. unfold Write, Available.
  by destruct (Nat.leb_spec (String.length p) (bufSize - String.length (w_buffered w))); [|lia].
Qed.

Definition is_OpWrite (op : WriterOp) : bool := match op with OpWrite _ => true | OpReadFrom _ => false end.

Lemma small_writes ops w :
  forallb is_OpWrite ops = true ->
  (String.length (w_buffered w +:+ String.concat "" (map delivered ops)) <= bufSize)%nat ->
  w_flushed (fold_left writer_op ops w) = w_flushed w.
Proof.
  revert w. induction ops as [|[p|] ops IH]; intros w; [done| |done]. cbn [forallb is_OpWrite andb fold_left map].
  rewrite concat_cons. cbn [delivered writer_op]. rewrite <- str_app_assoc. intros Hw Hl.
  rewrite (str_length_app (w_buffered w +:+ p)) in Hl. rewrite Write_small by lia. rewrite IH; [done|done|].
  cbn [w_buffered]. rewrite (str_length_app (w_buffered w +:+ p)). lia.
Qed.

(** What a stream delivered as [ops] leaves in the output [s]. *)
Definition captured (ops : list WriterOp) (s : string) : Prop :=
  (exists kept, String.concat "" (map delivered ops) = s +:+ kept /\ (String.length kept <= bufSize)%nat) /\
  (forall chunks, ops = [OpReadFrom chunks] -> s = String.concat "" chunks) /\
  (forallb is_OpWrite ops = true ->
   (String.length (String.concat "" (map delivered ops)) <= bufSize)%nat -> s = "").

Lemma captured_writer ops : captured ops (w_flushed (fold_left writer_op ops new_writer)).
Proof.
  assert (bounded new_writer) as H0 by apply Nat.le_0_l. split; [|split].
  - destruct (writer_ops_spec ops new_writer H0) as [Hc Hb]. exists (w_buffered (fold_left writer_op ops new_writer)).
    split; [|exact Hb]. unfold contents in Hc. by rewrite Hc.
  - intros chunks ->. cbn [fold_left writer_op]. by destruct chunks.
  - intros Hw Hl. by rewrite small_writes.
Qed.

(** The output of a command: [Exec] never flushes the two buffered writers
    it hands to the library, so a stream is returned in full when the library
    copies it with [io.Copy], which lets the writer read it; any other way of
    writing may lose up to 4096 bytes at the end, and all of an output that is
    no longer than that.  An executor that cannot be made is an error without
    output. *)
Theorem Exec_outputs `{Remotecommand} (namespace podName containerName : string) (command : list string) :
  let request := mkExecRequest namespace podName containerName command true true false in
  match NewSPDYExecutor "POST" request with
  | Some e => rabbitmqPodExecutor.Exec namespace podName containerName command = ("", "", Some e)
  | None =>
      exists stdout stderr,
        let '(out, errs, err) := StreamWithContext request in
        rabbitmqPodExecutor.Exec namespace podName containerName command = (stdout, stderr, err) /\
        captured out stdout /\ captured errs stderr
  end.
Proof.
  cbv zeta. unfold rabbitmqPodExecutor.Exec. destruct (NewSPDYExecutor _ _); [done|].
  destruct (StreamWithContext _) as [[out errs] err]. eexists _, _. split; [reflexivity|]. split; apply captured_writer.
Qed.
