(* ===== verification/Kube.v ===== *)
(** * Effects of the programs

    The controllers talk to the Kubernetes API server, to pods and to the
    RabbitMQ management API; the command line tools to files and processes.  A controller is a [prog]: a tree of calls, each
    with a continuation on its answer.  Nothing is assumed of the answers:
    [wp p Q h] says that [Q] holds at the end of every execution of [p] that
    starts after the history [h], whatever each call answers.  [run] executes
    a program against a concrete handler. *)

From S2P Require Import Prelude.
From S2P Require Import K8s.
From S2P Require Import Metadata.
From S2P Require Import Status.
From S2P Require Import Api.
From S2P Require Import Services.
From S2P Require Import ServerConf.
From S2P Require Import ResourceBuilder.

(** ** Errors of the API server *)

(** told apart by [k8serrors.IsNotFound] and [k8serrors.IsConflict] *)
Inductive ApiError :=
| NotFound (msg : string)
| Conflict (msg : string)
| ApiFailure (msg : string).

Definition IsNotFound (e : ApiError) : bool := match e with NotFound _ => true | _ => false end.
Definition IsConflict (e : ApiError) : bool := match e with Conflict _ => true | _ => false end.
Definition error_text (e : ApiError) : string :=
  match e with NotFound m | Conflict m | ApiFailure m => m end.

(** [client.IgnoreNotFound(err)] *)
Definition IgnoreNotFound {A} (r : result ApiError A) : option ApiError :=
  match r with
  | Ok _ => None
  | Err e => if IsNotFound e then None else Some e
  end.

(** ** Calls *)

Inductive DeletionPropagation := Orphan | Background | Foreground.

Inductive OperationResult := OperationResultNone | OperationResultCreated | OperationResultUpdated.

#[export] Instance OperationResult_eq_dec : EqDecision OperationResult.
Proof. solve_decision. Defined.

(** The error of [CreateOrUpdate]: the API server's, or the builder's own. *)
Inductive CreateOrUpdateError :=
| MutateError (e : BuildError)
| ServerError (e : ApiError).

(** A client of the management API, as rabbit-hole's constructors and
    [SetTimeout] make it: where it sends its requests, with which credentials
    and how long it waits, in milliseconds.  A transport is a [tls.Config]: the
    server name to verify, and the CA added to the system's pool, if any. *)
Record Transport := mkTransport { tr_ServerName : string; tr_RootCA : option string }.

Record RabbitmqClient := mkClient {
  cl_BaseURL : string;
  cl_Username : string;
  cl_Password : string;
  cl_Transport : option Transport;
  cl_Timeout : Z;
}.

(** The calls of the command line programs: environment variables, files,
    the two output streams and child processes.  [RunKubectl] runs kubectl on
    the terminal, [OutputKubectl] collects its output; an error is its text. *)
Inductive tool_call : Type :=
| Getenv (name : string)
| ReadFile (path : string)
| CreateTemp (pattern : string)
| WriteFile (path contents : string)
| CloseFile (path : string)
| RemoveFile (path : string)
| Stdout (text : string)
| Stderr (text : string)
| RunKubectl (args : list string)
| OutputKubectl (args : list string).

Definition tool_answer (c : tool_call) : Type :=
  match c with
  | Getenv _ => string
  | ReadFile _ | CreateTemp _ | OutputKubectl _ => result string string
  | WriteFile _ _ | CloseFile _ | RemoveFile _ | RunKubectl _ => result string unit
  | Stdout _ | Stderr _ => unit
  end.

(** Pods are their metadata, as the finalizer handles them.  [GetObject obj]
    reads the object with the kind, namespace and name of [obj]. *)
Inductive call : Type :=
| GetCluster (namespace name : string)
| UpdateCluster (rmq : RabbitmqCluster)
| PatchStatus (rmq : RabbitmqCluster)
| GetSts (namespace name : string)
| UpdateSts (s : StatefulSet)
| DeleteSts (namespace name : string) (policy : DeletionPropagation)
| GetPVC (namespace name : string)
| UpdatePVC (namespace : string) (p : PersistentVolumeClaim)
| GetSecret (namespace name : string)
| UpdateSecret (s : Secret)
| GetConfigMap (namespace name : string)
| GetService (namespace name : string)
| UpdateConfigMap (c : ConfigMap)
| ListEndpointSlices (namespace serviceName : string)
| ListPods (namespace label : string)
| UpdatePod (pod : ObjectMeta)
| DeleteRbac (kind namespace name : string)
| RemoveFinalizer (namespace name finalizer : string)
| GetObject (obj : Object)
| CreateObject (obj : Object)
| UpdateObject (obj : Object)
| Exec (namespace pod container : string) (command : list string)
| HealthCheckNodeIsQuorumCritical (c : RabbitmqClient)
| Overview (c : RabbitmqClient)
| ListDeprecatedFeaturesUsed (c : RabbitmqClient)
| Event (eventType reason msg : string)
| Now
| Sleep (milliseconds : Z)
| Tool (c : tool_call).

(** The type of the answer to each call. *)
Definition answer (c : call) : Type :=
  match c with
  | GetCluster _ _ | UpdateCluster _ | PatchStatus _ => result ApiError RabbitmqCluster
  | GetSts _ _ | UpdateSts _ => result ApiError StatefulSet
  | GetPVC _ _ | UpdatePVC _ _ => result ApiError PersistentVolumeClaim
  | GetSecret _ _ | UpdateSecret _ => result ApiError Secret
  | GetConfigMap _ _ | UpdateConfigMap _ => result ApiError ConfigMap
  | GetService _ _ => result ApiError Service
  | DeleteSts _ _ _ | DeleteRbac _ _ _ | RemoveFinalizer _ _ _ | UpdatePod _ => result ApiError unit
  | ListEndpointSlices _ _ => result ApiError (list (list Endpoint))
  | ListPods _ _ => result ApiError (list ObjectMeta)
  | GetObject _ | CreateObject _ | UpdateObject _ => result ApiError Object
  | Exec _ _ _ _ => result string string
  | HealthCheckNodeIsQuorumCritical _ => result string bool
  | Overview _ => result string (string * string)
  | ListDeprecatedFeaturesUsed _ => result string (list string)
  | Event _ _ _ => unit
  | Now => Z
  | Sleep _ => unit
  | Tool c => tool_answer c
  end.

(** ** Programs *)

Inductive prog (R : Type) : Type :=
| Ret (r : R)
| Vis (c : call) (k : answer c -> prog R).
Arguments Ret {R} r.
Arguments Vis {R} c k.

Fixpoint bind {A B} (p : prog A) (f : A -> prog B) : prog B :=
  match p with
  | Ret a => f a
  | Vis c k => Vis c (fun x => bind (k x) f)
  end.

Definition perform (c : call) : prog (answer c) := Vis c Ret.

Declare Scope prog_scope.
Delimit Scope prog_scope with prog.
Notation "'do' x <- p 'in' k" := (bind p (fun x => k))
  (at level 10, x pattern, p at level 100, k at level 200) : prog_scope.
#[global] Open Scope prog_scope.

(** A call and its answer; a history is a list of them, oldest first. *)
Abbreviation event := (sigT answer).
Definition Ev (c : call) (a : answer c) : event := existT c a.
Abbreviation history := (list event).

(** ** All executions *)

Fixpoint wp {R} (p : prog R) (Q : history -> R -> Prop) (h : history) : Prop :=
  match p with
  | Ret r => Q h r
  | Vis c k => forall a : answer c, wp (k a) Q (h ++ [Ev c a])
  end.

(** ** One execution *)

Section Run.
Context {S : Type} (handler : S -> forall c : call, S * answer c).

Fixpoint run {R} (p : prog R) (s : S) : S * history * R :=
  match p with
  | Ret r => (s, [], r)
  | Vis c k =>
      let '(s1, a) := handler s c in
      let '(s2, h, r) := run (k a) s1 in
      (s2, Ev c a :: h, r)
  end.
End Run.

(** ** Rules *)

Lemma wp_mono {R} (p : prog R) (Q Q' : history -> R -> Prop) h :
  (forall h' r, Q h' r -> Q' h' r) -> wp p Q h -> wp p Q' h.
Proof.
  intros HQ. revert h. induction p as [r|c k IH]; intros h; cbn; [apply HQ|].
  intros Hw a. by apply IH.
Qed.

Lemma wp_bind {A B} (p : prog A) (f : A -> prog B) Q h :
  wp (bind p f) Q h <-> wp p (fun h' a => wp (f a) Q h') h.
Proof.
  revert h. induction p as [r|c k IH]; intros h; cbn; [done|].
  split; intros Hw a; by apply IH.
Qed.

(** A history only grows: the postcondition can be stated on what was added. *)
Lemma wp_frame {R} (p : prog R) (Q : history -> R -> Prop) h :
  wp p (fun h' r => Q h' r) [] -> wp p (fun h' r => exists h1, h' = h ++ h1 /\ Q h1 r) h.
Proof.
  assert (forall h0, wp p (fun h' r => Q h' r) h0 ->
    wp p (fun h' r => exists h1, h' = h ++ h1 /\ Q h1 r) (h ++ h0)) as Hgen.
  { induction p as [r|c k IH]; intros h0; cbn; [eauto|].
    intros Hw a. rewrite <- (assoc_L (++)). by apply IH. }
  intros Hw. specialize (Hgen [] Hw). by rewrite app_nil_r in Hgen.
Qed.

Lemma wp_conj {R} (p : prog R) Q1 Q2 h :
  wp p Q1 h -> wp p Q2 h -> wp p (fun h' r => Q1 h' r /\ Q2 h' r) h.
Proof.
  revert h. induction p as [r|c k IH]; intros h; cbn; [done|]. intros H1 H2 a. by apply IH.
Qed.

Lemma wp_true {R} (p : prog R) h : wp p (fun _ _ => True) h.
Proof. revert h. induction p as [r|c k IH]; intros h; cbn; [done|]. intros a. apply IH. Qed.

(** ** Executions that satisfy an assumption

    [A] is a property of histories that holds of every prefix of a history it
    holds of: that the answers are those of some server. *)
Section Assuming.
Context (A : history -> Prop).

(** [Q], when the history satisfies the assumption. *)
Definition assuming {R} (Q : history -> R -> Prop) (h : history) (r : R) : Prop := A h -> Q h r.

Lemma wp_assuming_mono {R} (p : prog R) (Q Q' : history -> R -> Prop) h :
  (forall h' r, A h' -> Q h' r -> Q' h' r) -> wp p (assuming Q) h -> wp p (assuming Q') h.
Proof. intros HQ. apply wp_mono. intros h' r H Hh'. by apply HQ, H. Qed.

Hypothesis prefix_closed : forall h e, A (h ++ [e]) -> A h.

Lemma wp_assuming {R} (p : prog R) (Q : history -> R -> Prop) h :
  (A h -> wp p (assuming Q) h) -> wp p (assuming Q) h.
Proof.
  revert h. induction p as [r|c k IH]; intros h; cbn [wp]; [unfold assuming; auto|].
  intros Hw a. apply IH. intros Hh. by eapply Hw, prefix_closed.
Qed.

Lemma wp_assuming_bind {X Y} (p : prog X) (f : X -> prog Y) (R : history -> X -> Prop) (Q : history -> Y -> Prop) h :
  wp p (assuming R) h -> (forall h' a, R h' a -> wp (f a) (assuming Q) h') -> wp (bind p f) (assuming Q) h.
Proof.
  intros Hp Hf. apply wp_bind. eapply wp_mono; [|exact Hp]. intros h' a Ha. apply wp_assuming. intros Hh'.
  by apply Hf, Ha.
Qed.

Lemma wp_assuming_call {R} c (k : answer c -> prog R) (Q : history -> R -> Prop) h :
  (forall a, A (h ++ [Ev c a]) -> wp (k a) (assuming Q) (h ++ [Ev c a])) -> wp (bind (perform c) k) (assuming Q) h.
Proof. intros Hk. cbn [bind perform wp]. intros a. apply wp_assuming, Hk. Qed.

(** Nothing is asked of the first step. *)
Lemma wp_assuming_skip {X Y} (p : prog X) (f : X -> prog Y) (Q : history -> Y -> Prop) h :
  (forall h' a, wp (f a) (assuming Q) h') -> wp (bind p f) (assuming Q) h.
Proof.
  intros Hf. apply (wp_assuming_bind _ _ (fun _ _ => True)); [|auto]. eapply wp_mono; [|apply wp_true]. by intros.
Qed.
End Assuming.

(** Adequacy: what holds of all executions holds of the one a handler runs. *)
Theorem wp_run {S R} (handler : S -> forall c, S * answer c) (p : prog R) (Q : history -> R -> Prop) (s : S) :
  wp p Q [] -> let '(_, h, r) := run handler p s in Q h r.
Proof.
  assert (forall h0 s, wp p Q h0 -> let '(_, h, r) := run handler p s in Q (h0 ++ h) r) as Hgen.
  { clear s. induction p as [r|c k IH]; intros h0 s; cbn; [by rewrite app_nil_r|].
    intros Hw. destruct (handler s c) as [s1 a] eqn:E. specialize (IH a (h0 ++ [Ev c a]) s1 (Hw a)).
    destruct (run handler (k a) s1) as [[s2 h] r]. by rewrite <- (assoc_L (++)) in IH. }
  intros Hw. by apply (Hgen [] s).
Qed.

(** ** client-go's retry loops

    [retry.OnError(backoff, retriable, fn)] is library code.  What the
    controllers rely on is that its result is the result of an attempt, and
    that another attempt is made only after a retriable error. *)
Class RetryLib : Type := {
  (** [fn] is a Go closure: [St] is what it captures and changes. *)
  OnErrorS {St A} : (ApiError -> bool) -> (St -> prog (St * result ApiError A)) -> St ->
    prog (St * result ApiError A)
}.

Class RetryLaws `{RetryLib} : Prop := {
  OnErrorS_wp {St A} retriable (fn : St -> prog (St * result ApiError A)) (I : St -> history -> Prop)
      (Q : history -> St * result ApiError A -> Prop) s h :
    I s h ->
    (forall s0 h0, I s0 h0 -> wp (fn s0) (fun h1 r => Q h1 r /\
       match snd r with Err e => retriable e = true -> I (fst r) h1 | Ok _ => True end) h0) ->
    wp (OnErrorS retriable fn s) Q h
}.

(** A closure that captures nothing. *)
Definition OnError `{RetryLib} {A} (retriable : ApiError -> bool) (fn : prog (result ApiError A))
  : prog (result ApiError A) :=
  do r <- OnErrorS retriable (fun _ : unit => do x <- fn in Ret (tt, x)) tt in Ret (snd r).

Lemma OnError_wp `{RetryLaws} {A} retriable (fn : prog (result ApiError A)) (I : history -> Prop)
    (Q : history -> result ApiError A -> Prop) h :
  I h ->
  (forall h0, I h0 -> wp fn (fun h1 r => Q h1 r /\
     match r with Err e => retriable e = true -> I h1 | Ok _ => True end) h0) ->
  wp (OnError retriable fn) Q h.
Proof.
  intros Hi Hfn. unfold OnError. rewrite wp_bind.
  apply (OnErrorS_wp _ _ (fun _ => I) (fun h' r => wp (Ret (snd r)) Q h')); [done|].
  intros s0 h0 Hi0. rewrite wp_bind. eapply wp_mono; [|by apply Hfn]. by intros h1 r [? ?].
Qed.

(** [retry.RetryOnConflict] *)
Definition RetryOnConflict `{RetryLib} {A} (fn : prog (result ApiError A)) : prog (result ApiError A) :=
  OnError IsConflict fn.

(** An instance for concrete examples: at most [n] more attempts. *)
Fixpoint retry_n {St A} (retriable : ApiError -> bool) (n : nat)
    (fn : St -> prog (St * result ApiError A)) (s : St) : prog (St * result ApiError A) :=
  match n with
  | O => fn s
  | S n' => do r <- fn s in
      match snd r with
      | Ok _ => Ret r
      | Err e => if retriable e then retry_n retriable n' fn (fst r) else Ret r
      end
  end.

Definition retry5 : RetryLib := {| OnErrorS St A retriable fn s := retry_n retriable 4 fn s |}.

Lemma retry5_laws : @RetryLaws retry5.
Proof.
  constructor. intros St A retriable fn I Q s h Hi Hfn. cbn [OnErrorS retry5]. revert s h Hi.
  generalize 4%nat. intros n. induction n as [|n IH]; intros s h Hi; cbn [retry_n].
  - eapply wp_mono; [|by apply Hfn]. by intros h' r [? _].
  - apply wp_bind. eapply wp_mono; [|by apply Hfn]. intros h' [s' [a|e]] [HQ He]; [done|].
    cbn [snd fst] in *. destruct (retriable e); [apply IH; auto | done].
Qed.

(** ** controller-runtime's create or update

    [controllerutil.CreateOrUpdate(ctx, client, obj, mutate)] is library code.
    It is documented to read the object, to call [mutate] and create it when
    it does not exist, and otherwise to call [mutate] and update it when that
    changed it.  The object is captured by the closure [mutate]: in the state
    [St] of the closure, [the] is the object and [put] overwrites it. *)
Class CreateOrUpdateLib : Type := {
  Semantic_DeepEqual : Object -> Object -> bool;
  CreateOrUpdateS {St} (the : St -> Object) (put : Object -> St -> St)
    (mutate : St -> St * option BuildError) : St -> prog (St * result CreateOrUpdateError OperationResult)
}.

(** The state and the result after a write was answered. *)
Definition write_answer {St} (put : Object -> St -> St) (op : OperationResult) (s : St)
    (a : result ApiError Object) : St * result CreateOrUpdateError OperationResult :=
  match a with
  | Ok o => (put o s, Ok op)
  | Err e => (s, Err (ServerError e))
  end.

Class CreateOrUpdateLaws `{CreateOrUpdateLib} : Prop := {
  CreateOrUpdate_wp {St} (the : St -> Object) put mutate
      (Q : history -> St * result CreateOrUpdateError OperationResult -> Prop) (s : St) h :
    (forall a, let h1 := h ++ [Ev (GetObject (the s)) a] in
       match a with
       | Err e =>
           if IsNotFound e then
             match mutate s with
             | (s1, Some e1) => Q h1 (s1, Err (MutateError e1))
             | (s1, None) => forall a1, Q (h1 ++ [Ev (CreateObject (the s1)) a1])
                                          (write_answer put OperationResultCreated s1 a1)
             end
           else Q h1 (s, Err (ServerError e))
       | Ok o =>
           match mutate (put o s) with
           | (s1, Some e1) => Q h1 (s1, Err (MutateError e1))
           | (s1, None) =>
               (Semantic_DeepEqual o (the s1) = true -> Q h1 (s1, Ok OperationResultNone)) /\
               (Semantic_DeepEqual o (the s1) = false ->
                forall a1, Q (h1 ++ [Ev (UpdateObject (the s1)) a1])
                             (write_answer put OperationResultUpdated s1 a1))
           end
       end) ->
    wp (CreateOrUpdateS the put mutate s) Q h
}.

(** An instance for concrete examples, over a test of equality. *)
Definition create_or_update {St} (same : Object -> Object -> bool) (the : St -> Object)
    (put : Object -> St -> St) (mutate : St -> St * option BuildError) (s : St)
  : prog (St * result CreateOrUpdateError OperationResult) :=
  do a <- perform (GetObject (the s)) in
  match a with
  | Err e =>
      if IsNotFound e then
        match mutate s with
        | (s1, Some e1) => Ret (s1, Err (MutateError e1))
        | (s1, None) =>
            do a1 <- perform (CreateObject (the s1)) in
            Ret (write_answer put OperationResultCreated s1 a1)
        end
      else Ret (s, Err (ServerError e))
  | Ok o =>
      match mutate (put o s) with
      | (s1, Some e1) => Ret (s1, Err (MutateError e1))
      | (s1, None) =>
          if same o (the s1) then Ret (s1, Ok OperationResultNone)
          else
            do a1 <- perform (UpdateObject (the s1)) in
            Ret (write_answer put OperationResultUpdated s1 a1)
      end
  end.

Definition create_or_update_lib (same : Object -> Object -> bool) : CreateOrUpdateLib :=
  {| Semantic_DeepEqual := same; CreateOrUpdateS St := create_or_update same |}.

Lemma create_or_update_laws same : @CreateOrUpdateLaws (create_or_update_lib same).
Proof.
  constructor. intros St the put mutate Q s h HQ. cbn [CreateOrUpdateS create_or_update_lib].
  unfold create_or_update. cbn [bind perform wp]. intros a. specialize (HQ a). cbv zeta in HQ.
  destruct a as [o|e].
  - destruct (mutate (put o s)) as [s1 [e1|]]; [done|]. destruct HQ as [Hsame Hwrite].
    cbn in Hsame, Hwrite. destruct (same o (the s1)); [by apply Hsame|]. cbn [bind perform wp]. by apply Hwrite.
  - destruct (IsNotFound e); [|done]. destruct (mutate s) as [s1 [e1|]]; [done|]. exact HQ.
Qed.

(** ** Reading histories *)

(** The calls that change something in the cluster. *)
Definition is_write (c : call) : bool :=
  match c with
  | UpdateCluster _ | PatchStatus _ | UpdateSts _ | DeleteSts _ _ _ | UpdatePVC _ _ | UpdateSecret _
  | UpdateConfigMap _ | UpdatePod _ | DeleteRbac _ _ _ | RemoveFinalizer _ _ _ | CreateObject _ | UpdateObject _ => true
  | _ => false
  end.

Definition writes (h : history) : list call := List.filter is_write (map (@projT1 call answer) h).

Lemma writes_app h h' : writes (h ++ h') = writes h ++ writes h'.
Proof. unfold writes. by rewrite map_app, List.filter_app. Qed.

(** Every event is allowed by what happened before it. *)
Definition history_ok (P : history -> event -> Prop) (h : history) : Prop :=
  forall h1 e h2, h = h1 ++ e :: h2 -> P h1 e.

Lemma history_ok_nil P : history_ok P [].
Proof. intros h1 e h2 E. by destruct h1. Qed.

Lemma history_ok_snoc P h e : history_ok P h -> P h e -> history_ok P (h ++ [e]).
Proof.
  intros Hh He h1 e1 h2 E. destruct h2 as [|e2 h2 _] using rev_ind.
  - apply app_inj_tail in E as [-> <-]. done.
  - rewrite app_comm_cons, (assoc_L (++)) in E. apply app_inj_tail in E as [-> _]. by eapply Hh.
Qed.

(** A later history keeps what was seen. *)
Lemma history_ok_app_read P h t :
  (forall h1 e, is_write (projT1 e) = false -> P h1 e) ->
  history_ok P h -> writes t = [] -> history_ok P (h ++ t).
Proof.
  intros HP. revert h. induction t as [|e t IH]; intros h Hh Ht; [by rewrite app_nil_r|].
  change (e :: t) with ([e] ++ t). rewrite (assoc_L (++)). unfold writes in Ht. cbn in Ht.
  destruct (is_write (projT1 e)) eqn:E; [done|].
  apply IH; [|done]. apply history_ok_snoc; auto.
Qed.

#[export] Hint Resolve history_ok_nil history_ok_snoc : rmq.

(** ** The kinds of calls of a program *)

(** Every execution of [p] makes only calls in [P]. *)
Definition calls_only (P : call -> Prop) {R} (p : prog R) : Prop :=
  forall h, wp p (fun h' _ => exists t, h' = h ++ t /\ Forall (fun e => P (projT1 e)) t) h.

Section CallsOnly.
Context (P : call -> Prop).

Lemma calls_only_Ret {R} (r : R) : calls_only P (Ret r).
Proof. intros h. exists []. by rewrite app_nil_r. Qed.

Lemma calls_only_Vis {R} c (k : answer c -> prog R) :
  P c -> (forall a, calls_only P (k a)) -> calls_only P (Vis c k).
Proof.
  intros Hc Hk h a. eapply wp_mono; [|apply Hk]. intros h' r (t & -> & Ht).
  rewrite <- (assoc_L (++)). eexists. split; [done|]. by constructor.
Qed.

Lemma calls_only_bind {A B} (p : prog A) (f : A -> prog B) :
  calls_only P p -> (forall a, calls_only P (f a)) -> calls_only P (bind p f).
Proof.
  intros Hp Hf h. apply wp_bind. eapply wp_mono; [|apply Hp]. intros h1 a (t1 & -> & H1).
  eapply wp_mono; [|apply Hf]. intros h2 b (t2 & -> & H2). rewrite <- (assoc_L (++)).
  eexists. split; [done|]. by apply Forall_app.
Qed.

Lemma calls_only_OnErrorS `{RetryLaws} {St A} retriable (fn : St -> prog (St * result ApiError A)) s :
  (forall s, calls_only P (fn s)) -> calls_only P (OnErrorS retriable fn s).
Proof.
  intros Hfn h. apply (OnErrorS_wp _ _ (fun _ h' => exists t, h' = h ++ t /\ Forall (fun e => P (projT1 e)) t)).
  - exists []. by rewrite app_nil_r.
  - intros s0 h0 (t & -> & Ht). eapply wp_mono; [|apply Hfn]. intros h1 r (t1 & -> & H1).
    assert (exists t', (h ++ t) ++ t1 = h ++ t' /\ Forall (fun e => P (projT1 e)) t') as Hg.
    { rewrite <- (assoc_L (++)). eexists. split; [done|]. by apply Forall_app. }
    split; [done|]. by destruct (snd r).
Qed.

Lemma calls_only_OnError `{RetryLaws} {A} retriable (fn : prog (result ApiError A)) :
  calls_only P fn -> calls_only P (OnError retriable fn).
Proof.
  intros Hfn. apply calls_only_bind; [|intros; apply calls_only_Ret].
  apply calls_only_OnErrorS. intros _. apply calls_only_bind; [done|]. intros; apply calls_only_Ret.
Qed.

(** What a program with such calls adds to a postcondition. *)
Lemma calls_only_wp {R} (p : prog R) (Q : history -> R -> Prop) h :
  calls_only P p ->
  wp p (fun h' r => (exists t, h' = h ++ t /\ Forall (fun e => P (projT1 e)) t) -> Q h' r) h ->
  wp p Q h.
Proof.
  intros Hp Hw. eapply wp_mono; [|apply (wp_conj _ _ _ _ (Hp h) Hw)]. intros h' r [Hg HQ]. by apply HQ.
Qed.
End CallsOnly.

(** ** Programs by structure

    The same without a history, as a predicate on the tree of calls. *)

(** A program all of whose calls are in [P] and all of whose results are in
    [Q], whatever the answers. *)
Fixpoint always (P : call -> Prop) {R} (Q : R -> Prop) (p : prog R) : Prop :=
  match p with
  | Ret r => Q r
  | Vis c f => P c /\ forall a, always P Q (f a)
  end.

Lemma always_bind P {A B} (Q : A -> Prop) (Q' : B -> Prop) (p : prog A) (f : A -> prog B) :
  always P Q p -> (forall a, Q a -> always P Q' (f a)) -> always P Q' (bind p f).
Proof.
  intros Hp Hf. induction p as [r|c g IH]; cbn in *; [by apply Hf|].
  destruct Hp as [Hc Hp]. split; [done|]. intros a. by apply IH.
Qed.

Lemma always_mono P {A} (Q Q' : A -> Prop) (p : prog A) :
  (forall a, Q a -> Q' a) -> always P Q p -> always P Q' p.
Proof. intros HQ. induction p as [r|c g IH]; cbn; [apply HQ|]. intros [Hc Hp]. split; [done|]. intros a. by apply IH. Qed.

Lemma always_wp P {A} (Q : A -> Prop) (p : prog A) h :
  always P Q p -> wp p (fun h' r => Q r /\ exists t, h' = h ++ t /\ Forall (fun e => P (projT1 e)) t) h.
Proof.
  revert h. induction p as [r|c g IH]; intros h; cbn.
  - intros Hr. split; [done|]. exists []. by rewrite app_nil_r.
  - intros [Hc Hp] a. eapply wp_mono; [|by apply IH]. intros h' r (Hr & t & -> & Ht). split; [done|].
    rewrite <- (assoc_L (++)). eexists. split; [done|]. by constructor.
Qed.

(** A handler that keeps an invariant on the calls of a program keeps it to
    the end of the run. *)
Lemma run_invariant {S R} (handler : S -> forall c, S * answer c) (I : S -> Prop) (P : call -> Prop)
    (Q : R -> Prop) (p : prog R) (s : S) :
  (forall s c, I s -> P c -> I (fst (handler s c))) -> always P Q p -> I s ->
  I (fst (fst (run handler p s))) /\ Q (snd (run handler p s)).
Proof.
  intros Hh. revert s. induction p as [r|c k IH]; intros s; cbn [always run]; [done|].
  intros [Hc Hk] Hs. specialize (Hh s c Hs Hc). destruct (handler s c) as [s1 a].
  specialize (IH a s1 (Hk a) Hh). by destruct (run handler (k a) s1) as [[s2 h] r].
Qed.

Lemma run_bind {S A B} (handler : S -> forall c, S * answer c) (p : prog A) (f : A -> prog B) (s : S) :
  run handler (bind p f) s =
    let '(s1, h1, a) := run handler p s in
    let '(s2, h2, b) := run handler (f a) s1 in (s2, h1 ++ h2, b).
Proof.
  revert s. induction p as [r|c k IH]; intros s; cbn [bind run].
  - by destruct (run handler (f r) s) as [[? ?] ?].
  - destruct (handler s c) as [s1 a]. rewrite IH. destruct (run handler (k a) s1) as [[s2 h] r].
    by destruct (run handler (f r) s2) as [[? ?] ?].
Qed.

Create HintDb calls.

(** Follow a program's structure; the database holds the programs known. *)
Ltac calls_step :=
  match goal with
  | |- calls_only _ (Ret _) => apply calls_only_Ret
  | |- calls_only _ (Vis _ _) => apply calls_only_Vis; [try exact I | intros]
  | |- calls_only _ (perform _) => apply calls_only_Vis; [try exact I | intros; apply calls_only_Ret]
  | |- calls_only _ (OnErrorS _ _ _) => apply calls_only_OnErrorS; [assumption | intros]
  | |- calls_only _ (OnError _ _) => apply calls_only_OnError; [assumption |]
  | |- calls_only _ (RetryOnConflict _) => apply calls_only_OnError; [assumption |]
  | |- calls_only _ _ => solve [auto with calls nocore]
  | |- calls_only _ (bind _ _) => apply calls_only_bind; [|intros]
  | |- calls_only _ (match ?x with _ => _ end) => destruct x
  | |- calls_only _ (let _ := _ in _) => cbv zeta
  end.
Ltac calls := repeat calls_step.
