(* ===== verification/Scaling.v ===== *)
(** * Expanding the persistent volume claims

    internal/scaling/scaling.go. *)

From S2P Require Import Prelude.
From S2P Require Import K8s.
From S2P Require Import Metadata.
From S2P Require Import Status.
From S2P Require Import Api.
From S2P Require Import Services.
From S2P Require Import PodTemplate.
From S2P Require Import StatefulSet.
From S2P Require Import ResourceBuilder.
From S2P Require Import Kube.

Definition getSts (rmq : RabbitmqCluster) : prog (result ApiError StatefulSet) :=
  perform (GetSts (rmq_Namespace rmq) (ChildResourceName rmq "server")).

Definition storage_of (p : PersistentVolumeClaim) : Quantity :=
  rl_get (pvcs_Requests (pvc_Spec p)) "storage".

(** The capacity asked for by the claim template named persistence. *)
Definition persistence_capacity (templates : list PersistentVolumeClaim) : Quantity :=
  match find_first (fun t => str_eqb (om_Name (pvc_Meta t)) "persistence") templates with
  | Some t => storage_of t
  | None => 0%Z
  end.

Definition existingCapacity (rmq : RabbitmqCluster) : prog (result ApiError Quantity) :=
  do r <- getSts rmq in
  match r with
  | Err e => Ret (Err e)
  | Ok sts => Ret (Ok (persistence_capacity (sp_VolumeClaimTemplates (sts_Spec sts))))
  end.

(** The loop of [getClusterPVCs] over the replica numbers. *)
Fixpoint get_pvcs (rmq : RabbitmqCluster) (replicas : list Z)
  : prog (result string (list PersistentVolumeClaim)) :=
  match replicas with
  | [] => Ret (Ok [])
  | i :: rest =>
      do r <- perform (GetPVC (rmq_Namespace rmq) (PVCName rmq i)) in
      match IgnoreNotFound r with
      | Some e => Ret (Err ("failed to get PVC from Kubernetes API: " +:+ error_text e))
      | None =>
          do pvcs <- get_pvcs rmq rest in
          match r with
          | Ok pvc => Ret (try ps := pvcs in Ok (pvc :: ps))
          | Err _ => Ret pvcs
          end
      end
  end.

Definition getClusterPVCs (rmq : RabbitmqCluster) : prog (result string (list PersistentVolumeClaim)) :=
  get_pvcs rmq (int_range (Deref (spec_Replicas (rmq_Spec rmq)) 1%Z)).

Definition needs_scaling (desiredCapacity : Quantity) (pvc : PersistentVolumeClaim) : bool :=
  (q_Cmp (storage_of pvc) desiredCapacity =? -1)%Z.

Definition pvcsNeedingScaling (existingPVCs : list PersistentVolumeClaim) (desiredCapacity : Quantity)
  : list PersistentVolumeClaim :=
  List.filter (needs_scaling desiredCapacity) existingPVCs.

(** [retryWithInterval(..., n, interval, f)] *)
Fixpoint retryWithInterval (n : nat) (interval : Z) (f : prog bool) : prog bool :=
  match n with
  | O => Ret false
  | S n' =>
      do ok <- f in
      if ok : bool then Ret true
      else do _ <- perform (Sleep interval) in retryWithInterval n' interval f
  end.

Definition sts_is_gone (rmq : RabbitmqCluster) : prog bool :=
  do r <- getSts rmq in
  Ret (match r with Err e => IsNotFound e | Ok _ => false end).

Definition deleteSts (rmq : RabbitmqCluster) : prog (result string unit) :=
  do r <- getSts rmq in
  match r with
  | Err e =>
      if IsNotFound e then Ret (Ok tt)
      else Ret (Err ("failed to get statefulset from Kubernetes API: " +:+ error_text e))
  | Ok sts =>
      do d <- perform (DeleteSts (om_Namespace (sts_Meta sts)) (om_Name (sts_Meta sts)) Orphan) in
      match d with
      | Err e => Ret (Err ("failed to delete statefulSet " +:+ om_Name (sts_Meta sts) +:+ ": " +:+ error_text e))
      | Ok _ =>
          do gone <- retryWithInterval 10 3000 (sts_is_gone rmq) in
          if gone then Ret (Ok tt)
          else Ret (Err ("statefulSet not deleting after 30 seconds " +:+ om_Name (sts_Meta sts) +:+
                         ": failed to delete statefulSet after 10 retries"))
      end
  end.

Fixpoint scaleUpPVCs (rmq : RabbitmqCluster) (pvcs : list PersistentVolumeClaim)
    (desiredCapacity : Quantity) : prog (result string unit) :=
  match pvcs with
  | [] => Ret (Ok tt)
  | pvc :: rest =>
      do r <- perform (GetPVC (om_Namespace (pvc_Meta pvc)) (om_Name (pvc_Meta pvc))) in
      match r with
      | Err e => Ret (Err ("failed to get PVC from Kubernetes API: " +:+ error_text e))
      | Ok latest =>
          match pvcs_Requests (pvc_Spec latest) with
          | None => Ret (Err "panic: assignment to entry in nil map")
          | Some requests =>
              let updated := pvc_with_requests (Some (<["storage" := desiredCapacity]> requests)) latest in
              do u <- perform (UpdatePVC (rmq_Namespace rmq) updated) in
              match u with
              | Err e => Ret (Err ("failed to update PersistentVolumeClaim " +:+
                                   om_Name (pvc_Meta latest) +:+ ": " +:+ error_text e))
              | Ok _ => scaleUpPVCs rmq rest desiredCapacity
              end
          end
      end
  end.

(** The part of [Scale] after the checks on the existing capacity. *)
Definition scale_pvcs (rmq : RabbitmqCluster) (desiredCapacity : Quantity) : prog (result string unit) :=
  do r <- getClusterPVCs rmq in
  match r with
  | Err e => Ret (Err e)
  | Ok existingPVCs =>
      match pvcsNeedingScaling existingPVCs desiredCapacity with
      | [] => Ret (Ok tt)
      | pvcsToBeScaled =>
          do d <- deleteSts rmq in
          match d with
          | Err e => Ret (Err ("failed to delete Statefulset from Kubernetes API: " +:+ e))
          | Ok _ => scaleUpPVCs rmq pvcsToBeScaled desiredCapacity
          end
      end
  end.

Definition Scale (rmq : RabbitmqCluster) (desiredCapacity : Quantity) : prog (result string unit) :=
  do existing <- existingCapacity rmq in
  match existing with
  | Err e =>
      if IsNotFound e then scale_pvcs rmq desiredCapacity
      else Ret (Err ("failed to determine existing STS capactiy: " +:+ error_text e))
  | Ok existingCapacity =>
      if (q_Cmp existingCapacity 0 =? 0)%Z && negb (q_Cmp desiredCapacity 0 =? 0)%Z
      then Ret (Err "changing from ephemeral to persistent storage is not supported")
      else if (q_Cmp existingCapacity desiredCapacity =? 1)%Z
      then Ret (Err "shrinking persistent volumes is not supported")
      else scale_pvcs rmq desiredCapacity
  end.

(** ** What a history of [Scale] may hold *)

(** The claims an event read, with the namespace and name asked for. *)
Definition pvc_read (e : event) : list (string * string * PersistentVolumeClaim) :=
  match e with
  | existT (GetPVC ns n) (Ok p) => [(ns, n, p)]
  | _ => []
  end.
Definition pvcs_read (h : history) : list (string * string * PersistentVolumeClaim) :=
  concat (map pvc_read h).

(** The claims an event wrote, as sent, when the server accepted them. *)
Definition pvc_written (e : event) : list PersistentVolumeClaim :=
  match e with
  | existT (UpdatePVC _ p) (Ok _) => [p]
  | _ => []
  end.
Definition pvcs_written (h : history) : list PersistentVolumeClaim := concat (map pvc_written h).

(** The server answered that the StatefulSet does not exist. *)
Definition says_sts_gone (e : event) : bool :=
  match e with
  | existT (GetSts _ _) (Err e) => IsNotFound e
  | _ => false
  end.

(** A claim read with less storage than desired. *)
Definition small_pvc_seen (desired : Quantity) (h : history) (q : PersistentVolumeClaim) : Prop :=
  q ∈ map snd (pvcs_read h) /\ (storage_of q < desired)%Z.

(** [p] is the claim of [q]'s name as read later, with the desired storage. *)
Definition grown_from (desired : Quantity) (h : history) (q p : PersistentVolumeClaim) : Prop :=
  exists latest, (om_Namespace (pvc_Meta q), om_Name (pvc_Meta q), latest) ∈ pvcs_read h /\
    pvc_Meta p = pvc_Meta latest /\ storage_of p = desired.

(** The writes the scaler may make: it deletes the StatefulSet without its
    pods and claims, and only for a claim that must grow; it writes a claim
    only after the server said the StatefulSet is gone, for a claim it read
    with less storage, giving the object just read the desired storage. *)
Definition scale_write_ok (desired : Quantity) (h : history) (c : call) : Prop :=
  match c with
  | DeleteSts _ _ policy => policy = Orphan /\ exists q, small_pvc_seen desired h q
  | UpdatePVC _ p =>
      existsb says_sts_gone h = true /\
      exists q, small_pvc_seen desired h q /\ grown_from desired h q p
  | _ => is_write c = false
  end.

Definition scale_event_ok (desired : Quantity) (h : history) (e : event) : Prop :=
  scale_write_ok desired h (projT1 e).

Lemma scale_read_ok desired h e : is_write (projT1 e) = false -> scale_event_ok desired h e.
Proof. unfold scale_event_ok. by destruct (projT1 e). Qed.

Lemma pvcs_read_app h t : pvcs_read (h ++ t) = pvcs_read h ++ pvcs_read t.
Proof. unfold pvcs_read. by rewrite map_app, concat_app. Qed.
Lemma pvcs_written_app h t : pvcs_written (h ++ t) = pvcs_written h ++ pvcs_written t.
Proof. unfold pvcs_written. by rewrite map_app, concat_app. Qed.

Lemma small_pvc_seen_app desired q h t : small_pvc_seen desired h q -> small_pvc_seen desired (h ++ t) q.
Proof. intros [? ?]. split; [|done]. rewrite pvcs_read_app, map_app. set_solver. Qed.
Lemma sts_gone_app h t : existsb says_sts_gone h = true -> existsb says_sts_gone (h ++ t) = true.
Proof. intros E. by rewrite existsb_app, E. Qed.
Lemma grown_from_app desired q p h t : grown_from desired h q p -> grown_from desired (h ++ t) q p.
Proof. intros (l & ? & ? & ?). exists l. rewrite pvcs_read_app. set_solver. Qed.

#[export] Hint Resolve small_pvc_seen_app sts_gone_app grown_from_app scale_read_ok : rmq.

(** ** The pieces *)

Lemma no_writes_no_pvcs t : writes t = [] -> pvcs_written t = [].
Proof.
  unfold writes, pvcs_written. induction t as [|[c a] t IH]; cbn; [done|].
  destruct c; cbn; try done; auto.
Qed.

(** The claims found are those read, in order. *)
Lemma get_pvcs_wp rmq idx h :
  wp (get_pvcs rmq idx) (fun h' r => exists t, h' = h ++ t /\ writes t = [] /\
    forall pvcs, r = Ok pvcs -> pvcs = map snd (pvcs_read t) /\
      map (@projT1 call answer) t = map (fun i => GetPVC (rmq_Namespace rmq) (PVCName rmq i)) idx) h.
Proof.
  revert h. induction idx as [|i idx IH]; intros h; cbn [get_pvcs bind perform wp].
  - exists []. rewrite app_nil_r. split; [done|]. split; [done|]. by intros ? [= <-].
  - intros a. cbn [answer] in a. destruct (IgnoreNotFound a) as [e|] eqn:E; cbn [wp].
    { eexists. split; [done|]. split; [done|]. done. }
    apply wp_bind. eapply wp_mono; [|apply IH]. intros h' r (t & -> & Hw & Hr).
    assert (exists t', (h ++ [Ev (GetPVC (rmq_Namespace rmq) (PVCName rmq i)) a]) ++ t = h ++ t' /\ t' = Ev (GetPVC (rmq_Namespace rmq) (PVCName rmq i)) a :: t) as (t' & -> & ->).
    { eexists. split; [|done]. by rewrite <- (assoc_L (++)). }
    destruct a as [pvc|e']; cbn [wp]; eexists; (split; [done|]); (split; [done|]).
    + intros pvcs Hb. apply result_bind_ok in Hb as (ps & -> & [= <-]).
      destruct (Hr ps eq_refl) as [-> Ht]. cbn. by rewrite Ht.
    + intros pvcs ->. destruct (Hr pvcs eq_refl) as [-> Ht]. cbn. by rewrite Ht.
Qed.

Lemma retry_wp rmq n interval h :
  wp (retryWithInterval n interval (sts_is_gone rmq)) (fun h' ok => exists t, h' = h ++ t /\ writes t = [] /\
    (ok = true -> existsb says_sts_gone h' = true)) h.
Proof.
  revert h. induction n as [|n IH]; intros h; cbn.
  - exists []. by rewrite app_nil_r.
  - intros a. destruct a as [s|e]; cbn.
    + intros z. eapply wp_mono; [|apply IH]. intros h' ok (t & -> & Hw & Hok).
      rewrite <- !(assoc_L (++)) in Hok |- *. by eexists.
    + destruct (IsNotFound e) eqn:En; cbn.
      * eexists. split; [done|]. split; [done|]. intros _. rewrite existsb_app. cbn. rewrite En.
        by rewrite orb_true_r.
      * intros z. eapply wp_mono; [|apply IH]. intros h' ok (t & -> & Hw & Hok).
        rewrite <- !(assoc_L (++)) in Hok |- *. by eexists.
Qed.

Lemma deleteSts_wp desired rmq h q :
  history_ok (scale_event_ok desired) h -> small_pvc_seen desired h q ->
  wp (deleteSts rmq) (fun h' r => history_ok (scale_event_ok desired) h' /\ (exists t, h' = h ++ t) /\
    pvcs_written h' = pvcs_written h /\ (r = Ok tt -> existsb says_sts_gone h' = true)) h.
Proof.
  intros Hh Hq. unfold deleteSts, getSts. cbn [wp bind perform]. intros a.
  assert (history_ok (scale_event_ok desired)
    (h ++ [Ev (GetSts (rmq_Namespace rmq) (ChildResourceName rmq "server")) a])) as Hh1 by auto with rmq.
  destruct a as [sts|e]; cbn [wp bind perform].
  - intros d.
    assert (history_ok (scale_event_ok desired)
      ((h ++ [Ev (GetSts (rmq_Namespace rmq) (ChildResourceName rmq "server")) (Ok sts)]) ++
       [Ev (DeleteSts (om_Namespace (sts_Meta sts)) (om_Name (sts_Meta sts)) Orphan) d])) as Hh2.
    { apply history_ok_snoc; [done|]. split; [done|]. exists q. auto with rmq. }
    destruct d as [[]|e]; cbn [wp bind perform].
    + apply wp_bind. eapply wp_mono; [|apply retry_wp]. intros h' ok (t & -> & Hw & Hok).
      assert (history_ok (scale_event_ok desired) ((((h ++ [Ev (GetSts (rmq_Namespace rmq) (ChildResourceName rmq "server")) (Ok sts)]) ++
       [Ev (DeleteSts (om_Namespace (sts_Meta sts)) (om_Name (sts_Meta sts)) Orphan) (Ok tt)])) ++ t)) as Hh3
       by (apply history_ok_app_read; [intros; by apply scale_read_ok | done | done]).
      assert (pvcs_written t = []) as Ht by (by apply no_writes_no_pvcs).
      destruct ok; cbn [wp]; (split; [done|]); (split; [rewrite <- !(assoc_L (++)); by eexists|]);
        rewrite !pvcs_written_app, Ht, !app_nil_r; (split; [done|]); [by intros _; apply Hok|done].
    + split; [done|]. split; [rewrite <- !(assoc_L (++)); by eexists|].
      rewrite !pvcs_written_app, !app_nil_r. done.
  - destruct (IsNotFound e) eqn:En; cbn [wp]; (split; [done|]); (split; [by eexists|]);
      rewrite !pvcs_written_app, !app_nil_r; (split; [done|]); [|done].
    intros _. rewrite existsb_app. cbn. rewrite En. by rewrite orb_true_r.
Qed.

Lemma scaleUpPVCs_wp desired rmq pvcs h :
  history_ok (scale_event_ok desired) h -> existsb says_sts_gone h = true ->
  Forall (small_pvc_seen desired h) pvcs ->
  wp (scaleUpPVCs rmq pvcs desired) (fun h' r => history_ok (scale_event_ok desired) h' /\
    (exists t, h' = h ++ t) /\
    (r = Ok tt -> exists ps, pvcs_written h' = pvcs_written h ++ ps /\
       Forall2 (grown_from desired h') pvcs ps)) h.
Proof.
  revert h. induction pvcs as [|q pvcs IH]; intros h Hh Hg Hq; cbn [scaleUpPVCs wp bind perform].
  { split; [done|]. split; [exists []; by rewrite app_nil_r|]. intros _. exists []. by rewrite app_nil_r. }
  inversion Hq as [|? ? Hq1 Hq2]; subst. intros a.
  set (ev := Ev (GetPVC _ _) a). assert (history_ok (scale_event_ok desired) (h ++ [ev])) as Hh1 by auto with rmq.
  destruct a as [latest|e]; cbn [wp].
  2:{ split; [done|]. split; [by eexists|done]. }
  destruct (pvcs_Requests _) as [req|] eqn:Er; cbn [wp bind perform].
  2:{ split; [done|]. split; [by eexists|done]. }
  intros u. set (p := pvc_with_requests _ latest). set (ev2 := Ev (UpdatePVC _ p) u).
  assert (grown_from desired (h ++ [ev]) q p) as Hgrown.
  { exists latest. split; [|split; [done|]].
    - rewrite pvcs_read_app. cbn. set_solver.
    - unfold storage_of, p. cbn. by rewrite lookup_insert_eq. }
  assert (history_ok (scale_event_ok desired) ((h ++ [ev]) ++ [ev2])) as Hh2.
  { apply history_ok_snoc; [done|]. split; [auto with rmq|]. exists q. auto with rmq. }
  destruct u as [p'|e]; cbn [wp].
  2:{ split; [done|]. split; [rewrite <- (assoc_L (++)); by eexists|done]. }
  eapply wp_mono; [|apply IH].
  - intros h' r (Hh' & (t & ->) & Hr). split; [done|]. split; [rewrite <- !(assoc_L (++)); by eexists|].
    intros E. destruct (Hr E) as (ps & Hps & HF). exists (p :: ps).
    rewrite Hps, !pvcs_written_app. split; [by rewrite <- !(assoc_L (++))|].
    constructor; [|done]. rewrite <- (assoc_L (++)). auto with rmq.
  - done.
  - auto with rmq.
  - eapply Forall_impl; [exact Hq2|]. auto with rmq.
Qed.

Lemma needs_scaling_spec desired p : needs_scaling desired p = true <-> (storage_of p < desired)%Z.
Proof. unfold needs_scaling. rewrite Z.eqb_eq. apply q_Cmp_lt. Qed.

(** ** The properties of [Scale] *)

(** The calls of the first pass: the StatefulSet, then the claim of every
    replica. *)
Definition first_pass (rmq : RabbitmqCluster) : list call :=
  GetSts (rmq_Namespace rmq) (ChildResourceName rmq "server") ::
  map (fun i => GetPVC (rmq_Namespace rmq) (PVCName rmq i))
    (int_range (Deref (spec_Replicas (rmq_Spec rmq)) 1%Z)).

Definition scaled (rmq : RabbitmqCluster) (desired : Quantity) (h : history) : Prop :=
  exists h1 h2, h = h1 ++ h2 /\ map (@projT1 call answer) h1 = first_pass rmq /\
    Forall2 (grown_from desired h)
      (pvcsNeedingScaling (map snd (pvcs_read h1)) desired) (pvcs_written h).

(** The part after the checks, from a history of one read. *)
Lemma scale_pvcs_wp rmq desired e :
  projT1 e = GetSts (rmq_Namespace rmq) (ChildResourceName rmq "server") ->
  wp (scale_pvcs rmq desired) (fun h r => history_ok (scale_event_ok desired) h /\
    (exists t, h = [e] ++ t) /\ (r = Ok tt -> scaled rmq desired h)) [e].
Proof.
  intros He. assert (is_write (projT1 e) = false) as Hr by (by rewrite He).
  assert (pvcs_read [e] = [] /\ pvcs_written [e] = []) as [Hre Hwe].
  { destruct e as [c a]. cbn in He. by subst c. }
  unfold scale_pvcs, getClusterPVCs. apply wp_bind. eapply wp_mono; [|apply get_pvcs_wp].
  intros h r (t & -> & Hw & Hpv).
  assert (history_ok (scale_event_ok desired) ([e] ++ t)) as Hh.
  { apply history_ok_app_read; [intros; by apply scale_read_ok | | done].
    apply (history_ok_snoc _ []); [apply history_ok_nil | by apply scale_read_ok]. }
  destruct r as [pvcs|msg]; cbn [wp].
  2:{ split; [done|]. split; [by eexists|done]. }
  destruct (Hpv pvcs eq_refl) as [Epv Ecalls].
  assert (pvcs = map snd (pvcs_read ([e] ++ t))) as Epv' by (by rewrite pvcs_read_app, Hre).
  assert (map (@projT1 call answer) ([e] ++ t) = first_pass rmq) as Efp.
  { cbn. unfold first_pass. by rewrite He, Ecalls. }
  assert (pvcs_written ([e] ++ t) = []) as Ewr by (by rewrite pvcs_written_app, Hwe, no_writes_no_pvcs).
  destruct (pvcsNeedingScaling pvcs desired) as [|q qs] eqn:En; cbn [wp bind].
  { split; [done|]. split; [by eexists|]. intros _. exists ([e] ++ t), []. rewrite app_nil_r.
    split; [done|]. split; [done|]. rewrite <- Epv', En, Ewr. constructor. }
  assert (Forall (small_pvc_seen desired ([e] ++ t)) (q :: qs)) as Hsmall.
  { rewrite <- En. apply Forall_forall. intros x Hx%list_elem_of_In%filter_In.
    destruct Hx as [Hx Hn]. split; [|by apply needs_scaling_spec].
    rewrite <- Epv'. by apply list_elem_of_In. }
  pose proof (Forall_inv Hsmall) as Hq. apply wp_bind.
  eapply wp_mono; [|eapply deleteSts_wp; [exact Hh | exact Hq]].
  intros h1 d (Hh1 & (t1 & ->) & Hwr1 & Hgone). destruct d as [[]|msg]; cbn [wp].
  2:{ split; [done|]. split; [rewrite <- (assoc_L (++)); by eexists|done]. }
  eapply wp_mono; [|apply scaleUpPVCs_wp; [done | by apply Hgone |]].
  2:{ eapply Forall_impl; [exact Hsmall|]. auto with rmq. }
  intros h2 r (Hh2 & (t2 & ->) & Hok). split; [done|].
  split; [rewrite <- !(assoc_L (++)); by eexists|]. intros E. destruct (Hok E) as (ps & Hps & HF).
  exists ([e] ++ t), (t1 ++ t2). split; [by rewrite (assoc_L (++))|]. split; [done|].
  rewrite <- Epv', En, Hps, Hwr1, Ewr. exact HF.
Qed.

Lemma Scale_wp rmq desired :
  wp (Scale rmq desired) (fun h r => history_ok (scale_event_ok desired) h /\
    (r = Ok tt -> scaled rmq desired h)) [].
Proof.
  unfold Scale, existingCapacity, getSts. cbn [bind perform wp app].
  intros a. set (e := Ev _ a).
  assert (history_ok (scale_event_ok desired) [e]) as He
    by (apply (history_ok_snoc _ []); [apply history_ok_nil | by apply scale_read_ok]).
  assert (wp (scale_pvcs rmq desired) (fun h r => history_ok (scale_event_ok desired) h /\
    (r = Ok tt -> scaled rmq desired h)) [e]) as Hrest.
  { eapply wp_mono; [|by apply scale_pvcs_wp]. by intros h r (? & _ & ?). }
  destruct a as [sts|err]; cbn [bind].
  - destruct (_ && _); [done|]. by destruct (_ =? 1)%Z.
  - by destruct (IsNotFound err).
Qed.

(** C8. Storage never shrinks and pods are never lost: whatever the API server
    answers, the scaler deletes the StatefulSet only with the orphan policy
    and only when some claim was read with less storage than desired, and it
    writes a claim only after the server said the StatefulSet is gone, only
    for a claim it read with less storage than desired, and only with the
    desired storage; it makes no other write. *)
Theorem Scale_safety (rmq : RabbitmqCluster) (desired : Quantity) :
  wp (Scale rmq desired) (fun h _ => forall h1 e h2, h = h1 ++ e :: h2 ->
    match projT1 e with
    | DeleteSts _ _ policy => policy = Orphan /\ exists q, small_pvc_seen desired h1 q
    | UpdatePVC _ p =>
        existsb says_sts_gone h1 = true /\
        exists q, small_pvc_seen desired h1 q /\ grown_from desired h1 q p
    | c => is_write c = false
    end) [].
Proof.
  eapply wp_mono; [|apply Scale_wp]. intros h r [Hh _] h1 e h2 E.
  specialize (Hh h1 e h2 E). unfold scale_event_ok, scale_write_ok in Hh. by destruct (projT1 e).
Qed.

(** The StatefulSet the first answer of a history gives. *)
Definition first_sts (h : history) : option StatefulSet :=
  match h with
  | existT (GetSts _ _) (Ok s) :: _ => Some s
  | _ => None
  end.

(** C9. Unsupported changes are refused before anything is written: when the
    existing StatefulSet has no persistent storage and the new one has, or
    has more than the new one, the scaler fails and writes nothing.
    Conversely a success has looked at the claim of every replica, and the
    claims it wrote are, in order, exactly those read with less storage than
    desired, each grown to the desired storage. *)
Theorem Scale_outcome (rmq : RabbitmqCluster) (desired : Quantity) :
  wp (Scale rmq desired) (fun h r =>
    (forall sts, first_sts h = Some sts ->
       let existing := persistence_capacity (sp_VolumeClaimTemplates (sts_Spec sts)) in
       (existing = 0 /\ desired <> 0 \/ desired < existing)%Z ->
       (exists msg, r = Err msg) /\ writes h = []) /\
    (r = Ok tt -> scaled rmq desired h)) [].
Proof.
  apply wp_conj; [|eapply wp_mono; [|apply Scale_wp]; by intros h r [_ ?]].
  unfold Scale, existingCapacity, getSts. cbn [bind perform wp app].
  intros a. destruct a as [sts|err]; cbn [bind].
  2:{ destruct (IsNotFound err); [|done]. eapply wp_mono; [|by apply scale_pvcs_wp].
      by intros h r (_ & (t & ->) & _). }
  set (c := persistence_capacity _).
  assert (forall h r, (exists t, h = [Ev (GetSts (rmq_Namespace rmq) (ChildResourceName rmq "server")) (Ok sts)] ++ t) ->
    ~ (c = 0 /\ desired <> 0 \/ desired < c)%Z -> forall s, first_sts h = Some s ->
    let existing := persistence_capacity (sp_VolumeClaimTemplates (sts_Spec s)) in
    (existing = 0 /\ desired <> 0 \/ desired < existing)%Z ->
    (exists msg : string, r = Err (E := string) (A := unit) msg) /\ writes h = []) as Hno.
  { intros h r (t & ->) Hn s [= <-]. cbn zeta. fold c. tauto. }
  destruct (Z.eqb_spec (q_Cmp c 0%Z) 0) as [E0|E0], (Z.eqb_spec (q_Cmp desired 0%Z) 0) as [E1|E1];
    cbn [andb negb]; [|cbn [wp]; intros; by split; [eexists|]|..];
    (destruct (Z.eqb_spec (q_Cmp c desired) 1) as [E2|E2]; cbn [wp]; [intros; by split; [eexists|]|]);
    (eapply wp_mono; [|by apply scale_pvcs_wp]); intros h r (_ & Ht & _); apply (Hno h r Ht);
    rewrite q_Cmp_eq, q_Cmp_gt in *; lia.
Qed.
