(* ===== verification/Expansion.v ===== *)
(** * Expanding the claims against a server with a state

    [Scaling] bounds what the scaler may do whatever it is answered.  Here it
    runs against a server that keeps the StatefulSet and the claims: first an
    honest one, then one that fails any of the calls, with or without having
    carried it out.  An expansion that was interrupted anywhere is completed
    by the next one that is not. *)

From S2P Require Import Prelude.
From S2P Require Import K8s.
From S2P Require Import Metadata.
From S2P Require Import Status.
From S2P Require Import Api.
From S2P Require Import PodTemplate.
From S2P Require Import StatefulSet.
From S2P Require Import ResourceBuilder.
From S2P Require Import Kube.
From S2P Require Import Scaling.

(** ** Servers *)

(** The cluster's StatefulSet, and the claims by namespace and name. *)
Record World := mkWorld {
  w_Sts : option StatefulSet;
  w_PVCs : gmap (string * string) PersistentVolumeClaim;
}.

Definition pvc_key (p : PersistentVolumeClaim) : string * string :=
  (om_Namespace (pvc_Meta p), om_Name (pvc_Meta p)).

Section Servers.
(** the answers to the calls the scaler does not make *)
Context (other : forall c : call, answer c).

Definition found {A} (o : option A) : result ApiError A :=
  match o with Some a => Ok a | None => Err (NotFound "not found") end.

(** A server that answers truly and carries out what it is told. *)
Definition honest (w : World) (c : call) : World * answer c :=
  match c with
  | GetSts _ _ => (w, found (w_Sts w))
  | DeleteSts _ _ _ => (mkWorld None (w_PVCs w), Ok tt)
  | GetPVC ns n => (w, found (w_PVCs w !! (ns, n)))
  | UpdatePVC _ p => (mkWorld (w_Sts w) (<[pvc_key p := p]> (w_PVCs w)), Ok p)
  | c => (w, other c)
  end.

Definition failure (e : ApiError) (c : call) : answer c :=
  match c with
  | GetSts _ _ | DeleteSts _ _ _ | GetPVC _ _ | UpdatePVC _ _ => Err e
  | c => other c
  end.

(** What goes wrong with the n-th call: nothing, or an error is answered,
    after the call was carried out ([true]) or without that. *)
Definition Faults := nat -> option (ApiError * bool).

Definition flaky (faults : Faults) (s : nat * World) (c : call) : (nat * World) * answer c :=
  let '(n, w) := s in
  match faults n with
  | None => let '(w', a) := honest w c in ((S n, w'), a)
  | Some (e, true) => ((S n, fst (honest w c)), failure e c)
  | Some (e, false) => ((S n, w), failure e c)
  end.

(** ** What the scaler is given, and what it is to make of it *)

Definition replica_keys (rmq : RabbitmqCluster) : list (string * string) :=
  map (fun i => (rmq_Namespace rmq, PVCName rmq i)) (int_range (Deref (spec_Replicas (rmq_Spec rmq)) 1%Z)).

(** A claim as the API server keeps it: filed under its own name, with its
    requests. *)
Definition claims_ok (m : gmap (string * string) PersistentVolumeClaim) : Prop :=
  forall k p, m !! k = Some p -> pvc_key p = k /\ is_Some (pvcs_Requests (pvc_Spec p)).

(** The change of capacity is one the scaler supports. *)
Definition supported (desired : Quantity) (w : World) : Prop :=
  match w_Sts w with
  | Some s => let existing := persistence_capacity (sp_VolumeClaimTemplates (sts_Spec s)) in
              (~ (existing = 0 /\ desired <> 0) /\ existing <= desired)%Z
  | None => True
  end.

Definition expandable (desired : Quantity) (w : World) : Prop := claims_ok (w_PVCs w) /\ supported desired w.

(** A claim with the desired storage. *)
Definition grow (desired : Quantity) (p : PersistentVolumeClaim) : PersistentVolumeClaim :=
  pvc_with_requests (Some (<["storage" := desired]> (default ∅ (pvcs_Requests (pvc_Spec p))))) p.

(** The claims after an expansion: those of the replicas that had less storage
    have the desired storage, all others are as they were. *)
Definition expanded (rmq : RabbitmqCluster) (desired : Quantity) (m m' : gmap (string * string) PersistentVolumeClaim)
  : Prop :=
  forall k, m' !! k = match m !! k with
                      | Some p => if bool_decide (k ∈ replica_keys rmq) && needs_scaling desired p
                                  then Some (grow desired p) else Some p
                      | None => None
                      end.

(** ** Runs against the honest server *)

Lemma run_get_pvcs rmq l w :
  claims_ok (w_PVCs w) ->
  exists h, run honest (get_pvcs rmq l) w =
    (w, h, Ok (omap (fun i => w_PVCs w !! (rmq_Namespace rmq, PVCName rmq i)) l)).
Proof.
  intros Hok. induction l as [|i l [h IH]]; cbn [get_pvcs]; [by eexists|].
  cbn [bind perform run honest found]. destruct (w_PVCs w !! (rmq_Namespace rmq, PVCName rmq i)) as [p|] eqn:E;
    cbn [found IgnoreNotFound IsNotFound]; rewrite run_bind, IH; cbn [run omap list_omap]; rewrite E; by eexists.
Qed.

Lemma run_deleteSts rmq w : exists h, run honest (deleteSts rmq) w = (mkWorld None (w_PVCs w), h, Ok tt).
Proof.
  destruct w as [[s|] m]; unfold deleteSts, getSts; cbn; by eexists.
Qed.

Lemma needs_scaling_grow desired p : needs_scaling desired (grow desired p) = false.
Proof.
  apply not_true_iff_false. rewrite needs_scaling_spec. unfold storage_of, grow. cbn.
  rewrite lookup_insert_eq. cbn. lia.
Qed.

Lemma grow_idem desired p : grow desired (grow desired p) = grow desired p.
Proof. unfold grow, pvc_with_requests. cbn. by rewrite insert_insert_eq. Qed.

Lemma claims_ok_grow m desired p : claims_ok m -> claims_ok (<[pvc_key p := grow desired p]> m).
Proof.
  intros Hm k q. destruct (decide (pvc_key p = k)) as [<-|Hne].
  - rewrite lookup_insert_eq. intros [= <-]. split; [done | by eexists].
  - rewrite lookup_insert_ne by done. apply Hm.
Qed.

(** The claims in the list grow; those that grew before stay. *)
Lemma run_scaleUpPVCs rmq pvcs desired sts m :
  claims_ok m -> Forall (fun p => is_Some (m !! pvc_key p)) pvcs ->
  exists h m', run honest (scaleUpPVCs rmq pvcs desired) (mkWorld sts m) = (mkWorld sts m', h, Ok tt) /\
    forall k, m' !! k = match m !! k with
                        | Some p => if bool_decide (k ∈ map pvc_key pvcs) then Some (grow desired p) else Some p
                        | None => None
                        end.
Proof.
  revert m. induction pvcs as [|pvc rest IH]; intros m Hm Hall; cbn [scaleUpPVCs].
  - exists [], m. split; [done|]. intros k. destruct (m !! k); [|done]. by rewrite bool_decide_eq_false_2 by apply not_elem_of_nil.
  - apply Forall_cons in Hall as [[latest Hl] Hrest]. destruct (Hm _ _ Hl) as [Hkey [requests Hreq]].
    cbn [bind perform run honest w_PVCs]. fold (pvc_key pvc). rewrite Hl. cbn [found]. rewrite Hreq.
    assert (pvc_with_requests (Some (<["storage" := desired]> requests)) latest = grow desired latest) as ->
      by (unfold grow; by rewrite Hreq).
    cbn [bind perform run honest w_PVCs w_Sts]. change (pvc_key (grow desired latest)) with (pvc_key latest).
    rewrite Hkey. destruct (IH (<[pvc_key pvc := grow desired latest]> m)) as (h & m' & Hrun & Hm').
    { rewrite <- Hkey. by apply claims_ok_grow. }
    { eapply Forall_impl; [exact Hrest|]. intros p [q Hq]. destruct (decide (pvc_key pvc = pvc_key p)) as [->|Hne].
      - rewrite lookup_insert_eq. by eexists.
      - rewrite lookup_insert_ne by done. by eexists. }
    rewrite Hrun. eexists _, m'. split; [reflexivity|]. intros k. rewrite Hm'. cbn [map].
    destruct (decide (pvc_key pvc = k)) as [<-|Hne].
    + rewrite lookup_insert_eq, Hl, (bool_decide_eq_true_2 (_ ∈ _ :: _)) by set_solver.
      case_bool_decide; [by rewrite grow_idem | done].
    + rewrite lookup_insert_ne by done. destruct (m !! k); [|done].
      assert (bool_decide (k ∈ map pvc_key rest) = bool_decide (k ∈ pvc_key pvc :: map pvc_key rest)) as ->; [|done].
      apply bool_decide_ext. rewrite elem_of_cons. naive_solver.
Qed.

(** An expansion by the honest server. *)
Lemma run_scale_pvcs rmq desired w :
  claims_ok (w_PVCs w) ->
  exists w' h, run honest (scale_pvcs rmq desired) w = (w', h, Ok tt) /\
    expanded rmq desired (w_PVCs w) (w_PVCs w').
Proof.
  intros Hm. unfold scale_pvcs, getClusterPVCs. rewrite run_bind.
  set (replicas := int_range _). destruct (run_get_pvcs rmq replicas w Hm) as [h1 ->].
  set (pvcs := omap _ replicas).
  assert (forall p, p ∈ pvcs -> w_PVCs w !! pvc_key p = Some p /\ pvc_key p ∈ replica_keys rmq) as Hp.
  { intros p (i & Hi & Hl)%list_elem_of_omap. destruct (Hm _ _ Hl) as [Hk _]. rewrite Hk. split; [done|].
    unfold replica_keys. apply list_elem_of_fmap. by exists i. }
  assert (forall k p, k ∈ replica_keys rmq -> w_PVCs w !! k = Some p -> p ∈ pvcs) as Hin.
  { intros k p (i & -> & Hi)%list_elem_of_fmap Hl. apply list_elem_of_omap. by exists i. }
  assert (forall k p, w_PVCs w !! k = Some p ->
    bool_decide (k ∈ map pvc_key (pvcsNeedingScaling pvcs desired)) = bool_decide (k ∈ replica_keys rmq) && needs_scaling desired p) as Hneed.
  { intros k p Hl. apply eq_bool_prop_intro. rewrite bool_decide_spec, andb_True, bool_decide_spec. split.
    - intros (q & -> & Hq)%list_elem_of_fmap. apply list_elem_of_In, filter_In in Hq as [Hq Hn].
      apply list_elem_of_In, Hp in Hq as [Hl' Hk]. rewrite Hl in Hl'. injection Hl' as ->. split; [done|].
      by rewrite Hn.
    - intros [Hk Hn]. apply list_elem_of_fmap. exists p. destruct (Hm _ _ Hl) as [Hkey _]. split; [done|].
      apply list_elem_of_In, filter_In. split; [by apply list_elem_of_In, (Hin k) | by apply Is_true_true]. }
  destruct (pvcsNeedingScaling pvcs desired) as [|q qs] eqn:En.
  - cbn [run]. exists w, (h1 ++ []). split; [done|]. intros k. destruct (w_PVCs w !! k) as [p|] eqn:E; [|done].
    by rewrite <- (Hneed k p E).
  - rewrite run_bind. destruct (run_deleteSts rmq w) as [h2 ->].
    destruct (run_scaleUpPVCs rmq (q :: qs) desired None (w_PVCs w) Hm) as (h3 & m' & -> & Hm').
    { apply Forall_forall. intros p Hin'. rewrite <- En in Hin'. apply list_elem_of_In, filter_In in Hin' as [Hin' _].
      apply list_elem_of_In, Hp in Hin' as [-> _]. by eexists. }
    eexists _, _. split; [reflexivity|]. intros k. rewrite Hm'. cbn [w_PVCs].
    destruct (w_PVCs w !! k) as [p|] eqn:E; [|done]. by rewrite (Hneed k p E).
Qed.

Lemma run_Scale rmq desired w :
  expandable desired w ->
  exists w' h, run honest (Scale rmq desired) w = (w', h, Ok tt) /\
    expanded rmq desired (w_PVCs w) (w_PVCs w').
Proof.
  intros [Hm Hs]. unfold Scale, existingCapacity, getSts. cbn [bind perform run honest].
  destruct (run_scale_pvcs rmq desired w Hm) as (w' & h & Hrun & Hexp). unfold supported in Hs.
  destruct (w_Sts w) as [s|]; cbn [found bind IsNotFound].
  - set (c := persistence_capacity _) in *. cbv zeta in Hs.
    assert ((q_Cmp c 0 =? 0)%Z && negb (q_Cmp desired 0 =? 0)%Z = false) as ->.
    { destruct (Z.eqb_spec (q_Cmp c 0%Z) 0) as [E|E]; [|done]. destruct (Z.eqb_spec (q_Cmp desired 0%Z) 0) as [E'|E']; [done|].
      rewrite q_Cmp_eq in *. tauto. }
    assert ((q_Cmp c desired =? 1)%Z = false) as ->.
    { apply Z.eqb_neq. rewrite q_Cmp_gt. lia. }
    rewrite Hrun. by eexists _, _.
  - rewrite Hrun. by eexists _, _.
Qed.
(** ** Runs that are interrupted *)

(** The calls of the scaler, with what they write. *)
Definition scale_call (desired : Quantity) (c : call) : Prop :=
  match c with
  | UpdatePVC _ p => is_Some (pvcs_Requests (pvc_Spec p)) /\ storage_of p = desired
  | GetSts _ _ | GetPVC _ _ | DeleteSts _ _ _ | Sleep _ => True
  | _ => False
  end.

Definition calls_of_scale (desired : Quantity) {R} (p : prog R) : Prop := always (scale_call desired) (fun _ => True) p.

Lemma always_bind_true P {A B} (p : prog A) (f : A -> prog B) :
  always P (fun _ => True) p -> (forall a, always P (fun _ => True) (f a)) -> always P (fun _ => True) (bind p f).
Proof. intros Hp Hf. by eapply always_bind. Qed.

Lemma get_pvcs_calls desired rmq l : calls_of_scale desired (get_pvcs rmq l).
Proof.
  induction l as [|i l IH]; [done|]. split; [done|]. intros a. cbn [bind].
  destruct (IgnoreNotFound a); [done|]. apply always_bind_true; [done|]. intros ps. by destruct a.
Qed.

Lemma retry_calls desired n i rmq : calls_of_scale desired (retryWithInterval n i (sts_is_gone rmq)).
Proof.
  induction n as [|n IH]; [done|]. cbn [retryWithInterval]. apply always_bind_true; [by split|].
  intros [|]; [done|]. split; [done|]. intros ?. exact IH.
Qed.

Lemma deleteSts_calls desired rmq : calls_of_scale desired (deleteSts rmq).
Proof.
  split; [done|]. intros [s|e]; cbn [bind]; [|by destruct (IsNotFound e)]. split; [done|].
  intros [[]|e]; cbn [bind]; [|done]. apply always_bind_true; [apply retry_calls|]. by intros [|].
Qed.

Lemma scaleUpPVCs_calls desired rmq l : calls_of_scale desired (scaleUpPVCs rmq l desired).
Proof.
  induction l as [|p l IH]; [done|]. split; [done|]. intros [latest|e]; cbn [bind]; [|done].
  destruct (pvcs_Requests (pvc_Spec latest)) as [requests|]; [|done]. split.
  - split; [by eexists|]. unfold storage_of. cbn. by rewrite lookup_insert_eq.
  - intros [u|e]; cbn [bind]; [exact IH | done].
Qed.

Lemma Scale_calls desired rmq : calls_of_scale desired (Scale rmq desired).
Proof.
  assert (calls_of_scale desired (scale_pvcs rmq desired)) as Hrest.
  { unfold scale_pvcs, getClusterPVCs. apply always_bind_true; [apply get_pvcs_calls|]. intros [pvcs|e]; [|done].
    destruct (pvcsNeedingScaling pvcs desired); [done|]. apply always_bind_true; [apply deleteSts_calls|].
    intros [[]|e]; [apply scaleUpPVCs_calls | done]. }
  unfold Scale, existingCapacity. split; [done|]. intros [s|e]; cbn [bind].
  - destruct (_ && _); [done|]. by destruct (_ =? 1)%Z.
  - by destruct (IsNotFound e).
Qed.

(** What survives every call of the scaler, answered or not. *)
Definition resumable (desired : Quantity) (w0 w : World) : Prop :=
  expandable desired w /\ dom (w_PVCs w0) ⊆ dom (w_PVCs w).

Lemma honest_resumable desired w0 w c :
  resumable desired w0 w -> scale_call desired c -> resumable desired w0 (fst (honest w c)).
Proof.
  intros [[Hm Hs] Hd]. destruct c; cbn; try done.
  intros [Hreq _]. split; [split|]; cbn.
  - intros k q. destruct (decide (pvc_key p = k)) as [<-|Hne].
    + rewrite lookup_insert_eq. by intros [= <-].
    + rewrite lookup_insert_ne by done. apply Hm.
  - exact Hs.
  - rewrite dom_insert_L. set_solver.
Qed.

Lemma flaky_resumable desired w0 faults s c :
  resumable desired w0 (snd s) -> scale_call desired c -> resumable desired w0 (snd (fst (flaky faults s c))).
Proof.
  destruct s as [n w]. cbn [snd]. intros Hw Hc. unfold flaky. pose proof (honest_resumable desired w0 w c Hw Hc) as Hh.
  destruct (faults n) as [[e [|]]|]; [exact Hh | exact Hw|]. by destruct (honest w c).
Qed.

(** The world after a pass in which calls failed. *)
Definition interrupted (rmq : RabbitmqCluster) (desired : Quantity) (w : World) (faults : Faults) : World :=
  snd (fst (fst (run (flaky faults) (Scale rmq desired) (0%nat, w)))).

Lemma interrupted_resumable rmq desired w0 w faults :
  resumable desired w0 w -> resumable desired w0 (interrupted rmq desired w faults).
Proof.
  intros Hw. apply (run_invariant (flaky faults) (fun s => resumable desired w0 (snd s)) (scale_call desired) (fun _ => True)).
  - intros s c. apply flaky_resumable.
  - apply Scale_calls.
  - exact Hw.
Qed.

(** C10. An expansion always comes to its end: after any number of passes
    interrupted by any failures, each with the failed call carried out or
    not, one pass without failures succeeds, and every claim a replica has
    then has at least the desired storage. *)
Theorem interrupted_expansion_completes (rmq : RabbitmqCluster) (desired : Quantity) (w : World)
    (passes : list Faults) :
  expandable desired w ->
  let w1 := fold_left (interrupted rmq desired) passes w in
  let '(w2, _, r) := run honest (Scale rmq desired) w1 in
  r = Ok tt /\ expanded rmq desired (w_PVCs w1) (w_PVCs w2) /\
  forall k, k ∈ replica_keys rmq -> is_Some (w_PVCs w !! k) ->
    exists p, w_PVCs w2 !! k = Some p /\ (desired <= storage_of p)%Z.
Proof.
  intros Hw. cbv zeta.
  assert (resumable desired w (fold_left (interrupted rmq desired) passes w)) as [Hw1 Hd].
  { assert (forall w1, resumable desired w w1 -> resumable desired w (fold_left (interrupted rmq desired) passes w1)) as Hf.
    { induction passes as [|faults passes IH]; [done|]. intros w1 H1. by apply IH, interrupted_resumable. }
    by apply Hf. }
  destruct (run_Scale rmq desired _ Hw1) as (w2 & h & -> & Hexp). split; [done|]. split; [exact Hexp|].
  intros k Hk Hex. apply elem_of_dom, Hd, elem_of_dom in Hex as [p Hp]. specialize (Hexp k). rewrite Hp in Hexp.
  rewrite (bool_decide_eq_true_2 (k ∈ _) Hk) in Hexp. cbn [andb] in Hexp.
  destruct (needs_scaling desired p) eqn:En.
  - exists (grow desired p). split; [exact Hexp|]. pose proof (needs_scaling_grow desired p) as Hg.
    apply not_true_iff_false in Hg. rewrite needs_scaling_spec in Hg. lia.
  - exists p. split; [exact Hexp|]. apply not_true_iff_false in En. rewrite needs_scaling_spec in En. lia.
Qed.
End Servers.
