(* ===== verification/Controller.v ===== *)
(** * What the controller's steps share

    internal/controller/utils.go, and the helpers of
    rabbitmqcluster_controller.go that patch the status.  The
    [RabbitmqCluster] a Go function receives by pointer and changes is
    returned beside its result. *)

From S2P Require Import Prelude.
From S2P Require Import K8s.
From S2P Require Import Metadata.
From S2P Require Import Status.
From S2P Require Import Api.
From S2P Require Import Services.
From S2P Require Import ServerConf.
From S2P Require Import ResourceBuilder.
From S2P Require Import Kube.

(** ** Errors and results of a step *)

Inductive RErr :=
| ErrDisableNonTLSConfig
| ErrBuild (e : BuildError)
| ErrApi (e : ApiError)
| ErrText (msg : string).

Definition disable_non_tls_text : string :=
  "TLS must be enabled if disableNonTLSListeners is set to true".

Definition rerr_text (e : RErr) : string :=
  match e with
  | ErrDisableNonTLSConfig => disable_non_tls_text
  | ErrBuild ErrInvalidEnvConfig =>
      "spec.rabbitmq.envConfig must not contain shell command substitution ('$(...)' or backticks)"
  | ErrBuild (ErrOther m) => m
  | ErrApi e => error_text e
  | ErrText m => m
  end.

(** [(requeueAfter, err)]: milliseconds and an error *)
Record StepResult := mkStep { requeueAfter : Z; step_error : option RErr }.
Definition step_ok : StepResult := mkStep 0 None.
Definition step_fail (e : RErr) : StepResult := mkStep 0 (Some e).
Definition step_requeue (ms : Z) : StepResult := mkStep ms None.

(** [err != nil || requeueAfter > 0] *)
Definition step_stops (s : StepResult) : bool :=
  match step_error s with Some _ => true | None => (0 <? requeueAfter s)%Z end.

Definition panic : RErr := ErrText "panic: nil pointer dereference".

(** ** Objects with annotations *)

(** What [client.Object] and [meta.Accessor] give: reading, writing and the
    metadata of a kind. *)
Class KObj (T : Type) : Type := {
  ko_get : string -> string -> prog (result ApiError T);
  ko_update : T -> prog (result ApiError T);
  ko_meta : T -> ObjectMeta;
  ko_with_meta : ObjectMeta -> T -> T
}.

#[export] Instance kobj_cluster : KObj RabbitmqCluster := {|
  ko_get ns n := perform (GetCluster ns n);
  ko_update r := perform (UpdateCluster r);
  ko_meta := rmq_Meta;
  ko_with_meta := rmq_with_meta
|}.

#[export] Instance kobj_sts : KObj StatefulSet := {|
  ko_get ns n := perform (GetSts ns n);
  ko_update s := perform (UpdateSts s);
  ko_meta := sts_Meta;
  ko_with_meta m s := mkSts m (sts_Spec s) (sts_Status s)
|}.

#[export] Instance kobj_configmap : KObj ConfigMap := {|
  ko_get ns n := perform (GetConfigMap ns n);
  ko_update c := perform (UpdateConfigMap c);
  ko_meta := cm_Meta;
  ko_with_meta m c := mkCM m (cm_Data c)
|}.

Definition set_annotation (key value : string) (m : ObjectMeta) : ObjectMeta :=
  om_with_annotations (Some (<[key := value]> (smap_entries (om_Annotations m)))) m.

Definition drop_annotation (key : string) (m : ObjectMeta) : ObjectMeta :=
  om_with_annotations (option_map (delete key) (om_Annotations m)) m.

Section Annotations.
Context {T : Type} {K : KObj T}.

Definition deleteAnnotation (obj : T) (annotation : string) : prog (result ApiError T) :=
  match om_Annotations (ko_meta obj) with
  | None => Ret (Ok obj)
  | Some _ => ko_update (ko_with_meta (drop_annotation annotation (ko_meta obj)) obj)
  end.

Definition errorIsConflictOrNotFound (e : ApiError) : bool := IsConflict e || IsNotFound e.

Definition annotate_once (namespace objName key value : string) : prog (result ApiError T) :=
  do r <- ko_get namespace objName in
  match r with
  | Err e => Ret (Err e)
  | Ok obj => ko_update (ko_with_meta (set_annotation key value (ko_meta obj)) obj)
  end.

Context `{RetryLib}.

Definition updateAnnotation (namespace objName key value : string) : prog (result ApiError T) :=
  OnError errorIsConflictOrNotFound (annotate_once namespace objName key value).
End Annotations.

(** ** Reading the children *)

Definition statefulSet (rmq : RabbitmqCluster) : prog (result ApiError StatefulSet) :=
  perform (GetSts (rmq_Namespace rmq) (ChildResourceName rmq "server")).

Definition configMap (rmq : RabbitmqCluster) (name : string) : prog (result ApiError ConfigMap) :=
  perform (GetConfigMap (rmq_Namespace rmq) name).

Definition event_warning (reason msg : string) : prog unit := perform (Event "Warning" reason msg).
Definition event_normal (reason msg : string) : prog unit := perform (Event "Normal" reason msg).

(** ** Patching the status *)

(** [cluster.Status.SetCondition(...)] with the clock read inside *)
Definition set_condition (ty : string) (s : ConditionStatus) (reason : string) (msgs : list string)
    (rmq : RabbitmqCluster) : prog RabbitmqCluster :=
  do now <- perform Now in
  Ret (rmq_with_status (SetCondition now ty s reason msgs (rmq_Status rmq)) rmq).

(** [r.Status().Patch(ctx, rmq, patch)]: the object is replaced by the
    server's when it succeeds, and keeps its local changes otherwise. *)
Definition patch_status (rmq : RabbitmqCluster) : prog (result ApiError unit * RabbitmqCluster) :=
  do r <- perform (PatchStatus rmq) in
  match r with
  | Ok rmq' => Ret (Ok tt, rmq')
  | Err e => Ret (Err e, rmq)
  end.

Definition with_observed_generation (rmq : RabbitmqCluster) : RabbitmqCluster :=
  let st := rmq_Status rmq in
  rmq_with_status
    (mkStatus (st_Conditions st) (st_DefaultUser st) (st_Binding st) (om_Generation (rmq_Meta rmq))
       (st_QuorumStatus st) (st_DeprecatedFeaturesUsed st)) rmq.

Definition setReconcileSuccess (rmq : RabbitmqCluster) (condition : ConditionStatus) (reason msg : string)
  : prog RabbitmqCluster :=
  do rmq <- set_condition ReconcileSuccess condition reason [msg] rmq in
  let rmq := if decide (condition = ConditionTrue) then with_observed_generation rmq else rmq in
  do r <- patch_status rmq in
  Ret (snd r).

Definition getChildResources (rmq : RabbitmqCluster) : prog (result RErr (list ChildResource)) :=
  do s <- statefulSet rmq in
  match IgnoreNotFound s with
  | Some e => Ret (Err (ErrApi e))
  | None =>
      let sts := match s with Ok sts => Some sts | Err _ => None end in
      do l <- perform (ListEndpointSlices (rmq_Namespace rmq) (rmq_Name rmq)) in
      match l with
      | Err e => Ret (Err (ErrApi e))
      | Ok slices => Ret (Ok [ResStatefulSet sts; ResEndpointSlice (head slices)])
      end
  end.

(** The clock as one call of [SetConditions] reads it. *)
Definition read_clock4 : prog Clock4 :=
  do a <- perform Now in do b <- perform Now in do c <- perform Now in do d <- perform Now in
  Ret (mkClock4 a b c d).

Definition updateStatusConditions (rmq : RabbitmqCluster) : prog (StepResult * RabbitmqCluster) :=
  do r <- getChildResources rmq in
  match r with
  | Err e => Ret (step_fail e, rmq)
  | Ok childResources =>
      do t <- read_clock4 in
      match SetConditions t childResources (rmq_Status rmq) with
      | None => Ret (step_fail panic, rmq)
      | Some st =>
          if decide (st_Conditions st = st_Conditions (rmq_Status rmq)) then Ret (step_ok, rmq_with_status st rmq)
          else
            do p <- patch_status (rmq_with_status st rmq) in
            match fst p with
            | Ok _ => Ret (step_ok, snd p)
            | Err e => Ret (if IsConflict e then step_requeue 2000 else step_fail (ErrApi e), snd p)
            end
      end
  end.
