(* ===== verification/Tls.v ===== *)
(** * TLS settings and the operator's defaults

    internal/controller/reconcile_tls.go and reconcile_operator_defaults.go. *)

From S2P Require Import Prelude.
From S2P Require Import K8s.
From S2P Require Import Metadata.
From S2P Require Import Status.
From S2P Require Import Api.
From S2P Require Import ServerConf.
From S2P Require Import ResourceBuilder.
From S2P Require Import Kube.
From S2P Require Import Controller.

(** ** reconcile_tls.go *)

Definition has_key (s : Secret) (k : string) : bool :=
  match smap_get (sec_Data s) k with Some _ => true | None => false end.

(** an error the step reports with an event *)
Definition tls_error {A} (msg : string) (e : RErr) : prog (result RErr A) :=
  do _ <- event_warning "TLSError" msg in Ret (Err e).

Definition bad_request {A} (msg : string) : prog (result RErr A) :=
  tls_error msg (ErrApi (ApiFailure msg)).

(** The last check of [checkTLSSecrets]: [secret] holds the CA certificate. *)
Definition check_ca_cert (rabbitmqCluster : RabbitmqCluster) (secret : Secret) : prog (result RErr unit) :=
  if negb (has_key secret "ca.crt") then
    bad_request ("TLS secret " +:+ tls_CaSecretName (spec_TLS (rmq_Spec rabbitmqCluster)) +:+
                 " in namespace " +:+ rmq_Namespace rabbitmqCluster +:+ " does not have the field ca.crt")
  else Ret (Ok tt).

Definition checkTLSSecrets (rabbitmqCluster : RabbitmqCluster) : prog (result RErr unit) :=
  let ns := rmq_Namespace rabbitmqCluster in
  let secretName := tls_SecretName (spec_TLS (rmq_Spec rabbitmqCluster)) in
  do r <- perform (GetSecret ns secretName) in
  match r with
  | Err e =>
      tls_error ("Failed to get TLS secret " +:+ secretName +:+ " in namespace " +:+ ns +:+ ": " +:+
                 error_text e) (ErrApi e)
  | Ok secret =>
      if negb (has_key secret "tls.crt") || negb (has_key secret "tls.key") then
        bad_request ("TLS secret " +:+ secretName +:+ " in namespace " +:+ ns +:+
                     " does not have the fields tls.crt and tls.key")
      else if MutualTLSEnabled rabbitmqCluster then
        if negb (SingleTLSSecret rabbitmqCluster) then
          let secretName := tls_CaSecretName (spec_TLS (rmq_Spec rabbitmqCluster)) in
          do r <- perform (GetSecret ns secretName) in
          match r with
          | Err e =>
              tls_error ("Failed to get CA certificate secret " +:+ secretName +:+ " in namespace " +:+ ns +:+
                         ": " +:+ error_text e) (ErrApi e)
          | Ok secret => check_ca_cert rabbitmqCluster secret
          end
        else check_ca_cert rabbitmqCluster secret
      else Ret (Ok tt)
  end.

Definition reconcileTLS (rabbitmqCluster : RabbitmqCluster)
  : prog (result RErr unit * RabbitmqCluster) :=
  if DisableNonTLSListeners rabbitmqCluster && negb (TLSEnabled rabbitmqCluster) then
    do _ <- event_warning "TLSError" disable_non_tls_text in
    do rmq <- setReconcileSuccess rabbitmqCluster ConditionFalse "TLSError" disable_non_tls_text in
    Ret (Err ErrDisableNonTLSConfig, rmq)
  else if SecretTLSEnabled rabbitmqCluster then
    do r <- checkTLSSecrets rabbitmqCluster in
    match r with
    | Err e =>
        do rmq <- setReconcileSuccess rabbitmqCluster ConditionFalse "TLSError" (rerr_text e) in
        Ret (Err e, rmq)
    | Ok _ => Ret (Ok tt, rabbitmqCluster)
    end
  else Ret (Ok tt, rabbitmqCluster).

(** ** reconcile_operator_defaults.go *)

Record ReconcilerConfig := mkConfig {
  cfg_DefaultRabbitmqImage : string;
  cfg_DefaultUserUpdaterImage : string;
  cfg_ControlRabbitmqImage : bool;
}.

Definition spec_with_image (image : string) (s : RabbitmqClusterSpec) : RabbitmqClusterSpec :=
  mkSpec (spec_Replicas s) image (spec_ImagePullSecrets s) (spec_Service s) (spec_Persistence s)
    (spec_Resources s) (spec_Affinity s) (spec_Tolerations s) (spec_Rabbitmq s) (spec_TLS s)
    (spec_Override s) (spec_SkipPostDeploySteps s) (spec_AutoEnableAllFeatureFlags s)
    (spec_TerminationGracePeriodSeconds s) (spec_DelayStartSeconds s) (spec_SecretBackend s).

Definition spec_with_updater (image : string) (s : RabbitmqClusterSpec) : RabbitmqClusterSpec :=
  mkSpec (spec_Replicas s) (spec_Image s) (spec_ImagePullSecrets s) (spec_Service s) (spec_Persistence s)
    (spec_Resources s) (spec_Affinity s) (spec_Tolerations s) (spec_Rabbitmq s) (spec_TLS s)
    (spec_Override s) (spec_SkipPostDeploySteps s) (spec_AutoEnableAllFeatureFlags s)
    (spec_TerminationGracePeriodSeconds s) (spec_DelayStartSeconds s)
    (mkBackend
       (option_map (fun v => mkVault (va_Role v) (va_Annotations v) (va_DefaultUserPath v) (Some image) (va_TLS v))
          (sb_Vault (spec_SecretBackend s)))
       (sb_ExternalSecret_Name (spec_SecretBackend s))).

Definition updateRabbitmqCluster (rabbitmqCluster : RabbitmqCluster) : prog (StepResult * RabbitmqCluster) :=
  do r <- perform (UpdateCluster rabbitmqCluster) in
  match r with
  | Ok rmq => Ret (step_ok, rmq)
  | Err e =>
      if IsConflict e then Ret (step_requeue 2000, rabbitmqCluster)
      else Ret (step_fail (ErrApi e), rabbitmqCluster)
  end.

(** [if requeue, err := r.updateRabbitmqCluster(...); err != nil { return requeue, err }] *)
Definition update_or_return (rmq : RabbitmqCluster)
    (k : RabbitmqCluster -> prog (StepResult * RabbitmqCluster)) : prog (StepResult * RabbitmqCluster) :=
  do r <- updateRabbitmqCluster rmq in
  match step_error (fst r) with
  | Some _ => Ret r
  | None => k (snd r)
  end.

Definition reconcileOperatorDefaults (cfg : ReconcilerConfig) (rabbitmqCluster : RabbitmqCluster)
  : prog (StepResult * RabbitmqCluster) :=
  if negb (cfg_ControlRabbitmqImage cfg) then Ret (step_ok, rabbitmqCluster)
  else
    update_or_return
      (rmq_with_spec (spec_with_image (cfg_DefaultRabbitmqImage cfg) (rmq_Spec rabbitmqCluster)) rabbitmqCluster)
      (fun rmq =>
         if VaultEnabled rmq then
           update_or_return
             (rmq_with_spec (spec_with_updater (cfg_DefaultUserUpdaterImage cfg) (rmq_Spec rmq)) rmq)
             (fun rmq => Ret (step_ok, rmq))
         else Ret (step_ok, rmq)).

(** ** Properties *)

(** The Secrets an execution read, with their names. *)
Definition secret_read (e : event) : list (string * result ApiError Secret) :=
  match e with
  | existT (GetSecret _ n) r => [(n, r)]
  | _ => []
  end.
Definition secrets_read (h : history) := concat (map secret_read h).

(** The answers that make the TLS settings acceptable. *)
Definition tls_secrets_good (rmq : RabbitmqCluster) (reads : list (string * result ApiError Secret)) : Prop :=
  let tls := spec_TLS (rmq_Spec rmq) in
  exists s, has_key s "tls.crt" = true /\ has_key s "tls.key" = true /\
    if negb (MutualTLSEnabled rmq) then reads = [(tls_SecretName tls, Ok s)]
    else if SingleTLSSecret rmq then reads = [(tls_SecretName tls, Ok s)] /\ has_key s "ca.crt" = true
    else exists ca, reads = [(tls_SecretName tls, Ok s); (tls_CaSecretName tls, Ok ca)] /\
                    has_key ca "ca.crt" = true.

Lemma tls_good_head rmq reads :
  tls_secrets_good rmq reads ->
  exists n s rest, reads = (n, Ok s) :: rest /\ has_key s "tls.crt" = true /\ has_key s "tls.key" = true.
Proof.
  intros (s & H1 & H2 & Hs). destruct (negb _); [subst; by eexists _, _, _|].
  destruct (SingleTLSSecret _); [destruct Hs as [-> _]|destruct Hs as (ca & -> & _)]; by eexists _, _, _.
Qed.

(** One read that is not acceptable is refused. *)
Lemma tls_bad_first rmq n s rest :
  has_key s "tls.crt" = false \/ has_key s "tls.key" = false -> ~ tls_secrets_good rmq ((n, Ok s) :: rest).
Proof. intros Hk (n' & s' & rest' & [= <- <- <-] & H1 & H2)%tls_good_head. destruct Hk; congruence. Qed.

Lemma checkTLSSecrets_good rmq :
  wp (checkTLSSecrets rmq) (fun h r =>
    (r = Ok tt <-> tls_secrets_good rmq (secrets_read h)) /\ writes h = []) [].
Proof.
  unfold checkTLSSecrets, check_ca_cert, bad_request, tls_error, event_warning.
  cbn [bind perform wp app]. intros a. destruct a as [s|e].
  2:{ cbn. intros _. split; [|done]. split; [done|].
      by intros (n & s & rest & [=] & _)%tls_good_head. }
  destruct (has_key s "tls.crt") eqn:E1, (has_key s "tls.key") eqn:E2; cbn [negb orb bind perform wp app].
  2-4: intros z; split; [|done]; split; [done|]; intros Hg; exfalso;
       eapply tls_bad_first; [|exact Hg]; auto.
  destruct (MutualTLSEnabled rmq) eqn:Em; cbn [wp].
  2:{ split; [|done]. split; [|done]. intros _. exists s. rewrite Em. by repeat split. }
  destruct (SingleTLSSecret rmq) eqn:Es; cbn [negb bind perform wp app].
  - destruct (has_key s "ca.crt") eqn:Ec; cbn [negb bind perform wp app].
    + split; [|done]. split; [|done]. intros _. exists s. rewrite Em, Es. by repeat split.
    + intros z. split; [|done]. split; [done|]. intros (s' & _ & _ & Hs). rewrite Em, Es in Hs.
      cbn in Hs. destruct Hs as [[= <-] Hs]. congruence.
  - intros b. destruct b as [ca|e]; cbn [bind perform wp app].
    + destruct (has_key ca "ca.crt") eqn:Ec; cbn [negb bind perform wp app].
      * split; [|done]. split; [|done]. intros _. exists s. rewrite Em, Es. repeat split; try done. by exists ca.
      * intros z. split; [|done]. split; [done|]. intros (s' & _ & _ & Hs). rewrite Em, Es in Hs.
        cbn in Hs. destruct Hs as (ca' & [= _ <-] & Hs). congruence.
    + intros z. split; [|done]. split; [done|]. intros (s' & _ & _ & Hs). rewrite Em, Es in Hs.
      cbn in Hs. by destruct Hs as (ca' & [=] & Hs).
Qed.

(** The check of the TLS Secrets accepts exactly when the certificate Secret
    was read and has both files and, for mutual TLS, the CA Secret (the same
    one, or another, read separately) has the CA certificate; it only reads
    and records events. *)
Theorem checkTLSSecrets_spec (rmq : RabbitmqCluster) :
  wp (checkTLSSecrets rmq) (fun h r =>
    (r = Ok tt <-> tls_secrets_good rmq (secrets_read h)) /\ writes h = []) [].
Proof. apply checkTLSSecrets_good. Qed.

(** The statuses an execution asked the server to write. *)
Definition status_write (e : event) : list RabbitmqCluster :=
  match projT1 e with
  | PatchStatus r => [r]
  | _ => []
  end.
Definition status_writes (h : history) : list RabbitmqCluster := concat (map status_write h).

(** [ReconcileSuccess] of a status *)
Definition success_condition (r : RabbitmqCluster) : option (ConditionStatus * string * string) :=
  option_map (fun c => (Cond_Status c, Cond_Reason c, Cond_Message c))
    (old_condition ReconcileSuccess (st_Conditions (rmq_Status r))).

Definition four_conditions (r : RabbitmqCluster) : Prop :=
  map Cond_Type (st_Conditions (rmq_Status r)) =
    [AllReplicasReady; ClusterAvailable; NoWarnings; ReconcileSuccess].

(** On a status with the four conditions, setting ReconcileSuccess sets it. *)
Lemma SetCondition_success now s reason msg r :
  four_conditions r ->
  success_condition (rmq_with_status (SetCondition now ReconcileSuccess s reason [msg] (rmq_Status r)) r) =
    Some (s, reason, msg) /\
  four_conditions (rmq_with_status (SetCondition now ReconcileSuccess s reason [msg] (rmq_Status r)) r).
Proof.
  unfold four_conditions, success_condition, SetCondition. cbn [rmq_Status rmq_with_status st_Conditions st_with_conditions].
  destruct (st_Conditions (rmq_Status r)) as [|a [|b [|c [|d [|]]]]]; try done.
  cbn [map]. intros [= Ha Hb Hc Hd].
  assert (forall ty x, Cond_Type x = ty -> ty <> ReconcileSuccess -> str_eqb (Cond_Type x) ReconcileSuccess = false) as Hne.
  { intros ty x <- H. unfold str_eqb. by apply bool_decide_eq_false_2. }
  cbn [set_condition_loop]. rewrite (Hne _ a Ha), (Hne _ b Hb), (Hne _ c Hc) by done.
  rewrite (proj2 (str_eqb_spec (Cond_Type d) _) Hd). unfold old_condition. cbn [fold_left].
  rewrite (Hne _ a Ha), (Hne _ b Hb), (Hne _ c Hc) by done. cbn [Cond_Type UpdateReason UpdateState map].
  rewrite (proj2 (str_eqb_spec (Cond_Type d) _) Hd). split; [done|]. by rewrite Ha, Hb, Hc, Hd.
Qed.

(** [setReconcileSuccess] reads the clock and patches the status once. *)
Lemma setReconcileSuccess_wp rmq s reason msg h Q :
  (forall h' rmq' st, status_writes h' = status_writes h ++ [st] -> (exists t, h' = h ++ t) ->
     secrets_read h' = secrets_read h ->
     (four_conditions rmq -> success_condition st = Some (s, reason, msg)) -> Q h' rmq') ->
  wp (setReconcileSuccess rmq s reason msg) Q h.
Proof.
  intros HQ. unfold setReconcileSuccess, set_condition, patch_status. cbn [bind perform wp].
  intros now. set (r1 := if decide _ then _ else _). intros a.
  assert (four_conditions rmq -> success_condition r1 = Some (s, reason, msg)) as Hs.
  { intros H4. destruct (SetCondition_success now s reason msg rmq H4) as [<- _].
    unfold r1. by destruct (decide _). }
  assert (forall rmq', Q ((h ++ [Ev Now now]) ++ [Ev (PatchStatus r1) a]) rmq') as Hall.
  { intros rmq'. apply (HQ _ rmq' r1); [..|done].
    - unfold status_writes. rewrite !map_app, !concat_app. cbn. by rewrite app_nil_r.
    - rewrite <- (assoc_L (++)). by eexists.
    - unfold secrets_read. rewrite !map_app, !concat_app. cbn. by rewrite !app_nil_r. }
  destruct a; cbn [wp bind]; apply Hall.
Qed.

Lemma checkTLSSecrets_errors rmq :
  wp (checkTLSSecrets rmq) (fun h r => status_writes h = [] /\
    match r with Err e => exists a, e = ErrApi a | Ok _ => True end) [].
Proof.
  unfold checkTLSSecrets, check_ca_cert, bad_request, tls_error, event_warning.
  cbn [bind perform wp app]. intros a. destruct a as [s|e]; cbn [bind perform wp app]; [|by eauto].
  destruct (negb _ || _); cbn [bind perform wp app]; [by eauto|].
  destruct (MutualTLSEnabled rmq); cbn [wp]; [|done].
  destruct (SingleTLSSecret rmq); cbn [negb bind perform wp app].
  - destruct (negb _); cbn [bind perform wp app]; [by eauto|done].
  - intros b. destruct b as [ca|e]; cbn [bind perform wp app]; [|by eauto].
    destruct (negb _); cbn [bind perform wp app]; [by eauto|done].
Qed.

(** C40. TLS reconciliation: the special error, on which the controller does not
    requeue, is returned exactly when the non-TLS listeners are disabled
    without TLS; every error is also reported in the ReconcileSuccess
    condition, with the status written once; success writes no status. *)
Theorem reconcileTLS_spec (rmq : RabbitmqCluster) :
  four_conditions rmq ->
  wp (reconcileTLS rmq) (fun h r =>
    (fst r = Err ErrDisableNonTLSConfig <->
       DisableNonTLSListeners rmq = true /\ TLSEnabled rmq = false) /\
    match fst r with
    | Ok _ => status_writes h = [] /\
              (SecretTLSEnabled rmq = true -> tls_secrets_good rmq (secrets_read h))
    | Err e => exists st, status_writes h = [st] /\
                 success_condition st = Some (ConditionFalse, "TLSError", rerr_text e)
    end) [].
Proof.
  intros H4. unfold reconcileTLS.
  destruct (DisableNonTLSListeners rmq && negb (TLSEnabled rmq)) eqn:E; cbn [bind perform wp app].
  - apply andb_true_iff in E as [E1 E2%negb_true_iff]. unfold event_warning. cbn [bind perform wp app].
    intros z. apply wp_bind, setReconcileSuccess_wp. intros h' rmq' st Hst _ _ Hc. cbn.
    rewrite E1, E2. split; [done|]. exists st. rewrite Hst. split; [done|by apply Hc].
  - assert (~ (DisableNonTLSListeners rmq = true /\ TLSEnabled rmq = false)) as Hn.
    { intros [E1 E2]. by rewrite E1, E2 in E. }
    destruct (SecretTLSEnabled rmq); cbn [wp]; [|by split].
    apply wp_bind. eapply wp_mono; [|apply wp_conj; [apply checkTLSSecrets_errors | apply checkTLSSecrets_good]].
    intros h [[]|e] [[Hs He] Hg]; cbn [wp bind].
    + split; [done|]. split; [done|]. intros _. by apply Hg.
    + destruct He as [ae ->]. apply wp_bind, setReconcileSuccess_wp. intros h' rmq' st Hst _ _ Hc. cbn.
      split; [split; [done|tauto]|]. exists st. rewrite Hst, Hs. split; [done|by apply Hc].
Qed.

(** The error of a refused write of the cluster. *)
Definition update_error (e : event) : option ApiError :=
  match e with
  | existT (UpdateCluster _) (Err e) => Some e
  | _ => None
  end.

(** A conflict while writing the operator's default images does not delay
    the reconcile, though [updateRabbitmqCluster] reports a requeue delay for
    it: the step never carries a delay, and it stops the reconcile exactly
    when a write was refused for another reason than a conflict. *)
Theorem reconcileOperatorDefaults_conflict (cfg : ReconcilerConfig) (rmq : RabbitmqCluster) :
  wp (reconcileOperatorDefaults cfg rmq) (fun h r =>
    requeueAfter (fst r) = 0%Z /\
    step_stops (fst r) =
      existsb (fun ev => match update_error ev with Some e => negb (IsConflict e) | None => false end) h) [].
Proof.
  unfold reconcileOperatorDefaults, update_or_return, updateRabbitmqCluster.
  destruct (cfg_ControlRabbitmqImage cfg); cbn [negb bind perform wp app]; [|done].
  intros a. destruct a as [r1|e]; cbn [bind perform wp app step_error step_ok fst snd].
  - destruct (VaultEnabled r1); cbn [bind perform wp app]; [|done].
    intros b. destruct b as [r2|e]; cbn [bind perform wp app step_error step_ok fst snd]; [done|].
    destruct (IsConflict e) eqn:E; cbn; by rewrite E.
  - destruct (IsConflict e) eqn:E; cbn [bind perform wp app step_error step_requeue step_fail fst snd].
    2:{ cbn. by rewrite E. }
    destruct (VaultEnabled _); cbn [bind perform wp app].
    2:{ cbn. by rewrite E. }
    intros b. destruct b as [r2|e2]; cbn [bind perform wp app step_error step_ok fst snd].
    + cbn. by rewrite E.
    + destruct (IsConflict e2) eqn:E2; cbn; by rewrite E, E2.
Qed.
