(* ===== verification/Replicas.v ===== *)
(** * Scaling the number of replicas, and the persistence step

    internal/controller/reconcile_scale_zero.go, reconcile_scale_down.go and
    reconcile_persistence.go, and the part of [Reconcile] that runs them on
    the StatefulSet before it is written. *)

From S2P Require Import Prelude.
From S2P Require Import Strconv.
From S2P Require Import K8s.
From S2P Require Import Metadata.
From S2P Require Import Status.
From S2P Require Import Api.
From S2P Require Import ServerConf.
From S2P Require Import ResourceBuilder.
From S2P Require Import Kube.
From S2P Require Import Scaling.
From S2P Require Import Controller.
From S2P Require Import Tls.

(** ** reconcile_scale_zero.go *)

Definition beforeZeroReplicasConfigured : string := "rabbitmq.com/before-zero-replicas-configured".

(** [*current.Spec.Replicas] and [*sts.Spec.Replicas]; [None] panics *)
Definition replica_pair (current sts : StatefulSet) : option (Z * Z) :=
  c ← sp_Replicas (sts_Spec current); d ← sp_Replicas (sts_Spec sts); Some (c, d).

Definition ScaleToZero (current desired : Z) : bool := (desired =? 0)%Z && (current >? 0)%Z.
Definition ScaleFromZero (current desired : Z) : bool := (current =? 0)%Z && (desired >? 0)%Z.

Definition recordEventsAndSetCondition (cluster : RabbitmqCluster) (reason msg : string)
  : prog RabbitmqCluster :=
  do _ <- event_warning reason msg in
  do cluster <- set_condition ReconcileSuccess ConditionFalse reason [msg] cluster in
  do r <- patch_status cluster in
  Ret (snd r).

(** [true] stops the reconcile *)
Definition scaleFromZeroToBeforeReplicasConfigured (cluster : RabbitmqCluster) (desiredReplicas : Z)
  : prog (bool * RabbitmqCluster) :=
  match smap_get (rmq_Annotations cluster) beforeZeroReplicasConfigured with
  | None => Ret (false, cluster)
  | Some annotationValue =>
      match ParseInt32 annotationValue with
      | None =>
          do cluster <- recordEventsAndSetCondition cluster "TransformErrorOperation"
                          "Failed to convert string to integer for before-zero-replicas-configuration annotation" in
          Ret (true, cluster)
      | Some beforeZeroReplicas =>
          if negb (desiredReplicas =? beforeZeroReplicas)%Z then
            do cluster <- recordEventsAndSetCondition cluster "UnsupportedOperation"
                 ("Unsupported operation; when scaling from zero, you can only restore the previous number of replicas (" +:+
                  Itoa beforeZeroReplicas +:+ ")") in
            Ret (true, cluster)
          else Ret (false, cluster)
      end
  end.

Section Scale.
Context `{RetryLib}.

Definition saveReplicasBeforeZero (cluster : RabbitmqCluster) (currentReplicas : Z)
  : prog (result ApiError RabbitmqCluster) :=
  do _ <- event_normal "ScaleDownToZero" "Cluster Scale down to 0 replicas" in
  updateAnnotation (rmq_Namespace cluster) (rmq_Name cluster) beforeZeroReplicasConfigured
    (Itoa currentReplicas).

(** The error of the removal is ignored; the annotation is gone from the
    object in memory either way. *)
Definition removeReplicasBeforeZeroAnnotationIfExists (cluster : RabbitmqCluster)
  : prog (RabbitmqCluster * bool) :=
  match smap_get (rmq_Annotations cluster) beforeZeroReplicasConfigured with
  | None => Ret (cluster, false)
  | Some _ =>
      do r <- deleteAnnotation cluster beforeZeroReplicasConfigured in
      match r with
      | Ok cluster' => Ret (cluster', true)
      | Err _ => Ret (rmq_with_meta (drop_annotation beforeZeroReplicasConfigured (rmq_Meta cluster)) cluster, false)
      end
  end.

(** ** reconcile_scale_down.go *)

Definition scaleDown (cluster : RabbitmqCluster) (currentReplicas desiredReplicas : Z)
  : prog (bool * RabbitmqCluster) :=
  if (currentReplicas >? desiredReplicas)%Z then
    let msg := "Cluster Scale down not supported; tried to scale cluster from " +:+ Itoa currentReplicas +:+
               " nodes to " +:+ Itoa desiredReplicas +:+ " nodes" in
    do cluster <- recordEventsAndSetCondition cluster "UnsupportedOperation" msg in
    Ret (true, cluster)
  else Ret (false, cluster).

(** ** The replica checks of [Reconcile]

    [inl] goes on with the cluster, and tells whether an answer of the server
    replaced the one in memory; [inr] returns from the reconcile. *)
Definition check_replicas (rmq : RabbitmqCluster) (current desired : StatefulSet)
  : prog ((RabbitmqCluster * bool) + StepResult) :=
  match replica_pair current desired with
  | None => Ret (inr (step_fail panic))
  | Some (c, d) =>
      do first <-
        (if ScaleToZero c d then
           do r <- saveReplicasBeforeZero rmq c in
           Ret (match r with Ok rmq' => inl (rmq', true) | Err e => inr (step_fail (ErrApi e)) end)
         else
           do r <- scaleDown rmq c d in
           Ret (if fst r : bool then inr step_ok else inl (snd r, false))) in
      match first with
      | inr s => Ret (inr s)
      | inl (rmq, replaced) =>
          if ScaleFromZero c d then
            do r <- scaleFromZeroToBeforeReplicasConfigured rmq d in
            if fst r : bool then Ret (inr step_ok)
            else
              do x <- removeReplicasBeforeZeroAnnotationIfExists (snd r) in
              Ret (inl (fst x, replaced || snd x))
          else Ret (inl (rmq, replaced))
      end
  end.

(** ** reconcile_persistence.go *)

(** [persistenceStorageCapacity] is the same search as the scaler's. *)
Definition persistenceStorageCapacity (templates : list PersistentVolumeClaim) : Quantity :=
  persistence_capacity templates.

Definition reconcilePVC (rmq : RabbitmqCluster) (desiredSts : StatefulSet) : prog (result string unit) :=
  let desiredCapacity := persistenceStorageCapacity (sp_VolumeClaimTemplates (sts_Spec desiredSts)) in
  do r <- Scale rmq desiredCapacity in
  match r with
  | Ok _ => Ret (Ok tt)
  | Err e =>
      do _ <- event_warning "FailedReconcilePersistence" ("Failed to scale PVCs: " +:+ e) in
      Ret (Err e)
  end.
End Scale.



(** ** Properties *)

Lemma replica_pair_some current desired c d :
  sp_Replicas (sts_Spec current) = Some c -> sp_Replicas (sts_Spec desired) = Some d ->
  replica_pair current desired = Some (c, d).
Proof. unfold replica_pair. by intros -> ->. Qed.

(** Recording an event and a condition: one status write. *)
Lemma recordEventsAndSetCondition_wp rmq reason msg h Q :
  (forall t st rmq', writes t = [PatchStatus st] ->
     (four_conditions rmq -> success_condition st = Some (ConditionFalse, reason, msg)) -> Q (h ++ t) rmq') ->
  wp (recordEventsAndSetCondition rmq reason msg) Q h.
Proof.
  intros HQ. unfold recordEventsAndSetCondition, event_warning, set_condition, patch_status.
  cbn [bind perform wp]. intros u now a. rewrite <- !(assoc_L (++)).
  destruct a; cbn [wp bind snd]; (apply HQ with (st := rmq_with_status
      (SetCondition now ReconcileSuccess ConditionFalse reason [msg] (rmq_Status rmq)) rmq); [done|]);
    intros H4; by apply SetCondition_success.
Qed.

Section Properties.
Context `{RetryLaws}.

(** C11. Scaling down is refused: when the StatefulSet would go from [c]
    replicas to a smaller number other than zero, the reconcile returns
    without an error and without a requeue, and its only write is the
    status with ReconcileSuccess False for an unsupported operation. *)
Theorem scale_down_refused (rmq : RabbitmqCluster) (current desired : StatefulSet) (c d : Z) :
  sp_Replicas (sts_Spec current) = Some c -> sp_Replicas (sts_Spec desired) = Some d ->
  (0 < d < c)%Z -> four_conditions rmq ->
  wp (check_replicas rmq current desired) (fun h r => r = inr step_ok /\
    exists st msg, writes h = [PatchStatus st] /\
      success_condition st = Some (ConditionFalse, "UnsupportedOperation", msg)) [].
Proof.
  intros Hc Hd Hlt H4. unfold check_replicas. rewrite (replica_pair_some _ _ _ _ Hc Hd).
  unfold ScaleToZero. rewrite (proj2 (Z.eqb_neq d 0)) by lia. cbn [andb].
  unfold scaleDown. rewrite Z.gtb_ltb, (proj2 (Z.ltb_lt d c)) by lia.
  rewrite !wp_bind. apply recordEventsAndSetCondition_wp. intros t st rmq' Hw Hs. cbn [wp bind fst app].
  split; [done|]. exists st. eexists. split; [done|by apply Hs].
Qed.

(** Without a scale down, and away from zero, nothing is checked or
    written. *)
Theorem scale_up_allowed (rmq : RabbitmqCluster) (current desired : StatefulSet) (c d : Z) :
  sp_Replicas (sts_Spec current) = Some c -> sp_Replicas (sts_Spec desired) = Some d ->
  (0 < c <= d)%Z \/ (c = 0 /\ d = 0)%Z ->
  wp (check_replicas rmq current desired) (fun h r => r = inl (rmq, false) /\ h = []) [].
Proof.
  intros Hc Hd Hcd. unfold check_replicas. rewrite (replica_pair_some _ _ _ _ Hc Hd).
  unfold ScaleToZero, ScaleFromZero, scaleDown. rewrite !Z.gtb_ltb.
  destruct (Z.eqb_spec d 0), (Z.ltb_spec 0 c), (Z.ltb_spec d c); try lia; cbn [andb bind wp fst snd];
    destruct (Z.eqb_spec c 0), (Z.ltb_spec 0 d); try lia; done.
Qed.

(** The write of the saved replica count. *)
Definition saves (n : Z) (c : call) : Prop :=
  match c with
  | UpdateCluster r => smap_get (rmq_Annotations r) beforeZeroReplicasConfigured = Some (Itoa n)
  | _ => False
  end.

Definition accepted (e : event) : bool :=
  match e with existT (UpdateCluster _) (Ok _) => true | _ => false end.

(** C12. Scaling to zero remembers the count: the reconcile goes on only after
    the server accepted a cluster annotated with the current number of
    replicas, and every write made is such an annotation. *)
Theorem scale_to_zero_saves (rmq : RabbitmqCluster) (current desired : StatefulSet) (c : Z) :
  sp_Replicas (sts_Spec current) = Some c -> sp_Replicas (sts_Spec desired) = Some 0%Z -> (0 < c)%Z ->
  wp (check_replicas rmq current desired) (fun h r =>
    Forall (saves c) (writes h) /\ (forall rmq', r = inl rmq' -> existsb accepted h = true)) [].
Proof.
  intros Hc Hd Hlt. unfold check_replicas. rewrite (replica_pair_some _ _ _ _ Hc Hd).
  unfold ScaleToZero, ScaleFromZero. rewrite !Z.gtb_ltb, (proj2 (Z.ltb_lt 0 c)) by lia. cbn [Z.eqb andb].
  rewrite (proj2 (Z.eqb_neq c 0)) by lia. cbn [andb].
  unfold saveReplicasBeforeZero, event_normal, updateAnnotation. cbn [bind perform wp app]. intros u.
  rewrite !wp_bind.
  apply (OnError_wp _ _ (fun h => Forall (saves c) (writes h))); [constructor|].
  intros h Hh. unfold annotate_once. cbn [ko_get ko_update kobj_cluster bind perform wp].
  intros a. destruct a as [r|e]; cbn [bind perform wp].
  - intros b. assert (Forall (saves c) (writes ((h ++ [Ev (GetCluster (rmq_Namespace rmq) (rmq_Name rmq)) (Ok r)]) ++
      [Ev (UpdateCluster (ko_with_meta (set_annotation beforeZeroReplicasConfigured (Itoa c) (ko_meta r)) r)) b]))) as Hw.
    { rewrite !writes_app. apply Forall_app_2; [apply Forall_app_2; [done|constructor]|].
      constructor; [|constructor]. cbn. by rewrite lookup_insert_eq. }
    destruct b as [r'|e]; cbn [bind wp fst].
    + split; [|done]. split; [done|]. intros _ _. by rewrite existsb_app, orb_true_r.
    + split; [by split|]. intros _. done.
  - assert (Forall (saves c) (writes (h ++ [Ev (GetCluster (rmq_Namespace rmq) (rmq_Name rmq)) (Err e)]))) as Hw.
    { rewrite writes_app. by apply Forall_app_2; [|constructor]. }
    split; [by split|done].
Qed.

(** C13. Scaling from zero restores the count that was saved: with the
    annotation written when the cluster went from [n] replicas to zero,
    the reconcile goes on exactly when [n] replicas are asked for, and the
    annotation is then removed; any other number is refused. *)
Theorem scale_from_zero_restores (rmq : RabbitmqCluster) (current desired : StatefulSet) (n d : Z) :
  sp_Replicas (sts_Spec current) = Some 0%Z -> sp_Replicas (sts_Spec desired) = Some d ->
  (0 < d)%Z -> (0 <= n < 2 ^ 31)%Z ->
  smap_get (rmq_Annotations rmq) beforeZeroReplicasConfigured = Some (Itoa n) ->
  wp (check_replicas rmq current desired) (fun h r =>
    if (d =? n)%Z then
      exists rmq' replaced, r = inl (rmq', replaced) /\
        writes h = [UpdateCluster (rmq_with_meta (drop_annotation beforeZeroReplicasConfigured (rmq_Meta rmq)) rmq)]
    else r = inr step_ok /\ exists st, writes h = [PatchStatus st]) [].
Proof.
  intros Hc Hd Hlt Hn Ha. unfold check_replicas. rewrite (replica_pair_some _ _ _ _ Hc Hd).
  unfold ScaleToZero, ScaleFromZero, scaleDown. rewrite !Z.gtb_ltb.
  rewrite (proj2 (Z.eqb_neq d 0)), (proj2 (Z.ltb_ge d 0)), (proj2 (Z.ltb_lt 0 d)) by lia.
  cbn [andb bind wp fst snd Z.eqb]. unfold scaleFromZeroToBeforeReplicasConfigured.
  rewrite Ha, (ParseInt32_Itoa n Hn). destruct (Z.eqb_spec d n) as [->|Hne]; cbn [negb].
  - cbn [bind wp fst snd]. unfold removeReplicasBeforeZeroAnnotationIfExists. rewrite Ha.
    unfold deleteAnnotation. cbn [ko_meta ko_update ko_with_meta kobj_cluster].
    unfold rmq_Annotations in Ha. destruct (om_Annotations (rmq_Meta rmq)) as [m|]; [|done].
    cbn [bind perform wp app]. intros a. destruct a as [r|e]; cbn [bind wp]; by do 2 eexists.
  - rewrite !wp_bind. apply recordEventsAndSetCondition_wp. intros t st rmq' Hw _. cbn [bind wp fst app].
    split; [done|]. by exists st.
Qed.
End Properties.
