(* ===== verification/Client.v ===== *)
(** * Clients of the RabbitMQ management API

    internal/rabbitmqclient/client.go and factory.go: where the controllers
    send their management requests, with which credentials and how long they
    wait.  The certificate pool of crypto/x509 and the constructors of the
    rabbit-hole client are a class. *)

From S2P Require Import Prelude.
From S2P Require Import K8s.
From S2P Require Import Metadata.
From S2P Require Import Status.
From S2P Require Import Api.
From S2P Require Import Services.
From S2P Require Import ServerConf.
From S2P Require Import PodTemplate.
From S2P Require Import ResourceBuilder.
From S2P Require Import Kube.
From S2P Require Import Controller.
From S2P Require Import Tls.

(** The libraries clients are made with: the certificate pools of crypto/x509
    and the constructors of rabbit-hole. *)
Class ClientLib : Type := {
  SystemCertPool : result string unit;
  AppendCertsFromPEM : string -> bool;
  NewClient : string -> string -> string -> result string RabbitmqClient;
  NewTLSClient : string -> string -> string -> option Transport -> result string RabbitmqClient
}.

(** A constructor that succeeds gives a client with its arguments. *)
Class ClientLibLaws `{ClientLib} : Prop := {
  NewClient_ok url user pass c :
    NewClient url user pass = Ok c -> exists t, c = mkClient url user pass None t;
  NewTLSClient_ok url user pass tr c :
    NewTLSClient url user pass tr = Ok c -> exists t, c = mkClient url user pass tr t
}.

Record ClientInfo := mkClientInfo {
  ci_BaseURL : string;
  ci_Username : string;
  ci_Password : string;
  ci_Transport : option Transport;
}.

Definition servicePortNameManagement : string := "management".
Definition servicePortNameManagementTLS : string := "management-tls".

Definition readDefaultUserCredentials (rmq : RabbitmqCluster) : prog (result string (string * string)) :=
  let secretName := ChildResourceName rmq "default-user" in
  do r <- perform (GetSecret (rmq_Namespace rmq) secretName) in
  match r with
  | Err e => Ret (Err ("failed to get default user secret: " +:+ error_text e))
  | Ok secret =>
      match smap_get (sec_Data secret) "username" with
      | None => Ret (Err ("username not found in secret " +:+ secretName))
      | Some u =>
          match smap_get (sec_Data secret) "password" with
          | None => Ret (Err ("password not found in secret " +:+ secretName))
          | Some p => Ret (Ok (u, p))
          end
      end
  end.

Section Client.
Context `{ClientLib}.

Definition managementHTTPSTransport (rmq : RabbitmqCluster) (serverName : string)
  : prog (result string (option Transport)) :=
  if negb (DisableNonTLSListeners rmq) then Ret (Ok None)
  else
    match SystemCertPool with
    | Err e => Ret (Err ("failed to get system cert pool: " +:+ e))
    | Ok _ =>
        let caSecretName := tls_CaSecretName (spec_TLS (rmq_Spec rmq)) in
        if negb (str_eqb caSecretName "") then
          do r <- perform (GetSecret (rmq_Namespace rmq) caSecretName) in
          match r with
          | Err e => Ret (Err ("failed to get CA secret: " +:+ error_text e))
          | Ok caSecret =>
              match smap_get (sec_Data caSecret) "ca.crt" with
              | None => Ret (Err ("CA certificate not found in secret " +:+ caSecretName))
              | Some caCert =>
                  if AppendCertsFromPEM caCert
                  then Ret (Ok (Some (mkTransport serverName (Some caCert))))
                  else Ret (Err "failed to append CA certificate to cert pool")
              end
          end
        else Ret (Ok (Some (mkTransport serverName None)))
    end.

Definition managementPortFromService (svc : Service) (tlsOnly : bool) : result string Z :=
  let portName := if tlsOnly then servicePortNameManagementTLS else servicePortNameManagement in
  match find_first (fun p => str_eqb (port_Name p) portName) (svc_Ports (svc_Spec svc)) with
  | Some p => Ok (port_Port p)
  | None => Err ("port " +:+ quoted portName +:+ " not found on service " +:+ om_Name (svc_Meta svc))
  end.

Definition base_url (scheme host : string) (port : Z) : string :=
  scheme +:+ "://" +:+ host +:+ ":" +:+ Itoa port.

Definition getClientInfoForPod (rmq : RabbitmqCluster) (podName : string) : prog (result string ClientInfo) :=
  do creds <- readDefaultUserCredentials rmq in
  match creds with
  | Err e => Ret (Err e)
  | Ok (username, password) =>
      let podFQDN := podName +:+ "." +:+ ChildResourceName rmq "nodes" +:+ "." +:+ rmq_Namespace rmq +:+ ".svc" in
      if DisableNonTLSListeners rmq then
        do t <- managementHTTPSTransport rmq podFQDN in
        match t with
        | Err e => Ret (Err e)
        | Ok transport => Ret (Ok (mkClientInfo (base_url "https" podFQDN 15671) username password transport))
        end
      else Ret (Ok (mkClientInfo (base_url "http" podFQDN 15672) username password None))
  end.

Definition getClientInfoForService (rmq : RabbitmqCluster) : prog (result string ClientInfo) :=
  do creds <- readDefaultUserCredentials rmq in
  match creds with
  | Err e => Ret (Err e)
  | Ok (username, password) =>
      do s <- perform (GetService (rmq_Namespace rmq) (ChildResourceName rmq "")) in
      match s with
      | Err e => Ret (Err ("failed to get rabbitmq service: " +:+ error_text e))
      | Ok svc =>
          let tlsOnly := DisableNonTLSListeners rmq in
          match managementPortFromService svc tlsOnly with
          | Err e => Ret (Err e)
          | Ok svcPort =>
              let serviceHost := om_Name (svc_Meta svc) +:+ "." +:+ rmq_Namespace rmq +:+ ".svc" in
              if tlsOnly then
                do t <- managementHTTPSTransport rmq serviceHost in
                match t with
                | Err e => Ret (Err e)
                | Ok transport =>
                    Ret (Ok (mkClientInfo (base_url "https" serviceHost svcPort) username password transport))
                end
              else Ret (Ok (mkClientInfo (base_url "http" serviceHost svcPort) username password None))
          end
      end
  end.

Definition SetTimeout (timeout : Z) (c : RabbitmqClient) : RabbitmqClient :=
  mkClient (cl_BaseURL c) (cl_Username c) (cl_Password c) (cl_Transport c) timeout.

(** one minute, in milliseconds *)
Definition managementAPITimeout : Z := 60000.

Definition newRabbitholeClientFromInfo (rmq : RabbitmqCluster) (info : ClientInfo) : result string RabbitmqClient :=
  if DisableNonTLSListeners rmq then
    try rabbitmqClient := NewTLSClient (ci_BaseURL info) (ci_Username info) (ci_Password info) (ci_Transport info) in
    Ok (SetTimeout managementAPITimeout rabbitmqClient)
  else
    try rabbitmqClient := NewClient (ci_BaseURL info) (ci_Username info) (ci_Password info) in
    Ok (SetTimeout managementAPITimeout rabbitmqClient).

Definition GetClientForPod (rmq : RabbitmqCluster) (podName : string) : prog (result string RabbitmqClient) :=
  do info <- getClientInfoForPod rmq podName in
  Ret (match info with
       | Err e => Err ("failed to get client info for pod: " +:+ e)
       | Ok info => newRabbitholeClientFromInfo rmq info
       end).

Definition GetClientForService (rmq : RabbitmqCluster) : prog (result string RabbitmqClient) :=
  do info <- getClientInfoForService rmq in
  Ret (match info with
       | Err e => Err ("failed to get client info for service: " +:+ e)
       | Ok info => newRabbitholeClientFromInfo rmq info
       end).
End Client.

(** ** Lemmas and properties *)

Section Properties.
Context `{ClientLib}.

(** The transport exists exactly for TLS-only clusters, and verifies the
    host it is given. *)
Lemma managementHTTPSTransport_wp rmq name h :
  wp (managementHTTPSTransport rmq name) (fun h' r =>
    (exists t, h' = h ++ t /\ writes t = []) /\
    forall o, r = Ok o ->
      if DisableNonTLSListeners rmq then exists t, o = Some t /\ tr_ServerName t = name else o = None) h.
Proof.
  unfold managementHTTPSTransport. destruct (DisableNonTLSListeners rmq); cbn [negb].
  2:{ cbn [wp]. split; [exists []; by rewrite app_nil_r|]. by intros o [= <-]. }
  destruct SystemCertPool; [|cbn [wp]; by split; [exists []; rewrite app_nil_r|]].
  destruct (negb _); cbn [bind perform wp].
  2:{ split; [exists []; by rewrite app_nil_r|]. intros o [= <-]. by eexists. }
  intros s. destruct s as [s|e]; cbn [wp]; [|by split; [eexists|]].
  destruct (smap_get _ _); cbn [wp]; [|by split; [eexists|]].
  destruct (AppendCertsFromPEM _); cbn [wp]; [|by split; [eexists|]].
  split; [by eexists|]. intros o [= <-]. by eexists.
Qed.

(** Management requests to a pod go to the pod's name in the headless
    Service: over HTTPS on port 15671, verifying that name, exactly when the
    non-TLS listeners are disabled, and over HTTP on port 15672 otherwise;
    nothing is written. *)
Theorem getClientInfoForPod_scheme (rmq : RabbitmqCluster) (podName : string) :
  let host := podName +:+ "." +:+ ChildResourceName rmq headlessServiceSuffix +:+ "." +:+
              rmq_Namespace rmq +:+ ".svc" in
  wp (getClientInfoForPod rmq podName) (fun h r => writes h = [] /\
    forall info, r = Ok info ->
      if DisableNonTLSListeners rmq
      then ci_BaseURL info = "https://" +:+ host +:+ ":15671" /\
           exists t, ci_Transport info = Some t /\ tr_ServerName t = host
      else ci_BaseURL info = "http://" +:+ host +:+ ":15672" /\ ci_Transport info = None) [].
Proof.
  cbn zeta. unfold getClientInfoForPod, readDefaultUserCredentials, headlessServiceSuffix.
  cbn [bind perform wp app]. intros s. destruct s as [s|e]; cbn [bind wp]; [|done].
  destruct (smap_get (sec_Data s) "username"); cbn [bind wp]; [|done].
  destruct (smap_get (sec_Data s) "password"); cbn [bind wp]; [|done].
  destruct (DisableNonTLSListeners rmq) eqn:Ed; cbn [bind wp].
  2:{ split; [done|]. by intros info [= <-]. }
  rewrite wp_bind. eapply wp_mono; [|apply managementHTTPSTransport_wp].
  intros h r [(t & -> & Hw) Hr]. rewrite Ed in Hr. destruct r as [o|e]; cbn [wp].
  - split; [done|]. intros info [= <-]. split; [done|]. by destruct (Hr o eq_refl) as (tr & -> & <-); exists tr.
  - done.
Qed.

Lemma find_port_name ps name :
  name ∈ map port_Name ps ->
  exists p, find_first (fun p => str_eqb (port_Name p) name) ps = Some p /\ p ∈ ps /\ port_Name p = name.
Proof.
  intros (p0 & -> & Hin)%list_elem_of_fmap. unfold find_first.
  destruct (List.find _ ps) as [p|] eqn:E.
  - exists p. apply find_some in E as [Hp E%str_eqb_spec]. split; [done|]. split; [by apply list_elem_of_In|done].
  - pose proof (find_none _ _ E p0 (proj1 (list_elem_of_In _ _) Hin)) as Hn. cbn in Hn.
    by rewrite (proj2 (str_eqb_spec _ _) eq_refl) in Hn.
Qed.

Definition management_port (tlsOnly : bool) : string * Z :=
  if tlsOnly then (servicePortNameManagementTLS, 15671%Z) else (servicePortNameManagement, 15672%Z).

Lemma management_port_generated instance :
  (DisableNonTLSListeners instance = true -> TLSEnabled instance = true) ->
  let np := management_port (DisableNonTLSListeners instance) in
  option_map port_Port (generateServicePortsMap instance !! fst np) = Some (snd np).
Proof.
  intros Htls. unfold generateServicePortsMap.
  destruct (DisableNonTLSListeners instance), (TLSEnabled instance);
    [|specialize (Htls eq_refl); discriminate| |]; PodTemplate.port_cases instance; by vm_compute.
Qed.

(** The Service the operator maintains has the management port the client
    looks for, with the number of its listener. *)
Theorem management_port_found (instance : RabbitmqCluster) (svc : Service)
    (iter : gmap string ServicePort -> list (string * ServicePort)) (old : list ServicePort) :
  (forall m, iter m ≡ₚ map_to_list m) ->
  (DisableNonTLSListeners instance = true -> TLSEnabled instance = true) ->
  svc_Ports (svc_Spec svc) = updatePorts iter instance old ->
  managementPortFromService svc (DisableNonTLSListeners instance) =
    Ok (if DisableNonTLSListeners instance then 15671%Z else 15672%Z).
Proof.
  intros Hperm Htls Hports. unfold managementPortFromService. rewrite Hports.
  destruct (updatePorts_facts iter Hperm instance old) as (_ & D & P).
  pose proof (management_port_generated instance Htls) as Hm. cbn zeta in Hm.
  destruct (generateServicePortsMap instance !! fst _) as [q|] eqn:Eq; [|done]. injection Hm as Hq.
  destruct (find_port_name (updatePorts iter instance old) (fst (management_port (DisableNonTLSListeners instance))))
    as (p & Hp & Hin & Hn); [by apply D; eapply elem_of_dom_2|].
  destruct (P p Hin) as (q' & Hq' & Hpq). rewrite Hn, Eq in Hq'. injection Hq' as <-.
  assert (port_Port p = port_Port q) as Hpp by (rewrite Hpq; done).
  destruct (DisableNonTLSListeners instance); cbn [management_port fst snd] in *; rewrite Hp, Hpp; by rewrite Hq.
Qed.
End Properties.
