(* ===== verification/Quorum.v ===== *)
(** * Status: default user, quorum, deprecated features

    internal/controller/reconcile_status.go and
    deprecated_feature_controller.go.  The goroutines of the quorum check
    send their results on a channel: [arrival] is the order in which they
    arrive, any permutation. *)

From S2P Require Import Prelude.
From S2P Require Import K8s.
From S2P Require Import Metadata.
From S2P Require Import Status.
From S2P Require Import Api.
From S2P Require Import Services.
From S2P Require Import Secrets.
From S2P Require Import ServerConf.
From S2P Require Import PodTemplate.
From S2P Require Import ResourceBuilder.
From S2P Require Import Kube.
From S2P Require Import Controller.
From S2P Require Import Tls.
From S2P Require Import Client.

(** ** reconcileStatus *)

Definition default_user_status (rmq : RabbitmqCluster) : RabbitmqClusterDefaultUser :=
  mkDefaultUser
    (if negb (VaultDefaultUserSecretEnabled rmq) then
       Some (mkSecRef (ChildResourceName rmq DefaultUserSecretName) (rmq_Namespace rmq)
               (<["username" := "username"]> {["password" := "password"]}))
     else None)
    (Some (mkSvcRef (ChildResourceName rmq "") (rmq_Namespace rmq))).

Definition binding_status (rmq : RabbitmqCluster) : option string :=
  if negb (VaultDefaultUserSecretEnabled rmq) then
    if negb (ExternalSecretEnabled rmq) then Some (ChildResourceName rmq DefaultUserSecretName)
    else Some (sb_ExternalSecret_Name (spec_SecretBackend (rmq_Spec rmq)))
  else None.

Definition with_default_user (rmq : RabbitmqCluster) : RabbitmqCluster :=
  let st := rmq_Status rmq in
  rmq_with_status
    (mkStatus (st_Conditions st) (Some (default_user_status rmq)) (binding_status rmq)
       (st_ObservedGeneration st) (st_QuorumStatus st) (st_DeprecatedFeaturesUsed st)) rmq.

Definition reconcileStatus (rmq : RabbitmqCluster) : prog (result RErr unit * RabbitmqCluster) :=
  if decide (st_DefaultUser (rmq_Status rmq) = Some (default_user_status rmq) /\
             st_Binding (rmq_Status rmq) = binding_status rmq)
  then Ret (Ok tt, rmq)
  else
    do p <- patch_status (with_default_user rmq) in
    Ret (map_err ErrApi (fst p), snd p).

(** ** The quorum check *)

Inductive NodeStatus := NodeOk | NodeQuorumCritical | NodeUnavailable.

#[export] Instance NodeStatus_eq_dec : EqDecision NodeStatus.
Proof. solve_decision. Defined.

Record nodeQuorumCheck := mkNodeCheck { nq_podName : string; nq_status : NodeStatus }.

Section Quorum.
Context `{ClientLib} (arrival : list nodeQuorumCheck -> list nodeQuorumCheck).

Definition getPodEndpoints (rmq : RabbitmqCluster) : prog (result string (list Endpoint)) :=
  do l <- perform (ListEndpointSlices (rmq_Namespace rmq) (rmq_Name rmq)) in
  match l with
  | Err e => Ret (Err ("failed to list endpoint slices: " +:+ error_text e))
  | Ok [] => Ret (Err ("no endpoint slices found for cluster " +:+ rmq_Name rmq))
  | Ok (slice :: _) => Ret (Ok slice)
  end.

Definition checkNodeQuorumStatus (rmq : RabbitmqCluster) (podName : string) : prog nodeQuorumCheck :=
  do c <- GetClientForPod rmq podName in
  match c with
  | Err _ => Ret (mkNodeCheck podName NodeUnavailable)
  | Ok rabbitClient =>
      do r <- perform (HealthCheckNodeIsQuorumCritical rabbitClient) in
      match r with
      | Err _ => Ret (mkNodeCheck podName NodeUnavailable)
      | Ok true => Ret (mkNodeCheck podName NodeOk)
      | Ok false => Ret (mkNodeCheck podName NodeQuorumCritical)
      end
  end.

Definition endpoint_pod (e : Endpoint) : string :=
  match ep_Hostname e with
  | Some h => if negb (str_eqb h "") then h
              else match ep_TargetRefName e with
                   | Some t => if negb (str_eqb t "") then t else "unknown"
                   | None => "unknown"
                   end
  | None => match ep_TargetRefName e with
            | Some t => if negb (str_eqb t "") then t else "unknown"
            | None => "unknown"
            end
  end.

Fixpoint check_all (rmq : RabbitmqCluster) (endpoints : list Endpoint) : prog (list nodeQuorumCheck) :=
  match endpoints with
  | [] => Ret []
  | e :: rest =>
      do r <- checkNodeQuorumStatus rmq (endpoint_pod e) in
      do rs <- check_all rmq rest in
      Ret (r :: rs)
  end.

Definition with_status (s : NodeStatus) (results : list nodeQuorumCheck) : list nodeQuorumCheck :=
  List.filter (fun r => bool_decide (nq_status r = s)) results.

(** The aggregation of the results in the order they are received. *)
Definition aggregate (results : list nodeQuorumCheck) : string :=
  let criticalPods := map nq_podName (with_status NodeQuorumCritical results) in
  let unavailableCount := Z.of_nat (length (with_status NodeUnavailable results)) in
  let okCount := Z.of_nat (length (with_status NodeOk results)) in
  if negb (bool_decide (criticalPods = [])) then
    let status := "quorum-critical: " +:+ Join criticalPods ", " in
    if (unavailableCount >? 0)%Z
    then status +:+ " (" +:+ Itoa unavailableCount +:+ " unavailable)" else status
  else if (okCount >? 0)%Z then
    if (unavailableCount >? 0)%Z then "ok (" +:+ Itoa unavailableCount +:+ " unavailable)" else "ok"
  else "unavailable".

Definition checkQuorumStatus (rmq : RabbitmqCluster) : prog string :=
  do r <- getPodEndpoints rmq in
  match r with
  | Err _ => Ret "unavailable"
  | Ok [] => Ret "unavailable"
  | Ok endpoints =>
      do results <- check_all rmq endpoints in
      Ret (aggregate (arrival results))
  end.

Definition with_quorum (s : string) (rmq : RabbitmqCluster) : RabbitmqCluster :=
  let st := rmq_Status rmq in
  rmq_with_status
    (mkStatus (st_Conditions st) (st_DefaultUser st) (st_Binding st) (st_ObservedGeneration st) s
       (st_DeprecatedFeaturesUsed st)) rmq.

Definition updateQuorumStatus (rmq : RabbitmqCluster) : prog (result string unit * RabbitmqCluster) :=
  do newStatus <- checkQuorumStatus rmq in
  if str_eqb (st_QuorumStatus (rmq_Status rmq)) newStatus then Ret (Ok tt, rmq)
  else
    do p <- patch_status (with_quorum newStatus rmq) in
    match fst p with
    | Ok _ => Ret (Ok tt, snd p)
    | Err e => Ret (if IsConflict e then Ok tt
                    else Err ("failed to update quorum status: " +:+ error_text e), snd p)
    end.

(** ** deprecated_feature_controller.go *)

Definition with_deprecated (features : list string) (rmq : RabbitmqCluster) : RabbitmqCluster :=
  let st := rmq_Status rmq in
  rmq_with_status
    (mkStatus (st_Conditions st) (st_DefaultUser st) (st_Binding st) (st_ObservedGeneration st)
       (st_QuorumStatus st) features) rmq.

Definition deprecated_Reconcile (interval : Z) (namespace name : string) : prog StepResult :=
  do r <- perform (GetCluster namespace name) in
  match r with
  | Err e => Ret (if IsNotFound e then step_ok
                  else step_fail (ErrText ("failed to get RabbitmqCluster: " +:+ error_text e)))
  | Ok rmq =>
      let requeueResult := step_requeue interval in
      do c <- GetClientForService rmq in
      match c with
      | Err _ => Ret requeueResult
      | Ok rabbitClient =>
          do l <- perform (ListDeprecatedFeaturesUsed rabbitClient) in
          match l with
          | Err _ => Ret requeueResult
          | Ok features =>
              if decide (st_DeprecatedFeaturesUsed (rmq_Status rmq) = features) then Ret requeueResult
              else
                do p <- patch_status (with_deprecated features rmq) in
                match fst p with
                | Ok _ => Ret requeueResult
                | Err e =>
                    if IsConflict e then Ret requeueResult
                    else Ret (step_fail (ErrText ("failed to update deprecated features status: " +:+ error_text e)))
                end
          end
      end
  end.
End Quorum.

(** ** Properties of the aggregation *)

Lemma with_status_perm s rs rs' : rs ≡ₚ rs' -> with_status s rs ≡ₚ with_status s rs'.
Proof.
  unfold with_status. induction 1 as [|r rs rs' _ IH|r1 r2 rs|rs1 rs2 rs3 _ IH1 _ IH2]; cbn; try done.
  - destruct (bool_decide _); [by constructor|done].
  - destruct (bool_decide _), (bool_decide _); try done. constructor.
  - by etrans.
Qed.

Lemma with_status_nil s rs : with_status s rs = [] <-> Forall (fun r => nq_status r <> s) rs.
Proof.
  unfold with_status. induction rs as [|r rs IH]; cbn; [by split|].
  rewrite Forall_cons. destruct (bool_decide _) eqn:E.
  - apply bool_decide_eq_true in E. split; [done|]. by intros [? _].
  - apply bool_decide_eq_false in E. rewrite IH. tauto.
Qed.

Lemma Itoa_count_pos {A} (l : list A) : (Z.of_nat (length l) >? 0)%Z = negb (bool_decide (l = [])).
Proof. destruct l; [done|]. rewrite bool_decide_eq_false_2 by done. apply Z.gtb_lt. cbn. lia. Qed.

(** The three shapes of the aggregated status. *)
Lemma aggregate_critical rs :
  with_status NodeQuorumCritical rs <> [] -> exists t, aggregate rs = "quorum-critical: " +:+ t.
Proof.
  intros Hc. unfold aggregate. rewrite bool_decide_eq_false_2.
  2:{ intros E. apply Hc. by apply map_eq_nil in E. }
  cbn [negb]. destruct (_ >? 0)%Z; [rewrite str_app_assoc|]; by eexists.
Qed.

Lemma aggregate_not_critical rs :
  with_status NodeQuorumCritical rs = [] ->
  aggregate rs =
  if negb (bool_decide (with_status NodeOk rs = [])) then
    if negb (bool_decide (with_status NodeUnavailable rs = []))
    then "ok (" +:+ Itoa (Z.of_nat (length (with_status NodeUnavailable rs))) +:+ " unavailable)" else "ok"
  else "unavailable".
Proof.
  intros Hc. unfold aggregate. rewrite Hc, !Itoa_count_pos. done.
Qed.

Lemma status_cases rs :
  with_status NodeQuorumCritical rs = [] -> with_status NodeOk rs = [] ->
  Forall (fun r => nq_status r = NodeUnavailable) rs.
Proof.
  rewrite !with_status_nil. induction 1 as [|r rs H1 _ IH]; [constructor|].
  intros [H2 H3]%Forall_cons. constructor; [|auto]. by destruct (nq_status r).
Qed.

Lemma critical_exists rs :
  with_status NodeQuorumCritical rs <> [] <-> Exists (fun r => nq_status r = NodeQuorumCritical) rs.
Proof.
  rewrite with_status_nil. induction rs as [|r rs IH].
  - split; [intros H; by destruct H|intros H; by inversion H].
  - rewrite Forall_cons, Exists_cons. destruct (decide (nq_status r = NodeQuorumCritical)); tauto.
Qed.

(** The quorum status: it names a node exactly when some node reported that
    it is quorum critical, it is unavailable exactly when no node answered,
    and it is otherwise ok, with the number of nodes that did not answer; and
    when no node is critical it does not depend on the order in which the
    answers arrive. *)
Theorem aggregate_spec (results : list nodeQuorumCheck) :
  let critical := Exists (fun r => nq_status r = NodeQuorumCritical) results in
  (HasPrefix (aggregate results) "quorum-critical: " = true <-> critical) /\
  (aggregate results = "unavailable" <-> Forall (fun r => nq_status r = NodeUnavailable) results) /\
  (aggregate results = "ok" <-> results <> [] /\ Forall (fun r => nq_status r = NodeOk) results) /\
  (forall results', results' ≡ₚ results -> ~ critical -> aggregate results' = aggregate results).
Proof.
  cbn zeta. rewrite <- critical_exists.
  destruct (decide (with_status NodeQuorumCritical results = [])) as [Hc|Hc].
  - pose proof (aggregate_not_critical _ Hc) as E.
    assert (HasPrefix (aggregate results) "quorum-critical: " = false) as Hp.
    { rewrite E. destruct (negb _); [destruct (negb _)|]; done. }
    split; [rewrite Hp; by split|].
    split; [|split].
    + rewrite E. destruct (bool_decide_reflect (with_status NodeOk results = [])) as [Ho|Ho]; cbn [negb].
      * split; [|done]. intros _. by apply status_cases.
      * split; [destruct (negb (bool_decide _)); intros E'; discriminate E'|]. intros HF. destruct Ho. apply with_status_nil.
        eapply Forall_impl; [exact HF|]. by intros r ->.
    + rewrite E. destruct (bool_decide_reflect (with_status NodeOk results = [])) as [Ho|Ho]; cbn [negb].
      * split; [done|]. intros [Hne HF]. destruct Hne. apply with_status_nil in Ho.
        destruct results as [|r rs]; [done|]. apply Forall_cons in HF, Ho. tauto.
      * destruct (bool_decide_reflect (with_status NodeUnavailable results = [])) as [Hu|Hu]; cbn [negb].
        -- split; [|done]. intros _. split; [by intros ->|].
           apply with_status_nil in Hc, Hu. rewrite Forall_forall in *. intros r Hr.
           specialize (Hc r Hr). specialize (Hu r Hr). by destruct (nq_status r).
        -- split; [intros E'; discriminate E'|]. intros [_ HF]. destruct Hu. apply with_status_nil.
           eapply Forall_impl; [exact HF|]. by intros r ->.
    + intros rs' Hperm _. rewrite E, aggregate_not_critical.
      * pose proof (Permutation_length (with_status_perm NodeUnavailable _ _ Hperm)) as Hu.
        pose proof (Permutation_length (with_status_perm NodeOk _ _ Hperm)) as Ho.
        rewrite Hu. destruct (with_status NodeUnavailable rs'), (with_status NodeUnavailable results),
          (with_status NodeOk rs'), (with_status NodeOk results); done.
      * apply Permutation_nil. by rewrite <- Hc, (with_status_perm NodeQuorumCritical _ _ Hperm).
  - destruct (aggregate_critical _ Hc) as [t E]. rewrite E, HasPrefix_app.
    split; [by split|]. split; [|split; [|intros ? _ Hn; destruct Hn; by apply critical_exists]].
    + split; [intros E'; discriminate E'|]. intros HF. destruct Hc. apply with_status_nil.
      eapply Forall_impl; [exact HF|]. by intros r ->.
    + split; [intros E'; discriminate E'|]. intros [_ HF]. destruct Hc. apply with_status_nil.
      eapply Forall_impl; [exact HF|]. by intros r ->.
Qed.

(** ** Where the status points *)

(** With an external secret the status gives two different names for the
    default user's Secret: the binding names the external one, the secret
    reference names a Secret the operator does not build. *)
Theorem external_secret_reference `{Semver} (rmq : RabbitmqCluster) :
  ExternalSecretEnabled rmq = true -> VaultDefaultUserSecretEnabled rmq = false ->
  binding_status rmq = Some (sb_ExternalSecret_Name (spec_SecretBackend (rmq_Spec rmq))) /\
  option_map sr_Name (du_SecretReference (default_user_status rmq)) =
    Some (ChildResourceName rmq DefaultUserSecretName) /\
  DefaultUserSecretBuilder ∉ ResourceBuilders rmq.
Proof.
  intros He Hv. unfold binding_status, default_user_status. rewrite He, Hv. split; [done|]. split; [done|].
  rewrite builder_in. by rewrite He, Hv.
Qed.
