(* ===== verification/PostDeploy.v ===== *)
(** * Configuration restarts and post-deploy commands

    internal/controller/reconcile_rabbitmq_configurations.go and
    reconcile_cli.go. *)

From S2P Require Import Prelude.
From S2P Require Import K8s.
From S2P Require Import Metadata.
From S2P Require Import Status.
From S2P Require Import Api.
From S2P Require Import Plugins.
From S2P Require Import Services.
From S2P Require Import ServerConf.
From S2P Require Import PodTemplate.
From S2P Require Import ResourceBuilder.
From S2P Require Import Kube.
From S2P Require Import Controller.
From S2P Require Import Client.

(** [time.Format(RFC3339)] and [time.Parse(RFC3339, s)] on instants in
    milliseconds. *)
Class Rfc3339 : Type := {
  format_time : Z -> string;
  parse_time : string -> result string Z
}.

Definition pluginsUpdateAnnotation : string := "rabbitmq.com/pluginsUpdatedAt".
Definition serverConfAnnotation : string := "rabbitmq.com/serverConfUpdatedAt".
Definition stsRestartAnnotation : string := "rabbitmq.com/lastRestartAt".
Definition stsCreateAnnotation : string := "rabbitmq.com/createdAt".
Definition queueRebalanceAnnotation : string := "rabbitmq.com/queueRebalanceNeededAt".

(** Go's [>] on strings. *)
Definition str_gtb (a b : string) : bool :=
  match String.compare a b with Gt => true | _ => false end.

Definition cluster_nonempty_annotation (m : ObjectMeta) (key : string) : bool :=
  negb (str_eqb (default "" (smap_get (om_Annotations m) key)) "").

Section PostDeploy.
Context `{Rfc3339} `{RetryLib} `{ClientLib}.

(** ** annotateIfNeeded *)

(** What to annotate after a builder's object was written: the kind of the
    object (a ConfigMap when [true], the StatefulSet when [false]), its
    name and the key. *)
Definition annotation_target (rmq : RabbitmqCluster) (b : ResourceBuilder)
    (operationResult : OperationResult) : option (bool * string * string) :=
  match b with
  | RabbitmqPluginsConfigMapBuilder =>
      if negb (bool_decide (operationResult = OperationResultUpdated)) then None
      else Some (true, ChildResourceName rmq PluginsConfigName, pluginsUpdateAnnotation)
  | ServerConfigMapBuilder UpdateRequiresStsRestart =>
      if negb (bool_decide (operationResult = OperationResultUpdated)) || negb UpdateRequiresStsRestart
      then None
      else Some (true, ChildResourceName rmq ServerConfigMapName, serverConfAnnotation)
  | StatefulSetBuilder =>
      if negb (bool_decide (operationResult = OperationResultCreated)) then None
      else Some (false, ChildResourceName rmq "server", stsCreateAnnotation)
  | _ => None
  end.

Definition annotate_target (rmq : RabbitmqCluster) (isConfigMap : bool) (objName key value : string)
  : prog (result ApiError unit) :=
  if isConfigMap then
    do r <- updateAnnotation (T := ConfigMap) (rmq_Namespace rmq) objName key value in
    Ret (try _ := r in Ok tt)
  else
    do r <- updateAnnotation (T := StatefulSet) (rmq_Namespace rmq) objName key value in
    Ret (try _ := r in Ok tt).

Definition annotateIfNeeded (rmq : RabbitmqCluster) (b : ResourceBuilder)
    (operationResult : OperationResult) : prog (result ApiError unit) :=
  match annotation_target rmq b operationResult with
  | None => Ret (Ok tt)
  | Some (isConfigMap, objName, annotationKey) =>
      do now <- perform Now in
      do r <- annotate_target rmq isConfigMap objName annotationKey (format_time now) in
      match r with
      | Ok _ => Ret (Ok tt)
      | Err e => do _ <- event_warning "FailedUpdate" ("failed to annotate " +:+ objName) in Ret (Err e)
      end
  end.

(** ** restartStatefulSetIfNeeded *)

Definition with_template_annotation (key value : string) (s : StatefulSet) : StatefulSet :=
  let t := sp_Template (sts_Spec s) in
  mkSts (sts_Meta s)
    (mkStsSpec (sp_Replicas (sts_Spec s)) (sp_Selector (sts_Spec s))
       (mkPodTemplate (set_annotation key value (pt_Meta t)) (pt_Spec t))
       (sp_VolumeClaimTemplates (sts_Spec s)) (sp_ServiceName (sts_Spec s))
       (sp_PodManagementPolicy (sts_Spec s)) (sp_UpdateStrategy (sts_Spec s))
       (sp_MinReadySeconds (sts_Spec s)) (sp_PVCRetentionPolicy (sts_Spec s)))
    (sts_Status s).

(** one attempt of the retry loop *)
Definition restart_once (rmq : RabbitmqCluster) : prog (result ApiError StatefulSet) :=
  do r <- statefulSet rmq in
  match r with
  | Err e => Ret (Err e)
  | Ok sts =>
      do now <- perform Now in
      perform (UpdateSts (with_template_annotation stsRestartAnnotation (format_time now) sts))
  end.

(** [return 10 * time.Second, client.IgnoreNotFound(err)] *)
Definition requeue_unless_error (e : ApiError) : StepResult :=
  mkStep 10000 (if IsNotFound e then None else Some (ErrApi e)).

Definition needs_restart (serverConfigUpdatedAt : string) (sts : StatefulSet) : bool :=
  match smap_get (om_Annotations (pt_Meta (sp_Template (sts_Spec sts)))) stsRestartAnnotation with
  | Some stsRestartedAt => negb (str_gtb stsRestartedAt serverConfigUpdatedAt)
  | None => true
  end.

Definition restartStatefulSetIfNeeded (rmq : RabbitmqCluster) : prog StepResult :=
  do c <- configMap rmq (ChildResourceName rmq ServerConfigMapName) in
  match c with
  | Err e => Ret (requeue_unless_error e)
  | Ok serverConf =>
      match smap_get (om_Annotations (cm_Meta serverConf)) serverConfAnnotation with
      | None => Ret step_ok
      | Some serverConfigUpdatedAt =>
          do s <- statefulSet rmq in
          match s with
          | Err e => Ret (requeue_unless_error e)
          | Ok sts =>
              if negb (needs_restart serverConfigUpdatedAt sts) then Ret step_ok
              else
                do r <- RetryOnConflict (restart_once rmq) in
                match r with
                | Err e =>
                    do _ <- event_warning "FailedUpdate"
                      ("failed to restart StatefulSet " +:+ ChildResourceName rmq "server" +:+
                       "; rabbitmq.conf configuration may be outdated") in
                    Ret (step_fail (ErrApi e))
                | Ok _ =>
                    do _ <- event_normal "SuccessfulUpdate"
                      ("restarted StatefulSet " +:+ ChildResourceName rmq "server") in
                    Ret step_ok
                end
          end
      end
  end.

(** [time.Since(annotationTime).Seconds() < 2] *)
Definition pluginsConfigUpdatedRecently (cfg : ConfigMap) : prog (result string bool) :=
  match smap_get (om_Annotations (cm_Meta cfg)) pluginsUpdateAnnotation with
  | None => Ret (Ok false)
  | Some pluginsUpdatedAt =>
      match parse_time pluginsUpdatedAt with
      | Err e => Ret (Err e)
      | Ok annotationTime =>
          do now <- perform Now in Ret (Ok (now - annotationTime <? 2000)%Z)
      end
  end.

(** ** reconcile_cli.go *)

Definition statefulSetBeingUpdated (sts : StatefulSet) : bool :=
  negb (str_eqb (ss_CurrentRevision (sts_Status sts)) (ss_UpdateRevision (sts_Status sts))).

Definition allReplicasReadyAndUpdated (sts : StatefulSet) : bool :=
  match sp_Replicas (sts_Spec sts) with
  | None => false
  | Some n => (ss_ReadyReplicas (sts_Status sts) =? n)%Z && negb (statefulSetBeingUpdated sts)
  end.

(** [None]: [*rmq.Spec.Replicas] of a nil pointer *)
Definition statefulSetNeedsQueueRebalance (sts : StatefulSet) (rmq : RabbitmqCluster) : option bool :=
  if statefulSetBeingUpdated sts && negb (spec_SkipPostDeploySteps (rmq_Spec rmq)) then
    n ← spec_Replicas (rmq_Spec rmq); Some (n >? 1)%Z
  else Some false.

Definition markForQueueRebalance (rmq : RabbitmqCluster) : prog (result ApiError RabbitmqCluster) :=
  if cluster_nonempty_annotation (rmq_Meta rmq) queueRebalanceAnnotation then Ret (Ok rmq)
  else
    do now <- perform Now in
    perform (UpdateCluster
      (rmq_with_meta (set_annotation queueRebalanceAnnotation (format_time now) (rmq_Meta rmq)) rmq)).

Definition pod_name (rmq : RabbitmqCluster) (i : Z) : string :=
  ChildResourceName rmq "server" +:+ "-" +:+ Itoa i.

Definition exec (rmq : RabbitmqCluster) (pod shell cmd : string) : prog (result string string) :=
  perform (Exec (rmq_Namespace rmq) pod "rabbitmq" [shell; "-c"; cmd]).

Definition cli_error {A} (msg pod e : string) : prog (result string A) :=
  do _ <- event_warning "FailedReconcile" (msg +:+ " " +:+ pod) in
  Ret (Err (msg +:+ " " +:+ pod +:+ ": " +:+ e)).

Definition of_api {A} (r : result ApiError A) : result string A := map_err error_text r.

Definition set_plugins_command (rmq : RabbitmqCluster) : string :=
  "rabbitmq-plugins set " +:+
  AsString (NewRabbitmqPlugins (rc_AdditionalPlugins (spec_Rabbitmq (rmq_Spec rmq)))) " ".

(** The loop over the replicas. *)
Fixpoint set_plugins_on (rmq : RabbitmqCluster) (replicas : list Z) : prog (result string unit) :=
  match replicas with
  | [] => Ret (Ok tt)
  | i :: rest =>
      do r <- exec rmq (pod_name rmq i) "sh" (set_plugins_command rmq) in
      match r with
      | Err e => cli_error "failed to set plugins on pod" (pod_name rmq i) e
      | Ok _ => set_plugins_on rmq rest
      end
  end.

Definition runSetPluginsCommand (rmq : RabbitmqCluster) (cm : ConfigMap) : prog (result string unit) :=
  match spec_Replicas (rmq_Spec rmq) with
  | None => Ret (Err "panic: nil pointer dereference")
  | Some n =>
      do r <- set_plugins_on rmq (int_range n) in
      match r with
      | Err e => Ret (Err e)
      | Ok _ =>
          do d <- deleteAnnotation cm pluginsUpdateAnnotation in
          Ret (try _ := of_api d in Ok tt)
      end
  end.

Definition runEnableFeatureFlagsCommand (rmq : RabbitmqCluster) (sts : StatefulSet)
  : prog (result string unit) :=
  let podName := pod_name rmq 0 in
  do r <- exec rmq podName "bash" "rabbitmqctl enable_feature_flag all" in
  match r with
  | Err e => cli_error "failed to enable all feature flags on pod" podName e
  | Ok _ =>
      do d <- deleteAnnotation sts stsCreateAnnotation in
      Ret (try _ := of_api d in Ok tt)
  end.

Definition runQueueRebalanceCommand (rmq : RabbitmqCluster)
  : prog (result string unit * RabbitmqCluster) :=
  let podName := pod_name rmq 0 in
  do r <- exec rmq podName "sh" "rabbitmq-queues rebalance all" in
  match r with
  | Err e =>
      do x <- cli_error "failed to run queue rebalance on pod" podName e in Ret (x, rmq)
  | Ok _ =>
      do d <- deleteAnnotation rmq queueRebalanceAnnotation in
      match d with
      | Ok rmq' => Ret (Ok tt, rmq')
      | Err e => Ret (Err (error_text e),
                      rmq_with_meta (drop_annotation queueRebalanceAnnotation (rmq_Meta rmq)) rmq)
      end
  end.

(** [if err != nil { return 0, err }] *)
Definition or_fail (r : result string unit) (k : prog (StepResult * RabbitmqCluster)) (rmq : RabbitmqCluster)
  : prog (StepResult * RabbitmqCluster) :=
  match r with
  | Err e => Ret (step_fail (ErrText e), rmq)
  | Ok _ => k
  end.

Definition run_if (b : bool) (p : prog (result string unit)) : prog (result string unit) :=
  if b then p else Ret (Ok tt).

Definition runRabbitmqCLICommandsIfAnnotated (rmq : RabbitmqCluster)
  : prog (StepResult * RabbitmqCluster) :=
  do s <- statefulSet rmq in
  match s with
  | Err e => Ret (step_fail (ErrApi e), rmq)
  | Ok sts =>
      if negb (allReplicasReadyAndUpdated sts) then Ret (step_requeue 15000, rmq)
      else
        do c <- configMap rmq (ChildResourceName rmq PluginsConfigName) in
        match c with
        | Err e =>
            (* [pluginsConfig] is nil: the annotations are read all the same *)
            Ret (step_fail (if IsNotFound e then panic else ErrApi e), rmq)
        | Ok pluginsConfig =>
            do recent <- pluginsConfigUpdatedRecently pluginsConfig in
            match recent with
            | Err e => Ret (step_fail (ErrText e), rmq)
            | Ok true => Ret (step_requeue 2000, rmq)
            | Ok false =>
                do r1 <- run_if (cluster_nonempty_annotation (cm_Meta pluginsConfig) pluginsUpdateAnnotation)
                           (runSetPluginsCommand rmq pluginsConfig) in
                or_fail r1 (
                  do r2 <- run_if (cluster_nonempty_annotation (sts_Meta sts) stsCreateAnnotation
                                   || spec_AutoEnableAllFeatureFlags (rmq_Spec rmq))
                             (runEnableFeatureFlagsCommand rmq sts) in
                  or_fail r2 (
                    if cluster_nonempty_annotation (rmq_Meta rmq) queueRebalanceAnnotation then
                      do r3 <- runQueueRebalanceCommand rmq in
                      or_fail (fst r3) (Ret (step_ok, snd r3)) (snd r3)
                    else Ret (step_ok, rmq)) rmq) rmq
            end
        end
  end.

Definition reconcileRabbitmqVersionAnnotation (rmq : RabbitmqCluster)
  : prog (StepResult * RabbitmqCluster) :=
  do s <- statefulSet rmq in
  match s with
  | Err e => Ret (step_fail (ErrApi e), rmq)
  | Ok sts =>
      if negb (allReplicasReadyAndUpdated sts) then Ret (step_requeue 15000, rmq)
      else
        do c <- GetClientForPod rmq (pod_name rmq 0) in
        match c with
        | Err _ => Ret (step_ok, rmq)
        | Ok rabbitClient =>
            do o <- perform (Overview rabbitClient) in
            match o with
            | Err _ => Ret (step_ok, rmq)
            | Ok (rabbit, erlang) =>
                let get k := default "" (smap_get (rmq_Annotations rmq) k) in
                if match rmq_Annotations rmq with Some _ => true | None => false end
                   && str_eqb (get RabbitmqVersionAnnotation) rabbit
                   && str_eqb (get ErlangVersionAnnotation) erlang
                then Ret (step_ok, rmq)
                else
                  let m := set_annotation ErlangVersionAnnotation erlang
                             (set_annotation RabbitmqVersionAnnotation rabbit (rmq_Meta rmq)) in
                  let rmq1 := rmq_with_meta m rmq in
                  do u <- perform (UpdateCluster rmq1) in
                  match u with
                  | Ok rmq' => Ret (step_ok, rmq')
                  | Err e => Ret (step_fail (ErrText ("failed to update RabbitmqCluster with version annotations: "
                                                       +:+ error_text e)), rmq1)
                  end
            end
        end
  end.
End PostDeploy.

(** ** What the post-deploy commands may do *)

(** The commands that succeeded, with their pods. *)
Definition exec_done (e : event) : list (string * list string) :=
  match e with
  | existT (Exec _ pod _ cmd) (Ok _) => [(pod, cmd)]
  | _ => []
  end.
Definition execs_done (h : history) : list (string * list string) := concat (map exec_done h).

Lemma execs_done_app h t : execs_done (h ++ t) = execs_done h ++ execs_done t.
Proof. unfold execs_done. by rewrite map_app, concat_app. Qed.

(** Some answer showed the StatefulSet fully rolled out. *)
Definition says_rolled_out (e : event) : bool :=
  match e with
  | existT (GetSts _ _) (Ok s) => allReplicasReadyAndUpdated s
  | _ => false
  end.
Definition rolled_out (h : history) : Prop := existsb says_rolled_out h = true.

Lemma rolled_out_app h t : rolled_out h -> rolled_out (h ++ t).
Proof. unfold rolled_out. intros E. by rewrite existsb_app, E. Qed.

Section CliSafety.
Context (rmq : RabbitmqCluster).

Definition plugins_set_everywhere (h : history) : Prop :=
  forall n i, spec_Replicas (rmq_Spec rmq) = Some n -> (0 <= i < n)%Z ->
    (pod_name rmq i, ["sh"; "-c"; set_plugins_command rmq]) ∈ execs_done h.

(** A command runs in a pod only once the StatefulSet was seen fully
    rolled out, and each mark is removed only after its work was done: the
    plugins' mark when every replica has them, the creation mark when the
    feature flags are enabled, the rebalance mark when the queues are. *)
Definition cli_event_ok (h : history) (e : event) : Prop :=
  match projT1 e with
  | Exec _ _ _ _ => rolled_out h
  | UpdateConfigMap c =>
      plugins_set_everywhere h /\ smap_get (om_Annotations (cm_Meta c)) pluginsUpdateAnnotation = None
  | UpdateSts s =>
      (pod_name rmq 0, ["bash"; "-c"; "rabbitmqctl enable_feature_flag all"]) ∈ execs_done h /\
      smap_get (om_Annotations (sts_Meta s)) stsCreateAnnotation = None
  | UpdateCluster r =>
      (pod_name rmq 0, ["sh"; "-c"; "rabbitmq-queues rebalance all"]) ∈ execs_done h /\
      smap_get (om_Annotations (rmq_Meta r)) queueRebalanceAnnotation = None
  | c => is_write c = false
  end.

Lemma cli_read_ok h e :
  is_write (projT1 e) = false -> (forall ns p c l, projT1 e <> Exec ns p c l) -> cli_event_ok h e.
Proof. unfold cli_event_ok. destruct (projT1 e); try done. intros _ Hn. by destruct (Hn namespace pod container command). Qed.

(** the postcondition all the pieces share *)
Definition cli_post (h h' : history) : Prop :=
  history_ok cli_event_ok h' /\ exists t, h' = h ++ t.

Lemma cli_post_snoc h h' e : cli_post h h' -> cli_event_ok h' e -> cli_post h (h' ++ [e]).
Proof.
  intros [Hh (t & ->)] He. split; [by apply history_ok_snoc|].
  rewrite <- (assoc_L (++)). by eexists.
Qed.

Lemma cli_post_refl h : history_ok cli_event_ok h -> cli_post h h.
Proof. intros Hh. split; [done|]. exists []. by rewrite app_nil_r. Qed.

Lemma cli_post_trans h1 h2 h3 : cli_post h1 h2 -> cli_post h2 h3 -> cli_post h1 h3.
Proof. intros [_ (t & ->)] [Hh (t' & ->)]. split; [done|]. rewrite <- (assoc_L (++)). by eexists. Qed.

Lemma cli_post_rolled_out h h' : rolled_out h -> cli_post h h' -> rolled_out h'.
Proof. intros Hr [_ (t & ->)]. by apply rolled_out_app. Qed.

Lemma cli_event_event h t r m u : cli_event_ok h (Ev (Event t r m) u).
Proof. by apply cli_read_ok. Qed.

Hint Resolve cli_post_snoc cli_post_refl cli_event_event rolled_out_app : core.

Lemma cli_error_wp {A} msg pod e h0 h (Q : history -> result string A -> Prop) :
  cli_post h0 h -> (forall h' x, cli_post h0 h' -> Q h' (Err x)) -> wp (cli_error msg pod e) Q h.
Proof. intros Hh HQ. unfold cli_error, event_warning. cbn [bind perform wp]. intros u. apply HQ. auto. Qed.

Lemma delete_missing (m : smap) k v : m = Some v -> smap_get (option_map (delete k) m) k = None.
Proof. intros ->. cbn. by rewrite lookup_delete_eq. Qed.

(** The loop over the replicas leaves the command done on all of them. *)
Lemma set_plugins_on_wp idx h0 h :
  cli_post h0 h -> rolled_out h ->
  wp (set_plugins_on rmq idx) (fun h' r => cli_post h0 h' /\ rolled_out h' /\ (exists t, h' = h ++ t) /\
    (r = Ok tt -> forall i, i ∈ idx ->
       (pod_name rmq i, ["sh"; "-c"; set_plugins_command rmq]) ∈ execs_done h')) h.
Proof.
  revert h. induction idx as [|i idx IH]; intros h Hh Hr; cbn [set_plugins_on].
  { cbn [wp]. split; [done|]. split; [done|]. split; [exists []; by rewrite app_nil_r|].
    intros _ i Hi. by apply elem_of_nil in Hi. }
  unfold exec. cbn [bind perform wp]. intros a.
  assert (cli_post h0 (h ++ [Ev (Exec (rmq_Namespace rmq) (pod_name rmq i) "rabbitmq"
    ["sh"; "-c"; set_plugins_command rmq]) a])) as Hh1 by auto.
  destruct a as [out|e].
  - eapply wp_mono; [|apply IH; auto]. intros h' r (Hp & Hro & (t & ->) & Hall).
    split; [done|]. split; [done|]. split; [rewrite <- !(assoc_L (++)); by eexists|].
    intros E j [->|Hj]%elem_of_cons; [|by apply Hall].
    rewrite !execs_done_app. cbn. set_solver.
  - unfold cli_error, event_warning. cbn [bind perform wp]. intros u.
    split; [auto|]. split; [auto|]. split; [rewrite <- !(assoc_L (++)); by eexists|done].
Qed.

Context `{Rfc3339} `{RetryLib} `{ClientLib}.

(** [cli_post] and [rolled_out] together *)
Definition cli_state (h0 h : history) : Prop := cli_post h0 h /\ rolled_out h.

Lemma cli_state_snoc h0 h e : cli_state h0 h -> cli_event_ok h e -> cli_state h0 (h ++ [e]).
Proof. intros [Hh Hr] He. split; auto. Qed.

Lemma int_range_elem n i : (0 <= i < n)%Z -> i ∈ int_range n.
Proof.
  intros Hi. unfold int_range. apply list_elem_of_fmap. exists (Z.to_nat i). split; [lia|].
  apply elem_of_seq. lia.
Qed.

Lemma runSetPluginsCommand_wp cm h0 h :
  cli_state h0 h ->
  wp (runSetPluginsCommand rmq cm) (fun h' r => cli_state h0 h' /\
    (r = Ok tt -> plugins_set_everywhere h')) h.
Proof.
  intros [Hh Hr]. unfold runSetPluginsCommand. destruct (spec_Replicas (rmq_Spec rmq)) as [n|] eqn:En.
  2:{ cbn [wp]. by split. }
  rewrite wp_bind. eapply wp_mono; [|by apply set_plugins_on_wp].
  intros h1 [[]|e] (Hh1 & Hr1 & _ & Hall); [|cbn [wp]; by split].
  assert (plugins_set_everywhere h1) as Hset.
  { intros n' i E Hi. rewrite En in E. injection E as <-. apply (Hall eq_refl). by apply int_range_elem. }
  rewrite wp_bind. unfold deleteAnnotation. cbn [ko_meta ko_update ko_with_meta kobj_configmap].
  destruct (om_Annotations (cm_Meta cm)) as [m|] eqn:Em; cbn [wp bind perform].
  2:{ split; [by split|done]. }
  intros a. assert (cli_state h0 (h1 ++ [Ev (UpdateConfigMap (mkCM (drop_annotation pluginsUpdateAnnotation (cm_Meta cm))
    (cm_Data cm))) a])) as Hst.
  { apply cli_state_snoc; [by split|]. split; [done|]. unfold drop_annotation. cbn [cm_Meta om_Annotations om_with_annotations].
    by apply (delete_missing _ _ m). }
  assert (plugins_set_everywhere (h1 ++ [Ev (UpdateConfigMap (mkCM (drop_annotation pluginsUpdateAnnotation (cm_Meta cm))
    (cm_Data cm))) a])) as Hset'.
  { intros n' i E Hi. rewrite execs_done_app. apply elem_of_app. left. by eapply Hset. }
  destruct a; cbn [wp]; by split.
Qed.

Lemma runEnableFeatureFlagsCommand_wp sts h0 h :
  cli_state h0 h ->
  wp (runEnableFeatureFlagsCommand rmq sts) (fun h' _ => cli_state h0 h') h.
Proof.
  intros Hst. unfold runEnableFeatureFlagsCommand, exec. cbn [bind perform wp]. intros a.
  assert (cli_state h0 (h ++ [Ev (Exec (rmq_Namespace rmq) (pod_name rmq 0) "rabbitmq"
    ["bash"; "-c"; "rabbitmqctl enable_feature_flag all"]) a])) as Hst1
    by (apply cli_state_snoc; [done|by destruct Hst]).
  destruct a as [out|e].
  - rewrite wp_bind. unfold deleteAnnotation. cbn [ko_meta ko_update ko_with_meta kobj_sts].
    destruct (om_Annotations (sts_Meta sts)) as [m|] eqn:Em; cbn [wp bind perform]; [|done].
    intros b. apply cli_state_snoc; [done|]. split.
    + rewrite execs_done_app. cbn. set_solver.
    + unfold drop_annotation. cbn [sts_Meta om_Annotations om_with_annotations]. by apply (delete_missing _ _ m).
  - unfold cli_error, event_warning. cbn [bind perform wp]. intros u. by apply cli_state_snoc.
Qed.

Lemma runQueueRebalanceCommand_wp h0 h :
  cli_state h0 h ->
  wp (runQueueRebalanceCommand rmq) (fun h' _ => cli_state h0 h') h.
Proof.
  intros Hst. unfold runQueueRebalanceCommand, exec. cbn [bind perform wp]. intros a.
  assert (cli_state h0 (h ++ [Ev (Exec (rmq_Namespace rmq) (pod_name rmq 0) "rabbitmq"
    ["sh"; "-c"; "rabbitmq-queues rebalance all"]) a])) as Hst1
    by (apply cli_state_snoc; [done|by destruct Hst]).
  destruct a as [out|e].
  - rewrite wp_bind. unfold deleteAnnotation. cbn [ko_meta ko_update ko_with_meta kobj_cluster].
    destruct (om_Annotations (rmq_Meta rmq)) as [m|] eqn:Em; cbn [wp bind perform]; [|done].
    intros b. assert (cli_state h0 ((h ++ [Ev (Exec (rmq_Namespace rmq) (pod_name rmq 0) "rabbitmq"
    ["sh"; "-c"; "rabbitmq-queues rebalance all"]) (Ok out)]) ++ [Ev (UpdateCluster
      (rmq_with_meta (drop_annotation queueRebalanceAnnotation (rmq_Meta rmq)) rmq)) b])) as Hst2.
    { apply cli_state_snoc; [done|]. split.
      - rewrite execs_done_app. cbn. set_solver.
      - unfold drop_annotation. cbn [rmq_with_meta rmq_Meta om_Annotations om_with_annotations].
        by apply (delete_missing _ _ m). }
    by destruct b.
  - unfold cli_error, event_warning. cbn [bind perform wp]. intros u. by apply cli_state_snoc.
Qed.

Lemma run_if_wp b p h0 h :
  cli_state h0 h -> wp p (fun h' _ => cli_state h0 h') h ->
  wp (run_if b p) (fun h' _ => cli_state h0 h') h.
Proof. by destruct b. Qed.

Lemma pluginsConfigUpdatedRecently_wp cfg h0 h :
  cli_state h0 h -> wp (pluginsConfigUpdatedRecently cfg) (fun h' _ => cli_state h0 h') h.
Proof.
  intros Hst. unfold pluginsConfigUpdatedRecently. destruct (smap_get _ _); [|done].
  destruct (parse_time _); [|done]. cbn [bind perform wp]. intros now. apply cli_state_snoc; [done|].
  by apply cli_read_ok.
Qed.

Lemma or_fail_wp r k h0 h :
  cli_state h0 h -> (r = Ok tt -> wp k (fun h' _ => cli_state h0 h') h) ->
  wp (or_fail r k rmq) (fun h' _ => cli_state h0 h') h.
Proof. intros Hst Hk. destruct r as [[]|e]; [by apply Hk|done]. Qed.

(** C19. Post-deploy commands are safe to interrupt: whatever fails, a command
    runs in a pod only after the StatefulSet was seen with all replicas
    ready and no rollout in progress, and the annotation that asks for the
    work is removed only when the work was done, on every replica for the
    plugins; so a failed or interrupted run is retried. *)
Theorem cli_commands_safe :
  wp (runRabbitmqCLICommandsIfAnnotated rmq) (fun h _ =>
    forall h1 e h2, h = h1 ++ e :: h2 -> cli_event_ok h1 e) [].
Proof.
  unfold runRabbitmqCLICommandsIfAnnotated, statefulSet, configMap. cbn [bind perform wp app].
  intros s. set (ev := Ev _ s).
  assert (history_ok cli_event_ok [ev]) as Hh0
    by (apply (history_ok_snoc _ []); [apply history_ok_nil | by apply cli_read_ok]).
  destruct s as [sts|e]; [|exact Hh0].
  destruct (allReplicasReadyAndUpdated sts) eqn:Er; cbn [negb wp]; [|exact Hh0].
  assert (cli_state [] [ev]) as Hst.
  { split; [split; [done|by eexists]|]. unfold rolled_out. cbn. by rewrite Er. }
  cbn [bind perform wp]. intros c. set (ev2 := Ev _ c).
  assert (cli_state [] ([ev] ++ [ev2])) as Hst2 by (apply cli_state_snoc; [done|by apply cli_read_ok]).
  destruct c as [pc|e]; [|exact (proj1 (proj1 Hst2))].
  apply (wp_mono _ (fun h _ => cli_state [] h)); [by intros h r [[? _] _]|].
  rewrite wp_bind. eapply wp_mono; [|by apply pluginsConfigUpdatedRecently_wp].
  intros h [[]|e] Hs; [exact Hs| |exact Hs].
  rewrite wp_bind. eapply wp_mono; [|apply run_if_wp; [done|]].
  2:{ eapply wp_mono; [|by apply runSetPluginsCommand_wp]. by intros h' r [? _]. }
  intros h1 r1 Hs1. apply or_fail_wp; [done|]. intros ->.
  rewrite wp_bind. eapply wp_mono; [|apply run_if_wp; [done|by apply runEnableFeatureFlagsCommand_wp]].
  intros h2 r2 Hs2. apply or_fail_wp; [done|]. intros ->.
  destruct (cluster_nonempty_annotation _ _); [|exact Hs2].
  rewrite wp_bind. eapply wp_mono; [|by apply runQueueRebalanceCommand_wp].
  intros h3 [[[]|e] r3] Hs3; exact Hs3.
Qed.
End CliSafety.

(** ** The restart decision *)

(** The update marks read from ConfigMaps, the StatefulSets read, and
    whether the server accepted a StatefulSet. *)
Definition conf_mark (e : event) : list string :=
  match e with
  | existT (GetConfigMap _ _) (Ok c) =>
      match smap_get (om_Annotations (cm_Meta c)) serverConfAnnotation with Some t => [t] | None => [] end
  | _ => []
  end.
Definition sts_read (e : event) : list StatefulSet :=
  match e with existT (GetSts _ _) (Ok s) => [s] | _ => [] end.
Definition sts_accepted (e : event) : bool :=
  match e with existT (UpdateSts _) (Ok _) => true | _ => false end.

Definition conf_marks (h : history) : list string := concat (map conf_mark h).
Definition sts_reads (h : history) : list StatefulSet := concat (map sts_read h).

Lemma conf_marks_app h t : conf_marks (h ++ t) = conf_marks h ++ conf_marks t.
Proof. unfold conf_marks. by rewrite map_app, concat_app. Qed.
Lemma sts_reads_app h t : sts_reads (h ++ t) = sts_reads h ++ sts_reads t.
Proof. unfold sts_reads. by rewrite map_app, concat_app. Qed.

Section Restart.
Context `{Rfc3339} `{RetryLaws}.

(** A write of the restart: some StatefulSet read was older than a
    configuration mark read, and the object written is one that was read,
    with the restart mark of its pod template set and nothing else
    changed. *)
Definition restart_event_ok (h : history) (e : event) : Prop :=
  match projT1 e with
  | UpdateSts s =>
      (exists t s0, t ∈ conf_marks h /\ s0 ∈ sts_reads h /\ needs_restart t s0 = true) /\
      (exists s1 now, s1 ∈ sts_reads h /\
         s = with_template_annotation stsRestartAnnotation (format_time now) s1)
  | c => is_write c = false
  end.

Lemma restart_read_ok h e : is_write (projT1 e) = false -> restart_event_ok h e.
Proof. unfold restart_event_ok. by destruct (projT1 e). Qed.

(** The state of the retry loop: the decision was made on [t] and [s0]. *)
Definition restart_state (t : string) (s0 : StatefulSet) (h : history) : Prop :=
  history_ok restart_event_ok h /\ conf_marks h = [t] /\ head (sts_reads h) = Some s0 /\
  needs_restart t s0 = true.

Lemma restart_state_snoc t s0 h e :
  restart_state t s0 h -> restart_event_ok h e -> conf_mark e = [] -> restart_state t s0 (h ++ [e]).
Proof.
  intros (Hh & Hm & Hs & Hn) He Hc. repeat split; [by apply history_ok_snoc|..|done].
  - rewrite conf_marks_app, Hm. unfold conf_marks. cbn. by rewrite Hc.
  - rewrite sts_reads_app. destruct (sts_reads h); [done|exact Hs].
Qed.

Lemma restart_once_wp rmq t s0 h :
  restart_state t s0 h ->
  wp (restart_once rmq) (fun h' r => restart_state t s0 h' /\
    (is_ok r = true -> existsb sts_accepted h' = true)) h.
Proof.
  intros Hst. unfold restart_once, statefulSet. cbn [bind perform wp]. intros a.
  set (ev := Ev _ a). assert (restart_state t s0 (h ++ [ev])) as Hst1
    by (apply restart_state_snoc; [done|by apply restart_read_ok|done]).
  destruct a as [s1|e]; cbn [bind perform wp]; [|done]. intros now u.
  assert (restart_state t s0 ((h ++ [ev]) ++ [Ev Now now])) as Hst2
    by (apply restart_state_snoc; [done|by apply restart_read_ok|done]).
  split.
  - apply restart_state_snoc; [done| |by destruct u]. split.
    + destruct Hst2 as (_ & Hm & Hs & Hn). exists t, s0. rewrite Hm. split; [set_solver|].
      split; [|done]. destruct (sts_reads _); [done|]. injection Hs as ->. set_solver.
    + exists s1, now. split; [|done]. rewrite !sts_reads_app. cbn. set_solver.
  - destruct u; [|done]. intros _. by rewrite existsb_app, orb_true_r.
Qed.

(** C18. Restarts happen when, and only when, the configuration is newer: the
    StatefulSet is written only if one was read whose restart mark is
    missing or not later than a configuration mark that was read, and the
    write sets the restart mark of the pod template and nothing else; and
    when the step succeeds having read such a pair, the server accepted a
    restart. *)
Theorem restart_iff_stale (rmq : RabbitmqCluster) :
  wp (restartStatefulSetIfNeeded rmq) (fun h r =>
    (forall h1 e h2, h = h1 ++ e :: h2 -> restart_event_ok h1 e) /\
    (forall t s0, conf_marks h = [t] -> head (sts_reads h) = Some s0 -> needs_restart t s0 = true ->
       r = step_ok -> existsb sts_accepted h = true)) [].
Proof.
  unfold restartStatefulSetIfNeeded, configMap. cbn [bind perform wp app]. intros c. set (ev := Ev _ c).
  assert (history_ok restart_event_ok [ev]) as Hh
    by (apply (history_ok_snoc _ []); [apply history_ok_nil | by apply restart_read_ok]).
  destruct c as [cm|e]; [|by split].
  destruct (smap_get _ _) as [t|] eqn:Et; cbn [wp]; [|by split].
  unfold statefulSet. cbn [bind perform wp app]. intros s. set (ev2 := Ev _ s).
  assert (history_ok restart_event_ok [ev; ev2]) as Hh2
    by (apply (history_ok_snoc _ [ev]); [done | by apply restart_read_ok]).
  assert (conf_marks [ev; ev2] = [t]) as Hm by (unfold conf_marks; cbn; by rewrite Et).
  destruct s as [s0|e]; [|by split].
  destruct (needs_restart t s0) eqn:En; cbn [negb wp].
  2:{ split; [done|]. intros t' s' E1 E2 E3 _. rewrite Hm in E1. injection E1 as <-.
      injection E2 as <-. congruence. }
  rewrite wp_bind.
  apply (OnError_wp _ _ (restart_state t s0)); [by repeat split|].
  intros h Hst. eapply wp_mono; [|by apply (restart_once_wp rmq t s0)].
  intros h' r [Hst' Hacc]. split; [|by destruct r].
  destruct r as [s'|e]; unfold event_normal, event_warning; cbn [bind perform wp]; intros u.
  - split.
    + apply history_ok_snoc; [apply Hst'|by apply restart_read_ok].
    + intros _ _ _ _ _ _. rewrite existsb_app, (Hacc eq_refl). done.
  - split; [|done]. apply history_ok_snoc; [apply Hst'|by apply restart_read_ok].
Qed.
End Restart.
