(* ===== verification/Deletion.v ===== *)
(** * The deletion finalizer

    internal/controller/reconcile_finalizer.go. *)

From S2P Require Import Prelude.
From S2P Require Import K8s.
From S2P Require Import Metadata.
From S2P Require Import Status.
From S2P Require Import Api.
From S2P Require Import Services.
From S2P Require Import ServerConf.
From S2P Require Import PodTemplate.
From S2P Require Import ResourceBuilder.
From S2P Require Import Kube.
From S2P Require Import Controller.
From S2P Require Import Client.
From S2P Require Import PostDeploy.

Definition deletionFinalizer : string := "deletion.finalizers.rabbitmqclusters.rabbitmq.com".

(** [controllerutil.ContainsFinalizer] and [AddFinalizer] *)
Definition ContainsFinalizer (m : ObjectMeta) (f : string) : bool := slice_contains (om_Finalizers m) f.
Definition AddFinalizer (m : ObjectMeta) (f : string) : ObjectMeta :=
  if ContainsFinalizer m f then m else om_with_finalizers (om_Finalizers m ++ [f]) m.

(** [strings.HasPrefix(stdout, "true")] etc. read the pod's downward file. *)
Definition label_command : string := "cat /etc/pod-info/skipPreStopChecks".

(** The label of a pod that skips the checks before it stops. *)
Definition with_deletion_label (pod : ObjectMeta) (labels : gmap string string) : ObjectMeta :=
  om_with_labels (Some (<[DeletionMarker := "true"]> labels)) pod.

(** A wrapped error keeps its kind. *)
Definition wrap_error (prefix : string) (e : ApiError) : ApiError :=
  match e with
  | NotFound m => NotFound (prefix +:+ m)
  | Conflict m => Conflict (prefix +:+ m)
  | ApiFailure m => ApiFailure (prefix +:+ m)
  end.

(** The loop over the pods: [Ok false] is the panic of writing to a nil map
    of labels. *)
Fixpoint label_pods (pods : list ObjectMeta) : prog (result ApiError bool) :=
  match pods with
  | [] => Ret (Ok true)
  | pod :: rest =>
      match om_Labels pod with
      | None => Ret (Ok false)
      | Some labels =>
          do r <- perform (UpdatePod (with_deletion_label pod labels)) in
          match IgnoreNotFound r with
          | Some e => Ret (Err (wrap_error ("cannot Update Pod " +:+ om_Name pod +:+ " in Namespace " +:+
                                              om_Namespace pod +:+ ": ") e))
          | None => label_pods rest
          end
      end
  end.

Definition addRabbitmqDeletionLabel (rmq : RabbitmqCluster) : prog (result ApiError bool) :=
  do l <- perform (ListPods (rmq_Namespace rmq) ("app.kubernetes.io/name=" +:+ rmq_Name rmq)) in
  match l with
  | Err e => Ret (Err e)
  | Ok pods => label_pods pods
  end.

Definition checkIfLabelPropagated (rmq : RabbitmqCluster) : prog bool :=
  do r <- exec rmq (pod_name rmq 0) "sh" label_command in
  Ret (match r with Err _ => true | Ok stdout => HasPrefix stdout "true" end).

(** [for time.Now().Before(timeout) && !r.checkIfLabelPropagated(...) { Sleep }]:
    the result tells whether the loop ended by itself. *)
Fixpoint wait_for_label (fuel : nat) (rmq : RabbitmqCluster) (timeout : Z) : prog bool :=
  match fuel with
  | O => Ret false
  | S fuel' =>
      do now <- perform Now in
      if (now <? timeout)%Z then
        do propagated <- checkIfLabelPropagated rmq in
        if propagated : bool then Ret true
        else do _ <- perform (Sleep 200) in wait_for_label fuel' rmq timeout
      else Ret true
  end.

(** 3 seconds in steps of 200 milliseconds *)
Definition wait_fuel : nat := 16.

Definition removeFinalizer (rmq : RabbitmqCluster) : prog (result ApiError unit) :=
  do r <- perform (RemoveFinalizer (rmq_Namespace rmq) (rmq_Name rmq) deletionFinalizer) in
  match IgnoreNotFound r with
  | Some e => Ret (Err e)
  | None => Ret (Ok tt)
  end.

Section Deletion.
Context `{RetryLib}.

Definition addFinalizerIfNeeded (rmq : RabbitmqCluster) : prog (result ApiError unit * RabbitmqCluster) :=
  if match om_DeletionTimestamp (rmq_Meta rmq) with None => true | Some _ => false end
     && negb (ContainsFinalizer (rmq_Meta rmq) deletionFinalizer) then
    let rmq1 := rmq_with_meta (AddFinalizer (rmq_Meta rmq) deletionFinalizer) rmq in
    do r <- RetryOnConflict (perform (UpdateCluster rmq1)) in
    match r with
    | Ok rmq' => Ret (Ok tt, rmq')
    | Err e => Ret (Err e, rmq1)
    end
  else Ret (Ok tt, rmq).

Definition prepareForDeletion (rmq : RabbitmqCluster) : prog (result RErr unit) :=
  if ContainsFinalizer (rmq_Meta rmq) deletionFinalizer then
    do l <- RetryOnConflict (addRabbitmqDeletionLabel rmq) in
    match l with
    | Ok false => Ret (Err panic)
    | _ =>
        do now <- perform Now in
        do _ <- wait_for_label wait_fuel rmq (now + 3000)%Z in
        do r <- removeFinalizer rmq in
        Ret (map_err ErrApi r)
    end
  else Ret (Ok tt).
End Deletion.

(** ** The clock *)

(** A reading of the clock is not before the previous reading plus the time
    slept in between: [clock_step] is the earliest possible time after an
    event, [None] once the clock went back. *)
Definition clock_step (t : option Z) (e : event) : option Z :=
  match e with
  | existT Now n => t0 ← t; if (t0 <=? n)%Z then Some n else None
  | existT (Sleep ms) _ => t0 ← t; Some (t0 + ms)%Z
  | _ => t
  end.

Definition clock_after (t : option Z) (h : history) : option Z := fold_left clock_step h t.

(** The clock of a history never goes back. *)
Definition clock_sane (h : history) (t : Z) : Prop := is_Some (clock_after (Some t) h).

Lemma clock_after_app t h h' : clock_after t (h ++ h') = clock_after (clock_after t h) h'.
Proof. unfold clock_after. apply fold_left_app. Qed.

Lemma clock_after_None h : clock_after None h = None.
Proof.
  unfold clock_after. induction h as [|[c a] h IH]; [done|]. cbn [fold_left].
  replace (clock_step None (existT c a)) with (@None Z) by (by destruct c). exact IH.
Qed.

Lemma clock_sane_prefix h h' t : clock_sane (h ++ h') t -> exists t', clock_after (Some t) h = Some t' /\
  is_Some (clock_after (Some t') h').
Proof.
  unfold clock_sane. rewrite clock_after_app. destruct (clock_after (Some t) h) as [t'|]; [by exists t'|].
  rewrite clock_after_None. intros [? [=]].
Qed.

(** ** Lemmas *)

(** Sixteen rounds are enough: when the clock never goes back, the loop ends
    because the label was seen or the time is over, never by its fuel. *)
Lemma wait_for_label_wp n rmq timeout h t0 :
  wp (wait_for_label n rmq timeout) (fun h' ok =>
    (exists t, h' = h ++ t /\ writes t = []) /\
    forall b, clock_after (Some t0) h = Some b -> (timeout <= b + 200 * (Z.of_nat n - 1))%Z -> (1 <= n)%nat ->
      clock_sane h' t0 -> ok = true) h.
Proof.
  revert h. induction n as [|n IH]; intros h; cbn [wait_for_label].
  { cbn [wp]. split; [exists []; by rewrite app_nil_r|]. lia. }
  cbn [bind perform wp]. intros now.
  destruct (Z.ltb_spec now timeout) as [Hlt|Hge]; cbn [wp].
  2:{ split; [by eexists|done]. }
  unfold checkIfLabelPropagated, exec. cbn [bind perform wp]. intros r.
  destruct (match r with Err _ => true | Ok stdout => HasPrefix stdout "true" end); cbn [bind perform wp].
  { split; [rewrite <- !(assoc_L (++)); by eexists|done]. }
  intros u. eapply wp_mono; [|apply IH]. intros h' ok [(t & -> & Hw) Hok].
  rewrite <- !(assoc_L (++)) in Hok |- *. split; [eexists; split; [done|]; by rewrite !writes_app|].
  intros b Hb Hto Hn Hs. pose proof Hs as (b' & Hb' & Hrest)%clock_sane_prefix.
  rewrite Hb in Hb'. injection Hb' as <-. cbn in Hrest.
  destruct (Z.leb_spec b now) as [Hle|Hgt]; cbn in Hrest.
  2:{ change (is_Some (clock_after None t)) in Hrest. rewrite clock_after_None in Hrest. by destruct Hrest. }
  destruct n as [|n]; [lia|]. apply (Hok (now + 200)%Z); [|lia|lia|done].
  rewrite clock_after_app, Hb. cbn. by rewrite (proj2 (Z.leb_le b now)).
Qed.

(** The pods a list call returned. *)
Definition pods_listed_by (e : event) : list ObjectMeta :=
  match e with existT (ListPods _ _) (Ok pods) => pods | _ => [] end.
Definition pods_listed (h : history) : list ObjectMeta := concat (map pods_listed_by h).
Definition is_list_pods (e : event) : bool := match projT1 e with ListPods _ _ => true | _ => false end.

Lemma pods_listed_app h t : pods_listed (h ++ t) = pods_listed h ++ pods_listed t.
Proof. unfold pods_listed. by rewrite map_app, concat_app. Qed.

(** What the deletion may write: the deletion label on a pod it listed, with
    its other labels kept, and then the removal of the finalizer, never
    before it asked for the pods. *)
Definition deletion_event_ok (h : history) (e : event) : Prop :=
  match projT1 e with
  | UpdatePod m => exists pod labels, pod ∈ pods_listed h /\ om_Labels pod = Some labels /\
      m = with_deletion_label pod labels
  | RemoveFinalizer _ _ f => f = deletionFinalizer /\ existsb is_list_pods h = true
  | c => is_write c = false
  end.

Lemma deletion_read_ok h e : is_write (projT1 e) = false -> deletion_event_ok h e.
Proof. unfold deletion_event_ok. by destruct (projT1 e). Qed.

Definition deletion_state (h : history) : Prop := history_ok deletion_event_ok h.

Lemma deletion_snoc h e : deletion_state h -> deletion_event_ok h e -> deletion_state (h ++ [e]).
Proof. apply history_ok_snoc. Qed.

Lemma label_pods_wp pods h :
  deletion_state h -> (forall p, p ∈ pods -> p ∈ pods_listed h) ->
  wp (label_pods pods) (fun h' _ => deletion_state h' /\ exists t, h' = h ++ t) h.
Proof.
  revert h. induction pods as [|pod pods IH]; intros h Hh Hp; cbn [label_pods].
  { cbn [wp]. split; [done|]. exists []. by rewrite app_nil_r. }
  destruct (om_Labels pod) as [labels|] eqn:El.
  2:{ cbn [wp]. split; [done|]. exists []. by rewrite app_nil_r. }
  cbn [bind perform wp]. intros a. set (ev := Ev _ a).
  assert (deletion_state (h ++ [ev])) as Hh1.
  { apply deletion_snoc; [done|]. exists pod, labels. split; [|done]. apply Hp. set_solver. }
  destruct (IgnoreNotFound a); cbn [wp]; [split; [done|by eexists]|].
  eapply wp_mono; [|apply IH; [done|]].
  - intros h' r [Hs (t & ->)]. split; [done|]. rewrite <- (assoc_L (++)). by eexists.
  - intros p Hin. rewrite pods_listed_app. apply elem_of_app. left. apply Hp. set_solver.
Qed.

Lemma addRabbitmqDeletionLabel_wp rmq h :
  deletion_state h ->
  wp (addRabbitmqDeletionLabel rmq) (fun h' _ => deletion_state h' /\ existsb is_list_pods h' = true) h.
Proof.
  intros Hh. unfold addRabbitmqDeletionLabel. cbn [bind perform wp]. intros a. set (ev := Ev _ a).
  assert (deletion_state (h ++ [ev])) as Hh1 by (apply deletion_snoc; [done|by apply deletion_read_ok]).
  assert (existsb is_list_pods (h ++ [ev]) = true) as Hl by (by rewrite existsb_app, orb_true_r).
  destruct a as [pods|e]; cbn [wp]; [|done].
  eapply wp_mono; [|apply label_pods_wp; [done|]].
  - intros h' r [Hs (t & ->)]. split; [done|]. by rewrite existsb_app, Hl.
  - intros p Hp. rewrite pods_listed_app. apply elem_of_app. right. unfold pods_listed. cbn.
    by rewrite app_nil_r.
Qed.

Section Properties.
Context `{RetryLaws}.

Definition finalizer_removed (e : event) : bool :=
  match e with
  | existT (RemoveFinalizer _ _ _) (Ok _) => true
  | existT (RemoveFinalizer _ _ _) (Err e) => IsNotFound e
  | _ => false
  end.


(** C27. The wait for the label ends by itself: 16 rounds of at least 200
    milliseconds outlast the three seconds, for every clock that never
    goes back. *)
Theorem wait_for_label_ends (rmq : RabbitmqCluster) (t0 : Z) :
  wp (do now <- perform Now in wait_for_label wait_fuel rmq (now + 3000)%Z)
    (fun h ended => clock_sane h t0 -> ended = true) [].
Proof.
  cbn [bind perform wp app]. intros now. eapply wp_mono; [|apply (wait_for_label_wp _ _ _ _ t0)].
  intros h ok [(t & -> & _) Hok] Hs. pose proof Hs as (b & Hb & _)%clock_sane_prefix.
  assert (b = now) as ->.
  { cbn in Hb. destruct (_ <=? _)%Z; [by injection Hb|done]. }
  apply (Hok now); [done|unfold wait_fuel; lia|unfold wait_fuel; lia|done].
Qed.
End Properties.
