(* ===== verification/Reconcile.v ===== *)
(** * The reconcile loop

    [Reconcile] of internal/controller/rabbitmqcluster_controller.go: what one
    pass over a cluster does, in the order of the source, from the steps of
    the other files.  A pass may stop early: [inr] carries what it returns. *)

From S2P Require Import Prelude.
From S2P Require Import Strconv.
From S2P Require Import K8s.
From S2P Require Import Metadata.
From S2P Require Import Status.
From S2P Require Import Api.
From S2P Require Import Plugins.
From S2P Require Import Override.
From S2P Require Import Services.
From S2P Require Import Ini.
From S2P Require Import Secrets.
From S2P Require Import ServerConf.
From S2P Require Import PodTemplate.
From S2P Require Import StatefulSet.
From S2P Require Import Rbac.
From S2P Require Import ResourceBuilder.
From S2P Require Import Kube.
From S2P Require Import Scaling.
From S2P Require Import Controller.
From S2P Require Import Tls.
From S2P Require Import Replicas.
From S2P Require Import Client.
From S2P Require Import Quorum.
From S2P Require Import PostDeploy.
From S2P Require Import Deletion.

Definition pauseReconciliationLabel : string := "rabbitmq.com/pauseReconciliation".
Definition partOfLabel : string := "app.kubernetes.io/part-of".

(** [v, ok := rabbitmqCluster.Labels[pauseReconciliationLabel]; ok && v == "true"] *)
Definition paused (rmq : RabbitmqCluster) : bool :=
  match smap_get (rmq_Labels rmq) pauseReconciliationLabel with
  | Some v => str_eqb v "true"
  | None => false
  end.

Definition being_deleted (rmq : RabbitmqCluster) : bool :=
  match om_DeletionTimestamp (rmq_Meta rmq) with Some _ => true | None => false end.

(** Go on with a cluster, or return. *)
Definition or_return {A} (m : A + StepResult) (k : A -> prog StepResult) : prog StepResult :=
  match m with inl a => k a | inr s => Ret s end.

(** [if requeueAfter, err := step(); err != nil || requeueAfter > 0 { return }] *)
Definition unless_stopped (r : StepResult * RabbitmqCluster) (k : RabbitmqCluster -> prog StepResult)
  : prog StepResult :=
  if step_stops (fst r) then Ret (fst r) else k (snd r).

(** The same, with the failure recorded in the ReconcileSuccess condition. *)
Definition unless_stopped_report (reason : string) (r : StepResult * RabbitmqCluster)
    (k : RabbitmqCluster -> prog StepResult) : prog StepResult :=
  if step_stops (fst r) then
    match step_error (fst r) with
    | Some e =>
        do _ <- setReconcileSuccess (snd r) ConditionFalse reason (rerr_text e) in Ret (fst r)
    | None => Ret (fst r)
    end
  else k (snd r).

(** ** Recording results *)

Definition operation_name (r : OperationResult) : string :=
  match r with
  | OperationResultCreated => "create"
  | OperationResultUpdated => "update"
  | OperationResultNone => "unchanged"
  end.

Definition operation_title (r : OperationResult) : string :=
  match r with
  | OperationResultCreated => "Create"
  | OperationResultUpdated => "Update"
  | OperationResultNone => "Unchanged"
  end.

(** name and [%T] of an object *)
Definition object_text (obj : Object) : string :=
  "resource " +:+ om_Name (object_meta obj) +:+ " of Type *v1." +:+ object_kind obj.

Definition logAndRecordOperationResult (obj : Object) (operationResult : OperationResult)
    (err : option RErr) : prog unit :=
  match err with
  | None =>
      match operationResult with
      | OperationResultNone => Ret tt
      | _ => event_normal ("Successful" +:+ operation_title operationResult)
               (operation_name operationResult +:+ "d " +:+ object_text obj)
      end
  | Some e =>
      let msg := match operationResult with
                 | OperationResultNone => ""
                 | _ => "failed to " +:+ operation_name operationResult +:+ " " +:+ object_text obj +:+ ": "
                 end in
      event_warning ("Failed" +:+ operation_title operationResult) (msg +:+ rerr_text e)
  end.

(** ** The steps between the checks and the builders *)

(** The default user's Secret gets the labels that put it in the controller's
    cache; every error is ignored. *)
Definition label_default_user_secret (rmq : RabbitmqCluster) : prog unit :=
  do r <- perform (GetSecret (rmq_Namespace rmq) (ChildResourceName rmq "default-user")) in
  match r with
  | Err _ => Ret tt
  | Ok s =>
      let labelled := match smap_get (om_Labels (sec_Meta s)) partOfLabel with
                      | Some v => str_eqb v "rabbitmq"
                      | None => false
                      end in
      if labelled then Ret tt
      else
        do _ <- perform (UpdateSecret (mkSecret
          (om_with_labels (Some (GetLabels (rmq_Name rmq) (rmq_Labels rmq))) (sec_Meta s))
          (sec_Type s) (sec_Data s))) in
        Ret tt
  end.

(** The loop that deletes what peer discovery no longer needs. *)
Fixpoint delete_objects (ns : string) (objs : list (string * string)) : prog (result ApiError unit) :=
  match objs with
  | [] => Ret (Ok tt)
  | (kind, name) :: rest =>
      do r <- perform (DeleteRbac kind ns name) in
      match IgnoreNotFound r with
      | Some e => Ret (Err e)
      | None => delete_objects ns rest
      end
  end.

Definition peer_discovery_objects (rmq : RabbitmqCluster) : list (string * string) :=
  [("Role", ChildResourceName rmq "peer-discovery"); ("RoleBinding", ChildResourceName rmq "server")].

Section Reconcile.
Context {I : Ini} {O : OwnerRefs} {M : StrategicMerge} {V : Semver} {T : Rfc3339} {R : RetryLib} {X : ClientLib}
  {C : CreateOrUpdateLib}
  (iter : gmap string ServicePort -> list (string * ServicePort)) (rand : RandSource)
  (arrival : list nodeQuorumCheck -> list nodeQuorumCheck) (cfg : ReconcilerConfig).

(** The StatefulSet exists and is being updated: a queue rebalance is noted
    for later. *)
Definition note_queue_rebalance (rmq : RabbitmqCluster) : prog (RabbitmqCluster + StepResult) :=
  do s <- statefulSet rmq in
  match s with
  | Err e => Ret (if IsNotFound e then inl rmq else inr (step_fail (ErrApi e)))
  | Ok sts =>
      match statefulSetNeedsQueueRebalance sts rmq with
      | None => Ret (inr (step_fail panic))
      | Some false => Ret (inl rmq)
      | Some true =>
          do r <- markForQueueRebalance rmq in
          Ret (match r with Ok rmq' => inl rmq' | Err e => inr (step_fail (ErrApi e)) end)
      end
  end.

Definition delete_rbac (rmq : RabbitmqCluster) : prog (result ApiError unit) :=
  if negb (ShouldCreatePeerDiscoveryRBAC rmq)
  then delete_objects (rmq_Namespace rmq) (peer_discovery_objects rmq)
  else Ret (Ok tt).

(** ** One builder *)

(** What the closure that updates an object captures: the cluster (the
    builder's [Instance]), the builder, the object, and whether the object
    still shares with the cluster what an earlier [Update] put there. *)
Record WriteState := mkWrite {
  ws_Instance : RabbitmqCluster;
  ws_Builder : ResourceBuilder;
  ws_Object : Object;
  ws_shared : bool
}.

(** The object is read or written back by the client. *)
Definition put_object (obj : Object) (s : WriteState) : WriteState :=
  mkWrite (ws_Instance s) (ws_Builder s) obj false.

(** The cluster [builder.Update(obj)] works with. *)
Definition update_instance (s : WriteState) : RabbitmqCluster :=
  match ws_Builder s with
  | StatefulSetBuilder => if ws_shared s then share_override (ws_Instance s) else ws_Instance s
  | _ => ws_Instance s
  end.

(** [func() error { return builder.Update(obj) }] *)
Definition mutate (s : WriteState) : WriteState * option BuildError :=
  let instance := update_instance s in
  match Update iter instance (ws_Builder s) (ws_Object s) with
  | Ok (obj, b) =>
      (mkWrite (if UpdateMayRequireStsRecreate b then instance_after_Update instance else instance) b obj
         (UpdateMayRequireStsRecreate b), None)
  | Err e => (s, Some e)
  end.

(** The checks on the replicas, when the StatefulSet exists; the built object
    is updated in place.  The override stays shared unless the cluster was
    read again. *)
Definition check_existing_sts (s : WriteState) (current : result ApiError StatefulSet)
  : prog (WriteState + StepResult) :=
  match current with
  | Err _ => Ret (inl s)
  | Ok cur =>
      match mutate s with
      | (_, Some e) => Ret (inr (step_fail (ErrBuild e)))
      | (s, None) =>
          match ws_Object s with
          | OStatefulSet sts =>
              do c <- check_replicas (ws_Instance s) cur sts in
              Ret (match c with
                   | inl (rmq, replaced) => inl (mkWrite rmq (ws_Builder s) (ws_Object s) (negb replaced))
                   | inr r => inr r
                   end)
          | _ => Ret (inr (step_fail panic))
          end
      end
  end.

Definition expand_claims (s : WriteState) : prog (WriteState + StepResult) :=
  match ws_Object s with
  | OStatefulSet sts =>
      do r <- reconcilePVC (ws_Instance s) sts in
      match r with
      | Ok _ => Ret (inl s)
      | Err e =>
          do _ <- setReconcileSuccess (ws_Instance s) ConditionFalse "FailedReconcilePVC" e in
          Ret (inr (step_fail (ErrText e)))
      end
  | _ => Ret (inr (step_fail panic))
  end.

(** The block under [builder.UpdateMayRequireStsRecreate()] *)
Definition prepare_sts (s : WriteState) : prog (WriteState + StepResult) :=
  do current <- statefulSet (ws_Instance s) in
  match IgnoreNotFound current with
  | Some e => Ret (inr (step_fail (ErrApi e)))
  | None =>
      do c <- check_existing_sts s current in
      match c with
      | inr r => Ret (inr r)
      | inl s => expand_claims s
      end
  end.

(** One attempt of the retried closure.  An error of [Update] is no conflict:
    it ends the retries. *)
Definition write_once (s : WriteState)
  : prog (WriteState * result ApiError (OperationResult * option BuildError)) :=
  do a <- CreateOrUpdateS ws_Object put_object mutate s in
  Ret (fst a,
       match snd a with
       | Ok op => Ok (op, None)
       | Err (MutateError e) => Ok (OperationResultNone, Some e)
       | Err (ServerError e) => Err e
       end).

Definition write_error (r : result ApiError (OperationResult * option BuildError))
  : OperationResult * option RErr :=
  match r with
  | Ok (op, None) => (op, None)
  | Ok (_, Some e) => (OperationResultNone, Some (ErrBuild e))
  | Err e => (OperationResultNone, Some (ErrApi e))
  end.

Definition write_object (s : WriteState) : prog (RabbitmqCluster + StepResult) :=
  do w <- OnErrorS IsConflict write_once s in
  let s := fst w in
  let '(operationResult, err) := write_error (snd w) in
  do _ <- logAndRecordOperationResult (ws_Object s) operationResult err in
  match err with
  | Some (ErrBuild ErrInvalidEnvConfig as e) =>
      do _ <- setReconcileSuccess (ws_Instance s) ConditionFalse "InvalidConfiguration" (rerr_text e) in
      Ret (inr step_ok)
  | Some e =>
      do _ <- setReconcileSuccess (ws_Instance s) ConditionFalse "Error" (rerr_text e) in
      Ret (inr (step_fail e))
  | None =>
      do a <- annotateIfNeeded (ws_Instance s) (ws_Builder s) operationResult in
      Ret (match a with Ok _ => inl (ws_Instance s) | Err e => inr (step_fail (ErrApi e)) end)
  end.

Definition reconcile_builder (rmq : RabbitmqCluster) (b : ResourceBuilder)
  : prog (RabbitmqCluster + StepResult) :=
  match Build rand rmq b with
  | Err e => Ret (inr (step_fail (ErrBuild e)))
  | Ok obj =>
      let s := mkWrite rmq b obj false in
      do p <- (if UpdateMayRequireStsRecreate b then prepare_sts s else Ret (inl s)) in
      match p with
      | inr r => Ret (inr r)
      | inl s => write_object s
      end
  end.

Fixpoint reconcile_builders (rmq : RabbitmqCluster) (builders : list ResourceBuilder)
  : prog (RabbitmqCluster + StepResult) :=
  match builders with
  | [] => Ret (inl rmq)
  | b :: rest =>
      do r <- reconcile_builder rmq b in
      match r with
      | inr s => Ret (inr s)
      | inl rmq => reconcile_builders rmq rest
      end
  end.

(** ** The pass *)

(** After the builders. *)
Definition finish (rmq : RabbitmqCluster) : prog StepResult :=
  do s <- restartStatefulSetIfNeeded rmq in
  unless_stopped (s, rmq) (fun rmq =>
  do st <- reconcileStatus rmq in
  match fst st with
  | Err e => Ret (step_fail e)
  | Ok _ =>
      do q <- updateQuorumStatus arrival (snd st) in
      do v <- reconcileRabbitmqVersionAnnotation (snd q) in
      unless_stopped_report "FailedVersionAnnotation" v (fun rmq =>
      do c <- runRabbitmqCLICommandsIfAnnotated rmq in
      unless_stopped_report "FailedCLICommand" c (fun rmq =>
      do _ <- setReconcileSuccess rmq ConditionTrue "Success" "Finish reconciling" in
      Ret step_ok))
  end).

(** From the TLS checks to the end. *)
Definition reconcile_children (rmq : RabbitmqCluster) : prog StepResult :=
  do t <- reconcileTLS rmq in
  match fst t with
  | Err ErrDisableNonTLSConfig => Ret step_ok
  | Err e => Ret (step_fail e)
  | Ok _ =>
      let rmq := snd t in
      do _ <- label_default_user_secret rmq in
      do n <- note_queue_rebalance rmq in
      or_return n (fun rmq =>
      do d <- delete_rbac rmq in
      match d with
      | Err e => Ret (step_fail (ErrApi e))
      | Ok _ =>
          do b <- reconcile_builders rmq (ResourceBuilders rmq) in
          or_return b finish
      end)
  end.

Definition pause (rmq : RabbitmqCluster) : prog StepResult :=
  do _ <- event_warning "PausedReconciliation" ("label '" +:+ pauseReconciliationLabel +:+ "' is set to true") in
  do rmq <- set_condition NoWarnings ConditionFalse "reconciliation paused" [] rmq in
  do _ <- patch_status rmq in
  Ret step_ok.

Definition reconcile_live (rmq : RabbitmqCluster) : prog StepResult :=
  do s <- reconcileOperatorDefaults cfg rmq in
  unless_stopped s (fun rmq =>
  do f <- addFinalizerIfNeeded rmq in
  match fst f with
  | Err e => Ret (step_fail (ErrApi e))
  | Ok _ =>
      do c <- updateStatusConditions (snd f) in
      unless_stopped c reconcile_children
  end).

Definition Reconcile (namespace name : string) : prog StepResult :=
  do r <- perform (GetCluster namespace name) in
  match r with
  | Err e => Ret (if IsNotFound e then step_ok else step_fail (ErrApi e))
  | Ok rmq =>
      if being_deleted rmq then
        do d <- prepareForDeletion rmq in
        Ret (match d with Ok _ => step_ok | Err e => step_fail e end)
      else if paused rmq then pause rmq
      else reconcile_live rmq
  end.
End Reconcile.

(** ** Only the builders' step creates or updates a child through its builder *)

Definition quiet (c : call) : Prop :=
  match c with CreateObject _ | UpdateObject _ => False | _ => True end.

Section Quiet.
Context {T : Rfc3339} {R : RetryLib} {RL : RetryLaws} {X : ClientLib}.

Lemma quiet_event ty reason msg : calls_only quiet (perform (Event ty reason msg)).
Proof. calls. Qed.
Lemma quiet_setReconcileSuccess rmq s reason msg : calls_only quiet (setReconcileSuccess rmq s reason msg).
Proof. unfold setReconcileSuccess, set_condition, patch_status. calls. Qed.
Lemma quiet_patch_status rmq : calls_only quiet (patch_status rmq).
Proof. unfold patch_status. calls. Qed.
Lemma quiet_deleteAnnotation_cm (c : ConfigMap) a : calls_only quiet (deleteAnnotation c a).
Proof. unfold deleteAnnotation. cbn. calls. Qed.
Lemma quiet_deleteAnnotation_sts (s : StatefulSet) a : calls_only quiet (deleteAnnotation s a).
Proof. unfold deleteAnnotation. cbn. calls. Qed.
Lemma quiet_deleteAnnotation_rmq (r : RabbitmqCluster) a : calls_only quiet (deleteAnnotation r a).
Proof. unfold deleteAnnotation. cbn. calls. Qed.
Lemma quiet_updateAnnotation_cm ns n k v : calls_only quiet (updateAnnotation (T := ConfigMap) ns n k v).
Proof. unfold updateAnnotation, annotate_once. cbn [ko_get ko_update kobj_cluster kobj_sts kobj_configmap]. calls. Qed.
Lemma quiet_updateAnnotation_sts ns n k v : calls_only quiet (updateAnnotation (T := StatefulSet) ns n k v).
Proof. unfold updateAnnotation, annotate_once. cbn [ko_get ko_update kobj_cluster kobj_sts kobj_configmap]. calls. Qed.
Lemma quiet_updateAnnotation_rmq ns n k v : calls_only quiet (updateAnnotation (T := RabbitmqCluster) ns n k v).
Proof. unfold updateAnnotation, annotate_once. cbn [ko_get ko_update kobj_cluster kobj_sts kobj_configmap]. calls. Qed.
Lemma quiet_statefulSet rmq : calls_only quiet (statefulSet rmq).
Proof. unfold statefulSet. calls. Qed.
Lemma quiet_configMap rmq n : calls_only quiet (configMap rmq n).
Proof. unfold configMap. calls. Qed.

Hint Resolve quiet_event quiet_setReconcileSuccess quiet_patch_status quiet_deleteAnnotation_cm
  quiet_deleteAnnotation_sts quiet_deleteAnnotation_rmq quiet_updateAnnotation_cm quiet_updateAnnotation_sts
  quiet_updateAnnotation_rmq quiet_statefulSet quiet_configMap : calls.

Lemma quiet_updateStatusConditions rmq : calls_only quiet (updateStatusConditions rmq).
Proof. unfold updateStatusConditions, getChildResources, read_clock4. calls. Qed.

Lemma quiet_reconcileTLS rmq : calls_only quiet (reconcileTLS rmq).
Proof.
  unfold reconcileTLS, checkTLSSecrets, check_ca_cert, bad_request, tls_error, event_warning. calls.
Qed.

Lemma quiet_reconcileOperatorDefaults cfg rmq : calls_only quiet (reconcileOperatorDefaults cfg rmq).
Proof. unfold reconcileOperatorDefaults, update_or_return, updateRabbitmqCluster. calls. Qed.

Lemma quiet_recordEvents rmq reason msg : calls_only quiet (recordEventsAndSetCondition rmq reason msg).
Proof. unfold recordEventsAndSetCondition, event_warning, set_condition. calls. Qed.
Hint Resolve quiet_recordEvents : calls.

Lemma quiet_check_replicas rmq current desired : calls_only quiet (check_replicas rmq current desired).
Proof.
  unfold check_replicas, saveReplicasBeforeZero, scaleDown, scaleFromZeroToBeforeReplicasConfigured,
    removeReplicasBeforeZeroAnnotationIfExists, event_normal. calls.
Qed.

Lemma quiet_get_pvcs rmq l : calls_only quiet (get_pvcs rmq l).
Proof. induction l; cbn [get_pvcs]; calls. Qed.
Lemma quiet_retry rmq n i : calls_only quiet (retryWithInterval n i (sts_is_gone rmq)).
Proof. unfold sts_is_gone, getSts. induction n; cbn [retryWithInterval]; calls. Qed.
Lemma quiet_scaleUpPVCs rmq l d : calls_only quiet (scaleUpPVCs rmq l d).
Proof. induction l; cbn [scaleUpPVCs]; calls. Qed.
Hint Resolve quiet_get_pvcs quiet_retry quiet_scaleUpPVCs : calls.

Lemma quiet_scale_pvcs rmq d : calls_only quiet (scale_pvcs rmq d).
Proof. unfold scale_pvcs, deleteSts, getSts, getClusterPVCs. calls. Qed.
Hint Resolve quiet_scale_pvcs : calls.

Lemma quiet_reconcilePVC rmq sts : calls_only quiet (reconcilePVC rmq sts).
Proof. unfold reconcilePVC, Scale, existingCapacity, getSts, event_warning. calls. Qed.

Lemma quiet_GetClientForPod rmq pod : calls_only quiet (GetClientForPod rmq pod).
Proof.
  unfold GetClientForPod, newRabbitholeClientFromInfo, getClientInfoForPod, readDefaultUserCredentials, managementHTTPSTransport. calls.
Qed.
Hint Resolve quiet_GetClientForPod : calls.

Lemma quiet_reconcileStatus rmq : calls_only quiet (reconcileStatus rmq).
Proof. unfold reconcileStatus. calls. Qed.

Lemma quiet_check_all rmq l : calls_only quiet (check_all rmq l).
Proof. induction l; cbn [check_all]; unfold checkNodeQuorumStatus; calls. Qed.
Hint Resolve quiet_check_all : calls.

Lemma quiet_updateQuorumStatus arrival rmq : calls_only quiet (updateQuorumStatus arrival rmq).
Proof. unfold updateQuorumStatus, checkQuorumStatus, getPodEndpoints. calls. Qed.

Lemma quiet_annotateIfNeeded rmq b op : calls_only quiet (annotateIfNeeded rmq b op).
Proof. unfold annotateIfNeeded, annotate_target, event_warning. calls. Qed.

Lemma quiet_restart rmq : calls_only quiet (restartStatefulSetIfNeeded rmq).
Proof. unfold restartStatefulSetIfNeeded, restart_once, event_warning, event_normal. calls. Qed.

Lemma quiet_set_plugins_on rmq l : calls_only quiet (set_plugins_on rmq l).
Proof. induction l; cbn [set_plugins_on]; unfold exec, cli_error, event_warning; calls. Qed.
Hint Resolve quiet_set_plugins_on : calls.

Lemma quiet_cli rmq : calls_only quiet (runRabbitmqCLICommandsIfAnnotated rmq).
Proof.
  unfold runRabbitmqCLICommandsIfAnnotated, pluginsConfigUpdatedRecently, run_if, or_fail,
    runSetPluginsCommand, runEnableFeatureFlagsCommand, runQueueRebalanceCommand, exec, cli_error,
    event_warning. calls.
Qed.

Lemma quiet_version rmq : calls_only quiet (reconcileRabbitmqVersionAnnotation rmq).
Proof. unfold reconcileRabbitmqVersionAnnotation. calls. Qed.

Lemma quiet_addFinalizer rmq : calls_only quiet (addFinalizerIfNeeded rmq).
Proof. unfold addFinalizerIfNeeded. calls. Qed.

Lemma quiet_label_pods l : calls_only quiet (label_pods l).
Proof. induction l; cbn [label_pods]; calls. Qed.
Lemma quiet_wait n rmq t : calls_only quiet (wait_for_label n rmq t).
Proof. induction n; cbn [wait_for_label]; unfold checkIfLabelPropagated, exec; calls. Qed.
Hint Resolve quiet_label_pods quiet_wait : calls.

Lemma quiet_prepareForDeletion rmq : calls_only quiet (prepareForDeletion rmq).
Proof. unfold prepareForDeletion, addRabbitmqDeletionLabel, removeFinalizer. calls. Qed.

Lemma quiet_label_secret rmq : calls_only quiet (label_default_user_secret rmq).
Proof. unfold label_default_user_secret. calls. Qed.

Lemma quiet_note_rebalance rmq : calls_only quiet (note_queue_rebalance rmq).
Proof. unfold note_queue_rebalance, markForQueueRebalance. calls. Qed.

Lemma quiet_delete_objects ns l : calls_only quiet (delete_objects ns l).
Proof. induction l as [|[k n] l IH]; cbn [delete_objects]; calls. Qed.

Lemma quiet_log obj op err : calls_only quiet (logAndRecordOperationResult obj op err).
Proof. unfold logAndRecordOperationResult, event_normal, event_warning. calls. Qed.

Lemma quiet_pause rmq : calls_only quiet (pause rmq).
Proof. unfold pause, event_warning, set_condition. calls. Qed.
End Quiet.

#[export] Hint Resolve quiet_event quiet_setReconcileSuccess quiet_updateStatusConditions quiet_reconcileTLS
  quiet_reconcileOperatorDefaults quiet_check_replicas quiet_reconcilePVC quiet_reconcileStatus
  quiet_updateQuorumStatus quiet_annotateIfNeeded quiet_restart quiet_cli quiet_version quiet_addFinalizer
  quiet_prepareForDeletion quiet_label_secret quiet_note_rebalance quiet_delete_objects quiet_log quiet_pause
  quiet_statefulSet : calls.

(** ** What a pass may do with the children *)

Definition is_warning (e : event) : bool :=
  match projT1 e with Event ty _ _ => str_eqb ty "Warning" | _ => false end.
Definition warned (h : history) : Prop := existsb is_warning h = true.

Lemma existsb_grows (f : event -> bool) h t : existsb f h = true -> existsb f (h ++ t) = true.
Proof. intros E. by rewrite existsb_app, E. Qed.

Section Safety.
Context {I : Ini} {O : OwnerRefs} {M : StrategicMerge} {V : Semver} {C : CreateOrUpdateLib}
  (iter : gmap string ServicePort -> list (string * ServicePort)).

(** [new] is what the builder [b] of the cluster [instance] makes of [old]. *)
Definition makes (instance : RabbitmqCluster) (b : ResourceBuilder) (old new : Object) : Prop :=
  exists b1 b2, builder_id b1 = builder_id b /\ Update iter instance b1 old = Ok (new, b2).

(** The event shows that the child of [b] is as its builder makes it: the
    server accepted what the builder made, or returned an object that the
    builder leaves as it is. *)
Definition in_place (instance : RabbitmqCluster) (b : ResourceBuilder) (e : event) : Prop :=
  match e with
  | existT (CreateObject new) (Ok _) => exists old, makes instance b old new
  | existT (UpdateObject new) (Ok _) => exists old, makes instance b old new
  | existT (GetObject _) (Ok old) => exists new, makes instance b old new /\ Semantic_DeepEqual old new = true
  | _ => False
  end.
Definition written (instance : RabbitmqCluster) (h : history) (b : ResourceBuilder) : Prop :=
  Exists (in_place instance b) h.

(** The replicas were compared before: the StatefulSet was absent, or the
    generated one does not lower its replicas to a number above zero. *)
Definition sts_checked (rmq : RabbitmqCluster) (h : history) : Prop :=
  exists a,
    Ev (GetSts (rmq_Namespace rmq) (ChildResourceName rmq "server")) a ∈ h /\
    match a with
    | Err e => IsNotFound e = true
    | Ok current => exists sts0 sts c d,
        sts_Build rmq = Ok sts0 /\ sts_Update rmq sts0 = Ok sts /\
        replica_pair current sts = Some (c, d) /\ ~ (0 < d < c)%Z
    end.

(** When an object may be created or updated in a pass: there is a state
    [instance] of the cluster such that the object is what one of its
    builders made, all children before it in the list are in place, and the
    StatefulSet's replicas were checked.  The StatefulSet's builder works with
    the cluster as the replica checks left it. *)
Definition child_write_ok (h : history) (new : Object) : Prop :=
  exists instance pre b post last_instance old,
    ResourceBuilders instance = pre ++ b :: post /\
    Forall (written instance h) pre /\
    makes last_instance b old new /\
    (b = StatefulSetBuilder -> sts_checked instance h) /\
    (b <> StatefulSetBuilder -> last_instance = instance).

Definition pass_event_ok (h : history) (e : event) : Prop :=
  match projT1 e with
  | CreateObject new | UpdateObject new => child_write_ok h new
  | _ => True
  end.

Definition pass_ok (h : history) : Prop := history_ok pass_event_ok h.

Lemma pass_ok_quiet h t : pass_ok h -> Forall (fun e => quiet (projT1 e)) t -> pass_ok (h ++ t).
Proof.
  intros Hh Ht. revert h Hh. induction Ht as [|e t He _ IH]; intros h Hh; [by rewrite app_nil_r|].
  change (e :: t) with ([e] ++ t). rewrite (assoc_L (++)). apply IH. apply history_ok_snoc; [done|].
  unfold pass_event_ok. by destruct (projT1 e).
Qed.

Lemma sts_checked_grows rmq h t : sts_checked rmq h -> sts_checked rmq (h ++ t).
Proof. intros (a & Hin & Ha). exists a. split; [set_solver|done]. Qed.

Lemma written_grows1 inst h t b : written inst h b -> written inst (h ++ t) b.
Proof. intros H. apply Exists_app. by left. Qed.

Lemma written_last inst h e b : in_place inst b e -> written inst (h ++ [e]) b.
Proof. intros H. apply Exists_app. right. by constructor. Qed.

Lemma written_grows inst h t l : Forall (written inst h) l -> Forall (written inst (h ++ t)) l.
Proof. intros H. eapply Forall_impl; [exact H|]. intros b. apply written_grows1. Qed.

(** A quiet program keeps [pass_ok] and lengthens the history. *)
Definition step_post {A} (h : history) (W : history -> A -> Prop) (h' : history) (r : A) : Prop :=
  pass_ok h' /\ (exists t, h' = h ++ t) /\ W h' r.

Lemma quiet_step {A B} (p : prog A) (f : A -> prog B) (Q : history -> B -> Prop) h :
  calls_only quiet p -> pass_ok h ->
  (forall t a, pass_ok (h ++ t) -> wp (f a) Q (h ++ t)) -> wp (bind p f) Q h.
Proof.
  intros Hp Hh Hk. apply wp_bind. eapply wp_mono; [|apply Hp]. intros h' a (t & -> & Ht).
  apply Hk. by apply pass_ok_quiet.
Qed.

(** [Update] keeps the builder, up to its flag. *)
Lemma Update_builder_id instance b old new b' :
  Update iter instance b old = Ok (new, b') -> builder_id b' = builder_id b.
Proof.
  unfold Update. destruct b, old; try done;
    (destruct (result_bind _ _) as [[? ?]|] eqn:E; cbn; [|done]);
    apply result_bind_ok in E as (x & _ & E); injection E as <- <-; intros [= <- <-]; done.
Qed.
End Safety.

Section Pass.
Context {I : Ini} {O : OwnerRefs} {M : StrategicMerge} {V : Semver} {T : Rfc3339} {R : RetryLib}
  {RL : RetryLaws} {X : ClientLib} {C : CreateOrUpdateLib} {CL : CreateOrUpdateLaws}
  (iter : gmap string ServicePort -> list (string * ServicePort)) (rand : RandSource)
  (arrival : list nodeQuorumCheck -> list nodeQuorumCheck) (cfg : ReconcilerConfig).

(** Why a step returned without an error and a requeue: something was
    refused, with a warning. *)
Definition stop_warned {A} (h : history) (r : A + StepResult) : Prop :=
  match r with inl _ => True | inr s => s = step_ok -> warned h end.

Lemma recordEvents_warned rmq reason msg h :
  wp (recordEventsAndSetCondition rmq reason msg) (fun h' _ => warned h') h.
Proof.
  unfold recordEventsAndSetCondition, event_warning, set_condition, patch_status.
  cbn [bind perform wp]. intros u now a. destruct a; cbn [bind wp]; unfold warned;
    rewrite <- !(assoc_L (++)), existsb_app; cbn; by rewrite orb_true_r.
Qed.

Lemma scaleFromZero_warned rmq d h :
  wp (scaleFromZeroToBeforeReplicasConfigured rmq d) (fun h' r => fst r = true -> warned h') h.
Proof.
  unfold scaleFromZeroToBeforeReplicasConfigured. destruct (smap_get _ _); [|by cbn].
  destruct (ParseInt32 _); [destruct (negb _); [|by cbn]|]; rewrite wp_bind;
    (eapply wp_mono; [|apply recordEvents_warned]); intros h' r Hw _; exact Hw.
Qed.

Lemma check_replicas_stops rmq current desired h :
  wp (check_replicas rmq current desired) (fun h' r =>
    stop_warned h' r /\ forall x, r = inl x ->
      exists c d, replica_pair current desired = Some (c, d) /\ ~ (0 < d < c)%Z) h.
Proof.
  unfold check_replicas. destruct (replica_pair current desired) as [[c d]|]; [|by split].
  assert (forall (Q : history -> (RabbitmqCluster * bool) + StepResult -> Prop) rmq1 (replaced : bool) h1,
    (forall h2 r, stop_warned h2 r -> Q h2 r) ->
    wp (if ScaleFromZero c d then
          do r <- scaleFromZeroToBeforeReplicasConfigured rmq1 d in
          if fst r : bool then Ret (inr step_ok)
          else do x <- removeReplicasBeforeZeroAnnotationIfExists (snd r) in Ret (inl (fst x, replaced || snd x))
        else Ret (inl (rmq1, replaced))) Q h1) as Hzero.
  { intros Q rmq1 replaced h1 HQ. destruct (ScaleFromZero c d); [|by apply HQ].
    rewrite wp_bind. eapply wp_mono; [|apply scaleFromZero_warned]. intros h2 [[] r1] Hw; cbn [fst snd] in *.
    - apply HQ. intros _. by apply Hw.
    - rewrite wp_bind. eapply wp_mono; [|apply (wp_true _)]. intros h3 r2 _. by apply HQ. }
  destruct (ScaleToZero c d) eqn:Ez.
  - rewrite !wp_bind. eapply wp_mono; [|apply (wp_true _)]. intros h1 [rmq1|e] _; cbn [wp]; [|by split].
    apply Hzero. intros h2 r Hr. split; [done|]. intros _ _. exists c, d. split; [done|].
    apply andb_true_iff in Ez as [->%Z.eqb_eq _]. lia.
  - unfold scaleDown. rewrite Z.gtb_ltb. destruct (Z.ltb_spec d c) as [Hlt|Hge].
    + rewrite !wp_bind. eapply wp_mono; [|apply recordEvents_warned]. intros h1 r Hw. cbn [wp fst snd].
      split; [|done]. intros _. exact Hw.
    + cbn [bind wp fst snd]. apply Hzero. intros h2 r Hr. split; [done|]. intros _ _. exists c, d.
      split; [done|]. lia.
Qed.

(** ** One write *)

Lemma mutate_error s s1 e : mutate iter s = (s1, Some e) -> s1 = s.
Proof. unfold mutate. destruct (Update _ _ _ _) as [[o b]|]; by intros [= <- _]. Qed.

Lemma mutate_makes s s1 :
  mutate iter s = (s1, None) ->
  makes iter (update_instance s) (ws_Builder s) (ws_Object s) (ws_Object s1) /\
  builder_id (ws_Builder s1) = builder_id (ws_Builder s) /\
  (UpdateMayRequireStsRecreate (ws_Builder s) = false -> ws_Instance s1 = ws_Instance s).
Proof.
  unfold mutate. destruct (Update _ _ _ _) as [[o b]|] eqn:E; [|done]. intros [= <-].
  pose proof (Update_builder_id _ _ _ _ _ _ E) as Hid. cbn [ws_Object ws_Builder ws_Instance].
  split; [by exists (ws_Builder s), b|]. split; [done|]. intros Hb. unfold update_instance.
  destruct (ws_Builder s), b; done.
Qed.

Lemma same_builder b b' :
  builder_id b = builder_id b' -> UpdateMayRequireStsRecreate b = UpdateMayRequireStsRecreate b'.
Proof. by destruct b, b'. Qed.

Lemma is_sts b : UpdateMayRequireStsRecreate b = true <-> b = StatefulSetBuilder.
Proof. by destruct b. Qed.

Section OneWrite.
Context (inst : RabbitmqCluster) (pre : list ResourceBuilder) (b0 : ResourceBuilder)
  (post : list ResourceBuilder) (h : history).
Hypothesis Hinst : ResourceBuilders inst = pre ++ b0 :: post.
Hypothesis Hpre : Forall (written iter inst h) pre.
Hypothesis Hsts : b0 = StatefulSetBuilder -> sts_checked inst h.

(** The child of [b0] is in place, made for [inst] unless it is the
    StatefulSet. *)
Definition child_in_place (h' : history) : Prop :=
  exists last_instance, written iter last_instance h' b0 /\
    (b0 <> StatefulSetBuilder -> last_instance = inst).

Definition write_inv (s : WriteState) (h' : history) : Prop :=
  pass_ok iter h' /\ (exists t, h' = h ++ t) /\ builder_id (ws_Builder s) = builder_id b0 /\
  (b0 <> StatefulSetBuilder -> ws_Instance s = inst).

Lemma not_sts s : builder_id (ws_Builder s) = builder_id b0 ->
  b0 <> StatefulSetBuilder -> UpdateMayRequireStsRecreate (ws_Builder s) = false.
Proof. intros Hid Hb. rewrite (same_builder _ _ Hid). by destruct b0. Qed.

Lemma write_inv_mutate s s1 h' : mutate iter s = (s1, None) -> write_inv s h' -> write_inv s1 h'.
Proof.
  intros (Hm & Hid & Hi)%mutate_makes (Hok & Hg & Hb & Hs). split; [done|]. split; [done|].
  split; [by rewrite Hid|]. intros Hne. rewrite Hi; [by apply Hs|]. by apply not_sts.
Qed.

Lemma write_inv_quiet s h' e : write_inv s h' -> quiet (projT1 e) -> write_inv s (h' ++ [e]).
Proof.
  intros (Hok & (t & ->) & Hs) He. split; [by apply pass_ok_quiet; [|constructor]|].
  split; [rewrite <- (assoc_L (++)); by eexists|done].
Qed.

Lemma write_inv_put o s h' : write_inv s h' -> write_inv (put_object o s) h'.
Proof. done. Qed.

(** What the builder makes of the object may be written. *)
Lemma mutate_write_ok s s1 h' :
  mutate iter s = (s1, None) -> write_inv s h' -> child_write_ok iter h' (ws_Object s1).
Proof.
  intros (Hm & Hid & Hi)%mutate_makes (Hok & (t & ->) & Hb & Hs).
  exists inst, pre, b0, post, (update_instance s), (ws_Object s). split; [done|].
  split; [by apply written_grows|]. split.
  { destruct Hm as (b1 & b2 & Hb1 & HU). exists b1, b2. split; [by rewrite Hb1|done]. }
  split; [intros E; by apply sts_checked_grows, Hsts|]. intros Hne. rewrite <- (Hs Hne).
  pose proof (not_sts s Hb Hne) as Hn. unfold update_instance. by destruct (ws_Builder s).
Qed.

Lemma mutate_in_place s s1 h' e :
  mutate iter s = (s1, None) -> write_inv s h' ->
  ((exists a, e = Ev (CreateObject (ws_Object s1)) (Ok a)) \/
   (exists a, e = Ev (UpdateObject (ws_Object s1)) (Ok a)) \/
   (exists k, e = Ev (GetObject k) (Ok (ws_Object s)) /\
      Semantic_DeepEqual (ws_Object s) (ws_Object s1) = true)) ->
  forall t, child_in_place (h' ++ e :: t).
Proof.
  intros (Hm & Hid & Hi)%mutate_makes (Hok & Hg & Hb & Hs) He t. exists (update_instance s). split.
  - apply Exists_app. right. apply Exists_cons_hd.
    assert (makes iter (update_instance s) b0 (ws_Object s) (ws_Object s1)) as Hm'.
    { destruct Hm as (b1 & b2 & Hb1 & HU). exists b1, b2. split; [by rewrite Hb1|done]. }
    destruct He as [[a ->]|[[a ->]|(k & -> & Heq)]]; cbn; by eexists.
  - intros Hne. rewrite <- (Hs Hne). pose proof (not_sts s Hb Hne) as Hn. unfold update_instance.
    by destruct (ws_Builder s).
Qed.

Lemma write_inv_write s s1 h' c a :
  mutate iter s = (s1, None) -> write_inv s h' ->
  (c = CreateObject (ws_Object s1) \/ c = UpdateObject (ws_Object s1)) ->
  write_inv s1 (h' ++ [Ev c a]).
Proof.
  intros Hm Hi Hc. pose proof (mutate_write_ok _ _ _ Hm Hi) as Hok.
  destruct (write_inv_mutate _ _ _ Hm Hi) as (H1 & (t & ->) & H2).
  split; [apply history_ok_snoc; [done|]; by destruct Hc as [-> | ->]|].
  split; [rewrite <- (assoc_L (++)); by eexists|done].
Qed.

Lemma write_once_wp s h' :
  write_inv s h' ->
  wp (write_once iter s) (fun h1 r => write_inv (fst r) h1 /\
    (forall op, snd r = Ok (op, None) -> child_in_place h1)) h'.
Proof.
  intros Hi. unfold write_once. rewrite wp_bind. apply CreateOrUpdate_wp. intros a.
  set (h1 := h' ++ [Ev (GetObject (ws_Object s)) a]). cbv zeta.
  assert (write_inv s h1) as Hi1 by (by apply write_inv_quiet).
  assert (forall s0 s1 op c, write_inv s0 h1 -> mutate iter s0 = (s1, None) ->
    (c = CreateObject (ws_Object s1) \/ c = UpdateObject (ws_Object s1)) ->
    forall (e : event) (a1 : result ApiError Object),
    (forall o, a1 = Ok o -> child_in_place (h1 ++ [e])) -> write_inv s1 (h1 ++ [e]) ->
    wp (Ret (fst (write_answer put_object op s1 a1),
             match snd (write_answer put_object op s1 a1) with
             | Ok op => Ok (op, None)
             | Err (MutateError e) => Ok (OperationResultNone, Some e)
             | Err (ServerError e) => Err e
             end)) (fun h1 r => write_inv (fst r) h1 /\
    (forall op, snd r = Ok (op, None) -> child_in_place h1)) (h1 ++ [e])) as Hw.
  { intros s0 s1 op c H0 Hm Hc e a1 Hp Hw. destruct a1 as [o|e1]; cbn; (split; [done|]).
    - intros op' _. by eapply Hp.
    - done. }
  assert (forall s0 e, write_inv s0 h1 -> wp (Ret (s0, Ok (OperationResultNone, Some e) : result ApiError (OperationResult * option BuildError)))
    (fun h1 r => write_inv (fst r) h1 /\ (forall op, snd r = Ok (op, None) -> child_in_place h1)) h1) as He
    by (intros s0 e H0; by split).
  destruct a as [o|e].
  - assert (write_inv (put_object o s) h1) as Hp by done.
    destruct (mutate iter (put_object o s)) as [s1 [e1|]] eqn:Em.
    + apply mutate_error in Em as ->. by apply He.
    + split.
      * intros Hs. split; [by eapply write_inv_mutate|]. intros op _.
        apply (mutate_in_place _ _ h' _ Em); [done|]. right. right. by eexists.
      * intros _ a1. eapply (Hw _ s1 _ (UpdateObject (ws_Object s1))); [exact Hp|exact Em|by right| |].
        -- intros o' ->. eapply (mutate_in_place _ _ _ _ Em Hp). right. left. by eexists.
        -- by eapply write_inv_write; [exact Em| |right].
  - destruct (IsNotFound e); [|split; [done|by intros op]].
    destruct (mutate iter s) as [s1 [e1|]] eqn:Em.
    + apply mutate_error in Em as ->. by apply He.
    + intros a1. eapply (Hw _ s1 _ (CreateObject (ws_Object s1))); [exact Hi1|exact Em|by left| |].
      * intros o' ->. eapply (mutate_in_place _ _ _ _ Em Hi1). left. by eexists.
      * by eapply write_inv_write; [exact Em| |left].
Qed.

Definition write_result (h' : history) (r : RabbitmqCluster + StepResult) : Prop :=
  stop_warned h' r /\
  (forall rmq', r = inl rmq' -> child_in_place h' /\ (b0 <> StatefulSetBuilder -> rmq' = inst)).

Lemma child_in_place_grows h' t : child_in_place h' -> child_in_place (h' ++ t).
Proof. intros (l & Hw & Hl). exists l. split; [by apply written_grows1|done]. Qed.

(** An error is reported in an event and in the status. *)
Lemma write_error_reported rmq obj e h' :
  pass_ok iter h' -> (exists t, h' = h ++ t) ->
  wp (do _ <- logAndRecordOperationResult obj OperationResultNone (Some e) in
      match e with
      | ErrBuild ErrInvalidEnvConfig =>
          do _ <- setReconcileSuccess rmq ConditionFalse "InvalidConfiguration" (rerr_text e) in Ret (inr step_ok)
      | _ => do _ <- setReconcileSuccess rmq ConditionFalse "Error" (rerr_text e) in Ret (inr (step_fail e))
      end) (step_post iter h write_result) h'.
Proof.
  intros Hh (t0 & ->). unfold logAndRecordOperationResult, event_warning. cbn [bind perform wp]. intros u.
  set (ev := Ev _ u).
  assert (pass_ok iter ((h ++ t0) ++ [ev])) as Hh2 by (by apply history_ok_snoc).
  assert (warned ((h ++ t0) ++ [ev])) as Hw by (unfold warned; by rewrite existsb_app, orb_true_r).
  assert (forall msg s, wp (do _ <- setReconcileSuccess rmq ConditionFalse msg (rerr_text e) in
    Ret (inr s : RabbitmqCluster + StepResult)) (step_post iter h write_result) ((h ++ t0) ++ [ev])) as Hs.
  { intros msg s. apply (quiet_step iter); [auto with calls|done|]. intros t a Ht. split; [done|].
    split; [rewrite <- !(assoc_L (++)); by eexists|]. split; [|done]. intros _. by apply existsb_grows. }
  destruct e as [|[|]| |]; apply Hs.
Qed.

Lemma write_object_wp s :
  write_inv s h -> wp (write_object iter s) (step_post iter h write_result) h.
Proof.
  intros Hi. unfold write_object. apply wp_bind.
  apply (OnErrorS_wp _ _ write_inv); [done|]. intros s0 h0 Hi0.
  eapply wp_mono; [|by apply write_once_wp]. intros h1 [s1 r] [Hi1 Hp]. cbn [fst snd] in *.
  split; [|by destruct r]. destruct Hi1 as (Hok & (t & ->) & Hid & Hs).
  destruct r as [[op [e|]]|e]; cbn [write_error].
  - destruct e as [|m]; [apply (write_error_reported _ _ (ErrBuild ErrInvalidEnvConfig)) |
      apply (write_error_reported _ _ (ErrBuild (ErrOther m)))]; solve [done | by eexists].
  - specialize (Hp op eq_refl). apply (quiet_step iter); [auto with calls|done|]. intros t1 u Ht1.
    apply (quiet_step iter); [auto with calls|done|]. intros t2 [a|e] Ht2; (split; [done|]);
      (split; [rewrite <- !(assoc_L (++)); by eexists|]); (split; [done|]); [|done].
    intros rmq' [= <-]. split; [|done]. by do 2 apply child_in_place_grows.
  - apply (write_error_reported _ _ (ErrApi e)); solve [done | by eexists].
Qed.
End OneWrite.

(** ** One builder *)

Lemma step_intro {A} (W : history -> A -> Prop) h t r :
  pass_ok iter (h ++ t) -> W (h ++ t) r -> step_post iter h W (h ++ t) r.
Proof. intros Hh HW. split; [done|]. split; [by eexists|done]. Qed.

Lemma step_here {A} (W : history -> A -> Prop) h r : pass_ok iter h -> W h r -> step_post iter h W h r.
Proof. intros Hh HW. split; [done|]. split; [exists []; by rewrite app_nil_r|done]. Qed.

Lemma step_trans {A} (W : history -> A -> Prop) h t h' r :
  step_post iter (h ++ t) W h' r -> step_post iter h W h' r.
Proof. intros (Hh & (t' & ->) & HW). rewrite <- (assoc_L (++)) in *. by apply step_intro. Qed.

(** The StatefulSet may be written, or the pass stops. *)
Definition sts_prepared (rmq : RabbitmqCluster) (h : history) (r : WriteState + StepResult) : Prop :=
  stop_warned h r /\
  forall s, r = inl s -> sts_checked rmq h /\ ws_Builder s = StatefulSetBuilder.

(** The object built for the StatefulSet, updated against the one found. *)
Lemma check_existing_sts_wp rmq obj current h :
  pass_ok iter h -> Build rand rmq StatefulSetBuilder = Ok obj ->
  Ev (GetSts (rmq_Namespace rmq) (ChildResourceName rmq "server")) current ∈ h ->
  IgnoreNotFound current = None ->
  wp (check_existing_sts iter (mkWrite rmq StatefulSetBuilder obj false) current)
     (step_post iter h (sts_prepared rmq)) h.
Proof.
  intros Hh Hb Hin Hig. unfold check_existing_sts. destruct current as [cur|e].
  2:{ apply step_here; [done|]. split; [done|]. intros s [= <-]. split; [|done]. exists (Err e). split; [done|].
      unfold IgnoreNotFound in Hig. by destruct (IsNotFound e). }
  cbn [Build] in Hb. destruct (sts_Build rmq) as [sts0|] eqn:E0; [|done]. injection Hb as <-.
  unfold mutate, update_instance. cbn [ws_Builder ws_shared ws_Instance ws_Object Update].
  destruct (sts_Update rmq sts0) as [sts|] eqn:E1; cbn [result_bind map_err]; [|by apply step_here].
  cbn [ws_Object ws_Instance ws_Builder UpdateMayRequireStsRecreate].
  apply (calls_only_wp quiet); [apply calls_only_bind; [auto with calls | intros; apply calls_only_Ret]|].
  rewrite wp_bind. eapply wp_mono; [|apply check_replicas_stops]. intros h' r [Hs Hr]. cbn [wp].
  intros (t & -> & Ht). apply step_intro; [by apply pass_ok_quiet|]. split; [by destruct r as [[]|]|].
  intros x Hx. destruct r as [[rmq' replaced]|]; [|done]. injection Hx as <-. split; [|done].
  destruct (Hr _ eq_refl) as (c & d & Hcd & Hn).
  apply sts_checked_grows. exists (Ok cur). split; [done|]. by exists sts0, sts, c, d.
Qed.

Lemma expand_claims_wp rmq s h :
  pass_ok iter h -> sts_checked rmq h -> ws_Builder s = StatefulSetBuilder ->
  wp (expand_claims s) (step_post iter h (sts_prepared rmq)) h.
Proof.
  intros Hh Hc Hb. unfold expand_claims. destruct (ws_Object s); try by apply step_here.
  apply (quiet_step iter); [auto with calls|done|]. intros t [u|e] Ht.
  - apply step_intro; [done|]. split; [done|]. intros s' [= <-]. split; [|done]. by apply sts_checked_grows.
  - apply (quiet_step iter); [auto with calls|done|]. intros t2 u Ht2. rewrite <- (assoc_L (++)) in *.
    by apply step_intro.
Qed.

Lemma prepare_sts_wp rmq obj h :
  pass_ok iter h -> Build rand rmq StatefulSetBuilder = Ok obj ->
  wp (prepare_sts iter (mkWrite rmq StatefulSetBuilder obj false)) (step_post iter h (sts_prepared rmq)) h.
Proof.
  intros Hh Hb. unfold prepare_sts, statefulSet. cbn [bind perform wp ws_Instance]. intros current.
  set (ev := Ev _ current).
  assert (pass_ok iter (h ++ [ev])) as Hh1 by (by apply pass_ok_quiet; [|constructor]).
  destruct (IgnoreNotFound current) as [e|] eqn:Eig; cbn [wp]; [by apply step_intro|].
  rewrite wp_bind. eapply wp_mono; [|apply (check_existing_sts_wp rmq obj current); [done..| |done]].
  2:{ apply elem_of_app. right. by apply list_elem_of_singleton. }
  intros h2 r (Hh2 & (t & ->) & Hs & Hr). destruct r as [s|r].
  - destruct (Hr s eq_refl) as [Hc Hsb]. eapply wp_mono; [|by apply (expand_claims_wp rmq)].
    intros h3 r3 H3. rewrite <- (assoc_L (++)) in H3. by eapply step_trans.
  - rewrite <- (assoc_L (++)) in *. by apply step_intro.
Qed.

Lemma reconcile_builder_wp rmq h pre b post :
  pass_ok iter h -> ResourceBuilders rmq = pre ++ b :: post -> Forall (written iter rmq h) pre ->
  wp (reconcile_builder iter rand rmq b) (step_post iter h (write_result rmq b)) h.
Proof.
  intros Hh Hinst Hpre. unfold reconcile_builder.
  destruct (Build rand rmq b) as [obj|e] eqn:Eb; [|by apply step_here].
  rewrite wp_bind. destruct (UpdateMayRequireStsRecreate b) eqn:Es.
  - apply is_sts in Es as ->. eapply wp_mono; [|by apply (prepare_sts_wp rmq obj)].
    intros h1 [s|r] (Hh1 & (t & ->) & Hs & Hr); [|by apply step_intro].
    destruct (Hr s eq_refl) as [Hc Hsb]. eapply wp_mono;
      [|apply (write_object_wp rmq pre StatefulSetBuilder post); [done|by apply written_grows|done|]].
    { intros h2 r H2. by eapply step_trans. }
    split; [done|]. split; [exists []; by rewrite app_nil_r|]. by rewrite Hsb.
  - cbn [wp]. apply (write_object_wp rmq pre b post); [done..| |].
    + intros ->. done.
    + split; [done|]. split; [exists []; by rewrite app_nil_r|done].
Qed.

Lemma sts_last rmq pre post :
  ResourceBuilders rmq = pre ++ StatefulSetBuilder :: post -> post = [].
Proof.
  unfold ResourceBuilders. generalize (ShouldCreatePeerDiscoveryRBAC rmq),
    (VaultDefaultUserSecretEnabled rmq || ExternalSecretEnabled rmq).
  intros [] []; cbn; intros E; repeat (destruct pre as [|? pre]; cbn in E; try discriminate E; first [by injection E as -> | injection E as _ E]);
    by destruct pre.
Qed.

(** All children of the cluster are in place; the StatefulSet was made for
    the cluster as the replica checks left it. *)
Definition all_written (h : history) : Prop :=
  exists instance last_instance,
    Forall (fun b => written iter (if UpdateMayRequireStsRecreate b then last_instance else instance) h b)
      (ResourceBuilders instance).

Lemma all_written_grows h t : all_written h -> all_written (h ++ t).
Proof.
  intros (inst & last & H). exists inst, last. eapply Forall_impl; [exact H|].
  intros b. apply written_grows1.
Qed.

Lemma reconcile_builders_wp inst bs pre rmq h :
  pass_ok iter h -> ResourceBuilders inst = pre ++ bs -> bs <> [] -> rmq = inst ->
  Forall (written iter inst h) pre -> Forall (fun b => UpdateMayRequireStsRecreate b = false) pre ->
  wp (reconcile_builders iter rand rmq bs) (step_post iter h (fun h' r =>
    stop_warned h' r /\ (forall rmq', r = inl rmq' -> all_written h'))) h.
Proof.
  revert pre rmq h. induction bs as [|b bs IH]; intros pre rmq h Hh Hinst Hne -> Hpre Hpres; [done|].
  cbn [reconcile_builders].
  rewrite wp_bind. eapply wp_mono; [|by apply (reconcile_builder_wp inst h pre b bs)].
  intros h1 [rmq1|r] (Hh1 & (t & ->) & Hs & Hr); [|by apply step_intro].
  destruct (Hr rmq1 eq_refl) as [(last & Hw & Hl) Heq].
  destruct (UpdateMayRequireStsRecreate b) eqn:Es.
  - apply is_sts in Es as ->. pose proof (sts_last _ _ _ Hinst) as ->. cbn [reconcile_builders wp].
    apply step_intro; [done|]. split; [done|]. intros _ _. exists inst, last. rewrite Hinst.
    apply Forall_app_2; [|by constructor]. apply Forall_forall. intros b Hb.
    rewrite (proj1 (Forall_forall _ _) Hpres b Hb). apply written_grows1.
    by apply (proj1 (Forall_forall _ _) Hpre).
  - assert (b <> StatefulSetBuilder) as Hb by (by intros ->).
    rewrite (Heq Hb). rewrite (Hl Hb) in Hw. destruct (decide (bs = [])) as [->|Hbs].
    { exfalso. pose proof (ResourceBuilders_last inst) as Hlast. rewrite Hinst, last_snoc in Hlast.
      by injection Hlast as ->. }
    eapply wp_mono; [|apply (IH (pre ++ [b])); [done| |done|done| |]].
    + intros h2 r H2. by eapply step_trans.
    + by rewrite <- (assoc_L (++)).
    + apply Forall_app_2; [by apply written_grows|by constructor].
    + apply Forall_app_2; [done|by constructor].
Qed.
End Pass.

(** ** The whole pass *)

(** The calls of a pass over a cluster that is being deleted. *)
Definition deletion_call (c : call) : Prop :=
  match c with
  | UpdatePod _ | RemoveFinalizer _ _ _ => True
  | _ => is_write c = false
  end.

(** The cluster a pass works on: the answer to its first call. *)
Definition fetched (h : history) : option (result ApiError RabbitmqCluster) :=
  match h with
  | existT (GetCluster _ _) r :: _ => Some r
  | _ => None
  end.

(** Nothing to reconcile: the cluster does not exist or is being deleted. *)
Definition nothing_to_do (h : history) : Prop :=
  match fetched h with
  | Some (Err e) => IsNotFound e = true
  | Some (Ok rmq) => being_deleted rmq = true
  | None => False
  end.

(** The last thing done is the status with success for this generation. *)
Definition success_reported (h : history) : Prop :=
  exists h1 rmq a, h = h1 ++ [Ev (PatchStatus rmq) a] /\
    st_ObservedGeneration (rmq_Status rmq) = om_Generation (rmq_Meta rmq) /\
    (four_conditions rmq -> success_condition rmq = Some (ConditionTrue, "Success", "Finish reconciling")).

Lemma four_conditions_SetCondition now ty s reason msgs rmq :
  four_conditions (rmq_with_status (SetCondition now ty s reason msgs (rmq_Status rmq)) rmq) ->
  four_conditions rmq.
Proof.
  unfold four_conditions, SetCondition. cbn [rmq_Status rmq_with_status st_Conditions st_with_conditions].
  by rewrite set_condition_loop_types.
Qed.

Lemma setReconcileSuccess_reports rmq h :
  wp (setReconcileSuccess rmq ConditionTrue "Success" "Finish reconciling") (fun h' _ => success_reported h') h.
Proof.
  unfold setReconcileSuccess, set_condition, patch_status. cbn [bind perform wp]. intros now.
  rewrite decide_True by done. intros a.
  set (h1 := h ++ [_]). set (r1 := with_observed_generation _) in a |- *.
  assert (success_reported (h1 ++ [Ev (PatchStatus r1) a])) as Hs.
  { exists h1, r1, a. split; [done|]. split; [done|]. intros H4.
    destruct (SetCondition_success now ConditionTrue "Success" "Finish reconciling" rmq) as [<- _]; [|done].
    eapply four_conditions_SetCondition. exact H4. }
  by destruct a.
Qed.

Section Whole.
Context {I : Ini} {O : OwnerRefs} {M : StrategicMerge} {V : Semver} {T : Rfc3339} {R : RetryLib}
  {RL : RetryLaws} {X : ClientLib} {C : CreateOrUpdateLib} {CL : CreateOrUpdateLaws}
  (iter : gmap string ServicePort -> list (string * ServicePort)) (rand : RandSource)
  (arrival : list nodeQuorumCheck -> list nodeQuorumCheck) (cfg : ReconcilerConfig).

(** How a pass over the children can end. *)
Definition ended (h : history) (s : StepResult) : Prop :=
  s = step_ok -> warned h \/ (all_written iter h /\ success_reported h).

Lemma ended_stopped h s : step_stops s = true -> ended h s.
Proof. intros Hs ->. discriminate Hs. Qed.

Lemma unless_stopped_wp r k h0 h :
  pass_ok iter h -> (exists t, h = h0 ++ t) ->
  (step_stops (fst r) = false -> wp (k (snd r)) (step_post iter h0 ended) h) ->
  wp (unless_stopped r k) (step_post iter h0 ended) h.
Proof.
  intros Hh Hg Hk. unfold unless_stopped. destruct (step_stops (fst r)) eqn:E; [|by apply Hk].
  cbn [wp]. split; [done|]. split; [done|]. by apply ended_stopped.
Qed.

Lemma unless_stopped_report_wp reason r k h0 h :
  pass_ok iter h -> (exists t, h = h0 ++ t) ->
  (step_stops (fst r) = false -> wp (k (snd r)) (step_post iter h0 ended) h) ->
  wp (unless_stopped_report reason r k) (step_post iter h0 ended) h.
Proof.
  intros Hh [t ->] Hk. unfold unless_stopped_report. destruct (step_stops (fst r)) eqn:E; [|by apply Hk].
  destruct (step_error (fst r)); [apply (quiet_step iter); [auto with calls|done|]; intros t2 u Ht2|];
    cbn [wp]; rewrite <- ?(assoc_L (++)) in *; (apply step_intro; [done|]); by apply ended_stopped.
Qed.

Lemma finish_wp rmq h : pass_ok iter h -> all_written iter h ->
  wp (finish arrival rmq) (step_post iter h ended) h.
Proof.
  intros Hh Hw. unfold finish. apply (quiet_step iter); [auto with calls|done|]. intros t1 s Ht1.
  apply unless_stopped_wp; [done|by eexists|]. intros _. cbn [snd].
  apply (quiet_step iter); [auto with calls|done|]. intros t2 st Ht2. rewrite <- (assoc_L (++)) in *.
  destruct (fst st); [|cbn [wp]; by apply step_intro].
  apply (quiet_step iter); [auto with calls|done|]. intros t3 q Ht3. rewrite <- (assoc_L (++)) in *.
  apply (quiet_step iter); [auto with calls|done|]. intros t4 v Ht4. rewrite <- (assoc_L (++)) in *.
  apply unless_stopped_report_wp; [done|by eexists|]. intros _.
  apply (quiet_step iter); [auto with calls|done|]. intros t5 c Ht5. rewrite <- (assoc_L (++)) in *.
  apply unless_stopped_report_wp; [done|by eexists|]. intros _.
  apply (calls_only_wp quiet); [apply calls_only_bind; [auto with calls|intros; apply calls_only_Ret]|].
  rewrite wp_bind. eapply wp_mono; [|apply setReconcileSuccess_reports]. intros h6 u Hs. cbn [wp].
  intros (t & -> & Ht). pose proof (pass_ok_quiet _ _ _ Ht5 Ht) as Hok. rewrite <- (assoc_L (++)) in *.
  apply step_intro; [done|]. intros _. right. split; [|done]. by apply all_written_grows.
Qed.

(** The special error of the TLS step comes with a warning. *)
Lemma reconcileTLS_warned rmq h :
  wp (reconcileTLS rmq) (fun h' r => fst r = Err ErrDisableNonTLSConfig -> warned h') h.
Proof.
  unfold reconcileTLS. destruct (_ && _).
  - unfold event_warning. cbn [bind perform wp]. intros u. set (ev := Ev _ u).
    assert (warned (h ++ [ev])) as Hw by (unfold warned; by rewrite existsb_app, orb_true_r).
    apply (calls_only_wp quiet); [apply calls_only_bind; [auto with calls|intros; apply calls_only_Ret]|].
    eapply wp_mono; [|apply wp_true]. intros h' r _ (t & -> & _) _. by apply existsb_grows.
  - destruct (SecretTLSEnabled rmq); [|by cbn].
    rewrite wp_bind. eapply wp_mono; [|apply wp_frame, checkTLSSecrets_errors].
    intros h' [u|e] (t & -> & _ & He); [by cbn|]. destruct He as [ae ->].
    rewrite wp_bind. eapply wp_mono; [|apply wp_true]. by cbn.
Qed.

Lemma note_queue_rebalance_stops rmq h :
  wp (note_queue_rebalance rmq) (fun _ r => r <> inr step_ok) h.
Proof.
  unfold note_queue_rebalance, statefulSet, markForQueueRebalance. cbn [bind perform wp].
  intros s. destruct s as [sts|e]; cbn [wp]; [|by destruct (IsNotFound e)].
  destruct (statefulSetNeedsQueueRebalance _ _) as [[]|]; cbn [wp]; [|done..].
  destruct (cluster_nonempty_annotation _ _); cbn [bind perform wp]; [done|].
  intros now a. by destruct a.
Qed.

Lemma reconcile_children_wp rmq h : pass_ok iter h ->
  wp (reconcile_children iter rand arrival rmq) (step_post iter h ended) h.
Proof.
  intros Hh. unfold reconcile_children. rewrite wp_bind.
  apply (calls_only_wp quiet); [auto with calls|]. eapply wp_mono; [|apply reconcileTLS_warned].
  intros h1 tls Hw (t1 & -> & Ht1). apply (pass_ok_quiet _ _ _ Hh) in Ht1.
  destruct (fst tls) as [u|e].
  2:{ destruct e; cbn [wp]; apply step_intro; try done. intros _. left. by apply Hw. }
  apply (quiet_step iter); [auto with calls|done|]. intros t2 ? Ht2. rewrite <- (assoc_L (++)) in *.
  rewrite wp_bind. apply (calls_only_wp quiet); [auto with calls|].
  eapply wp_mono; [|apply note_queue_rebalance_stops].
  intros h3 n Hn (t3 & -> & Ht3). apply (pass_ok_quiet _ _ _ Ht2) in Ht3. rewrite <- (assoc_L (++)) in *.
  destruct n as [rmq1|s]; cbn [or_return].
  2:{ cbn [wp]. apply step_intro; [done|]. intros ->. by destruct Hn. }
  apply (quiet_step iter); [unfold delete_rbac; calls|done|]. intros t4 d Ht4. rewrite <- (assoc_L (++)) in *.
  destruct d as [?|e]; [|cbn [wp]; by apply step_intro].
  rewrite wp_bind. eapply wp_mono; [|apply (reconcile_builders_wp iter rand rmq1 (ResourceBuilders rmq1) [] rmq1);
    [done|done|by intros E; pose proof (ResourceBuilders_last rmq1) as El; rewrite E in El|done|constructor|constructor]].
  intros h5 [rmq2|s'] (Hh5 & (t5 & ->) & Hs & Hr); cbn [or_return].
  - eapply wp_mono; [|apply finish_wp; [done|by eapply Hr]].
    intros h6 r (Hh6 & (t6 & ->) & He). rewrite <- !(assoc_L (++)) in *. by apply step_intro.
  - cbn [wp]. rewrite <- !(assoc_L (++)) in *. apply step_intro; [done|]. intros E. left. by apply Hs.
Qed.

Lemma reconcile_live_wp rmq h : pass_ok iter h ->
  wp (reconcile_live iter rand arrival cfg rmq) (step_post iter h ended) h.
Proof.
  intros Hh. unfold reconcile_live.
  apply (quiet_step iter); [auto with calls|done|]. intros t1 s Ht1.
  apply unless_stopped_wp; [done|by eexists|]. intros _.
  apply (quiet_step iter); [auto with calls|done|]. intros t2 f Ht2. rewrite <- (assoc_L (++)) in *.
  destruct (fst f); [|cbn [wp]; by apply step_intro].
  apply (quiet_step iter); [auto with calls|done|]. intros t3 c Ht3. rewrite <- (assoc_L (++)) in *.
  apply unless_stopped_wp; [done|by eexists|]. intros _.
  eapply wp_mono; [|by apply reconcile_children_wp].
  intros h' r (Hh' & (t & ->) & He). rewrite <- (assoc_L (++)) in *. by apply step_intro.
Qed.

Lemma pause_warned rmq h : wp (pause rmq) (fun h' _ => warned h' /\
  exists t, h' = h ++ t /\ exists st, writes t = [PatchStatus st]) h.
Proof.
  unfold pause, event_warning, set_condition, patch_status. cbn [bind perform wp].
  intros u now a. rewrite <- !(assoc_L (++)). destruct a; cbn [bind wp];
    (split; [unfold warned; rewrite existsb_app; cbn; by rewrite orb_true_r|]);
    eexists; (split; [done|]); by eexists.
Qed.

Lemma Reconcile_wp ns name :
  wp (Reconcile iter rand arrival cfg ns name) (fun h r => pass_ok iter h /\
    (r = step_ok -> nothing_to_do h \/ warned h \/ (all_written iter h /\ success_reported h))) [].
Proof.
  unfold Reconcile. cbn [bind perform wp app]. intros a. set (ev := Ev _ a).
  assert (pass_ok iter [ev]) as Hh by (apply (pass_ok_quiet iter [] [ev]); [apply history_ok_nil|by constructor]).
  destruct a as [rmq|e]; cbn [wp].
  2:{ split; [done|]. destruct (IsNotFound e) eqn:En; [|done]. intros _. by left. }
  destruct (being_deleted rmq) eqn:Ed.
  { apply (quiet_step iter); [auto with calls|done|]. intros t d Ht. cbn [wp]. split; [done|]. intros _. by left. }
  destruct (paused rmq).
  - apply (calls_only_wp quiet); [auto with calls|]. eapply wp_mono; [|apply pause_warned].
    intros h r [Hw _] (t & -> & Ht). split; [by apply pass_ok_quiet|]. intros _. right. by left.
  - eapply wp_mono; [|by apply reconcile_live_wp]. intros h r (Hok & _ & He). split; [done|].
    intros E. right. by apply He.
Qed.

(** ** Theorems *)



Lemma deletion_calls_only rmq : calls_only deletion_call (prepareForDeletion rmq).
Proof.
  assert (forall l, calls_only deletion_call (label_pods l)) as Hl
    by (intros l; induction l; cbn [label_pods]; calls).
  assert (forall n t, calls_only deletion_call (wait_for_label n rmq t)) as Hw.
  { intros n t. induction n; cbn [wait_for_label]; unfold checkIfLabelPropagated, exec; calls; done. }
  unfold prepareForDeletion, addRabbitmqDeletionLabel, removeFinalizer. calls; try done; auto.
Qed.

Lemma deletion_calls_writes t :
  Forall (fun e => deletion_call (projT1 e)) t -> Forall deletion_call (writes t).
Proof.
  unfold writes. induction 1 as [|e t He _ IH]; cbn; [constructor|]. destruct (is_write _); by try constructor.
Qed.

End Whole.
