(* ===== verification/Management.v ===== *)
(** * Where management requests go

    The clients of [Client], and the steps that use them: every request to the
    management API goes to a pod or to the Service of the cluster, with the
    credentials read from the cluster's own Secret. *)

From S2P Require Import Prelude.
From S2P Require Import K8s.
From S2P Require Import Metadata.
From S2P Require Import Status.
From S2P Require Import Api.
From S2P Require Import Services.
From S2P Require Import Kube.
From S2P Require Import Controller.
From S2P Require Import Client.
From S2P Require Import Quorum.
From S2P Require Import PostDeploy.
From S2P Require Import Deletion.
From S2P Require Import Reconcile.

(** ** Clients of a cluster *)

Definition pod_host (rmq : RabbitmqCluster) (podName : string) : string :=
  podName +:+ "." +:+ ChildResourceName rmq headlessServiceSuffix +:+ "." +:+ rmq_Namespace rmq +:+ ".svc".

(** Username and password of the default user's Secret, as read. *)
Definition credentials_read (rmq : RabbitmqCluster) (h : history) (user pass : string) : Prop :=
  exists s, Ev (GetSecret (rmq_Namespace rmq) (ChildResourceName rmq "default-user")) (Ok s) ∈ h /\
    smap_get (sec_Data s) "username" = Some user /\ smap_get (sec_Data s) "password" = Some pass.

(** The transport verifies the host, with the CA of the cluster's CA Secret
    when it names one, with the system's pool otherwise. *)
Definition transport_for (rmq : RabbitmqCluster) (host : string) (h : history) (t : Transport) : Prop :=
  let caSecretName := tls_CaSecretName (spec_TLS (rmq_Spec rmq)) in
  tr_ServerName t = host /\
  match tr_RootCA t with
  | None => caSecretName = ""
  | Some ca => caSecretName <> "" /\ exists s, Ev (GetSecret (rmq_Namespace rmq) caSecretName) (Ok s) ∈ h /\
      smap_get (sec_Data s) "ca.crt" = Some ca
  end.

Definition client_for (rmq : RabbitmqCluster) (host : string) (port : Z) (h : history) (c : RabbitmqClient) : Prop :=
  credentials_read rmq h (cl_Username c) (cl_Password c) /\ cl_Timeout c = managementAPITimeout /\
  if DisableNonTLSListeners rmq
  then cl_BaseURL c = base_url "https" host port /\ exists t, cl_Transport c = Some t /\ transport_for rmq host h t
  else cl_BaseURL c = base_url "http" host port /\ cl_Transport c = None.

Definition pod_client (rmq : RabbitmqCluster) (h : history) (c : RabbitmqClient) : Prop :=
  exists podName, client_for rmq (pod_host rmq podName) (if DisableNonTLSListeners rmq then 15671 else 15672)%Z h c.

(** The Service's own management port, as read. *)
Definition service_client (rmq : RabbitmqCluster) (h : history) (c : RabbitmqClient) : Prop :=
  exists svc port, Ev (GetService (rmq_Namespace rmq) (ChildResourceName rmq "")) (Ok svc) ∈ h /\
    managementPortFromService svc (DisableNonTLSListeners rmq) = Ok port /\
    client_for rmq (om_Name (svc_Meta svc) +:+ "." +:+ rmq_Namespace rmq +:+ ".svc") port h c.

Lemma credentials_read_app rmq h t u p : credentials_read rmq h u p -> credentials_read rmq (h ++ t) u p.
Proof. intros (s & ? & ?). exists s. set_solver. Qed.

Lemma transport_for_app rmq host h t tr : transport_for rmq host h tr -> transport_for rmq host (h ++ t) tr.
Proof. intros [Hn Hca]. split; [done|]. destruct (tr_RootCA tr) as [ca|]; [|done].
  destruct Hca as (? & s & ? & ?). split; [done|]. exists s. set_solver. Qed.

Lemma client_for_app rmq host port h t c : client_for rmq host port h c -> client_for rmq host port (h ++ t) c.
Proof.
  intros (Hc & Ht & Hu). split; [by apply credentials_read_app|]. split; [done|].
  destruct (DisableNonTLSListeners rmq); [|done]. destruct Hu as (Hb & tr & Htr & Hf). split; [done|].
  exists tr. split; [done|by apply transport_for_app].
Qed.

(** What making a client reads. *)
Definition is_lookup (c : call) : bool := match c with GetSecret _ _ | GetService _ _ => true | _ => false end.
Definition grows (h h' : history) : Prop := exists t, h' = h ++ t /\ Forall (fun e => is_lookup (projT1 e) = true) t.

(** ** The constructors *)

Section Clients.
Context `{ClientLibLaws}.

Definition after (h : history) {A} (Q : history -> A -> Prop) (h' : history) (r : result string A) : Prop :=
  grows h h' /\ forall a, r = Ok a -> Q h' a.

Lemma grows_refl h : grows h h.
Proof. exists []. by rewrite app_nil_r. Qed.
Lemma grows_call h c a : is_lookup c = true -> grows h (h ++ [Ev c a]).
Proof. intros Hc. eexists. split; [done|]. by repeat constructor. Qed.
Lemma grows_trans h1 h2 h3 : grows h1 h2 -> grows h2 h3 -> grows h1 h3.
Proof. intros (t & -> & Ht) (u & -> & Hu). exists (t ++ u). rewrite (assoc_L (++)). split; [done|by apply Forall_app_2]. Qed.

Lemma readDefaultUserCredentials_wp rmq h :
  wp (readDefaultUserCredentials rmq) (after h (fun h' up => credentials_read rmq h' (fst up) (snd up))) h.
Proof.
  unfold readDefaultUserCredentials. cbn [bind perform wp]. intros [s|e]; cbn [wp].
  2:{ split; [by apply grows_call|done]. }
  destruct (smap_get (sec_Data s) "username") as [u|] eqn:Eu; cbn [wp]; [|split; [by apply grows_call|done]].
  destruct (smap_get (sec_Data s) "password") as [p|] eqn:Ep; cbn [wp]; (split; [by apply grows_call|]); [|done].
  intros a [= <-]. exists s. set_solver.
Qed.

Lemma transport_wp rmq host h :
  wp (managementHTTPSTransport rmq host) (after h (fun h' o =>
    if DisableNonTLSListeners rmq then exists t, o = Some t /\ transport_for rmq host h' t else o = None)) h.
Proof.
  unfold managementHTTPSTransport. destruct (DisableNonTLSListeners rmq); cbn [negb].
  2:{ split; [apply grows_refl|]. by intros o [= <-]. }
  destruct SystemCertPool; [|split; [apply grows_refl|done]].
  destruct (str_eqb _ "") eqn:Eca; cbn [negb bind perform wp].
  { split; [apply grows_refl|]. intros o [= <-]. eexists. split; [done|]. split; [done|]. by apply str_eqb_spec in Eca. }
  intros [s|e]; cbn [wp]; [|split; [by apply grows_call|done]].
  destruct (smap_get _ _) as [ca|] eqn:Ec; cbn [wp]; [|split; [by apply grows_call|done]].
  destruct (AppendCertsFromPEM ca); cbn [wp]; (split; [by apply grows_call|]); [|done].
  intros o [= <-]. eexists. split; [done|]. split; [done|]. cbn [tr_RootCA]. split.
  - intros E. apply str_eqb_spec in E. congruence.
  - exists s. set_solver.
Qed.

Lemma newRabbitholeClient_ok rmq info c :
  newRabbitholeClientFromInfo rmq info = Ok c ->
  cl_BaseURL c = ci_BaseURL info /\ cl_Username c = ci_Username info /\ cl_Password c = ci_Password info /\
  cl_Timeout c = managementAPITimeout /\
  cl_Transport c = if DisableNonTLSListeners rmq then ci_Transport info else None.
Proof.
  unfold newRabbitholeClientFromInfo. destruct (DisableNonTLSListeners rmq);
    intros (c0 & Hc & [= <-])%result_bind_ok;
    [apply NewTLSClient_ok in Hc as [t ->] | apply NewClient_ok in Hc as [t ->]]; done.
Qed.

Lemma GetClientForPod_wp rmq podName h :
  wp (GetClientForPod rmq podName) (after h (pod_client rmq)) h.
Proof.
  unfold GetClientForPod, getClientInfoForPod. rewrite !wp_bind.
  eapply wp_mono; [|apply readDefaultUserCredentials_wp]. intros h1 [[u p]|e] [Hg Hc]; cbn [wp]; [|by split].
  specialize (Hc _ eq_refl). cbn [fst snd] in Hc. change (podName +:+ _) with (pod_host rmq podName).
  destruct (DisableNonTLSListeners rmq) eqn:Ed; cbn [wp].
  - rewrite wp_bind. eapply wp_mono; [|apply transport_wp]. rewrite Ed. intros h2 [o|e] [Hg2 Ht]; cbn [wp];
      (split; [by eapply grows_trans|]); [|done].
    intros c (Hb & Hu & Hp & Hto & Htr)%newRabbitholeClient_ok. rewrite Ed in Htr. cbn in Hb, Hu, Hp, Htr.
    destruct (Ht o eq_refl) as (t & -> & Hf). destruct Hg2 as (t2 & -> & _). exists podName. unfold client_for. rewrite Ed, Hu, Hp.
    split; [by apply credentials_read_app|]. split; [done|]. split; [done|]. by exists t.
  - split; [done|]. intros c (Hb & Hu & Hp & Hto & Htr)%newRabbitholeClient_ok. rewrite Ed in Htr. exists podName.
    unfold client_for. by rewrite Ed, Hu, Hp.
Qed.

Lemma GetClientForService_wp rmq h :
  wp (GetClientForService rmq) (after h (service_client rmq)) h.
Proof.
  unfold GetClientForService, getClientInfoForService. rewrite !wp_bind.
  eapply wp_mono; [|apply readDefaultUserCredentials_wp]. intros h1 [[u p]|e] [Hg Hc]; cbn [wp]; [|by split].
  specialize (Hc _ eq_refl). cbn [fst snd bind perform wp] in Hc |- *. intros [svc|e]; cbn [wp].
  2:{ split; [by eapply grows_trans, grows_call|done]. }
  set (h2 := h1 ++ _). assert (grows h h2) as Hg2 by (by eapply grows_trans, grows_call).
  apply (credentials_read_app _ _ [Ev (GetService (rmq_Namespace rmq) (ChildResourceName rmq "")) (Ok svc)]) in Hc.
  assert (Ev (GetService (rmq_Namespace rmq) (ChildResourceName rmq "")) (Ok svc) ∈ h2) as Hsvc by set_solver.
  destruct (managementPortFromService svc _) as [port|] eqn:Ep; cbn [wp]; [|by split].
  destruct (DisableNonTLSListeners rmq) eqn:Ed; cbn [wp].
  - rewrite wp_bind. eapply wp_mono; [|apply transport_wp]. rewrite Ed. intros h3 [o|e] [Hg3 Ht]; cbn [wp];
      (split; [by eapply grows_trans|]); [|done].
    intros c (Hb & Hu & Hp & Hto & Htr)%newRabbitholeClient_ok. rewrite Ed in Htr. cbn in Hb, Hu, Hp, Htr.
    destruct (Ht o eq_refl) as (t & -> & Hf). destruct Hg3 as (t3 & -> & _). exists svc, port.
    split; [set_solver|]. rewrite Ed. split; [done|]. unfold client_for. rewrite Ed, Hu, Hp.
    split; [by apply credentials_read_app|]. split; [done|]. split; [done|]. by exists t.
  - split; [done|]. intros c (Hb & Hu & Hp & Hto & Htr)%newRabbitholeClient_ok. rewrite Ed in Htr. exists svc, port.
    split; [done|]. rewrite Ed. split; [done|]. unfold client_for. by rewrite Ed, Hu, Hp.
Qed.

(** ** The requests of the steps *)

(** Every client a request goes through is one of the cluster's. *)
Definition request_ok (rmq : RabbitmqCluster) (h : history) (e : event) : Prop :=
  match projT1 e with
  | HealthCheckNodeIsQuorumCritical c | Overview c => pod_client rmq h c
  | ListDeprecatedFeaturesUsed c => service_client rmq h c
  | _ => True
  end.

Lemma request_ok_grows rmq h h' : history_ok (request_ok rmq) h -> grows h h' -> history_ok (request_ok rmq) h'.
Proof.
  intros Hh (t & -> & Ht). revert h Hh. induction Ht as [|[c a] t Hc _ IH]; intros h Hh; [by rewrite app_nil_r|].
  change (existT c a :: t) with ([Ev c a] ++ t). rewrite (assoc_L (++)). apply IH. apply history_ok_snoc; [done|].
  by destruct c.
Qed.

Lemma request_ok_other rmq h c a :
  match c with HealthCheckNodeIsQuorumCritical _ | Overview _ | ListDeprecatedFeaturesUsed _ => False | _ => True end ->
  history_ok (request_ok rmq) h -> history_ok (request_ok rmq) (h ++ [Ev c a]).
Proof. intros Hc Hh. apply history_ok_snoc; [done|]. by destruct c. Qed.

Lemma request_ok_first rmq c a :
  match c with HealthCheckNodeIsQuorumCritical _ | Overview _ | ListDeprecatedFeaturesUsed _ => False | _ => True end ->
  history_ok (request_ok rmq) [Ev c a].
Proof. intros Hc. apply (request_ok_other rmq []); [done | apply history_ok_nil]. Qed.

(** A client is made and used. *)
Lemma with_pod_client {R} rmq podName (f : result string RabbitmqClient -> prog R) h :
  history_ok (request_ok rmq) h ->
  (forall h' c, history_ok (request_ok rmq) h' -> (forall a, c = Ok a -> pod_client rmq h' a) ->
     wp (f c) (fun h'' _ => history_ok (request_ok rmq) h'') h') ->
  wp (bind (GetClientForPod rmq podName) f) (fun h' _ => history_ok (request_ok rmq) h') h.
Proof.
  intros Hh Hf. rewrite wp_bind. eapply wp_mono; [|apply GetClientForPod_wp]. intros h' c [Hg Hc].
  apply Hf; [by eapply request_ok_grows | exact Hc].
Qed.

Lemma check_all_requests rmq endpoints h :
  history_ok (request_ok rmq) h ->
  wp (check_all rmq endpoints) (fun h' _ => history_ok (request_ok rmq) h') h.
Proof.
  revert h. induction endpoints as [|e rest IH]; intros h Hh; cbn [check_all]; [done|]. rewrite wp_bind.
  assert (wp (checkNodeQuorumStatus rmq (endpoint_pod e)) (fun h' _ => history_ok (request_ok rmq) h') h) as Hc.
  { unfold checkNodeQuorumStatus. apply with_pod_client; [done|]. intros h' [c|er] Hh' Hc; [|done].
    cbn [bind perform wp]. intros a. assert (history_ok (request_ok rmq) (h' ++ [Ev (HealthCheckNodeIsQuorumCritical c) a]))
      by (apply history_ok_snoc; [done|by apply Hc]). by destruct a as [[]|]. }
  eapply wp_mono; [|exact Hc]. intros h' r Hh'. rewrite wp_bind. eapply wp_mono; [|by apply IH]. by intros h'' rs.
Qed.

(** C21. Management requests stay inside the cluster: whatever is answered, every
    request of the quorum check, of the version annotation and of the
    deprecated features controller goes to a pod of the cluster's headless
    Service or to its client Service, in the cluster's namespace, with the
    user and password read from the cluster's own Secret and a timeout of one
    minute; over HTTPS, verifying the host's name against the cluster's CA if
    it names one, exactly when the plain listeners are disabled. *)
Theorem management_requests_addressed `{Rfc3339} `{RetryLib} (rmq : RabbitmqCluster)
    (arrival : list nodeQuorumCheck -> list nodeQuorumCheck) (interval : Z) (namespace name : string) :
  wp (updateQuorumStatus arrival rmq) (fun h _ => history_ok (request_ok rmq) h) [] /\
  wp (reconcileRabbitmqVersionAnnotation rmq) (fun h _ => history_ok (request_ok rmq) h) [] /\
  wp (deprecated_Reconcile interval namespace name) (fun h _ => forall rmq',
    fetched h = Some (Ok rmq') -> history_ok (request_ok rmq') h) [].
Proof.
  split; [|split].
  - unfold updateQuorumStatus, checkQuorumStatus, getPodEndpoints. rewrite !wp_bind. cbn [perform wp app].
    intros l. assert (history_ok (request_ok rmq) [Ev (ListEndpointSlices (rmq_Namespace rmq) (rmq_Name rmq)) l]) as Hh
      by (by apply request_ok_first).
    assert (forall h' st, history_ok (request_ok rmq) h' ->
      wp (if str_eqb (st_QuorumStatus (rmq_Status rmq)) st then Ret (Ok tt, rmq)
          else do p <- patch_status (with_quorum st rmq) in
            match fst p with
            | Ok _ => Ret (Ok tt, snd p)
            | Err e => Ret (if IsConflict e then Ok tt else Err ("failed to update quorum status: " +:+ error_text e), snd p)
            end) (fun h _ => history_ok (request_ok rmq) h) h') as Hend.
    { intros h' st Hh'. destruct (str_eqb _ st); [done|]. unfold patch_status. cbn [bind perform wp]. intros a.
      assert (history_ok (request_ok rmq) (h' ++ [Ev (PatchStatus (with_quorum st rmq)) a])) by (by apply request_ok_other).
      by destruct a. }
    destruct l as [[|[|e es] ls]|er]; cbn [wp bind]; try by apply Hend.
    rewrite !wp_bind. eapply wp_mono; [|by apply (check_all_requests rmq (e :: es))]. intros h' rs Hh'. cbn [wp bind].
    by apply Hend.
  - unfold reconcileRabbitmqVersionAnnotation, statefulSet. cbn [bind perform wp app]. intros s.
    assert (history_ok (request_ok rmq) [Ev (GetSts (rmq_Namespace rmq) (ChildResourceName rmq "server")) s]) as Hh
      by (by apply request_ok_first).
    destruct s as [sts|e]; [|done]. destruct (negb _); [done|]. apply with_pod_client; [done|].
    intros h1 [c|e] Hh1 Hc; [|done]. cbn [bind perform wp]. intros o.
    assert (history_ok (request_ok rmq) (h1 ++ [Ev (Overview c) o])) as Hh2 by (apply history_ok_snoc; [done|by apply Hc]).
    destruct o as [[rabbit erlang]|e]; [|done]. cbv zeta. destruct (_ && _); [done|]. cbn [bind perform wp].
    intros u. destruct u; apply request_ok_other; done.
  - unfold deprecated_Reconcile. cbn [bind perform wp app]. intros r. destruct r as [r|e]; [|by intros rmq'].
    set (ev := Ev (GetCluster namespace name) (Ok r)). set (p := bind (GetClientForService r) _).
    assert (wp p (fun h _ => history_ok (request_ok r) h) [ev]) as Hp.
    { assert (history_ok (request_ok r) [ev]) as Hh by (by apply request_ok_first).
      unfold p. rewrite wp_bind. eapply wp_mono; [|apply GetClientForService_wp]. intros h1 c [Hg Hc].
      apply (request_ok_grows _ _ _ Hh) in Hg. destruct c as [c|e]; [|done]. cbn [bind perform wp]. intros l.
      assert (history_ok (request_ok r) (h1 ++ [Ev (ListDeprecatedFeaturesUsed c) l])) as Hh2
        by (apply history_ok_snoc; [done|by apply Hc]).
      destruct l as [fs|e]; [|done]. case_decide; [done|]. unfold patch_status. cbn [bind perform wp]. intros a.
      assert (history_ok (request_ok r) ((h1 ++ [Ev (ListDeprecatedFeaturesUsed c) (Ok fs)]) ++
        [Ev (PatchStatus (with_deprecated fs r)) a])) as Hh3 by (by apply request_ok_other).
      destruct a as [|e]; cbn [bind wp fst]; [done|]. by destruct (IsConflict e). }
    eapply wp_mono; [|exact (wp_conj _ _ _ _ Hp (wp_frame p (fun _ _ => True) [ev] (wp_true _ _)))].
    intros h s [Hh (h1 & -> & _)] rmq' [= <-]. exact Hh.
Qed.
End Clients.
