(* ===== verification/Settled.v ===== *)
(** * A cluster that has settled

    Every builder's [Update] is a projection: what it made it leaves as it
    is.  A pass over a cluster whose children are as the builders left them
    creates and updates none of them. *)

From S2P Require Import Prelude.
From S2P Require Import K8s.
From S2P Require Import Metadata.
From S2P Require Import Status.
From S2P Require Import Api.
From S2P Require Import Sanitize.
From S2P Require Import Plugins.
From S2P Require Import Override.
From S2P Require Import Services.
From S2P Require Import Ini.
From S2P Require Import Secrets.
From S2P Require Import ServerConf.
From S2P Require Import PodTemplate.
From S2P Require Import StatefulSet.
From S2P Require Import Rbac.
From S2P Require Import ResourceBuilder.
From S2P Require Import Kube.
From S2P Require Import Scaling.
From S2P Require Import Controller.
From S2P Require Import Tls.
From S2P Require Import Replicas.
From S2P Require Import Client.
From S2P Require Import Quorum.
From S2P Require Import PostDeploy.
From S2P Require Import Deletion.
From S2P Require Import Reconcile.

(** ** Updating twice *)

(** What a stable update needs of the overrides: the claims name their
    resource requests, and the Service's spec is not patched (a strategic
    merge patch may append to a list at every application). *)
Definition stable_overrides (instance : RabbitmqCluster) : Prop :=
  (forall o, ov_Service (spec_Override (rmq_Spec instance)) = Some o -> osv_Spec o = None) /\
  (forall ov os, ov_StatefulSet (spec_Override (rmq_Spec instance)) = Some ov -> ost_Spec ov = Some os ->
     Forall (fun p => is_Some (pvcs_Requests (opvc_Spec p))) (os_VolumeClaimTemplates os)).

Lemma override_keeps_owners la w m :
  copyLabelsAnnotations (om_with_owners w m) la = om_with_owners w (copyLabelsAnnotations m la).
Proof. destruct la as [[lo|] [ao|]]; reflexivity. Qed.

Section UpdateTwice.
Context {I : Ini} {O : OwnerRefs} {OL : OwnerRefsLaws} {M : StrategicMerge}
  (iter : gmap string ServicePort -> list (string * ServicePort)).
Hypothesis iter_perm : forall m, iter m ≡ₚ map_to_list m.

(** The metadata most children get. *)
Lemma child_meta_stable instance m m' :
  SetControllerReference (rmq_Meta instance) (child_meta instance m) = Ok m' ->
  SetControllerReference (rmq_Meta instance) (child_meta instance m') = Ok m'.
Proof.
  intros E. assert (child_meta instance m' = m') as ->; [|by eapply setref_idem].
  rewrite (setref_only_owners _ _ _ E). unfold child_meta.
  cbn [om_with_labels om_with_annotations om_with_owners om_Name om_Namespace om_UID om_Generation
    om_DeletionTimestamp om_Labels om_Annotations om_OwnerReferences om_Finalizers].
  by rewrite Filter_stable.
Qed.

(** The owner reference is set at the end of every update. *)
Lemma owner_set {F} (f : string -> F) instance m m' :
  map_err f (SetControllerReference (rmq_Meta instance) m) = Ok m' ->
  SetControllerReference (rmq_Meta instance) m = Ok m'.
Proof. destruct (SetControllerReference _ _); [by intros [= ->] | done]. Qed.

Lemma headless_stable instance s s' :
  headless_Update instance s = Ok s' -> headless_Update instance s' = Ok s'.
Proof.
  unfold headless_Update. change (om_with_annotations _ (om_with_labels _ (svc_Meta s)))
    with (child_meta instance (svc_Meta s)).
  intros (m & Hm%owner_set & [= <-])%result_bind_ok.
  change (om_with_annotations _ (om_with_labels _ (svc_Meta _))) with (child_meta instance m).
  by rewrite (child_meta_stable _ _ _ Hm).
Qed.

Lemma sa_stable instance s s' : sa_Update instance s = Ok s' -> sa_Update instance s' = Ok s'.
Proof.
  unfold sa_Update, set_owner. intros (m & Hm%owner_set & [= <-])%result_bind_ok.
  cbn [sa_Meta]. by rewrite (child_meta_stable _ _ _ Hm).
Qed.

Lemma role_stable instance r r' : role_Update instance r = Ok r' -> role_Update instance r' = Ok r'.
Proof.
  unfold role_Update, set_owner. intros (m & Hm%owner_set & [= <-])%result_bind_ok.
  cbn [role_Meta]. by rewrite (child_meta_stable _ _ _ Hm).
Qed.

Lemma rb_stable instance r r' : rb_Update instance r = Ok r' -> rb_Update instance r' = Ok r'.
Proof.
  unfold rb_Update, set_owner. intros (m & Hm%owner_set & [= <-])%result_bind_ok.
  cbn [rb_Meta]. by rewrite (child_meta_stable _ _ _ Hm).
Qed.

Lemma cookie_stable instance s s' : cookie_Update instance s = Ok s' -> cookie_Update instance s' = Ok s'.
Proof.
  unfold cookie_Update. intros (m & Hm%owner_set & [= <-])%result_bind_ok.
  cbn [sec_Meta]. by rewrite (child_meta_stable _ _ _ Hm).
Qed.

Lemma secret_stable instance s s' : secret_Update instance s = Ok s' -> secret_Update instance s' = Ok s'.
Proof.
  unfold secret_Update. destruct (sec_Data s) as [data|]; [|done].
  intros (m & Hm%owner_set & [= <-])%result_bind_ok. cbn [sec_Data sec_Meta sec_Type].
  rewrite (child_meta_stable _ _ _ Hm). cbn [map_err result_bind]. by rewrite secret_data_stable.
Qed.

Lemma plugins_stable instance c c' : plugins_Update instance c = Ok c' -> plugins_Update instance c' = Ok c'.
Proof.
  unfold plugins_Update. intros (m & Hm%owner_set & [= <-])%result_bind_ok. cbn [cm_Meta cm_Data smap_entries].
  rewrite (setref_idem _ _ _ Hm). cbn [map_err result_bind]. do 3 f_equal. apply insert_insert_eq.
Qed.

Lemma server_data_again instance data d :
  server_data instance data = Ok d -> server_data instance (Some d) = Ok d.
Proof.
  unfold server_data.
  intros (op & E1 & (base & E2 & (opText & E3 & (user & E4 & (userText & E5 & (u & E6 & [= <-])%result_bind_ok)%result_bind_ok)%result_bind_ok)%result_bind_ok)%result_bind_ok)%result_bind_ok.
  rewrite E1; cbn [result_bind]; rewrite E2; cbn [result_bind]; rewrite E3; cbn [result_bind];
    rewrite E4; cbn [result_bind]; rewrite E5; cbn [result_bind]; rewrite E6.
  cbn [result_bind smap_entries]. f_equal. apply map_eq. intros k.
  rewrite !updateProperty_lookup, !lookup_insert, ?updateProperty_lookup, ?lookup_insert.
  repeat (case_decide; [done|]). unfold smap_entries. cbn [from_option id].
  rewrite !updateProperty_lookup, !lookup_insert. by rewrite !decide_False.
Qed.

(** A server ConfigMap that is in place asks for no restart either. *)
Lemma server_stable instance flag c c' flag' :
  server_Update instance flag c = Ok (c', flag') -> server_Update instance flag c' = Ok (c', false).
Proof.
  unfold server_Update. intros (d & Hd & (m & Hm%owner_set & (ps & _ & (us & Hus & [= <- _])%result_bind_ok)%result_bind_ok)%result_bind_ok)%result_bind_ok.
  cbn [cm_Meta cm_Data]. rewrite (server_data_again _ _ _ Hd). cbn [result_bind].
  rewrite (setref_idem _ _ _ Hm). cbn [map_err result_bind]. rewrite Hus. cbn [result_bind].
  unfold semantic_equal. by rewrite !bool_decide_eq_true_2.
Qed.

Lemma service_desired_owners instance w s :
  service_desired iter instance (mkSvc (om_with_owners w (svc_Meta s)) (svc_Spec s)) =
  let d := service_desired iter instance s in mkSvc (om_with_owners w (svc_Meta d)) (svc_Spec d).
Proof. reflexivity. Qed.

(** Annotations merged over the Service's stay when they are computed again. *)
Lemma setAnnotations_merge instance prev o :
  let merged := Some (mergeMap (service_setAnnotations instance prev) o) in
  Some (mergeMap (service_setAnnotations instance merged) o) = merged.
Proof.
  cbn zeta. f_equal. apply map_eq. intros k. rewrite !mergeMap_lookup.
  destruct (smap_get o k) eqn:Eo; [done|]. unfold service_setAnnotations.
  destruct (ser_Annotations _) as [s|]; rewrite !smap_get_some, ?ReconcileAnnotations_lookup1, ?smap_get_some,
    !ReconcileAndFilterAnnotations_lookup, ?smap_get_some, mergeMap_lookup, Eo, ?smap_get_some,
    ?ReconcileAnnotations_lookup1, ?smap_get_some, ?ReconcileAndFilterAnnotations_lookup;
    destruct (smap_get (rmq_Annotations instance) k), (isNotKubernetesAnnotation k);
    try done; by destruct (s !! k).
Qed.

(** The Service computed from an overridden one. *)
Lemma service_desired_again instance s la w :
  let d := service_desired iter instance s in
  let m := om_with_owners w (override_meta la (svc_Meta d)) in
  let d' := service_desired iter instance (mkSvc m (svc_Spec d)) in
  svc_Spec d' = svc_Spec d /\ override_meta la (svc_Meta d') = m.
Proof.
  cbv zeta. split.
  - exact (f_equal svc_Spec (service_desired_twice iter iter_perm instance s)).
  - destruct la as [[lo ao]|]; unfold override_meta.
    + destruct lo as [lo|], ao as [ao|]; unfold copyLabelsAnnotations, service_desired;
        cbn [ela_Labels ela_Annotations svc_Meta
        om_with_labels om_with_annotations om_with_owners om_Name om_Namespace om_UID om_Generation
        om_DeletionTimestamp om_Labels om_Annotations om_OwnerReferences om_Finalizers];
        rewrite ?setAnnotations_merge, ?setAnnotations_stable; reflexivity.
    + unfold service_desired. cbn [svc_Meta om_with_labels om_with_annotations om_with_owners om_Name om_Namespace
        om_UID om_Generation om_DeletionTimestamp om_Labels om_Annotations om_OwnerReferences om_Finalizers].
      by rewrite setAnnotations_stable.
Qed.

Lemma service_stable instance s s' :
  stable_overrides instance -> service_Update iter instance s = Ok s' -> service_Update iter instance s' = Ok s'.
Proof.
  intros [Hov _] HU. set (la := ov_Service (spec_Override (rmq_Spec instance)) ≫= osv_LabelsAnnotations).
  assert (forall s0, service_Update iter instance s0 =
    let d := service_desired iter instance s0 in
    try m := map_err (fun e => "failed setting controller reference: " +:+ e)
               (SetControllerReference (rmq_Meta instance) (override_meta la (svc_Meta d))) in
    Ok (mkSvc m (svc_Spec d))) as HE.
  { intros s0. unfold service_Update, applySvcOverride, la. cbv zeta.
    destruct (ov_Service _) as [o|] eqn:Eo; [|done]. rewrite (Hov o eq_refl). cbn [map_err result_bind mbind option_bind].
    by destruct (osv_LabelsAnnotations o). }
  rewrite HE in HU |- *. cbv zeta in HU |- *. apply result_bind_ok in HU as (m & Hm%owner_set & HU).
  assert (s' = mkSvc m (svc_Spec (service_desired iter instance s))) as -> by congruence. clear HU.
  cbn [svc_Meta svc_Spec].
  pose proof (setref_only_owners _ _ _ Hm) as Em.
  destruct (service_desired_again instance s la (om_OwnerReferences m)) as [Hs Hm2].
  rewrite <- Em in Hs, Hm2. rewrite Hm2, Hs. by rewrite (setref_idem _ _ _ Hm).
Qed.

(** The builder asks for no restart of the pods. *)
Definition asks_no_restart (b : ResourceBuilder) : Prop :=
  match b with ServerConfigMapBuilder flag => flag = false | _ => True end.

Lemma Update_twice instance b o o' b' :
  stable_overrides instance -> Update iter instance b o = Ok (o', b') ->
  exists b'', Update iter instance b o' = Ok (o', b'') /\ asks_no_restart b''.
Proof.
  intros Hov. unfold Update. destruct b, o; try done;
    try (destruct (result_bind _ _) as [[? ?]|] eqn:E0; cbn [map_err]; [|done]; intros [= <- <-];
         apply result_bind_ok in E0 as (x & E & [= <- <-])).
  - apply headless_stable in E. rewrite E. by eexists.
  - apply service_stable in E; [|done]. rewrite E. by eexists.
  - apply cookie_stable in E. rewrite E. by eexists.
  - apply secret_stable in E. rewrite E. by eexists.
  - apply plugins_stable in E. rewrite E. by eexists.
  - destruct x. apply server_stable in E. cbn [fst]. rewrite E. by eexists.
  - apply sa_stable in E. rewrite E. by eexists.
  - apply role_stable in E. rewrite E. by eexists.
  - apply rb_stable in E. rewrite E. by eexists.
  - apply sts_Update_twice in E; [|apply Hov]. rewrite E. by eexists.
Qed.

(** C7. Updating is a projection: what a builder made of any object, its next
    update leaves exactly as it is, for every child and whatever order Go
    walks its maps; and no restart is asked for then.  So an unchanged cluster
    never triggers another write.  (A patch of the Service's spec by an
    override is excluded, and the claims of an override name their requests.) *)
Theorem update_is_projection instance b o o' b' :
  stable_overrides instance -> Update iter instance b o = Ok (o', b') ->
  exists b'', Update iter instance b o' = Ok (o', b'') /\ asks_no_restart b''.
Proof. apply Update_twice. Qed.
End UpdateTwice.

(** ** Executions whose answers are as expected *)

Section Under.
Context (P : event -> Prop).

(** [Q], when every event so far satisfies [P]. *)
Definition under {R} (Q : history -> R -> Prop) : history -> R -> Prop := assuming (Forall P) Q.

Lemma Forall_prefix h e : Forall P (h ++ [e]) -> Forall P h.
Proof. by intros [H _]%Forall_app. Qed.

Definition wp_under {R} := @wp_assuming (Forall P) Forall_prefix R.
Definition wp_under_mono {R} := @wp_assuming_mono (Forall P) R.
Definition wp_under_bind {A B} := @wp_assuming_bind (Forall P) Forall_prefix A B.
Definition wp_under_skip {A B} := @wp_assuming_skip (Forall P) Forall_prefix A B.

Lemma wp_under_call {R} c (k : answer c -> prog R) (Q : history -> R -> Prop) h :
  (forall a, P (Ev c a) -> wp (k a) (under Q) (h ++ [Ev c a])) -> wp (bind (perform c) k) (under Q) h.
Proof.
  intros Hk. apply wp_assuming_call; [exact Forall_prefix|]. intros a [_ Ha%Forall_inv]%Forall_app. by apply Hk.
Qed.
End Under.

(** ** What updates of the StatefulSet have in common *)

Section Templates.
Context {O : OwnerRefs} {M : StrategicMerge}.

(** The replicas an update asks for. *)
Definition wanted_replicas (instance : RabbitmqCluster) : option Z :=
  match ov_StatefulSet (spec_Override (rmq_Spec instance)) ≫= ost_Spec with
  | Some os => if_set (os_Replicas os) (spec_Replicas (rmq_Spec instance))
  | None => spec_Replicas (rmq_Spec instance)
  end.

Lemma sts_Update_replicas instance sts sts' :
  sts_Update instance sts = Ok sts' -> sp_Replicas (sts_Spec sts') = wanted_replicas instance.
Proof.
  unfold sts_Update, wanted_replicas, sts_desired.
  intros (d & (pvcs & _ & (t & _ & [= <-])%result_bind_ok)%result_bind_ok & (o & Ho & (m & _ & [= <-])%result_bind_ok)%result_bind_ok)%result_bind_ok.
  cbn [sts_Spec]. destruct (ov_StatefulSet _) as [ov|]; cbn [mbind option_bind]; [|by injection Ho as <-].
  unfold applyStsOverride in Ho. destruct (ost_Spec ov) as [os|].
  - destruct (result_bind _ _) as [x|] eqn:E in Ho; [injection Ho as <-|done].
    by apply result_bind_ok in E as (? & _ & (? & _ & [= <-])%result_bind_ok).
  - by injection Ho as <-.
Qed.

Lemma sts_Update_name {OL : OwnerRefsLaws} instance sts sts' :
  sts_Update instance sts = Ok sts' -> om_Name (sts_Meta sts') = om_Name (sts_Meta sts).
Proof.
  intros (d & o & Hd & Ho & Hr & _)%sts_Update_ok. rewrite (setref_name _ _ _ Hr).
  assert (om_Name (sts_Meta d) = om_Name (sts_Meta sts)) as <-.
  { unfold sts_desired in Hd. by apply result_bind_ok in Hd as (? & _ & (? & _ & [= <-])%result_bind_ok). }
  destruct (ov_StatefulSet _) as [ov|]; [|by subst o].
  apply applyStsOverride_ok in Ho as (-> & _). destruct (ost_LabelsAnnotations ov) as [[[] []]|]; reflexivity.
Qed.

(** An override depends on the cluster's metadata and persistence only. *)
Lemma override_pvcs_same i i' ns os :
  rmq_Meta i' = rmq_Meta i -> override_pvcs i' ns os = override_pvcs i ns os.
Proof.
  intros Hm. assert (forall o, override_pvc i' ns o = override_pvc i ns o) as He
    by (intros o; unfold override_pvc; by rewrite Hm).
  induction os as [|o os IH]; [done|]. cbn [override_pvcs]. by rewrite He, IH.
Qed.

Lemma override_templates_same i i' ns o ts :
  rmq_Meta i' = rmq_Meta i -> spec_Persistence (rmq_Spec i') = spec_Persistence (rmq_Spec i) ->
  override_templates i' ns o ts = override_templates i ns o ts.
Proof.
  intros Hm Hp. unfold override_templates. rewrite Hp. destruct (os_VolumeClaimTemplates o); [done|].
  destruct (per_Storage _) as [c|]; [|done]. cbn [or_panic result_bind]. by rewrite (override_pvcs_same _ _ _ _ Hm).
Qed.

Lemma override_sanitized i i' d la os :
  rmq_Meta i' = rmq_Meta i -> spec_Persistence (rmq_Spec i') = spec_Persistence (rmq_Spec i) ->
  applyStsOverride i' d (mkOSts la (Some (os_with (option_map sanitize_template (os_Template os))
    (os_VolumeClaimTemplates os) os))) = applyStsOverride i d (mkOSts la (Some os)).
Proof.
  intros Hm Hp. unfold applyStsOverride.
  cbn [ost_LabelsAnnotations ost_Spec os_with os_Replicas os_Selector os_Template os_VolumeClaimTemplates
    os_ServiceName os_PodManagementPolicy os_UpdateStrategy os_MinReadySeconds os_PVCRetentionPolicy].
  rewrite (override_templates_same i i') by done. unfold override_templates, override_template, ChildResourceName, rmq_Name.
  cbn [os_VolumeClaimTemplates]. rewrite Hm. destruct (os_Template os) as [[eom [p|]]|]; [|done|done].
  cbn [option_map sanitize_template opt_EmbeddedObjectMeta opt_Spec]. by rewrite sanitize_idempotent.
Qed.

(** Sanitising the override's pod spec beforehand changes nothing: the
    update does it itself. *)
Lemma sts_Update_after_Update instance sts :
  sts_Update (instance_after_Update instance) sts = sts_Update instance sts.
Proof.
  unfold sts_Update. change (sts_desired (instance_after_Update instance) sts) with (sts_desired instance sts).
  destruct (sts_desired instance sts) as [d|]; [|done]. cbn [result_bind].
  assert (forall o, ov_StatefulSet (spec_Override (rmq_Spec instance)) = Some o ->
    exists o', ov_StatefulSet (spec_Override (rmq_Spec (instance_after_Update instance))) = Some o' /\
      applyStsOverride (instance_after_Update instance) d o' = applyStsOverride instance d o) as Hov.
  { intros [la [os|]] Ho; unfold instance_after_Update, map_sts_override;
      cbn [rmq_Spec rmq_with_spec spec_Override ov_StatefulSet]; rewrite Ho; eexists; split; [done| |done|done].
    by apply override_sanitized. }
  destruct (ov_StatefulSet (spec_Override (rmq_Spec instance))) as [o|] eqn:Eo.
  - by destruct (Hov o eq_refl) as (o' & -> & ->).
  - unfold instance_after_Update, map_sts_override. cbn [rmq_Spec rmq_with_spec spec_Override ov_StatefulSet].
    by rewrite Eo.
Qed.
End Templates.

(** ** The children as a pass finds them *)

(** The children the server keeps, by kind and name, and the storage every
    claim has at least. *)
Record Children := mkChildren {
  child : string * string -> option Object;
  claim_capacity : Quantity;
}.

(** The answers a pass gets: a child that exists is returned as it is, and no
    claim is smaller than the StatefulSet asks for. *)
Definition answered (ch : Children) (e : event) : Prop :=
  match e with
  | existT (GetObject o) a =>
      forall x, child ch (object_kind o, om_Name (object_meta o)) = Some x -> a = Ok x
  | existT (GetSts _ n) a => forall s, child ch ("StatefulSet", n) = Some (OStatefulSet s) -> a = Ok s
  | existT (GetPVC _ _) (Ok p) => (claim_capacity ch <= storage_of p)%Z
  | existT (GetPVC _ _) (Err e) => IsNotFound e = true
  | _ => True
  end.

Section SettledPass.
Context {I : Ini} {O : OwnerRefs} {OL : OwnerRefsLaws} {M : StrategicMerge} {V : Semver} {T : Rfc3339} {R : RetryLib}
  {RL : RetryLaws} {X : ClientLib} {C : CreateOrUpdateLib} {CL : CreateOrUpdateLaws}
  (iter : gmap string ServicePort -> list (string * ServicePort)) (rand : RandSource)
  (arrival : list nodeQuorumCheck -> list nodeQuorumCheck) (cfg : ReconcilerConfig)
  (ch : Children).

(** Every child exists and its builder leaves it as it is, up to the equality
    that decides about a write, and can be built again; the replicas and the
    claim templates of the StatefulSet are what the builder would ask for. *)
Definition settled (rmq : RabbitmqCluster) : Prop :=
  (forall b, b ∈ ResourceBuilders rmq ->
     exists o0 o o' b', Build rand rmq b = Ok o0 /\ child ch (built_name rmq b) = Some o /\
       Update iter rmq b o = Ok (o', b') /\ Semantic_DeepEqual o o' = true) /\
  (exists sts0 sts cur, sts_Build rmq = Ok sts0 /\ sts_Update rmq sts0 = Ok sts /\
     child ch (built_name rmq StatefulSetBuilder) = Some (OStatefulSet cur) /\
     sp_Replicas (sts_Spec cur) = wanted_replicas rmq /\
     persistence_capacity (sp_VolumeClaimTemplates (sts_Spec cur)) = claim_capacity ch /\
     persistence_capacity (sp_VolumeClaimTemplates (sts_Spec sts)) = claim_capacity ch) /\
  is_Some (wanted_replicas rmq).

(** No write since [h]. *)
Definition no_write (h h' : history) : Prop := exists t, h' = h ++ t /\ writes t = [].

Lemma no_write_refl h : no_write h h.
Proof. exists []. by rewrite app_nil_r. Qed.
Lemma no_write_trans h1 h2 h3 : no_write h1 h2 -> no_write h2 h3 -> no_write h1 h3.
Proof. intros (t & -> & Ht) (u & -> & Hu). exists (t ++ u). by rewrite (assoc_L (++)), writes_app, Ht, Hu. Qed.
Lemma no_write_call h c a : is_write c = false -> no_write h (h ++ [Ev c a]).
Proof. intros Hc. eexists. split; [done|]. unfold writes. cbn. by rewrite Hc. Qed.

(** Claims that are large enough are not touched. *)
Lemma settled_get_pvcs rmq l h :
  wp (get_pvcs rmq l) (under (answered ch) (fun h' r => no_write h h' /\
    exists pvcs, r = Ok pvcs /\ Forall (fun p => claim_capacity ch <= storage_of p)%Z pvcs)) h.
Proof.
  revert h. induction l as [|i l IH]; intros h; cbn [get_pvcs].
  { cbn [wp]. intros _. split; [apply no_write_refl|]. by exists []. }
  apply wp_under_call. intros a Ha. set (h1 := h ++ _).
  assert (no_write h h1) as Hh1 by (by apply no_write_call).
  assert (IgnoreNotFound a = None) as -> by (destruct a as [p|e]; [done | by cbn; rewrite Ha]).
  eapply wp_under_bind; [apply IH|]. intros h2 ps (Hh2 & pvcs & -> & Hps).
  assert (no_write h h2) as Hh by (by eapply no_write_trans).
  destruct a as [p|e]; cbn [wp result_bind]; intros _; (split; [done|]); eexists; (split; [done|]); [by constructor | done].
Qed.

Lemma settled_scale rmq cur h :
  child ch (built_name rmq StatefulSetBuilder) = Some (OStatefulSet cur) ->
  persistence_capacity (sp_VolumeClaimTemplates (sts_Spec cur)) = claim_capacity ch ->
  wp (Scale rmq (claim_capacity ch)) (under (answered ch) (fun h' r => no_write h h' /\ r = Ok tt)) h.
Proof.
  intros Hc Hcap. unfold Scale, existingCapacity, getSts, scale_pvcs, getClusterPVCs. cbn [bind perform].
  apply (wp_under_call _ (GetSts (rmq_Namespace rmq) (ChildResourceName rmq "server"))). intros a Ha.
  set (h1 := h ++ _). assert (no_write h h1) as Hh1 by (by apply no_write_call).
  rewrite (Ha cur Hc). cbn [bind]. rewrite Hcap.
  assert ((q_Cmp (claim_capacity ch) (claim_capacity ch) =? 1)%Z = false) as ->.
  { apply Z.eqb_neq. rewrite q_Cmp_gt. lia. }
  rewrite andb_negb_r. eapply wp_under_bind; [apply settled_get_pvcs|].
  intros h2 r (Hh2 & pvcs & -> & Hp). assert (no_write h h2) as Hh by (by eapply no_write_trans).
  assert (pvcsNeedingScaling pvcs (claim_capacity ch) = []) as ->; [|by intros _].
  unfold pvcsNeedingScaling. induction Hp as [|p ps Hp _ IH]; [done|].
  cbn [List.filter]. destruct (needs_scaling _ p) eqn:E; [|exact IH]. apply needs_scaling_spec in E. lia.
Qed.

(** ** Writing a child that is in place *)

(** The object a write is about is the child, and what the builder would make
    of the child is the child. *)
Definition in_place_state (key : string * string) (s : WriteState) : Prop :=
  (object_kind (ws_Object s), om_Name (object_meta (ws_Object s))) = key /\
  exists o o' b', child ch key = Some o /\ Update iter (ws_Instance s) (ws_Builder s) o = Ok (o', b') /\
    Semantic_DeepEqual o o' = true.

Lemma mutate_in_place_state key s o :
  in_place_state key s -> child ch key = Some o ->
  exists s1, mutate iter (put_object o s) = (s1, None) /\ Semantic_DeepEqual o (ws_Object s1) = true.
Proof.
  intros (_ & o1 & o' & b' & Ho & HU & Heq) Ho'. rewrite Ho in Ho'. injection Ho' as ->. unfold mutate.
  assert (update_instance (put_object o s) = ws_Instance s) as -> by (unfold update_instance; by destruct (ws_Builder _)).
  cbn [put_object ws_Builder ws_Object]. rewrite HU. by eexists.
Qed.

Definition same_instance (s s' : WriteState) : Prop :=
  UpdateMayRequireStsRecreate (ws_Builder s) = false -> ws_Instance s' = ws_Instance s.

Lemma settled_write_once key s h :
  in_place_state key s ->
  wp (write_once iter s) (under (answered ch) (fun h' r => no_write h h' /\
    snd r = Ok (OperationResultNone, None) /\ same_instance s (fst r))) h.
Proof.
  intros Hs. destruct (Hs) as (Hkey & o & o' & b' & Ho & _). unfold write_once.
  apply (wp_under_bind _ _ _ (fun h' r => no_write h h' /\ snd r = Ok OperationResultNone /\ same_instance s (fst r))).
  2:{ intros h' [s1 r] (Hh & Hr & Hi). cbn [snd] in Hr. subst r. cbn [wp fst snd]. by intros _. }
  apply CreateOrUpdate_wp. intros a. cbv zeta. set (h1 := h ++ [Ev (GetObject (ws_Object s)) a]).
  assert (forall t, Forall (answered ch) (h1 ++ t) -> a = Ok o) as Ha.
  { intros t [[_ Ha%Forall_inv]%Forall_app _]%Forall_app. apply Ha. by rewrite Hkey. }
  assert (forall t, Forall (answered ch) (h1 ++ t) -> exists s1, a = Ok o /\ mutate iter (put_object o s) = (s1, None) /\ Semantic_DeepEqual o (ws_Object s1) = true) as Hm.
  { intros t Ht. destruct (mutate_in_place_state key s o Hs Ho) as (s1 & ? & ?). exists s1. split; [by eapply Ha|done]. }
  specialize (Hm []) as Hm0. rewrite app_nil_r in Hm0. unfold under. destruct a as [o1|e].
  - destruct (mutate iter (put_object o1 s)) as [s1 [e1|]] eqn:Em.
    + intros (s2 & [= ->] & Em2 & _)%Hm0. by rewrite Em in Em2.
    + split.
      * intros _ _. split; [by apply no_write_call|]. split; [done|]. by apply mutate_makes in Em as (_ & _ & Hi).
      * intros Hne a1 (s2 & [= ->] & Em2 & Hs2)%Hm. rewrite Em in Em2. injection Em2 as ->.
        by rewrite Hs2 in Hne.
  - destruct (IsNotFound e); [|by intros (s2 & ? & _)%Hm0].
    destruct (mutate iter s) as [s1 [e1|]]; [by intros (s2 & ? & _)%Hm0|].
    intros a1 Hh. by apply Hm in Hh as (s2 & ? & _).
Qed.

(** Nothing is written, noted or annotated. *)
Lemma settled_write_object key s h :
  in_place_state key s ->
  wp (write_object iter s) (under (answered ch) (fun h' r => no_write h h' /\ exists rmq, r = inl rmq /\
    (UpdateMayRequireStsRecreate (ws_Builder s) = false -> rmq = ws_Instance s))) h.
Proof.
  intros Hs. unfold write_object.
  apply (wp_under_bind _ _ _ (fun h' w => no_write h h' /\ snd w = Ok (OperationResultNone, None) /\ same_instance s (fst w))).
  - apply (OnErrorS_wp _ _ (fun s0 h0 => Forall (answered ch) h0 -> s0 = s /\ h0 = h)); [done|].
    intros s0 h0 H0.
    assert (wp (write_once iter s0) (under (answered ch) (fun h' r => no_write h h' /\ snd r = Ok (OperationResultNone, None) /\
      same_instance s (fst r))) h0) as Hw.
    { apply wp_under. intros [-> ->]%H0. by eapply settled_write_once. }
    eapply wp_mono; [|exact Hw]. intros h1 r Hr. split; [exact Hr|]. destruct (snd r) as [x|e] eqn:E; [done|].
    intros _ (_ & Hx & _)%Hr. by rewrite E in Hx.
  - intros h1 [s1 w] (Hh1 & Hw & Hi). cbn [snd] in Hw. subst w. cbn [fst snd write_error].
    unfold logAndRecordOperationResult. cbn [bind]. unfold annotateIfNeeded.
    assert (annotation_target (ws_Instance s1) (ws_Builder s1) OperationResultNone = None) as ->
      by (destruct (ws_Builder s1); reflexivity).
    cbn [bind wp]. intros _. split; [done|]. by eexists.
Qed.
(** ** The builders *)

Lemma check_replicas_same rmq current desired n h :
  sp_Replicas (sts_Spec current) = Some n -> sp_Replicas (sts_Spec desired) = Some n ->
  wp (check_replicas rmq current desired) (fun h' r => h' = h /\ r = inl (rmq, false)) h.
Proof.
  intros Hc Hd. unfold check_replicas. rewrite (replica_pair_some _ _ _ _ Hc Hd).
  unfold ScaleToZero, ScaleFromZero, scaleDown. rewrite !Z.gtb_ltb, Z.ltb_irrefl.
  destruct (Z.eqb_spec n 0) as [->|]; cbn; done.
Qed.

Lemma settled_prepare rmq sts0 h :
  settled rmq -> sts_Build rmq = Ok sts0 ->
  wp (prepare_sts iter (mkWrite rmq StatefulSetBuilder (OStatefulSet sts0) false))
    (under (answered ch) (fun h' r => no_write h h' /\
       exists s, r = inl s /\ in_place_state (built_name rmq StatefulSetBuilder) s)) h.
Proof.
  intros (Hall & (sts0' & sts & cur & E0 & E1 & Hcur & Hrep & Hcap & Hcap') & n & Hn) E0'.
  rewrite E0 in E0'. injection E0' as ->.
  destruct (Hall StatefulSetBuilder) as (o0 & o & o' & b' & _ & Ho & HU & Heq); [by apply builder_in|].
  rewrite Hcur in Ho. injection Ho as <-. cbn [Update] in HU.
  destruct (sts_Update rmq cur) as [cur'|] eqn:E2; [|done]. cbn in HU. injection HU as <- _.
  unfold prepare_sts, statefulSet. cbn [ws_Instance].
  apply (wp_under_call _ (GetSts (rmq_Namespace rmq) (ChildResourceName rmq "server"))). intros a Ha.
  set (h1 := h ++ _). assert (no_write h h1) as Hh1 by (by apply no_write_call).
  rewrite (Ha cur Hcur). cbn [IgnoreNotFound]. unfold check_existing_sts, mutate, update_instance.
  cbn [ws_Builder ws_shared ws_Instance ws_Object Update]. rewrite E1. cbn [result_bind map_err UpdateMayRequireStsRecreate ws_Object].
  set (s1 := mkWrite _ _ _ _).
  eapply wp_under_bind.
  { eapply wp_under_bind.
    - eapply wp_mono; [|apply (check_replicas_same _ cur sts n)].
      + intros h2 r Hr _. exact Hr.
      + by rewrite Hrep.
      + rewrite <- Hn. by eapply sts_Update_replicas.
    - intros h2 r [-> ->]. cbn [wp]. instantiate (1 := fun h2 r => h2 = h1 /\ r = inl s1). by intros _. }
  intros h2 r [-> ->]. unfold expand_claims. subst s1. cbn [ws_Object ws_Instance]. unfold reconcilePVC, persistenceStorageCapacity.
  rewrite Hcap'. eapply wp_under_bind.
  { eapply wp_under_bind; [apply (settled_scale (instance_after_Update rmq) cur); [exact Hcur | exact Hcap]|].
    intros h2 r [Hh2 ->]. cbn [wp]. instantiate (1 := fun h2 r => no_write h1 h2 /\ r = Ok tt). by intros _. }
  intros h2 r [Hh2 ->]. cbn [wp]. intros _. split; [by eapply no_write_trans|]. eexists. split; [done|]. split.
  - cbn [ws_Object object_kind object_meta]. rewrite (sts_Update_name _ _ _ E1).
    destruct (Build_id rand rmq StatefulSetBuilder (OStatefulSet sts0)) as (_ & Hname & _); [cbn; by rewrite E0|].
    cbn [object_meta] in Hname. by rewrite Hname.
  - exists (OStatefulSet cur), (OStatefulSet cur'), StatefulSetBuilder. split; [done|]. split; [|exact Heq].
    cbn [ws_Instance ws_Builder Update]. by rewrite sts_Update_after_Update, E2.
Qed.
Lemma settled_builder rmq b h :
  settled rmq -> b ∈ ResourceBuilders rmq ->
  wp (reconcile_builder iter rand rmq b) (under (answered ch) (fun h' r => no_write h h' /\
    exists rmq', r = inl rmq' /\ (b <> StatefulSetBuilder -> rmq' = rmq))) h.
Proof.
  intros Hs Hb. destruct (proj1 Hs b Hb) as (o0 & o & o' & b' & Hbuild & Ho & HU & Heq).
  unfold reconcile_builder. rewrite Hbuild.
  apply (wp_under_bind _ _ _ (fun h' r => no_write h h' /\ exists s, r = inl s /\
    in_place_state (built_name rmq b) s /\ (b <> StatefulSetBuilder -> s = mkWrite rmq b o0 false))).
  - destruct (UpdateMayRequireStsRecreate b) eqn:Es.
    + apply is_sts in Es as ->. cbn [Build] in Hbuild. destruct (sts_Build rmq) as [sts0|] eqn:E0; [|done].
      injection Hbuild as <-. eapply wp_under_mono; [|by apply settled_prepare].
      intros h1 r _ (Hh1 & s & -> & Hp). split; [done|]. by exists s.
    + cbn [wp]. intros _. split; [apply no_write_refl|]. eexists. split; [done|].
      destruct (Build_id rand rmq b o0 Hbuild) as (Hk & Hname & _). split; [|done].
      split; [cbn [ws_Object]; by rewrite Hk, Hname|]. by exists o, o', b'.
  - intros h1 r (Hh1 & s & -> & Hp & Hsame). eapply wp_under_mono; [|by eapply settled_write_object].
    intros h2 r _ (Hh2 & rmq' & -> & Hr). split; [by eapply no_write_trans|]. exists rmq'. split; [done|].
    intros Hne. specialize (Hsame Hne) as ->. apply Hr. by destruct b.
Qed.

Lemma settled_builders rmq h :
  settled rmq ->
  wp (reconcile_builders iter rand rmq (ResourceBuilders rmq)) (under (answered ch) (fun h' r => no_write h h' /\
    exists rmq', r = inl rmq')) h.
Proof.
  intros Hs. assert (forall bs pre h, ResourceBuilders rmq = pre ++ bs ->
    wp (reconcile_builders iter rand rmq bs) (under (answered ch) (fun h' r => no_write h h' /\
      exists rmq', r = inl rmq')) h) as Hall; [|by apply (Hall _ [])].
  clear h. induction bs as [|b bs IH]; intros pre h Hpre; cbn [reconcile_builders].
  { intros _. split; [apply no_write_refl|]. by eexists. }
  eapply wp_under_bind; [apply (settled_builder rmq b); [done | rewrite Hpre; set_solver]|].
  intros h1 r (Hh1 & rmq' & -> & Hsame). destruct (decide (b = StatefulSetBuilder)) as [->|Hne].
  - pose proof (sts_last _ _ _ Hpre) as ->. cbn [reconcile_builders wp]. intros _. split; [done|]. by eexists.
  - rewrite (Hsame Hne). eapply wp_under_mono; [|apply (IH (pre ++ [b])); by rewrite <- (assoc_L (++))].
    intros h2 r _ [Hh2 Hr]. split; [by eapply no_write_trans | exact Hr].
Qed.
(** ** The whole pass *)

(** The status plays no part. *)
Lemma sts_Update_status st rmq s : sts_Update (rmq_with_status st rmq) s = sts_Update rmq s.
Proof.
  assert (forall d o, applyStsOverride (rmq_with_status st rmq) d o = applyStsOverride rmq d o) as Ho.
  { intros d o. unfold applyStsOverride. destruct (ost_Spec o) as [os|]; [|done].
    by rewrite (override_templates_same rmq (rmq_with_status st rmq)). }
  unfold sts_Update. change (sts_desired (rmq_with_status st rmq) s) with (sts_desired rmq s).
  cbn [rmq_with_status rmq_Spec rmq_Meta]. destruct (ov_StatefulSet _) as [o|]; [|done].
  destruct (sts_desired rmq s) as [d|]; [|done]. cbn [result_bind]. by rewrite Ho.
Qed.

Lemma Update_status st rmq b o : Update iter (rmq_with_status st rmq) b o = Update iter rmq b o.
Proof. destruct b, o; try reflexivity. cbn [Update]. by rewrite sts_Update_status. Qed.

Lemma Build_status st rmq b : Build rand (rmq_with_status st rmq) b = Build rand rmq b.
Proof. by destruct b. Qed.

Lemma settled_status st rmq : settled rmq -> settled (rmq_with_status st rmq).
Proof.
  intros (Hb & (s0 & s & cur & H0 & H1 & H2) & Hn). split; [|split; [|exact Hn]].
  - intros b Hin. destruct (Hb b Hin) as (o0 & o & o' & b' & E0 & E1 & E2). exists o0, o, o', b'.
    by rewrite Build_status, Update_status.
  - exists s0, s, cur. by rewrite sts_Update_status.
Qed.

(** Every cluster the server returns has its children in place. *)
Definition cluster_answered (e : event) : Prop :=
  match e with
  | existT (GetCluster _ _) (Ok r) | existT (UpdateCluster _) (Ok r) | existT (PatchStatus _) (Ok r) => settled r
  | _ => True
  end.
Definition expected (e : event) : Prop := answered ch e /\ cluster_answered e.

(** Quiet calls only since [h]. *)
Definition calm (h h' : history) : Prop := exists t, h' = h ++ t /\ Forall (fun e => quiet (projT1 e)) t.

Lemma quiet_under {A} (p : prog A) (W : history -> A -> Prop) h :
  calls_only quiet p -> wp p (under expected W) h ->
  wp p (under expected (fun h' a => calm h h' /\ W h' a)) h.
Proof.
  intros Hp HW. eapply wp_mono; [|exact (wp_conj _ _ _ _ (Hp h) HW)].
  intros h' a [Hc Ha] Hh'. split; [exact Hc | by apply Ha].
Qed.

Lemma keeps_addFinalizer rmq h :
  settled rmq -> wp (addFinalizerIfNeeded rmq) (under expected (fun _ f => fst f = Ok tt -> settled (snd f))) h.
Proof.
  intros Hs. unfold addFinalizerIfNeeded. destruct (_ && _); [|by intros _].
  apply (wp_under_bind _ _ _ (fun _ r => forall r', r = Ok r' -> settled r')).
  - apply (OnError_wp _ _ (fun _ => True)); [done|]. intros h0 _. cbn [perform wp]. intros a. split; [|by destruct a].
    intros [_ [_ Ha]%Forall_inv]%Forall_app r' ->. exact Ha.
  - intros h1 [r'|e] Hr; cbn [wp fst snd]; intros _; [|done]. intros _. by apply Hr.
Qed.

Lemma keeps_updateStatusConditions rmq h :
  settled rmq -> wp (updateStatusConditions rmq) (under expected (fun _ c => settled (snd c))) h.
Proof.
  intros Hs. unfold updateStatusConditions. apply wp_under_skip. intros h1 [l|e]; [|by intros _].
  apply wp_under_skip. intros h2 t. destruct (SetConditions _ _ _) as [st|]; [|by intros _].
  case_decide; [intros _; by apply settled_status|]. unfold patch_status. cbn [bind].
  eapply (wp_under_bind _ _ _ (fun _ p => settled (snd p))).
  - apply wp_under_call. intros [r|e] [_ Ha]; intros _; [exact Ha | by apply settled_status].
  - intros h3 [[u|e] r] Hr; intros _; exact Hr.
Qed.

Lemma keeps_note_rebalance rmq h :
  settled rmq -> wp (note_queue_rebalance rmq) (under expected (fun _ n => forall r, n = inl r -> settled r)) h.
Proof.
  intros Hs. unfold note_queue_rebalance, statefulSet. apply wp_under_call. intros [s|e] _.
  2:{ destruct (IsNotFound e); intros _; [by intros r [= <-] | done]. }
  destruct (statefulSetNeedsQueueRebalance s rmq) as [[]|]; [|by intros _ r [= <-]|by intros _].
  unfold markForQueueRebalance. destruct (cluster_nonempty_annotation _ _).
  { cbn [bind wp]. by intros _ r [= <-]. }
  cbn [bind]. apply (wp_under_call _ Now). intros now _.
  apply wp_under_call. intros [r|e] [_ Ha]; intros _; [by intros r' [= <-] | done].
Qed.
Lemma reconcileTLS_same rmq h :
  wp (reconcileTLS rmq) (fun _ t => fst t = Ok tt -> snd t = rmq) h.
Proof.
  unfold reconcileTLS. destruct (_ && _); [|destruct (SecretTLSEnabled rmq)].
  - rewrite !wp_bind. eapply wp_mono; [|apply wp_true]. intros h1 u _. rewrite wp_bind.
    eapply wp_mono; [|apply wp_true]. by intros h2 r _.
  - rewrite wp_bind. eapply wp_mono; [|apply wp_true]. intros h1 [u|e] _; [by intros _|]. rewrite wp_bind.
    eapply wp_mono; [|apply wp_true]. by intros h2 r _.
  - by intros _.
Qed.

Lemma calm_trans h1 h2 h3 : calm h1 h2 -> calm h2 h3 -> calm h1 h3.
Proof. intros (t & -> & Ht) (u & -> & Hu). exists (t ++ u). rewrite (assoc_L (++)). split; [done|]. by apply Forall_app_2. Qed.

Lemma no_write_calm h h' : no_write h h' -> calm h h'.
Proof.
  intros (t & -> & Ht). exists t. split; [done|]. unfold writes in Ht. induction t as [|[c a] t IH]; [done|].
  cbn in Ht. destruct (is_write c) eqn:E; [done|]. constructor; [by destruct c | by apply IH].
Qed.

(** A quiet step, then the rest. *)
Lemma calm_step {A B} (p : prog A) (f : A -> prog B) (W : history -> A -> Prop) h0 h :
  calls_only quiet p -> wp p (under expected W) h ->
  (forall h' a, W h' a -> wp (f a) (under expected (fun h'' _ => calm h' h'')) h') ->
  calm h0 h -> wp (bind p f) (under expected (fun h' _ => calm h0 h')) h.
Proof.
  intros Hp HW Hf Hh. eapply wp_under_bind; [by apply quiet_under|]. intros h1 a [Hc Ha].
  eapply wp_under_mono; [|by apply Hf]. intros h2 b _ Hb. eapply calm_trans; [|exact Hb]. by eapply calm_trans.
Qed.
Lemma quiet_calm {A} (p : prog A) h : calls_only quiet p -> wp p (under expected (fun h' _ => calm h h')) h.
Proof. intros Hp. eapply wp_mono; [|apply Hp]. by intros h' a Hc _. Qed.

Lemma calm_refl h : calm h h.
Proof. exists []. by rewrite app_nil_r. Qed.

Lemma quiet_finish rmq : calls_only quiet (finish arrival rmq).
Proof. unfold finish, unless_stopped, unless_stopped_report. calls. Qed.

Lemma wp_any {A} (p : prog A) h : wp p (under expected (fun _ _ => True)) h.
Proof. eapply wp_mono; [|apply wp_true]. by intros. Qed.

Lemma settled_children rmq h :
  settled rmq ->
  wp (reconcile_children iter rand arrival rmq) (under expected (fun h' _ => calm h h')) h.
Proof.
  intros Hs. unfold reconcile_children.
  apply (calm_step _ _ (fun _ t => fst t = Ok tt -> snd t = rmq)); [auto with calls| | |apply calm_refl].
  { eapply wp_mono; [|apply reconcileTLS_same]. by intros h' t Ht _. }
  intros h1 [[[]|e] rmq1] Ht; cbn [fst snd] in *.
  2:{ destruct e; cbn [wp]; intros _; apply calm_refl. }
  rewrite (Ht eq_refl). eapply calm_step; [auto with calls|apply wp_any| |apply calm_refl]. intros h2 u _.
  eapply calm_step; [auto with calls|by apply keeps_note_rebalance| |apply calm_refl].
  intros h3 [rmq2|s] Hn; cbn [or_return]; [|cbn [wp]; intros _; apply calm_refl].
  eapply calm_step; [unfold delete_rbac; calls|apply wp_any| |apply calm_refl].
  intros h4 [d|e] _; [|cbn [wp]; intros _; apply calm_refl].
  eapply (wp_under_bind _ _ _ (fun h' _ => no_write h4 h')).
  { eapply wp_mono; [|apply settled_builders; by apply Hn]. intros h' r Hr Hh'. apply Hr.
    eapply Forall_impl; [exact Hh'|]. by intros e [? _]. }
  intros h5 [rmq3|s] Hw; cbn [or_return]; [|cbn [wp]; intros _; by apply no_write_calm].
  eapply wp_under_mono; [|apply quiet_calm, quiet_finish]. intros h6 r _ Hc.
  eapply calm_trans; [|exact Hc]. by apply no_write_calm.
Qed.

(** ** Deciding the conditions *)

Definition settled_builder_b (rmq : RabbitmqCluster) (b : ResourceBuilder) : bool :=
  match Build rand rmq b, child ch (built_name rmq b) with
  | Ok _, Some o => match Update iter rmq b o with Ok (o', _) => Semantic_DeepEqual o o' | Err _ => false end
  | _, _ => false
  end.

Definition settled_b (rmq : RabbitmqCluster) : bool :=
  forallb (settled_builder_b rmq) (ResourceBuilders rmq) &&
  (match sts_Build rmq, child ch (built_name rmq StatefulSetBuilder) with
   | Ok sts0, Some (OStatefulSet cur) =>
       match sts_Update rmq sts0 with
       | Ok sts =>
           bool_decide (sp_Replicas (sts_Spec cur) = wanted_replicas rmq) &&
           bool_decide (persistence_capacity (sp_VolumeClaimTemplates (sts_Spec cur)) = claim_capacity ch) &&
           bool_decide (persistence_capacity (sp_VolumeClaimTemplates (sts_Spec sts)) = claim_capacity ch)
       | Err _ => false
       end
   | _, _ => false
   end && bool_decide (is_Some (wanted_replicas rmq))).

Lemma settled_b_spec rmq : settled_b rmq = true -> settled rmq.
Proof.
  unfold settled_b. rewrite !andb_true_iff. intros (Hall & Hsts & Hn%bool_decide_eq_true). split; [|split; [|exact Hn]].
  - intros b Hb%list_elem_of_In. pose proof (proj1 (forallb_forall _ _) Hall b Hb) as H. unfold settled_builder_b in H.
    destruct (Build rand rmq b) as [o0|]; [|done]. destruct (child ch (built_name rmq b)) as [o|]; [|done].
    destruct (Update iter rmq b o) as [[o' b']|] eqn:E; [|done]. by exists o0, o, o', b'.
  - destruct (sts_Build rmq) as [sts0|]; [|done]. destruct (child ch _) as [[| | | | | |cur]|] eqn:Ec; try done.
    destruct (sts_Update rmq sts0) as [sts|] eqn:E; [|done]. rewrite !andb_true_iff in Hsts.
    destruct Hsts as [[H0 H1] H2]. apply bool_decide_eq_true in H0, H1, H2. by exists sts0, sts, cur.
Qed.

Definition expected_b (e : event) : bool :=
  match e with
  | existT (GetObject o) a =>
      match child ch (object_kind o, om_Name (object_meta o)), a with
      | Some x, Ok y => bool_decide (y = x)
      | Some _, Err _ => false
      | None, _ => true
      end
  | existT (GetSts _ n) a =>
      match child ch ("StatefulSet", n), a with
      | Some (OStatefulSet s), Ok y => bool_decide (y = s)
      | Some (OStatefulSet _), Err _ => false
      | _, _ => true
      end
  | existT (GetPVC _ _) (Ok p) => (claim_capacity ch <=? storage_of p)%Z
  | existT (GetPVC _ _) (Err e) => IsNotFound e
  | existT (GetCluster _ _) (Ok r) | existT (UpdateCluster _) (Ok r) | existT (PatchStatus _) (Ok r) => settled_b r
  | _ => true
  end.

Lemma expected_b_spec e : expected_b e = true -> expected e.
Proof.
  destruct e as [c a]. destruct c; try done;
    try (destruct a; [|done]; intros H; split; [done|by apply settled_b_spec]).
  - cbn. intros H. split; [|done]. intros s Hs. rewrite Hs in H. destruct a; [|done]. by apply bool_decide_eq_true in H as ->.
  - cbn. destruct a; cbn; intros H; (split; [|done]); [by apply Z.leb_le | done].
  - cbn. intros H. split; [|done]. intros x Hx. rewrite Hx in H. destruct a; [|done]. by apply bool_decide_eq_true in H as ->.
Qed.
End SettledPass.
