(* ===== verification/Convergence.v ===== *)
(** * A pass over the children converges

    The children as the answers of the API server tell them, and what one pass
    over the builders leaves when nobody else writes the children meanwhile:
    a cluster that has settled, so that the next pass over the builders writes
    nothing. *)

From S2P Require Import Prelude.
From S2P Require Import K8s.
From S2P Require Import Metadata.
From S2P Require Import Status.
From S2P Require Import Api.
From S2P Require Import Plugins.
From S2P Require Import Override.
From S2P Require Import Services.
From S2P Require Import Ini.
From S2P Require Import Secrets.
From S2P Require Import ServerConf.
From S2P Require Import PodTemplate.
From S2P Require Import StatefulSet.
From S2P Require Import Rbac.
From S2P Require Import ResourceBuilder.
From S2P Require Import Kube.
From S2P Require Import Scaling.
From S2P Require Import Controller.
From S2P Require Import Replicas.
From S2P Require Import Client.
From S2P Require Import Quorum.
From S2P Require Import PostDeploy.
From S2P Require Import Reconcile.
From S2P Require Import Settled.

(** ** What the answers tell *)

Abbreviation Store := (gmap (string * string) Object).

Definition object_key (o : Object) : string * string := (object_kind o, om_Name (object_meta o)).
Definition put (o : Object) (st : Store) : Store := <[object_key o := o]> st.

(** A read finds the object, or finds that it is gone. *)
Definition read {A} (wrap : A -> Object) (key : string * string) (a : result ApiError A) (st : Store) : Store :=
  match a with
  | Ok x => put (wrap x) st
  | Err e => if IsNotFound e then delete key st else st
  end.

(** The children, by kind and name, after one more answer.  The deletion of a
    StatefulSet takes time: it is gone when a read says so. *)
Definition effect (st : Store) (e : event) : Store :=
  match e with
  | existT (CreateObject _) (Ok o) | existT (UpdateObject _) (Ok o) => put o st
  | existT (UpdateSts _) (Ok s) => put (OStatefulSet s) st
  | existT (UpdateConfigMap _) (Ok c) => put (OConfigMap c) st
  | existT (UpdateSecret _) (Ok s) => put (OSecret s) st
  | existT (DeleteRbac kind _ name) (Ok _) => delete (kind, name) st
  | existT (GetObject o) a => read id (object_key o) a st
  | existT (GetSts _ name) a => read OStatefulSet ("StatefulSet", name) a st
  | existT (GetConfigMap _ name) a => read OConfigMap ("ConfigMap", name) a st
  | _ => st
  end.

(** The status of a StatefulSet is not the operator's: it may change at any
    time. *)
Definition same_but_status (o o' : Object) : Prop :=
  match o, o' with
  | OStatefulSet a, OStatefulSet b => sts_Meta a = sts_Meta b /\ sts_Spec a = sts_Spec b
  | _, _ => o = o'
  end.

(** A read returns what is there, an accepted write is stored as it was sent:
    nobody else writes the children, and the server adds nothing to them. *)
Definition found_in (st : Store) (key : string * string) (o : Object) : Prop :=
  exists o0, st !! key = Some o0 /\ same_but_status o0 o.

Definition truthful_answer (st : Store) (e : event) : Prop :=
  match e with
  | existT (CreateObject o) (Ok o') | existT (UpdateObject o) (Ok o') => same_but_status o o'
  | existT (UpdateSts s) (Ok s') => same_but_status (OStatefulSet s) (OStatefulSet s')
  | existT (UpdateConfigMap c) (Ok c') => c = c'
  | existT (GetObject o) (Ok x) => found_in st (object_key o) x
  | existT (GetSts _ name) (Ok s) => found_in st ("StatefulSet", name) (OStatefulSet s)
  | existT (GetConfigMap _ name) (Ok c) => found_in st ("ConfigMap", name) (OConfigMap c)
  | _ => True
  end.

Lemma same_but_status_refl o : same_but_status o o.
Proof. by destruct o. Qed.

Lemma same_but_status_key o o' : same_but_status o o' -> object_key o' = object_key o.
Proof. unfold object_key. destruct o, o'; cbn; try (by intros [= ->]); try done. by intros [-> _]. Qed.

Definition well_keyed (st : Store) : Prop := forall k o, st !! k = Some o -> object_key o = k.

Lemma put_keyed o st : well_keyed st -> well_keyed (put o st).
Proof. intros H k x. unfold put. rewrite lookup_insert_Some. intros [[<- <-]|[_ Hk]]; [done|by apply H]. Qed.
Lemma delete_keyed k st : well_keyed st -> well_keyed (delete k st).
Proof. intros H k' x [_ Hk]%lookup_delete_Some. by apply H. Qed.
Lemma read_keyed {A} (wrap : A -> Object) key a st : well_keyed st -> well_keyed (read wrap key a st).
Proof. intros H. unfold read. destruct a; [by apply put_keyed|]. destruct (IsNotFound e); [by apply delete_keyed|done]. Qed.

Lemma effect_keyed st e : well_keyed st -> well_keyed (effect st e).
Proof.
  intros H. destruct e as [c a]. destruct c; cbn [effect]; try done; try (by apply read_keyed);
    destruct a; try done; try (by apply put_keyed); by apply delete_keyed.
Qed.

Section Told.
Context (st0 : Store).

Definition told (h : history) : Store := fold_left effect h st0.
Definition truthful (h : history) : Prop := history_ok (fun h e => truthful_answer (told h) e) h.

Lemma told_snoc h e : told (h ++ [e]) = effect (told h) e.
Proof. unfold told. by rewrite fold_left_app. Qed.

Lemma truthful_snoc h e : truthful (h ++ [e]) -> truthful h /\ truthful_answer (told h) e.
Proof.
  intros Hh. split; [|by apply (Hh h e [])]. intros h1 e1 h2 ->. apply (Hh h1 e1 (h2 ++ [e])).
  by rewrite <- (assoc_L (++)).
Qed.
Lemma truthful_prefix h e : truthful (h ++ [e]) -> truthful h.
Proof. by intros [? _]%truthful_snoc. Qed.

Hypothesis keyed0 : well_keyed st0.

Lemma told_keyed h : well_keyed (told h).
Proof. induction h as [|e h IH] using rev_ind; [done|]. rewrite told_snoc. by apply effect_keyed. Qed.

(** A read of a StatefulSet or of nothing. *)
Definition reads_sts (c : call) : Prop :=
  match c with
  | CreateObject _ | UpdateObject _ | UpdateSts _ | UpdateConfigMap _ | UpdateSecret _ | DeleteRbac _ _ _
  | GetObject _ | GetConfigMap _ _ => False
  | _ => True
  end.

(** The other children stay; a StatefulSet keeps its spec or is gone. *)
Definition sts_kept (st st' : Store) : Prop :=
  forall k, st' !! k = st !! k \/
    (fst k = "StatefulSet" /\ forall o', st' !! k = Some o' -> exists o, st !! k = Some o /\ same_but_status o o').

Lemma sts_kept_refl st : sts_kept st st.
Proof. intros k. by left. Qed.

Lemma same_but_status_trans o1 o2 o3 : same_but_status o1 o2 -> same_but_status o2 o3 -> same_but_status o1 o3.
Proof.
  destruct o1, o2; cbn; try done; try (intros [= ->]; destruct o3; cbn; done).
  destruct o3; cbn; try done. by intros [-> ->] [-> ->].
Qed.

Lemma sts_kept_trans st1 st2 st3 : sts_kept st1 st2 -> sts_kept st2 st3 -> sts_kept st1 st3.
Proof.
  intros H1 H2 k. destruct (H2 k) as [->|[Hk H2k]]; [apply H1|]. right. split; [done|]. intros o3 Ho3.
  destruct (H2k o3 Ho3) as (o2 & Ho2 & H23). destruct (H1 k) as [<-|[_ H1k]]; [by exists o2|].
  destruct (H1k o2 Ho2) as (o1 & Ho1 & H12). exists o1. split; [done|]. by eapply same_but_status_trans.
Qed.

(** Reading what is there. *)
Lemma read_found {A} (wrap : A -> Object) key x st :
  well_keyed st -> found_in st key (wrap x) ->
  read wrap key (Ok x) st = <[key := wrap x]> st /\ object_key (wrap x) = key.
Proof.
  intros Hst (o & Ho & Hs). apply Hst in Ho as <-. rewrite <- (same_but_status_key _ _ Hs). done.
Qed.

Lemma effect_reads_sts h c a :
  reads_sts c -> truthful (h ++ [Ev c a]) -> sts_kept (told h) (told (h ++ [Ev c a])).
Proof.
  intros Hc [_ Ha]%truthful_snoc. rewrite told_snoc. destruct c; try done; try (intros k; left; reflexivity).
  cbn [effect Ev]. destruct a as [s|e].
  - cbn in Ha. destruct (read_found OStatefulSet ("StatefulSet", name) s (told h) (told_keyed h) Ha) as [-> _].
    intros k. destruct (decide (k = ("StatefulSet", name))) as [->|Hne]; [|left; by apply lookup_insert_ne].
    right. split; [done|]. intros o'. rewrite lookup_insert_eq. intros [= <-]. exact Ha.
  - cbn [read]. destruct (IsNotFound e); [|apply sts_kept_refl]. intros k.
    destruct (decide (k = ("StatefulSet", name))) as [->|Hne]; [|left; by apply lookup_delete_ne].
    right. split; [done|]. intros o'. by rewrite lookup_delete_eq.
Qed.

Lemma calls_reads_sts {R} (p : prog R) h :
  calls_only reads_sts p -> wp p (assuming truthful (fun h' _ => sts_kept (told h) (told h'))) h.
Proof.
  intros Hp. eapply wp_mono; [|apply Hp]. intros h' r (t & -> & Ht). unfold assuming.
  induction t as [|[c a] t IH] using rev_ind; [intros _; rewrite app_nil_r; apply sts_kept_refl|].
  apply Forall_app in Ht as [Ht Hc%Forall_inv]. rewrite (assoc_L (++)). intros Hh.
  eapply sts_kept_trans; [apply IH; [done|by eapply truthful_prefix]|]. by apply effect_reads_sts.
Qed.
End Told.

(** ** What an update keeps *)

Section Updates.
Context {I : Ini} {O : OwnerRefs} {OL : OwnerRefsLaws} {M : StrategicMerge}
  (iter : gmap string ServicePort -> list (string * ServicePort)).

Lemma owner_name {F} (f : string -> F) instance m m' :
  map_err f (SetControllerReference (rmq_Meta instance) m) = Ok m' -> om_Name m' = om_Name m.
Proof. intros H. apply owner_set in H. by eapply setref_name. Qed.

Lemma copyLabelsAnnotations_name m la : om_Name (copyLabelsAnnotations m la) = om_Name m.
Proof. by destruct la as [[|] [|]]. Qed.

Lemma service_Update_name instance s s' :
  service_Update iter instance s = Ok s' -> om_Name (svc_Meta s') = om_Name (svc_Meta s).
Proof.
  unfold service_Update. intros (o & Ho & (m & Hm%owner_name & [= <-])%result_bind_ok)%result_bind_ok. cbn [svc_Meta].
  rewrite Hm. destruct (ov_Service _) as [ov|]; [|by injection Ho as <-]. revert Ho. unfold applySvcOverride.
  destruct (osv_Spec ov) as [p|].
  - destruct (osv_LabelsAnnotations ov), (merge_service_spec _ _); cbn; try done; intros [= <-]; cbn;
      by rewrite ?copyLabelsAnnotations_name.
  - destruct (osv_LabelsAnnotations ov); cbn; intros [= <-]; cbn; by rewrite ?copyLabelsAnnotations_name.
Qed.

(** Kind and name stay. *)
Lemma Update_key instance b o o' b' :
  Update iter instance b o = Ok (o', b') -> object_key o' = object_key o.
Proof.
  unfold Update, object_key. destruct b, o; try done;
    (destruct (result_bind _ _) as [[? ?]|] eqn:E0; cbn [map_err]; [|done]; intros [= <- <-];
     apply result_bind_ok in E0 as (x & E & [= <- <-])); cbn [object_kind object_meta]; f_equal.
  - unfold headless_Update in E. by apply result_bind_ok in E as (m & Hm%owner_name & [= <-]).
  - by apply service_Update_name in E.
  - unfold cookie_Update in E. by apply result_bind_ok in E as (m & Hm%owner_name & [= <-]).
  - unfold secret_Update in E. destruct (sec_Data s); [|done].
    by apply result_bind_ok in E as (m & Hm%owner_name & [= <-]).
  - unfold plugins_Update in E. by apply result_bind_ok in E as (m & Hm%owner_name & [= <-]).
  - destruct x as [c' r]. apply server_Update_ok in E as (d & p & u & _ & _ & E & _). by eapply setref_name.
  - unfold sa_Update, set_owner in E. by apply result_bind_ok in E as (m & Hm%owner_name & [= <-]).
  - unfold role_Update, set_owner in E. by apply result_bind_ok in E as (m & Hm%owner_name & [= <-]).
  - unfold rb_Update, set_owner in E. by apply result_bind_ok in E as (m & Hm%owner_name & [= <-]).
  - by apply sts_Update_name in E.
Qed.

(** The builder's own flag plays no part in what it makes. *)
Lemma Update_flag instance b1 b o o' b' :
  builder_id b1 = builder_id b -> Update iter instance b1 o = Ok (o', b') ->
  exists b'', Update iter instance b o = Ok (o', b'').
Proof.
  intros Hid. assert (b1 = b \/ exists f f', b1 = ServerConfigMapBuilder f /\ b = ServerConfigMapBuilder f') as [->|(f & f' & -> & ->)].
  { destruct b1, b; try done; try (by left). right. by eexists _, _. }
  { by eexists. }
  cbn [Update]. destruct o; try done. unfold server_Update.
  destruct (server_data instance (cm_Data c)) as [d|]; cbn [result_bind]; [|done].
  destruct (map_err _ (SetControllerReference _ _)) as [m|]; cbn [result_bind]; [|done].
  destruct (map_err _ (removeConfigNotRequiringNodeRestart (cm_Data c))); cbn [result_bind]; [|done].
  destruct (map_err _ (removeConfigNotRequiringNodeRestart _)); cbn [result_bind fst snd]; [|done].
  intros [= <- _]. by eexists.
Qed.

(** Two builders of a cluster build objects of different kinds or names. *)
Lemma built_name_inj instance b1 b2 :
  built_name instance b1 = built_name instance b2 -> builder_id b1 = builder_id b2.
Proof.
  unfold built_name. rewrite !ChildResourceName_tail. intros [= Hk Hn%str_app_inj].
  destruct b1, b2; try done; vm_compute in Hn; done.
Qed.

(** The status of a StatefulSet goes through. *)
Lemma sts_Update_other_status instance s s' st :
  sts_Update instance s = Ok s' ->
  sts_Update instance (mkSts (sts_Meta s) (sts_Spec s) st) = Ok (mkSts (sts_Meta s') (sts_Spec s') st).
Proof.
  unfold sts_Update, sts_desired. cbn [sts_Meta sts_Spec sts_Status].
  destruct (or_panic (updatePersistenceStorageCapacity _ _)); cbn [result_bind]; [|done].
  destruct (or_panic (podTemplateSpec _ _)); cbn [result_bind]; [|done].
  destruct (ov_StatefulSet _) as [ov|]; cbn [result_bind sts_Meta sts_Spec sts_Status].
  - unfold applyStsOverride. cbn [sts_Meta sts_Spec sts_Status]. destruct (ost_Spec ov); cbn [map_err result_bind sts_Meta sts_Spec sts_Status].
    + destruct (override_templates _ _ _ _); cbn [map_err result_bind]; [|done].
      destruct (override_template _ _ _); cbn [map_err result_bind sts_Meta sts_Spec sts_Status]; [|done].
      destruct (SetControllerReference _ _); cbn [map_err result_bind]; [|done]. by intros [= <-].
    + destruct (SetControllerReference _ _); cbn [map_err result_bind]; [|done]. by intros [= <-].
  - destruct (SetControllerReference _ _); cbn [map_err result_bind]; [|done]. by intros [= <-].
Qed.

Lemma Update_other_status instance b o x b' :
  same_but_status o x -> Update iter instance b o = Ok (o, b') -> Update iter instance b x = Ok (x, b').
Proof.
  destruct o as [| | | | | |s]; try (by destruct x; cbn; try done; intros [= ->]). destruct x as [| | | | | |s']; try done.
  intros [Hm Hs]. destruct b; try done. cbn [Update].
  destruct (sts_Update instance s) as [s1|] eqn:E; cbn [result_bind map_err]; [|done]. intros [= -> <-].
  apply (sts_Update_other_status _ _ _ (sts_Status s')) in E. rewrite Hm, Hs in E. destruct s' as [m sp st]. cbn in E. by rewrite E.
Qed.
End Updates.

(** ** The marks of the operator *)

Section Marks.
Context {I : Ini} {O : OwnerRefs} {OL : OwnerRefsLaws} {M : StrategicMerge}
  (iter : gmap string ServicePort -> list (string * ServicePort)).

(** The user does not set the annotation with which the operator marks a new
    StatefulSet. *)
Definition unmarked (instance : RabbitmqCluster) : Prop :=
  smap_get (rmq_Annotations instance) stsCreateAnnotation = None /\
  forall ov la, ov_StatefulSet (spec_Override (rmq_Spec instance)) = Some ov ->
    ost_LabelsAnnotations ov = Some la -> smap_get (ela_Annotations la) stsCreateAnnotation = None.

Definition annotated (key value : string) (o : Object) : Object :=
  match o with
  | OConfigMap c => OConfigMap (mkCM (set_annotation key value (cm_Meta c)) (cm_Data c))
  | OStatefulSet s => OStatefulSet (mkSts (set_annotation key value (sts_Meta s)) (sts_Spec s) (sts_Status s))
  | _ => o
  end.

Lemma Filter_annotated a d k v :
  smap_get d k = None ->
  ReconcileAndFilterAnnotations (Some (<[k := v]> (smap_entries a))) [d] =
  <[k := v]> (ReconcileAndFilterAnnotations a [d]).
Proof.
  intros Hd. apply map_eq. intros k'. rewrite ReconcileAndFilterAnnotations_lookup, smap_get_some.
  destruct (decide (k' = k)) as [->|Hne].
  - by rewrite Hd, !lookup_insert_eq.
  - by rewrite !lookup_insert_ne, ReconcileAndFilterAnnotations_lookup, !smap_get_entries by done.
Qed.

Lemma merge_annotated a o k v :
  smap_get o k = None -> mergeMap (Some (<[k := v]> a)) o = <[k := v]> (mergeMap (Some a) o).
Proof.
  intros Ho. apply map_eq. intros k'. rewrite mergeMap_lookup, smap_get_some.
  destruct (decide (k' = k)) as [->|Hne].
  - by rewrite Ho, !lookup_insert_eq.
  - by rewrite !lookup_insert_ne, mergeMap_lookup, smap_get_some by done.
Qed.

(** The metadata of the StatefulSet, before the owner reference. *)
Definition sts_meta (instance : RabbitmqCluster) (m : ObjectMeta) : ObjectMeta :=
  override_meta (ov_StatefulSet (spec_Override (rmq_Spec instance)) ≫= ost_LabelsAnnotations)
    (om_with_labels (Some (GetLabels (rmq_Name instance) (rmq_Labels instance)))
      (om_with_annotations (Some (ReconcileAndFilterAnnotations (om_Annotations m) [rmq_Annotations instance])) m)).

Lemma sts_meta_annotated instance m v :
  unmarked instance ->
  sts_meta instance (set_annotation stsCreateAnnotation v m) =
  set_annotation stsCreateAnnotation v (sts_meta instance m).
Proof.
  intros [H1 H2]. unfold sts_meta, set_annotation.
  cbn [om_with_annotations om_with_labels om_Annotations om_Name om_Namespace om_UID om_Generation om_DeletionTimestamp
    om_Labels om_OwnerReferences om_Finalizers]. rewrite (Filter_annotated _ _ _ _ H1).
  destruct (ov_StatefulSet _) as [ov|]; [|reflexivity]. cbn [mbind option_bind].
  destruct (ost_LabelsAnnotations ov) as [la|] eqn:El; [|reflexivity]. specialize (H2 ov la eq_refl El).
  cbn [override_meta]. unfold copyLabelsAnnotations. destruct la as [[l|] [a|]]; cbn [ela_Labels ela_Annotations] in *;
    cbn [om_with_annotations om_with_labels om_Annotations om_Name om_Namespace om_UID om_Generation om_DeletionTimestamp
    om_Labels om_OwnerReferences om_Finalizers]; rewrite ?(merge_annotated _ _ _ _ H2); reflexivity.
Qed.

(** An update reads the metadata through [sts_meta] only. *)
Lemma sts_Update_meta instance s s' m :
  sts_Update instance s = Ok s' -> om_Namespace m = om_Namespace (sts_Meta s) ->
  SetControllerReference (rmq_Meta instance) (sts_meta instance (sts_Meta s)) = Ok (sts_Meta s') /\
  forall m', SetControllerReference (rmq_Meta instance) (sts_meta instance m) = Ok m' ->
    sts_Update instance (mkSts m (sts_Spec s) (sts_Status s)) = Ok (mkSts m' (sts_Spec s') (sts_Status s')).
Proof.
  unfold sts_Update, sts_desired, sts_meta. intros HU Hns. cbn [sts_Meta sts_Spec sts_Status].
  destruct (or_panic (updatePersistenceStorageCapacity _ _)); cbn [result_bind] in *; [|done].
  destruct (or_panic (podTemplateSpec _ _)); cbn [result_bind] in *; [|done].
  destruct (ov_StatefulSet _) as [ov|]; cbn [result_bind sts_Meta sts_Spec sts_Status mbind option_bind] in *.
  - unfold applyStsOverride in *. cbn [sts_Meta sts_Spec sts_Status] in *.
    set (la := ost_LabelsAnnotations ov) in *. clearbody la.
    assert (forall x, match la with Some la => copyLabelsAnnotations x la | None => x end = override_meta la x) as Hla
      by (by destruct la). rewrite !Hla in *. clear Hla.
    assert (forall x a, om_Namespace (override_meta la (om_with_labels a x)) = om_Namespace x) as Hn.
    { intros x ls. destruct la as [[[] []]|]; reflexivity. }
    destruct (ost_Spec ov) as [os|]; cbn [map_err result_bind sts_Meta sts_Spec sts_Status] in *.
    + rewrite !Hn in *. cbn [om_with_annotations om_Namespace] in *. rewrite Hns.
      destruct (override_templates _ _ _ _); cbn [map_err result_bind] in *; [|done].
      destruct (override_template _ _ _); cbn [map_err result_bind sts_Meta sts_Spec sts_Status] in *; [|done].
      destruct (SetControllerReference _ _); cbn [map_err result_bind] in *; [|done]. injection HU as <-.
      split; [done|]. by intros m' ->.
    + destruct (SetControllerReference _ _); cbn [map_err result_bind] in *; [|done]. injection HU as <-.
      split; [done|]. by intros m' ->.
  - destruct (SetControllerReference _ _); cbn [map_err result_bind] in *; [|done]. injection HU as <-.
    split; [done|]. intros m' Hm'. cbn [override_meta] in Hm'. by rewrite Hm'.
Qed.

(** The annotations the operator adds to a child stay when it is updated. *)
Definition markable (b : ResourceBuilder) (key : string) : Prop :=
  match b with
  | RabbitmqPluginsConfigMapBuilder | ServerConfigMapBuilder _ => True
  | StatefulSetBuilder => key = stsCreateAnnotation
  | _ => False
  end.

Lemma Update_annotated instance b o b' key value :
  unmarked instance -> markable b key -> Update iter instance b o = Ok (o, b') ->
  exists b'', Update iter instance b (annotated key value o) = Ok (annotated key value o, b'').
Proof.
  intros Hun Hb. destruct b; try done; destruct o; try done; cbn [Update annotated].
  - destruct (plugins_Update instance c) as [c1|] eqn:E; cbn; [|done]. intros [= -> _]. unfold plugins_Update in *.
    cbn [cm_Meta cm_Data] in *. apply result_bind_ok in E as (m & Hm%owner_set & E).
    destruct c as [cm cd]. cbn [cm_Meta cm_Data] in *. injection E as -> Ed. unfold set_annotation.
    rewrite (setref_with_annotations _ _ _ _ Hm). cbn [map_err result_bind]. rewrite Ed. by eexists.
  - destruct (server_Update instance _ c) as [[c1 r]|] eqn:E; cbn; [|done]. intros [= -> _].
    unfold server_Update in *. cbn [cm_Meta cm_Data] in *.
    destruct (server_data instance (cm_Data c)) as [d|]; cbn [result_bind] in *; [|done].
    apply result_bind_ok in E as (m & Hm%owner_set & E).
    destruct (map_err _ (removeConfigNotRequiringNodeRestart (cm_Data c))); cbn [result_bind] in *; [|done].
    destruct (map_err _ (removeConfigNotRequiringNodeRestart (Some d))); cbn [result_bind] in *; [|done].
    destruct c as [cm cd]. cbn [cm_Meta cm_Data] in *. injection E as -> Ed _. unfold set_annotation.
    rewrite (setref_with_annotations _ _ _ _ Hm). cbn [map_err result_bind fst snd]. rewrite Ed. by eexists.
  - cbn in Hb. subst key. destruct (sts_Update instance s) as [s1|] eqn:E; cbn [result_bind map_err]; [|done].
    intros [= -> _]. destruct (sts_Update_meta instance s s (set_annotation stsCreateAnnotation value (sts_Meta s)) E eq_refl) as [Hr Hm].
    rewrite (Hm (set_annotation stsCreateAnnotation value (sts_Meta s))); [by eexists|].
    rewrite sts_meta_annotated by done. unfold set_annotation. rewrite (setref_with_annotations _ _ _ _ Hr).
    by rewrite (setref_annotations _ _ _ Hr).
Qed.
End Marks.

(** ** The storage of the claims *)

Section Capacity.
Context {O : OwnerRefs} {OL : OwnerRefsLaws} {M : StrategicMerge}.

(** The override gives no claim templates. *)
Definition no_claims (instance : RabbitmqCluster) : Prop :=
  forall os, ov_StatefulSet (spec_Override (rmq_Spec instance)) ≫= ost_Spec = Some os ->
    os_VolumeClaimTemplates os = [].

Definition wanted_capacity (instance : RabbitmqCluster) : Quantity :=
  default 0%Z (per_Storage (spec_Persistence (rmq_Spec instance))).

Definition sts_capacity (s : StatefulSet) : Quantity := persistence_capacity (sp_VolumeClaimTemplates (sts_Spec s)).

(** A StatefulSet without a claim cannot be given one. *)
Definition can_hold (instance : RabbitmqCluster) (o : Object) : Prop :=
  match o with OStatefulSet s => sts_capacity s = 0%Z -> wanted_capacity instance = 0%Z | _ => True end.

(** The replicas and the storage are those asked for. *)
Definition sts_meets (instance : RabbitmqCluster) (o : Object) : Prop :=
  match o with
  | OStatefulSet s => sp_Replicas (sts_Spec s) = wanted_replicas instance /\ sts_capacity s = wanted_capacity instance
  | _ => True
  end.

Lemma meets_can_hold instance o : sts_meets instance o -> can_hold instance o.
Proof. destruct o; try done. cbn. by intros [_ ->]. Qed.

Lemma meets_other_status instance o x : same_but_status o x -> sts_meets instance o -> sts_meets instance x.
Proof. destruct o, x; try done. cbn. unfold sts_capacity. by intros [_ ->]. Qed.

Lemma can_hold_other_status instance o x : same_but_status o x -> can_hold instance o -> can_hold instance x.
Proof. destruct o, x; try done. cbn. unfold sts_capacity. by intros [_ ->]. Qed.

Lemma templates_capacity storage ts ts' :
  Forall2 (fun t t' => pvc_Meta t' = pvc_Meta t /\
        if str_eqb (om_Name (pvc_Meta t)) defaultPVCName
        then rl_get (pvcs_Requests (pvc_Spec t')) "storage" = storage
        else t' = t) ts ts' ->
  persistence_capacity ts' = storage \/ (persistence_capacity ts' = 0%Z /\ persistence_capacity ts = 0%Z).
Proof.
  induction 1 as [|t t' ts ts' [Hm Ht] _ IH]; [by right|]. unfold persistence_capacity, find_first in *.
  cbn [List.find]. rewrite Hm. change defaultPVCName with "persistence" in Ht. destruct (str_eqb _ _); [by left|].
  exact IH.
Qed.

Lemma sts_Update_capacity instance s s' storage :
  no_claims instance -> per_Storage (spec_Persistence (rmq_Spec instance)) = Some storage ->
  sts_Update instance s = Ok s' -> can_hold instance (OStatefulSet s) -> sts_capacity s' = wanted_capacity instance.
Proof.
  intros Hno Hst HU Hh. pose proof (sts_Update_claims_facts _ _ _ _ HU Hst) as Hc. cbv zeta in Hc.
  unfold wanted_capacity in *. cbn in Hh. unfold wanted_capacity in Hh. rewrite Hst in *. cbn [default from_option id] in *.
  rewrite bool_decide_eq_true_2 in Hc.
  - apply templates_capacity in Hc as [Hc|[Hc Hz]]; [exact Hc|]. unfold sts_capacity in *. rewrite Hc. symmetry. by apply Hh.
  - left. destruct (_ ≫= ost_Spec) as [os|] eqn:Eos; cbn; [by apply Hno|done].
Qed.

(** What [Build] makes can hold the claims. *)
Lemma sts_Build_can_hold instance s :
  sts_Build instance = Ok s ->
  can_hold instance (OStatefulSet s) /\ exists storage, per_Storage (spec_Persistence (rmq_Spec instance)) = Some storage.
Proof.
  unfold sts_Build, persistentVolumeClaim, can_hold, wanted_capacity, sts_capacity.
  destruct (per_Storage _) as [storage|]; cbn [or_panic result_bind]; [|done].
  destruct (Z.eqb_spec (q_Cmp storage 0%Z) 0%Z) as [->%q_Cmp_eq|_]; cbn [result_bind]; intros [= <-];
    (split; [|by eexists]); cbn; [done|]. by unfold storage_of, rl_get.
Qed.
End Capacity.

(** ** One child *)

(** What a pass relies on of the comparison that decides about a write. *)
Class SemanticLaws `{CreateOrUpdateLib} : Prop := {
  DeepEqual_refl (o : Object) : Semantic_DeepEqual o o = true;
  DeepEqual_sts (a b : StatefulSet) :
    Semantic_DeepEqual (OStatefulSet a) (OStatefulSet b) = true ->
    sp_Replicas (sts_Spec a) = sp_Replicas (sts_Spec b) /\ sts_capacity a = sts_capacity b
}.

Lemma share_override_same instance : no_claims instance -> share_override instance = instance.
Proof.
  intros Hno. unfold share_override. destruct (per_Storage _); [|done]. destruct (_ =? _)%Z; [done|].
  unfold map_sts_override, no_claims in *. destruct instance as [m s st]. destruct s, spec_Override. cbn in *.
  destruct ov_StatefulSet as [[la [os|]]|]; cbn in *; try reflexivity. specialize (Hno os eq_refl). destruct os. cbn in *.
  by subst.
Qed.

Lemma no_claims_after_Update instance : no_claims instance -> no_claims (instance_after_Update instance).
Proof.
  unfold no_claims, instance_after_Update, map_sts_override. cbn. intros Hno os.
  destruct (ov_StatefulSet _) as [[la [o|]]|]; cbn; try done. intros [= <-]. cbn. by apply Hno.
Qed.

Section Converges.
Context {I : Ini} {O : OwnerRefs} {OL : OwnerRefsLaws} {M : StrategicMerge} {V : Semver} {T : Rfc3339} {R : RetryLib}
  {RL : RetryLaws} {C : CreateOrUpdateLib} {CL : CreateOrUpdateLaws} {SL : SemanticLaws}
  (iter : gmap string ServicePort -> list (string * ServicePort)) (rand : RandSource)
  (rmq : RabbitmqCluster) (st0 : Store).
Hypothesis iter_perm : forall m, iter m ≡ₚ map_to_list m.
Hypothesis keyed0 : well_keyed st0.

(** A cluster whose overrides leave the claims and the marks of the operator
    alone, and whose StatefulSet can be built. *)
Record plain : Prop := {
  plain_overrides : stable_overrides rmq;
  plain_claims : no_claims rmq;
  plain_marks : unmarked rmq;
  plain_replicas : is_Some (wanted_replicas rmq);
  plain_sts : exists s0 s, sts_Build rmq = Ok s0 /\ sts_Update rmq s0 = Ok s
}.
Hypothesis Hplain : plain.

Local Abbreviation told := (told st0).
Local Abbreviation truthful := (truthful st0).
Local Abbreviation key := (built_name rmq).

(** The child of [b] is what its update leaves as it is. *)
Definition fixed (st : Store) (b : ResourceBuilder) : Prop :=
  exists o b', st !! key b = Some o /\ Update iter rmq b o = Ok (o, b') /\ sts_meets rmq o.
Definition placed (st : Store) (b : ResourceBuilder) : Prop :=
  exists o o' b', st !! key b = Some o /\ Update iter rmq b o = Ok (o', b') /\ Semantic_DeepEqual o o' = true /\
    sts_meets rmq o.
Definition roomy (st : Store) (b : ResourceBuilder) : Prop := forall o, st !! key b = Some o -> can_hold rmq o.

(** The children of the other builders are untouched. *)
Definition others (b : ResourceBuilder) (st st' : Store) : Prop :=
  forall b', builder_id b' <> builder_id b -> st' !! key b' = st !! key b'.

Lemma fixed_placed st b : fixed st b -> placed st b.
Proof. intros (o & b' & Ho & HU & Hm). exists o, o, b'. split; [done|]. split; [done|]. split; [apply DeepEqual_refl|done]. Qed.

Lemma others_refl b st : others b st st.
Proof. by intros b'. Qed.
Lemma others_trans b st1 st2 st3 : others b st1 st2 -> others b st2 st3 -> others b st1 st3.
Proof. intros H1 H2 b' Hb'. by rewrite H2, H1. Qed.
Lemma others_insert b o st : others b st (<[key b := o]> st).
Proof. intros b' Hb'. apply lookup_insert_ne. intros E%built_name_inj. by apply Hb'. Qed.
Lemma others_delete b st : others b st (delete (key b) st).
Proof. intros b' Hb'. apply lookup_delete_ne. intros E%built_name_inj. by apply Hb'. Qed.
Lemma others_sts st st' : sts_kept st st' -> others StatefulSetBuilder st st'.
Proof. intros H b' Hb'. destruct (H (key b')) as [?|[Hk _]]; [done|]. exfalso. by destruct b'. Qed.

Lemma placed_others b b' st st' : others b st st' -> builder_id b' <> builder_id b -> placed st b' -> placed st' b'.
Proof. intros Ho Hb (o & o' & x & Hk & H). exists o, o', x. by rewrite Ho. Qed.

Lemma Update_meets b o o' b' : can_hold rmq o -> Update iter rmq b o = Ok (o', b') -> sts_meets rmq o'.
Proof.
  intros Hh HU. destruct o' as [| | | | | |s']; try done. destruct b, o as [| | | | | |s]; try done; cbn [Update] in HU;
    try (destruct (result_bind _ _) as [[? ?]|] eqn:E; [|done]; cbn in HU; injection HU as -> _;
         by apply result_bind_ok in E as (? & _ & [= ])).
  destruct (sts_Update rmq s) as [s1|] eqn:E; [|done]. injection HU as -> _. cbn.
  split; [by eapply sts_Update_replicas|]. destruct (plain_sts Hplain) as (s0 & x & HB & _).
  apply sts_Build_can_hold in HB as (_ & storage & Hst). eapply sts_Update_capacity; [apply plain_claims, Hplain|exact Hst|exact E|exact Hh].
Qed.

(** The state of a write of [b]'s child. *)
Definition like (b : ResourceBuilder) (s : WriteState) : Prop :=
  rmq_Meta (ws_Instance s) = rmq_Meta rmq /\ builder_id (ws_Builder s) = builder_id b /\
  object_key (ws_Object s) = key b /\ can_hold rmq (ws_Object s) /\
  if UpdateMayRequireStsRecreate b
  then no_claims (ws_Instance s) /\ forall o, sts_Update (ws_Instance s) o = sts_Update rmq o
  else ws_Instance s = rmq.

Lemma like_put b x s : like b s -> object_key x = key b -> can_hold rmq x -> like b (put_object x s).
Proof. intros (Hm & Hb & _ & _ & Hi) Hk Hh. by repeat split. Qed.

Lemma like_update b s o o' b1 :
  like b s -> Update iter (update_instance s) (ws_Builder s) o = Ok (o', b1) ->
  exists b2, Update iter rmq b o = Ok (o', b2).
Proof.
  intros (_ & Hb & _ & _ & Hi) HU. destruct (UpdateMayRequireStsRecreate b) eqn:Es.
  - apply is_sts in Es as ->. destruct Hi as [Hno Hi]. assert (ws_Builder s = StatefulSetBuilder) as Eb by (by destruct (ws_Builder s)).
    unfold update_instance in HU. rewrite Eb in HU. rewrite (share_override_same _ Hno) in HU.
    assert ((if ws_shared s then ws_Instance s else ws_Instance s) = ws_Instance s) as Ei by (by destruct (ws_shared s)).
    rewrite Ei in HU. destruct o; try done. cbn [Update] in *. rewrite Hi in HU. by eexists.
  - assert (update_instance s = rmq) as Ei.
    { unfold update_instance. destruct (ws_Builder s), b; done. }
    rewrite Ei in HU. by eapply Update_flag.
Qed.

(** What the closure makes of the object: what the builder of the cluster
    makes of it, and leaves as it is from then on. *)
Lemma like_mutate b s s1 :
  like b s -> mutate iter s = (s1, None) ->
  like b s1 /\ (exists b2, Update iter rmq b (ws_Object s) = Ok (ws_Object s1, b2)) /\
  sts_meets rmq (ws_Object s1) /\ exists b2, Update iter rmq b (ws_Object s1) = Ok (ws_Object s1, b2).
Proof.
  intros Hs. pose proof Hs as (Hm & Hb & Hk & Hh & Hi). unfold mutate.
  destruct (Update iter (update_instance s) (ws_Builder s) (ws_Object s)) as [[o b1]|] eqn:HU; [|done]. intros [= <-].
  destruct (like_update _ _ _ _ _ Hs HU) as (b2 & HU2). cbn [ws_Object].
  pose proof (Update_meets _ _ _ _ Hh HU2) as Hmeets.
  pose proof (Update_key _ _ _ _ _ _ HU2) as Hk2. pose proof (Update_builder_id _ _ _ _ _ _ HU) as Hb1.
  destruct (Update_twice iter iter_perm _ _ _ _ _ (plain_overrides Hplain) HU2) as (b3 & HU3 & _).
  split; [|split; [by eexists|]; split; [done|by eexists]].
  unfold like. cbn [ws_Instance ws_Builder ws_Object]. rewrite Hb1, Hk2, (same_builder b1 b) by (by rewrite Hb1).
  split; [|split; [done|]; split; [done|]; split; [by apply meets_can_hold|]].
  - destruct (UpdateMayRequireStsRecreate b) eqn:Es; unfold update_instance.
    + destruct (ws_Builder s), (ws_shared s); try done; destruct Hi as [Hno _]; by rewrite ?(share_override_same _ Hno).
    + rewrite Hi. by destruct (ws_Builder s), b.
  - destruct (UpdateMayRequireStsRecreate b) eqn:Es.
    + destruct Hi as [Hno Hi]. assert (update_instance s = ws_Instance s) as ->.
      { unfold update_instance. rewrite (share_override_same _ Hno). by destruct (ws_Builder s), (ws_shared s). }
      split; [by apply no_claims_after_Update|]. intros x. by rewrite sts_Update_after_Update, Hi.
    + unfold update_instance. destruct (ws_Builder s), b; done.
Qed.

(** After one attempt to write the child of [b]. *)
Definition attempted (b : ResourceBuilder) (h h' : history)
    (r : WriteState * result ApiError (OperationResult * option BuildError)) : Prop :=
  like b (fst r) /\ roomy (told h') b /\ others b (told h) (told h') /\
  forall op, snd r = Ok (op, None) ->
    if decide (op = OperationResultNone) then placed (told h') b else fixed (told h') b.

Lemma told_read b o x h :
  object_key o = key b -> truthful (h ++ [Ev (GetObject o) (Ok x)]) -> roomy (told h) b ->
  told (h ++ [Ev (GetObject o) (Ok x)]) = <[key b := x]> (told h) /\ object_key x = key b /\ can_hold rmq x.
Proof.
  intros Hk [_ Ha]%truthful_snoc Hr. cbn in Ha. rewrite told_snoc. cbn [effect Ev].
  destruct (read_found id (object_key o) x (told h) (told_keyed st0 keyed0 h) Ha) as [-> Hx].
  destruct Ha as (y & Hy & Hxy). rewrite Hk in *. split; [done|]. split; [done|].
  eapply can_hold_other_status; [exact Hxy|]. by apply Hr.
Qed.

Lemma told_missing b o e h :
  object_key o = key b -> roomy (told h) b ->
  roomy (told (h ++ [Ev (GetObject o) (Err e)])) b /\ others b (told h) (told (h ++ [Ev (GetObject o) (Err e)])).
Proof.
  intros Hk Hr. rewrite told_snoc. cbn [effect Ev read]. rewrite Hk. destruct (IsNotFound e).
  - split; [|apply others_delete]. intros x. by rewrite lookup_delete_eq.
  - split; [done|apply others_refl].
Qed.

(** What the builder leaves as it is was sent, and accepted. *)
Definition final (b : ResourceBuilder) (o : Object) : Prop :=
  sts_meets rmq o /\ exists b', Update iter rmq b o = Ok (o, b').

Lemma final_other_status b o x : same_but_status o x -> final b o -> final b x.
Proof.
  intros Hs (Hm & b' & HU). split; [by eapply meets_other_status|]. exists b'. by eapply Update_other_status.
Qed.

Lemma told_accepted b o x h c (a : answer c) :
  (forall st, effect st (Ev c a) = put x st) -> (forall st, truthful_answer st (Ev c a) -> same_but_status o x) ->
  object_key o = key b -> final b o -> truthful (h ++ [Ev c a]) ->
  fixed (told (h ++ [Ev c a])) b /\ object_key x = key b /\ final b x /\ others b (told h) (told (h ++ [Ev c a])).
Proof.
  intros Heff Hhon Hk Hf [_ Ha%Hhon]%truthful_snoc. rewrite told_snoc, Heff.
  pose proof (same_but_status_key _ _ Ha) as Hx. rewrite Hk in Hx. pose proof (final_other_status _ _ _ Ha Hf) as Hfx.
  unfold put. rewrite Hx. split; [|split; [done|]; split; [done|]; apply others_insert].
  destruct Hfx as (Hm & b' & HU). exists x, b'. by rewrite lookup_insert_eq.
Qed.

Lemma fixed_roomy st b : fixed st b -> roomy st b.
Proof. intros (o & b' & Ho & _ & Hm) x Hx. rewrite Ho in Hx. injection Hx as <-. by apply meets_can_hold. Qed.

(** The server answers the write. *)
Lemma attempted_write b s1 op h0 h (a : result ApiError Object) e :
  e = Ev (CreateObject (ws_Object s1)) a \/ e = Ev (UpdateObject (ws_Object s1)) a -> op <> OperationResultNone ->
  like b s1 -> final b (ws_Object s1) -> roomy (told h) b -> others b (told h0) (told h) ->
  truthful (h ++ [e]) ->
  attempted b h0 (h ++ [e]) (fst (write_answer put_object op s1 a),
    match snd (write_answer put_object op s1 a) with
    | Ok op => Ok (op, None)
    | Err (MutateError e) => Ok (OperationResultNone, Some e)
    | Err (ServerError e) => Err e
    end).
Proof.
  intros He Hop Hl Hf Hr Ho Hh. pose proof Hl as (_ & _ & Hk & _).
  destruct a as [x|er]; cbn [write_answer fst snd].
  - assert (fixed (told (h ++ [e])) b /\ object_key x = key b /\ final b x /\ others b (told h) (told (h ++ [e])))
      as (Hfx & Hkx & Hff & Hox)
      by (destruct He as [-> | ->]; (eapply told_accepted; [by intros|intros st Hst; exact Hst|exact Hk|exact Hf|exact Hh])).
    split; [apply like_put; [done|done|by apply meets_can_hold, Hff]|]. split; [by apply fixed_roomy|].
    split; [by eapply others_trans|]. intros op' [= <-]. by rewrite decide_False.
  - assert (told (h ++ [e]) = told h) as Et by (rewrite told_snoc; by destruct He as [-> | ->]).
    unfold attempted. rewrite Et. split; [done|]. split; [done|]. split; [done|]. done.
Qed.

Lemma write_once_converges b s h :
  like b s -> roomy (told h) b ->
  wp (write_once iter s) (assuming truthful (attempted b h)) h.
Proof.
  intros Hs Hr. pose proof Hs as (_ & _ & Hk & _). unfold write_once. rewrite wp_bind. apply CreateOrUpdate_wp.
  intros a. cbv zeta. destruct a as [x|e].
  - set (h1 := h ++ [_]).
    assert (truthful h1 -> told h1 = <[key b := x]> (told h) /\ object_key x = key b /\ can_hold rmq x) as Hread
      by (intros Hh; by apply told_read).
    assert (truthful h1 -> like b (put_object x s) /\ roomy (told h1) b /\ others b (told h) (told h1) /\
      told h1 !! key b = Some x) as Hst.
    { intros (Et & Hkx & Hhx)%Hread. rewrite Et. split; [by apply like_put|]. split; [|split; [apply others_insert|by rewrite lookup_insert_eq]].
      intros y. rewrite lookup_insert_eq. by intros [= <-]. }
    destruct (mutate iter (put_object x s)) as [s1 [e1|]] eqn:Em.
    + intros (Hl & Hr1 & Ho1 & _)%Hst. apply mutate_error in Em as ->. done.
    + assert (truthful h1 -> like b s1 /\ (exists b2, Update iter rmq b x = Ok (ws_Object s1, b2)) /\ final b (ws_Object s1)) as Hmut.
      { intros (Hl & _)%Hst. destruct (like_mutate _ _ _ Hl Em) as (H1 & H2 & H3). done. }
      split.
      * intros Heq Hh. destruct (Hst Hh) as (_ & Hr1 & Ho1 & Hx). destruct (Hmut Hh) as (Hl1 & (b2 & HU) & Hf).
        split; [done|]. split; [done|]. split; [done|]. intros op [= <-]. rewrite decide_True by done.
        exists x, (ws_Object s1), b2. split; [done|]. split; [done|]. split; [done|].
        destruct x as [| | | | | |sx]; try done. destruct (ws_Object s1) as [| | | | | |s'] eqn:Eo;
          try (destruct b; cbn in HU; try done; by destruct (sts_Update rmq sx)).
        apply DeepEqual_sts in Heq as [E1 E2]. destruct Hf as [Hm _]. cbn in *. by rewrite E1, E2.
      * intros Heq a1 Hh. pose proof (truthful_prefix _ _ _ Hh) as Hh1. destruct (Hst Hh1) as (_ & Hr1 & Ho1 & _).
        destruct (Hmut Hh1) as (Hl1 & _ & Hf). apply (attempted_write b s1); try done. by right.
  - set (h1 := h ++ [_]). assert (roomy (told h1) b /\ others b (told h) (told h1)) as [Hr1 Ho1] by (by apply told_missing).
    destruct (IsNotFound e); [|by intros _].
    destruct (mutate iter s) as [s1 [e1|]] eqn:Em.
    + intros _. by apply mutate_error in Em as ->.
    + intros a1 Hh. destruct (like_mutate _ _ _ Hs Em) as (Hl1 & _ & Hf).
      apply (attempted_write b s1); try done. by left.
Qed.

(** ** The marks *)

(** The child is gone, or as its update leaves it. *)
Definition kept (st : Store) (b : ResourceBuilder) : Prop := forall o, st !! key b = Some o -> final b o.

Lemma fixed_kept st b : fixed st b -> kept st b.
Proof. intros (o & b' & Ho & HU & Hm) x Hx. rewrite Ho in Hx. injection Hx as <-. split; [done|by eexists]. Qed.

Lemma told_get {A} (wrap : A -> Object) b (a : result ApiError A) e h :
  (forall st, effect st e = read wrap (key b) a st) ->
  (forall st x, a = Ok x -> truthful_answer st e -> found_in st (key b) (wrap x)) ->
  kept (told h) b -> truthful (h ++ [e]) ->
  kept (told (h ++ [e])) b /\ others b (told h) (told (h ++ [e])) /\
  forall x, a = Ok x -> object_key (wrap x) = key b /\ final b (wrap x).
Proof.
  intros Heff Hhon Hk [_ Ha]%truthful_snoc. rewrite told_snoc, Heff. destruct a as [x|er].
  - apply (Hhon _ x eq_refl) in Ha. destruct (read_found wrap (key b) x (told h) (told_keyed st0 keyed0 h) Ha) as [-> Hx].
    destruct Ha as (y & Hy & Hyx). pose proof (final_other_status _ _ _ Hyx (Hk y Hy)) as Hf.
    split; [intros z; rewrite lookup_insert_eq; by intros [= <-]|]. split; [apply others_insert|]. by intros x' [= <-].
  - cbn [read]. destruct (IsNotFound er).
    + split; [intros z; by rewrite lookup_delete_eq|]. split; [apply others_delete|done].
    + split; [done|]. split; [apply others_refl|done].
Qed.

Lemma final_annotated b o k v : markable b k -> final b o -> final b (annotated k v o).
Proof.
  intros Hb (Hm & b' & HU). split; [by destruct o|]. eapply Update_annotated; [apply Hplain|exact Hb|exact HU].
Qed.

Lemma annotated_key k v o : object_key (annotated k v o) = object_key o.
Proof. by destruct o. Qed.

(** After an attempt to annotate. *)
Definition marked {A} (b : ResourceBuilder) (h h' : history) (r : result ApiError A) : Prop :=
  kept (told h') b /\ others b (told h) (told h') /\ (is_ok r = true -> fixed (told h') b).

Lemma marked_write {A} b o k v h0 h c (a : answer c) (r : result ApiError A) :
  markable b k -> final b o -> object_key o = key b -> others b (told h0) (told h) -> kept (told h) b ->
  truthful (h ++ [Ev c a]) ->
  (if is_ok r
   then exists x, (forall st, effect st (Ev c a) = put x st) /\
          (forall st, truthful_answer st (Ev c a) -> same_but_status (annotated k v o) x)
   else forall st, effect st (Ev c a) = st) ->
  marked b h0 (h ++ [Ev c a]) r.
Proof.
  intros Hb Hf Hk Ho Hkept Hh. destruct r as [y|e]; cbn [is_ok].
  - intros (x & He & Hx). edestruct (told_accepted b (annotated k v o) x h c a) as (Hfix & _ & _ & Ho2);
      [done|done|by rewrite annotated_key|by apply final_annotated|done|].
    split; [by apply fixed_kept|]. split; [by eapply others_trans|done].
  - intros He. unfold marked. rewrite told_snoc, He. by split.
Qed.

Lemma annotate_once_cm b ns name k v h :
  ("ConfigMap", name) = key b -> markable b k -> kept (told h) b ->
  wp (annotate_once (T := ConfigMap) ns name k v) (assuming truthful (marked b h)) h.
Proof.
  intros Hn Hb Hk. unfold annotate_once. cbn [ko_get ko_update ko_meta ko_with_meta kobj_configmap bind perform wp].
  intros a. set (h1 := h ++ [_]). apply wp_assuming; [apply truthful_prefix|]. intros Hh.
  destruct (told_get OConfigMap b a (Ev (GetConfigMap ns name) a) h) as (Hk1 & Ho1 & Hx);
    [intros st; cbn; by rewrite Hn|intros st x ->; cbn; by rewrite <- Hn|done|done|].
  destruct a as [x|er]; [|intros _; by split]. destruct (Hx x eq_refl) as [Hkx Hfx]. cbn [wp]. intros a Hh2.
  eapply (marked_write b (OConfigMap x) k v); [done..|]. destruct a as [x'|er]; cbn.
  - exists (OConfigMap x'). split; [by intros st|]. by intros st ->.
  - done.
Qed.

Lemma annotate_once_sts b ns name k v h :
  ("StatefulSet", name) = key b -> markable b k -> kept (told h) b ->
  wp (annotate_once (T := StatefulSet) ns name k v) (assuming truthful (marked b h)) h.
Proof.
  intros Hn Hb Hk. unfold annotate_once. cbn [ko_get ko_update ko_meta ko_with_meta kobj_sts bind perform wp].
  intros a. set (h1 := h ++ [_]). apply wp_assuming; [apply truthful_prefix|]. intros Hh.
  destruct (told_get OStatefulSet b a (Ev (GetSts ns name) a) h) as (Hk1 & Ho1 & Hx);
    [intros st; cbn; by rewrite Hn|intros st x ->; cbn; by rewrite <- Hn|done|done|].
  destruct a as [x|er]; [|intros _; by split]. destruct (Hx x eq_refl) as [Hkx Hfx]. cbn [wp]. intros a Hh2.
  eapply (marked_write b (OStatefulSet x) k v); [done..|]. destruct a as [x'|er]; cbn.
  - exists (OStatefulSet x'). by split.
  - done.
Qed.

(** What was written last is annotated. *)
Lemma annotation_target_child instance bb b op cm name k :
  rmq_Meta instance = rmq_Meta rmq -> builder_id bb = builder_id b ->
  annotation_target instance bb op = Some (cm, name, k) ->
  markable b k /\ (if cm then "ConfigMap" else "StatefulSet", name) = key b /\ op <> OperationResultNone.
Proof.
  intros Hm Hid. assert (forall n, ChildResourceName instance n = ChildResourceName rmq n) as Hn
    by (intros n; unfold ChildResourceName, rmq_Name; by rewrite Hm).
  unfold annotation_target. destruct bb; try done; case_bool_decide; cbn [negb orb]; try done;
    try (destruct UpdateRequiresStsRestart; cbn [negb]; [|done]);
    intros [= <- <- <-]; rewrite Hn; destruct b; try done; subst; by repeat split.
Qed.

Lemma retried_marked {A} retriable (fn : prog (result ApiError A)) b h :
  (forall h0, kept (told h0) b -> wp fn (assuming truthful (marked b h0)) h0) -> kept (told h) b ->
  wp (OnError retriable fn) (assuming truthful (marked b h)) h.
Proof.
  intros Hfn Hk. apply (OnError_wp _ _ (fun h0 => truthful h0 -> kept (told h0) b /\ others b (told h) (told h0))).
  { intros _. split; [done|apply others_refl]. }
  intros h0 H0. assert (wp fn (assuming truthful (marked b h)) h0) as Hw.
  { apply (wp_assuming _ (truthful_prefix st0)). intros [Hk0 Ho0]%H0. eapply wp_assuming_mono; [|by apply Hfn].
    intros h1 r _ (Hk1 & Ho1 & Hr). split; [done|]. split; [by eapply others_trans|done]. }
  eapply wp_mono; [|exact Hw]. intros h1 r Hr. split; [exact Hr|]. destruct r as [a|e]; [done|]. intros _ Hh.
  by destruct (Hr Hh) as (? & ? & _).
Qed.

Lemma annotateIfNeeded_converges instance bb b op h :
  rmq_Meta instance = rmq_Meta rmq -> builder_id bb = builder_id b ->
  (if decide (op = OperationResultNone) then placed (told h) b else fixed (told h) b) ->
  wp (annotateIfNeeded instance bb op) (assuming truthful (fun h' r =>
    r = Ok tt -> placed (told h') b /\ others b (told h) (told h'))) h.
Proof.
  intros Hm Hid Hop. unfold annotateIfNeeded. destruct (annotation_target instance bb op) as [[[cm name] k]|] eqn:Et.
  2:{ intros _ _. split; [|apply others_refl]. case_decide; [done|by apply fixed_placed]. }
  destruct (annotation_target_child _ _ _ _ _ _ _ Hm Hid Et) as (Hb & Hn & Hne). rewrite decide_False in Hop by done.
  apply (wp_assuming_call _ (truthful_prefix st0)). intros now _. set (h1 := h ++ _).
  assert (told h1 = told h) as E1 by (unfold h1; by rewrite told_snoc).
  assert (kept (told h1) b) as Hk by (rewrite E1; by apply fixed_kept).
  eapply (wp_assuming_bind _ (truthful_prefix st0) _ _ (fun h' r => marked b h1 h' r)).
  - unfold annotate_target. destruct cm; (eapply (wp_assuming_bind _ (truthful_prefix st0)); [apply retried_marked; [|exact Hk]|]).
    + intros h0 Hk0. by apply annotate_once_cm.
    + intros h2 [x|e] Hr; cbn [wp result_bind]; intros _; exact Hr.
    + intros h0 Hk0. by apply annotate_once_sts.
    + intros h2 [x|e] Hr; cbn [wp result_bind]; intros _; exact Hr.
  - intros h2 [x|e] (_ & Ho & Hf).
    + cbn [wp]. intros _ _. rewrite E1 in Ho. split; [by apply fixed_placed, Hf|done].
    + unfold event_warning. apply (wp_assuming_call _ (truthful_prefix st0)). by intros u _ _.
Qed.

(** ** One builder *)

Lemma write_object_converges b s h :
  like b s -> roomy (told h) b ->
  wp (write_object iter s) (assuming truthful (fun h' r => forall rmq', r = inl rmq' ->
    placed (told h') b /\ others b (told h) (told h') /\
    (UpdateMayRequireStsRecreate b = false -> rmq' = rmq))) h.
Proof.
  intros Hs Hr. unfold write_object.
  eapply (wp_assuming_bind _ (truthful_prefix st0) _ _ (attempted b h)).
  - apply (OnErrorS_wp _ _ (fun s0 h0 => truthful h0 -> like b s0 /\ roomy (told h0) b /\ others b (told h) (told h0))).
    { intros _. split; [done|]. split; [done|apply others_refl]. }
    intros s0 h0 H0. assert (wp (write_once iter s0) (assuming truthful (attempted b h)) h0) as Hw.
    { apply (wp_assuming _ (truthful_prefix st0)). intros (Hs0 & Hr0 & Ho0)%H0.
      eapply wp_assuming_mono; [|by apply write_once_converges]. intros h1 r _ (H1 & H2 & H3 & H4).
      split; [done|]. split; [done|]. split; [by eapply others_trans|done]. }
    eapply wp_mono; [|exact Hw]. intros h1 r Hr1. split; [exact Hr1|]. destruct (snd r) as [x|e]; [done|]. intros _ Hh.
    by destruct (Hr1 Hh) as (? & ? & ? & _).
  - intros h1 [s1 w] (Hl & Hr1 & Ho1 & Hop). cbn [fst snd] in *. pose proof Hl as (Hm & Hid & _ & _ & Hi).
    destruct (write_error w) as [op err] eqn:Ew.
    destruct err as [e|].
    { eapply wp_assuming_skip; [exact (truthful_prefix st0)|]. intros h2 u.
      destruct e as [|[]| |]; (eapply wp_assuming_skip; [exact (truthful_prefix st0)|]; by intros h3 u3). }
    assert (w = Ok (op, None)) as -> by (destruct w as [[? [|]]|]; by injection Ew as <-).
    eapply (wp_assuming_bind _ (truthful_prefix st0) _ _ (fun h2 _ => told h2 = told h1)).
    { unfold logAndRecordOperationResult, event_normal. destruct op; cbn [perform wp]; [by intros _| |];
        intros a _; by rewrite told_snoc. }
    intros h2 u E2. specialize (Hop op eq_refl). rewrite <- E2 in Hop, Ho1.
    eapply (wp_assuming_bind _ (truthful_prefix st0)); [by apply annotateIfNeeded_converges|].
    intros h3 [[]|e] Ha; cbn [wp]; [|done]. intros _ rmq' [= <-]. destruct (Ha eq_refl) as [Hp Ho].
    split; [done|]. split; [by eapply others_trans|]. intros Es. by rewrite Es in Hi.
Qed.

(** ** The StatefulSet before it is written *)

Local Abbreviation sts_key := (key StatefulSetBuilder).

(** The stored StatefulSet and the cluster are on the same side of zero
    replicas. *)
Definition steady (st : Store) : Prop :=
  forall cur c d, st !! sts_key = Some (OStatefulSet cur) -> sp_Replicas (sts_Spec cur) = Some c ->
    wanted_replicas rmq = Some d -> (c = 0 <-> d = 0)%Z.

Lemma reads_get_pvcs i l : calls_only reads_sts (get_pvcs i l).
Proof. induction l; cbn [get_pvcs]; calls. Qed.
Lemma reads_retry i n t : calls_only reads_sts (retryWithInterval n t (sts_is_gone i)).
Proof. unfold sts_is_gone, getSts. induction n; cbn [retryWithInterval]; calls. Qed.
Lemma reads_scaleUpPVCs i l d : calls_only reads_sts (scaleUpPVCs i l d).
Proof. induction l; cbn [scaleUpPVCs]; calls. Qed.
Hint Resolve reads_get_pvcs reads_retry reads_scaleUpPVCs : calls.

Lemma reads_scale_pvcs i d : calls_only reads_sts (scale_pvcs i d).
Proof. unfold scale_pvcs, deleteSts, getSts, getClusterPVCs. calls. Qed.

(** An expansion leaves the spec of the StatefulSet, or removes it; it fails
    when there is one without claims and claims are wanted. *)
Lemma Scale_keeps i desired h :
  rmq_Meta i = rmq_Meta rmq ->
  wp (Scale i desired) (assuming truthful (fun h' r => sts_kept (told h) (told h') /\
    (r = Ok tt -> forall cur, told h' !! sts_key = Some (OStatefulSet cur) -> sts_capacity cur = 0%Z -> desired = 0%Z))) h.
Proof.
  intros Hm. assert (("StatefulSet", ChildResourceName i "server") = sts_key) as Hk
    by (unfold built_name, ChildResourceName, rmq_Name; by rewrite Hm).
  unfold Scale, existingCapacity, getSts. cbn [bind perform wp]. intros a. set (h1 := h ++ [_]).
  apply wp_assuming; [exact (truthful_prefix st0)|]. intros Hh.
  assert (sts_kept (told h) (told h1)) as H1 by (by apply effect_reads_sts).
  assert ((forall cur, told h1 !! sts_key = Some (OStatefulSet cur) -> sts_capacity cur = 0%Z -> desired = 0%Z) ->
    wp (scale_pvcs i desired) (assuming truthful (fun h' r => sts_kept (told h) (told h') /\
    (r = Ok tt -> forall cur, told h' !! sts_key = Some (OStatefulSet cur) -> sts_capacity cur = 0%Z -> desired = 0%Z))) h1) as Hend.
  { intros Hz. eapply wp_assuming_mono; [|apply calls_reads_sts; [done|apply reads_scale_pvcs]].
    intros h2 r _ H2. split; [by eapply sts_kept_trans|]. intros _ cur Hcur Hc.
    destruct (H2 sts_key) as [E|[_ Hs]]; [rewrite E in Hcur; by eapply Hz|].
    destruct (Hs _ Hcur) as (o & Ho & Hsame). destruct o as [| | | | | |s]; try done. apply (Hz s Ho).
    unfold sts_capacity. by destruct Hsame as [_ ->]. }
  pose proof Hh as [_ Ha]%truthful_snoc. assert (told h1 = read OStatefulSet sts_key a (told h)) as Et
    by (unfold h1; rewrite told_snoc; cbn [effect Ev]; by rewrite Hk).
  destruct a as [s|e]; cbn [bind].
  - cbn [truthful_answer Ev] in Ha. rewrite Hk in Ha. destruct (read_found OStatefulSet _ _ _ (told_keyed st0 keyed0 h) Ha) as [E _].
    rewrite E in Et. assert (told h1 !! sts_key = Some (OStatefulSet s)) as Hs by (rewrite Et; apply lookup_insert_eq).
    destruct (_ && _) eqn:Ez; [by intros _|]. destruct (_ =? 1)%Z; [by intros _|]. apply Hend.
    intros cur. rewrite Hs. intros [= <-] Hc. unfold sts_capacity in Hc. rewrite Hc in Ez.
    change (q_Cmp 0%Z 0%Z =? 0)%Z with true in Ez. cbn [andb] in Ez. apply negb_false_iff, Z.eqb_eq in Ez.
    by apply q_Cmp_eq.
  - destruct (IsNotFound e) eqn:Ee; [|by intros _]. apply Hend. intros cur. rewrite Et. cbn [read]. rewrite Ee.
    by rewrite lookup_delete_eq.
Qed.

(** A pass over a steady StatefulSet goes on with the cluster it has. *)
Lemma check_replicas_steady i cur sts h :
  sp_Replicas (sts_Spec sts) = wanted_replicas rmq ->
  (forall c d, sp_Replicas (sts_Spec cur) = Some c -> wanted_replicas rmq = Some d -> (c = 0 <-> d = 0)%Z) ->
  wp (check_replicas i cur sts) (fun h' r => forall x, r = inl x -> h' = h /\ x = (i, false)) h.
Proof.
  intros Hsts Hside. destruct (plain_replicas Hplain) as [d Hd]. rewrite Hd in Hsts. unfold check_replicas.
  destruct (sp_Replicas (sts_Spec cur)) as [c|] eqn:Ec; [|unfold replica_pair; by rewrite Ec].
  rewrite (replica_pair_some _ _ _ _ Ec Hsts). specialize (Hside c d eq_refl Hd).
  assert (ScaleToZero c d = false) as ->.
  { unfold ScaleToZero. apply andb_false_iff. destruct (Z.eqb_spec d 0) as [Hz|]; [right|by left].
    by rewrite (proj2 Hside Hz). }
  assert (ScaleFromZero c d = false) as ->.
  { unfold ScaleFromZero. apply andb_false_iff. destruct (Z.eqb_spec c 0) as [Hz|]; [right|by left].
    by rewrite (proj1 Hside Hz). }
  unfold scaleDown. destruct (_ >? _)%Z.
  - rewrite !wp_bind. eapply wp_mono; [|apply wp_true]. by intros h1 [u r] _.
  - cbn [bind wp fst snd]. by intros x [= <-].
Qed.

Lemma expand_claims_converges s h0 h :
  like StatefulSetBuilder s -> others StatefulSetBuilder (told h0) (told h) ->
  wp (expand_claims s) (assuming truthful (fun h' r => forall s', r = inl s' -> like StatefulSetBuilder s' /\
    roomy (told h') StatefulSetBuilder /\ others StatefulSetBuilder (told h0) (told h'))) h.
Proof.
  intros Hs Ho. pose proof Hs as (Hm & _ & _ & Hh & _). unfold expand_claims.
  destruct (ws_Object s) as [| | | | | |sts]; try by intros _.
  unfold reconcilePVC, persistenceStorageCapacity. fold (sts_capacity sts).
  eapply (wp_assuming_bind _ (truthful_prefix st0) _ _ (fun h' r => r = Ok tt -> roomy (told h') StatefulSetBuilder /\
    others StatefulSetBuilder (told h0) (told h'))).
  - eapply (wp_assuming_bind _ (truthful_prefix st0)); [by apply (Scale_keeps (ws_Instance s) (sts_capacity sts))|].
    intros h1 [[]|e] [Hk Hr].
    + cbn [wp]. intros _ _. split.
      * intros o Hcur. destruct o as [| | | | | |cur]; try done. cbn. intros Hc. apply Hh.
        change (sts_capacity sts = 0%Z). by eapply Hr.
      * eapply others_trans; [exact Ho|]. by apply others_sts.
    + unfold event_warning. apply (wp_assuming_call _ (truthful_prefix st0)). by intros u _ _.
  - intros h1 [[]|e] Hr; cbn [wp].
    + intros _ s' [= <-]. by destruct (Hr eq_refl).
    + eapply wp_assuming_skip; [exact (truthful_prefix st0)|]. by intros h2 u _.
Qed.

Lemma check_existing_converges s h a :
  like StatefulSetBuilder s ->
  (forall cur, a = Ok cur -> forall c d, sp_Replicas (sts_Spec cur) = Some c -> wanted_replicas rmq = Some d -> (c = 0 <-> d = 0)%Z) ->
  wp (check_existing_sts iter s a) (assuming truthful (fun h' r => forall s', r = inl s' -> h' = h /\ like StatefulSetBuilder s')) h.
Proof.
  intros Hs Hside. unfold check_existing_sts. destruct a as [cur|e]; [|intros _; by intros s' [= <-]].
  destruct (mutate iter s) as [s1 [e|]] eqn:Em; [by intros _|].
  destruct (like_mutate _ _ _ Hs Em) as (Hl & _ & Hmeets & _). destruct (ws_Object s1) as [| | | | | |sts] eqn:Eo; try by intros _.
  eapply (wp_assuming_bind _ (truthful_prefix st0)).
  - eapply wp_mono; [|apply (check_replicas_steady (ws_Instance s1) cur sts); [apply Hmeets|by apply Hside]].
    intros h' r Hr _. exact Hr.
  - intros h' [x|r] Hr; cbn [wp]; [|by intros _]. destruct (Hr x eq_refl) as [-> ->]. intros _ s' [= <-].
    split; [done|]. destruct Hl as (H1 & H2 & H3 & H4 & H5).
    unfold like. cbn [ws_Instance ws_Builder ws_Object]. rewrite <- ?Eo.
    exact (conj H1 (conj H2 (conj H3 (conj H4 H5)))).
Qed.

Lemma prepare_sts_converges s h :
  like StatefulSetBuilder s -> steady (told h) ->
  wp (prepare_sts iter s) (assuming truthful (fun h' r => forall s', r = inl s' -> like StatefulSetBuilder s' /\
    roomy (told h') StatefulSetBuilder /\ others StatefulSetBuilder (told h) (told h'))) h.
Proof.
  intros Hs Hst. pose proof Hs as (Hm & _). unfold prepare_sts, statefulSet.
  assert (("StatefulSet", ChildResourceName (ws_Instance s) "server") = sts_key) as Hk
    by (unfold built_name, ChildResourceName, rmq_Name; by rewrite Hm).
  apply (wp_assuming_call _ (truthful_prefix st0) (GetSts _ _)). intros a Hh. set (h1 := h ++ _) in *.
  assert (others StatefulSetBuilder (told h) (told h1)) as Ho by (by apply others_sts, effect_reads_sts).
  apply truthful_snoc in Hh as [_ Ha]. destruct (IgnoreNotFound a); [by intros _|].
  eapply (wp_assuming_bind _ (truthful_prefix st0)); [apply (check_existing_converges s h1 a Hs)|].
  - intros cur -> c d Hc Hd. cbn [truthful_answer Ev] in Ha. rewrite Hk in Ha. destruct Ha as (o & Ho1 & Hsame).
    destruct o as [| | | | | |cur0]; try done. apply (Hst cur0 c d Ho1); [|done]. destruct Hsame as [_ Hsp]. by rewrite Hsp.
  - intros h2 [s'|r] Hr; cbn [wp]; [|by intros _]. destruct (Hr s' eq_refl) as [-> Hl].
    by apply expand_claims_converges.
Qed.

Lemma reconcile_builder_converges b h :
  b ∈ ResourceBuilders rmq -> steady (told h) ->
  wp (reconcile_builder iter rand rmq b) (assuming truthful (fun h' r => forall rmq', r = inl rmq' ->
    (exists o, Build rand rmq b = Ok o) /\ placed (told h') b /\ others b (told h) (told h') /\
    (b <> StatefulSetBuilder -> rmq' = rmq))) h.
Proof.
  intros Hb Hst. unfold reconcile_builder. destruct (Build rand rmq b) as [o|e] eqn:EB; [|by intros _].
  destruct (Build_id rand rmq b o EB) as (Hk & Hname & _).
  assert (like b (mkWrite rmq b o false)) as Hl.
  { split; [done|]. split; [done|]. split; [unfold object_key; cbn [ws_Object]; by rewrite Hk, Hname|].
    split; cbn [ws_Object ws_Instance].
    - destruct o as [| | | | | |s]; try done. destruct b; try done. cbn [Build] in EB.
      destruct (sts_Build rmq) as [s1|] eqn:E; [|done]. injection EB as ->. by apply sts_Build_can_hold.
    - destruct (UpdateMayRequireStsRecreate b); [|done]. split; [apply Hplain|done]. }
  eapply (wp_assuming_bind _ (truthful_prefix st0) _ _ (fun h' r => forall s, r = inl s -> like b s /\
    roomy (told h') b /\ others b (told h) (told h'))).
  - destruct (UpdateMayRequireStsRecreate b) eqn:Es.
    + apply is_sts in Es as ->. by apply prepare_sts_converges.
    + cbn [wp]. intros _ s [= <-]. split; [done|]. split; [|apply others_refl]. intros x Hx.
      apply (told_keyed st0 keyed0) in Hx. destruct x; try done. by destruct b.
  - intros h1 [s|r] Hs; cbn [wp]; [|by intros _]. destruct (Hs s eq_refl) as (Hl1 & Hr1 & Ho1).
    eapply wp_assuming_mono; [|by apply write_object_converges]. intros h2 r _ Hr rmq' E.
    destruct (Hr rmq' E) as (Hp & Ho & Hi). split; [by eexists|]. split; [done|]. split; [by eapply others_trans|].
    intros Hne. apply Hi. by destruct b.
Qed.

(** ** The builders *)

Definition done_for (st : Store) (b : ResourceBuilder) : Prop := (exists o, Build rand rmq b = Ok o) /\ placed st b.

Lemma builders_differ pre b post b' :
  ResourceBuilders rmq = pre ++ b :: post -> b' ∈ pre -> builder_id b' <> builder_id b.
Proof.
  intros E Hb'. destruct (ResourceBuilders_spec rmq) as (_ & Hnd & _). rewrite E, map_app, map_cons in Hnd.
  apply NoDup_app in Hnd as (_ & Hd & _). intros Eid. apply (Hd (builder_id b')); [by apply list_elem_of_fmap_2|].
  rewrite Eid. apply list_elem_of_here.
Qed.

Lemma reconcile_builders_converge bs pre h :
  ResourceBuilders rmq = pre ++ bs -> (bs <> [] -> steady (told h)) -> Forall (done_for (told h)) pre ->
  wp (reconcile_builders iter rand rmq bs) (assuming truthful (fun h' r => forall rmq', r = inl rmq' ->
    Forall (done_for (told h')) (ResourceBuilders rmq))) h.
Proof.
  revert pre h. induction bs as [|b bs IH]; intros pre h Epre Hst Hpre; cbn [reconcile_builders].
  { intros _ rmq' _. rewrite Epre. by rewrite app_nil_r. }
  eapply (wp_assuming_bind _ (truthful_prefix st0)).
  { apply (reconcile_builder_converges b); [rewrite Epre; set_solver|by apply Hst]. }
  intros h1 [rmq1|r] Hr; cbn [wp]; [|by intros _]. destruct (Hr rmq1 eq_refl) as (HB & Hp & Ho & Hi).
  assert (Forall (done_for (told h1)) (pre ++ [b])) as Hpre1.
  { apply Forall_app_2; [|by repeat constructor]. apply Forall_forall. intros b' Hb'.
    destruct (proj1 (Forall_forall _ _) Hpre b' Hb') as [HB' Hp']. split; [done|].
    eapply placed_others; [exact Ho| |exact Hp']. by eapply builders_differ. }
  destruct (decide (b = StatefulSetBuilder)) as [->|Hne].
  - pose proof (sts_last _ _ _ Epre) as ->. cbn [reconcile_builders wp]. intros _ rmq' _. by rewrite Epre.
  - rewrite (Hi Hne). apply (IH (pre ++ [b])); [by rewrite <- (assoc_L (++))| |done].
    intros _ cur c d. unfold steady in Hst. rewrite (Ho StatefulSetBuilder); [by apply Hst|]. by destruct b.
Qed.

(** ** A settled cluster *)

(** The children as told, and claims of the size asked for. *)
Definition children_of (st : Store) : Children := mkChildren (fun k => st !! k) (wanted_capacity rmq).

Lemma all_done_settled st :
  well_keyed st -> Forall (done_for st) (ResourceBuilders rmq) -> settled iter rand (children_of st) rmq.
Proof.
  intros Hst Hall. split; [|split; [|apply Hplain]].
  - intros b Hb. destruct (proj1 (Forall_forall _ _) Hall b Hb) as ((o0 & HB) & o & o' & b' & Ho & HU & Heq & _).
    by exists o0, o, o', b'.
  - destruct (proj1 (Forall_forall _ _) Hall StatefulSetBuilder) as (_ & o & o' & b' & Ho & _ & _ & Hm); [by apply builder_in|].
    destruct (plain_sts Hplain) as (s0 & s & E0 & E1). destruct (sts_Build_can_hold _ _ E0) as (Hh & storage & Hstorage).
    pose proof (Hst _ _ Ho) as Hk. destruct o as [| | | | | |cur]; try done. exists s0, s, cur. split; [done|]. split; [done|].
    split; [exact Ho|]. destruct Hm as [Hrep Hcap]. split; [exact Hrep|]. split; [exact Hcap|].
    by eapply (sts_Update_capacity rmq s0 s storage); [apply Hplain| | |].
Qed.
End Converges.


(** ** Deciding the conditions *)

Definition same_but_status_b (o o' : Object) : bool :=
  match o, o' with
  | OStatefulSet a, OStatefulSet b => bool_decide (sts_Meta a = sts_Meta b) && bool_decide (sts_Spec a = sts_Spec b)
  | _, _ => bool_decide (o = o')
  end.

Lemma same_but_status_b_spec o o' : same_but_status_b o o' = true -> same_but_status o o'.
Proof.
  destruct o, o'; cbn; try (by intros H; apply bool_decide_eq_true in H).
  rewrite andb_true_iff. by intros [H1%bool_decide_eq_true H2%bool_decide_eq_true].
Qed.

Definition found_in_b (st : Store) (key : string * string) (o : Object) : bool :=
  match st !! key with Some o0 => same_but_status_b o0 o | None => false end.

Lemma found_in_b_spec st key o : found_in_b st key o = true -> found_in st key o.
Proof. unfold found_in_b. destruct (st !! key) as [o0|] eqn:E; [|done]. intros H. exists o0. split; [done|by apply same_but_status_b_spec]. Qed.

Definition truthful_answer_b (st : Store) (e : event) : bool :=
  match e with
  | existT (CreateObject o) (Ok o') | existT (UpdateObject o) (Ok o') => same_but_status_b o o'
  | existT (UpdateSts s) (Ok s') => same_but_status_b (OStatefulSet s) (OStatefulSet s')
  | existT (UpdateConfigMap c) (Ok c') => bool_decide (c = c')
  | existT (GetObject o) (Ok x) => found_in_b st (object_key o) x
  | existT (GetSts _ name) (Ok s) => found_in_b st ("StatefulSet", name) (OStatefulSet s)
  | existT (GetConfigMap _ name) (Ok c) => found_in_b st ("ConfigMap", name) (OConfigMap c)
  | _ => true
  end.

Lemma truthful_answer_b_spec st e : truthful_answer_b st e = true -> truthful_answer st e.
Proof.
  destruct e as [c a]; destruct c; try done; destruct a; try done; cbn [truthful_answer_b truthful_answer];
    try apply found_in_b_spec; try apply same_but_status_b_spec. by intros H%bool_decide_eq_true.
Qed.

Fixpoint truthful_b (st : Store) (h : history) : bool :=
  match h with
  | [] => true
  | e :: h => truthful_answer_b st e && truthful_b (effect st e) h
  end.

Lemma truthful_b_spec st h : truthful_b st h = true -> truthful st h.
Proof.
  intros H h1 e h2 E. revert st h E H. induction h1 as [|e1 h1 IH]; intros st h -> H; cbn [truthful_b app] in H;
    apply andb_true_iff in H as [H1 H2]; [by apply truthful_answer_b_spec|].
  exact (IH (effect st e1) _ eq_refl H2).
Qed.

Section Deciding.
Context {O : OwnerRefs} {M : StrategicMerge}.

Definition steady_b (rmq : RabbitmqCluster) (st : Store) : bool :=
  match st !! built_name rmq StatefulSetBuilder with
  | Some (OStatefulSet cur) =>
      match sp_Replicas (sts_Spec cur), wanted_replicas rmq with
      | Some c, Some d => Bool.eqb (c =? 0)%Z (d =? 0)%Z
      | _, _ => true
      end
  | _ => true
  end.

Lemma steady_b_spec rmq st : steady_b rmq st = true -> steady rmq st.
Proof.
  unfold steady_b. intros H cur c d Hcur Hc Hd. rewrite Hcur, Hc, Hd in H. apply eqb_prop in H.
  rewrite <- !Z.eqb_eq, H. done.
Qed.
End Deciding.
