(* ===== verification/Completes.v ===== *)
(** * A served pass gets through

    The counterpart of Convergence.v: when the API server answers every
    request and the StatefulSet it is asked to delete goes within the time the
    operator waits for it, a pass over the builders does not stop before its
    end.  Nor does an earlier pass that stopped, wherever it did, leave children
    over which a later one could not get through. *)

From S2P Require Import Prelude.
From S2P Require Import K8s.
From S2P Require Import Metadata.
From S2P Require Import Status.
From S2P Require Import Api.
From S2P Require Import Plugins.
From S2P Require Import Override.
From S2P Require Import Services.
From S2P Require Import Ini.
From S2P Require Import Secrets.
From S2P Require Import ServerConf.
From S2P Require Import PodTemplate.
From S2P Require Import StatefulSet.
From S2P Require Import Rbac.
From S2P Require Import ResourceBuilder.
From S2P Require Import Kube.
From S2P Require Import Scaling.
From S2P Require Import Controller.
From S2P Require Import Replicas.
From S2P Require Import Client.
From S2P Require Import Quorum.
From S2P Require Import PostDeploy.
From S2P Require Import Reconcile.
From S2P Require Import Settled.
From S2P Require Import Convergence.

(** ** A server that serves *)

(** A deletion that no read has confirmed, with the number of reads that still
    found the StatefulSet. *)
Definition pending_step (p : option nat) (e : event) : option nat :=
  match e with
  | existT (DeleteSts _ _ _) _ => Some 0
  | existT (GetSts _ _) (Ok _) => S <$> p
  | existT (GetSts _ _) (Err _) => None
  | _ => p
  end.
Definition pending (h : history) : option nat := fold_left pending_step h None.

(** Writes are accepted; a read fails only because there is no such object; at
    most nine reads find a StatefulSet that was deleted; a claim has the name
    asked for and requests storage, and does not disappear. *)
Definition served (h : history) (st : Store) (e : event) : Prop :=
  match e with
  | existT (CreateObject _) (Err _) | existT (UpdateObject _) (Err _) | existT (UpdateSts _) (Err _)
  | existT (UpdateConfigMap _) (Err _) | existT (DeleteSts _ _ _) (Err _) | existT (UpdatePVC _ _) (Err _) => False
  | existT (GetObject o) (Err e) => IsNotFound e = true /\ st !! object_key o = None
  | existT (GetConfigMap _ name) (Err e) => IsNotFound e = true /\ st !! ("ConfigMap", name) = None
  | existT (GetSts _ name) (Err e) =>
      IsNotFound e = true /\ (st !! ("StatefulSet", name) = None \/ pending h <> None)
  | existT (GetSts _ _) (Ok _) => forall n, pending h = Some n -> n < 9
  | existT (GetPVC ns name) (Ok p) =>
      om_Namespace (pvc_Meta p) = ns /\ om_Name (pvc_Meta p) = name /\ is_Some (pvcs_Requests (pvc_Spec p))
  | existT (GetPVC ns name) (Err e) => IsNotFound e = true /\ (ns, name) ∉ map fst (pvcs_read h)
  | _ => True
  end.

Lemma pending_snoc h e : pending (h ++ [e]) = pending_step (pending h) e.
Proof. unfold pending. by rewrite fold_left_app. Qed.

Section Serving.
Context (st0 : Store).

(** The answers are truthful, and there are answers. *)
Definition serving (h : history) : Prop :=
  history_ok (fun h e => truthful_answer (told st0 h) e /\ served h (told st0 h) e) h.

Lemma serving_truthful h : serving h -> truthful st0 h.
Proof. intros Hh h1 e h2 E. by destruct (Hh h1 e h2 E). Qed.

Lemma serving_snoc h e :
  serving (h ++ [e]) -> serving h /\ truthful_answer (told st0 h) e /\ served h (told st0 h) e.
Proof.
  intros Hh. split; [|by apply (Hh h e [])]. intros h1 e1 h2 ->. apply (Hh h1 e1 (h2 ++ [e])).
  by rewrite <- (assoc_L (++)).
Qed.
Lemma serving_prefix h e : serving (h ++ [e]) -> serving h.
Proof. by intros [? _]%serving_snoc. Qed.

(** What is known of truthful answers is known here. *)
Lemma wp_serving {R} (p : prog R) (Q1 Q2 : history -> R -> Prop) h :
  wp p (assuming (truthful st0) Q1) h -> wp p (assuming serving Q2) h ->
  wp p (assuming serving (fun h' r => Q1 h' r /\ Q2 h' r)) h.
Proof.
  intros H1 H2. eapply wp_mono; [|apply (wp_conj _ _ _ _ H1 H2)]. intros h' r [Hq1 Hq2] Hh.
  split; [by apply Hq1, serving_truthful|by apply Hq2].
Qed.

(** Calls about neither children nor claims. *)
Definition aside (c : call) : Prop := match c with Event _ _ _ | Now | Sleep _ => True | _ => False end.

Lemma told_aside h c a : aside c -> told st0 (h ++ [Ev c a]) = told st0 h /\ pending (h ++ [Ev c a]) = pending h.
Proof. intros Hc. rewrite told_snoc, pending_snoc. by destruct c. Qed.
End Serving.

Section Completes.
Context {I : Ini} {O : OwnerRefs} {OL : OwnerRefsLaws} {M : StrategicMerge} {V : Semver} {T : Rfc3339} {R : RetryLib}
  {RL : RetryLaws} {C : CreateOrUpdateLib} {CL : CreateOrUpdateLaws} {SL : SemanticLaws}
  (iter : gmap string ServicePort -> list (string * ServicePort)) (rand : RandSource)
  (rmq : RabbitmqCluster) (st0 : Store).
Hypothesis iter_perm : forall m, iter m ≡ₚ map_to_list m.
Hypothesis keyed0 : well_keyed st0.
Hypothesis Hplain : plain rmq.

Local Abbreviation told := (told st0).
Local Abbreviation truthful := (truthful st0).
Local Abbreviation serving := (serving st0).
Local Abbreviation key := (built_name rmq).
Local Abbreviation like := (like rmq).
Local Abbreviation roomy := (roomy rmq).

(** ** What a child must allow *)

(** The builder can update the object. *)
Definition updatable (b : ResourceBuilder) (o : Object) : Prop := exists o' b', Update iter rmq b o = Ok (o', b').

(** The existing StatefulSet has replicas, no more than wanted and on the same
    side of zero, and claims that are not larger than wanted, if it has any
    when some are wanted. *)
Definition sts_admits (o : Object) : Prop :=
  match o with
  | OStatefulSet cur =>
      (exists c d, sp_Replicas (sts_Spec cur) = Some c /\ wanted_replicas rmq = Some d /\
         (c <= d)%Z /\ (c = 0 <-> d = 0)%Z) /\
      (sts_capacity cur = 0%Z -> wanted_capacity rmq = 0%Z) /\ (sts_capacity cur <= wanted_capacity rmq)%Z
  | _ => True
  end.

Definition ready (st : Store) (b : ResourceBuilder) : Prop :=
  forall o, st !! key b = Some o -> updatable b o /\ sts_admits o.

Lemma updatable_other_status b o x : same_but_status o x -> updatable b o -> updatable b x.
Proof.
  destruct o as [| | | | | |s]; try (by destruct x; cbn; try done; intros [= ->]). destruct x as [| | | | | |s']; try done.
  intros [Hm Hs] (o' & b' & HU). destruct b; try done. cbn [Update] in HU.
  destruct (sts_Update rmq s) as [s1|] eqn:E; [|done].
  apply (sts_Update_other_status _ _ _ (sts_Status s')) in E. rewrite Hm, Hs in E. destruct s' as [m sp st]. cbn in E.
  unfold updatable. cbn [Update]. rewrite E. by eexists _, _.
Qed.

Lemma sts_admits_other_status o x : same_but_status o x -> sts_admits o -> sts_admits x.
Proof. destruct o, x; try done. cbn. unfold sts_capacity. by intros [_ ->]. Qed.

Lemma ready_kept st st' b : sts_kept st st' -> ready st b -> ready st' b.
Proof.
  intros Hk Hr o Ho. destruct (Hk (key b)) as [E|[_ Hs]]; [apply Hr; by rewrite <- E|].
  destruct (Hs o Ho) as (y & Hy & Hyo). destruct (Hr y Hy). split; [by eapply updatable_other_status|by eapply sts_admits_other_status].
Qed.

Lemma ready_others b b' st st' : others rmq b st st' -> builder_id b' <> builder_id b -> ready st b' -> ready st' b'.
Proof. intros Ho Hb Hr o E. apply Hr. by rewrite <- (Ho b' Hb). Qed.

Lemma mutate_succeeds b s : like b s -> updatable b (ws_Object s) -> exists s1, mutate iter s = (s1, None).
Proof.
  intros (_ & Hb & _ & _ & Hi) (o' & b' & HU). unfold mutate.
  assert (exists b2, Update iter (update_instance s) (ws_Builder s) (ws_Object s) = Ok (o', b2)) as [b2 ->]; [|by eexists].
  destruct (UpdateMayRequireStsRecreate b) eqn:Es.
  - apply is_sts in Es as ->. destruct Hi as [Hno Hi]. unfold update_instance. rewrite (share_override_same _ Hno).
    destruct (ws_Builder s); try done. destruct (ws_shared s), (ws_Object s); try done; cbn [Update] in *; rewrite Hi; by eexists.
  - assert (update_instance s = rmq) as ->.
    { unfold update_instance. destruct (ws_Builder s), b; done. }
    by eapply Update_flag.
Qed.

(** ** One child *)

(** An attempt that reached the server and whose error is nobody's. *)
Definition wrote (h' : history) (r : WriteState * result ApiError (OperationResult * option BuildError)) : Prop :=
  pending h' = None /\ exists op, snd r = Ok (op, None).

Lemma write_once_completes b s h :
  like b s -> roomy (told h) b -> ready (told h) b -> updatable b (ws_Object s) -> pending h = None ->
  wp (write_once iter s) (assuming serving wrote) h.
Proof.
  intros Hs Hr Hready Hup Hp. pose proof Hs as (_ & _ & Hk & _). unfold write_once. rewrite wp_bind. apply CreateOrUpdate_wp.
  intros a. cbv zeta. set (h1 := h ++ [_]). assert (pending h1 = None) as Hp1 by (unfold h1; by rewrite pending_snoc).
  destruct a as [x|e].
  - assert (serving h1 -> like b (put_object x s) /\ updatable b x) as Hput.
    { intros Hh. pose proof (serving_truthful _ _ Hh) as Ht. pose proof Ht as [_ (y & Hy & Hyx)]%truthful_snoc. rewrite Hk in Hy.
      destruct (told_read _ _ keyed0 b _ x h Hk Ht Hr) as (_ & Hkx & Hhx).
      split; [by apply like_put|]. eapply updatable_other_status; [exact Hyx|]. by apply Hready. }
    destruct (mutate iter (put_object x s)) as [s1 [e1|]] eqn:Em.
    + intros [Hl Hu]%Hput. destruct (mutate_succeeds _ _ Hl Hu) as [s2 E2]. by rewrite Em in E2.
    + split; intros _; [intros _; split; [done|by eexists]|].
      intros a1 (_ & _ & Ha)%serving_snoc. split; [by rewrite pending_snoc|]. destruct a1; [by eexists|done].
  - destruct (IsNotFound e) eqn:Ee.
    + destruct (mutate_succeeds _ _ Hs Hup) as [s1 ->]. intros a1 (_ & _ & Ha)%serving_snoc.
      split; [by rewrite pending_snoc|]. destruct a1; [by eexists|done].
    + intros (_ & _ & Ha)%serving_snoc. cbn in Ha. destruct Ha. congruence.
Qed.

(** ** The marks *)

(** A read of the child of [b], which is in place, finds it. *)
Definition noted {A} (h' : history) (r : result ApiError A) : Prop := pending h' = None /\ is_ok r = true.

Lemma annotate_once_cm_completes b ns name k v h :
  ("ConfigMap", name) = key b -> is_Some (told h !! key b) -> pending h = None ->
  wp (annotate_once (T := ConfigMap) ns name k v) (assuming serving noted) h.
Proof.
  intros Hn [o Ho] Hp. unfold annotate_once. cbn [ko_get ko_update ko_meta ko_with_meta kobj_configmap bind perform wp].
  intros a. apply wp_assuming; [apply serving_prefix|]. intros (_ & _ & Ha)%serving_snoc.
  destruct a as [x|er]; [|cbn in Ha; rewrite Hn, Ho in Ha; by destruct Ha].
  cbn [wp]. intros a (_ & _ & Hu)%serving_snoc. split; [by rewrite !pending_snoc|]. by destruct a.
Qed.

Lemma annotate_once_sts_completes b ns name k v h :
  ("StatefulSet", name) = key b -> is_Some (told h !! key b) -> pending h = None ->
  wp (annotate_once (T := StatefulSet) ns name k v) (assuming serving noted) h.
Proof.
  intros Hn [o Ho] Hp. unfold annotate_once. cbn [ko_get ko_update ko_meta ko_with_meta kobj_sts bind perform wp].
  intros a. apply wp_assuming; [apply serving_prefix|]. intros (_ & _ & Ha)%serving_snoc.
  destruct a as [x|er]; [|cbn in Ha; rewrite Hn, Ho, Hp in Ha; by destruct Ha as [_ [?|?]]].
  cbn [wp]. intros a (_ & _ & Hu)%serving_snoc. split; [by rewrite !pending_snoc; cbn; rewrite Hp|]. by destruct a.
Qed.

Lemma retried_completes {A} retriable (fn : prog (result ApiError A)) h :
  wp fn (assuming serving noted) h -> wp (OnError retriable fn) (assuming serving noted) h.
Proof.
  intros Hfn. apply (OnError_wp _ _ (fun h0 => serving h0 -> h0 = h)); [done|].
  intros h0 H0. assert (wp fn (assuming serving noted) h0) as Hw.
  { apply (wp_assuming _ (serving_prefix st0)). intros Hh. by rewrite (H0 Hh). }
  eapply wp_mono; [|exact Hw]. intros h1 r Hr. split; [exact Hr|]. destruct r as [a|e]; [done|].
  intros _ Hh. by destruct (Hr Hh).
Qed.

Lemma annotateIfNeeded_completes instance bb b op h :
  rmq_Meta instance = rmq_Meta rmq -> builder_id bb = builder_id b ->
  is_Some (told h !! key b) -> pending h = None ->
  wp (annotateIfNeeded instance bb op) (assuming serving (fun h' r => r = Ok tt /\ pending h' = None)) h.
Proof.
  intros Hm Hid Hin Hp. unfold annotateIfNeeded. destruct (annotation_target instance bb op) as [[[cm name] k]|] eqn:Et; [|done].
  destruct (annotation_target_child _ _ _ _ _ _ _ _ Hm Hid Et) as (_ & Hn & _).
  apply (wp_assuming_call _ (serving_prefix st0)). intros now _. set (h1 := h ++ _).
  destruct (told_aside st0 h Now now Logic.I) as [E1 E2]. fold h1 in E1, E2.
  rewrite <- E1 in Hin. rewrite <- E2 in Hp.
  eapply (wp_assuming_bind _ (serving_prefix st0) _ _ noted).
  - unfold annotate_target. destruct cm; (eapply (wp_assuming_bind _ (serving_prefix st0)); [apply retried_completes|]).
    + by eapply annotate_once_cm_completes.
    + intros h2 [x|e] [Hp2 Hr]; [|done]. by intros _.
    + by eapply annotate_once_sts_completes.
    + intros h2 [x|e] [Hp2 Hr]; [|done]. by intros _.
  - intros h2 [x|e] [Hp2 Hr]; [|done]. by intros _.
Qed.

Lemma write_object_completes b s h :
  like b s -> roomy (told h) b -> ready (told h) b -> updatable b (ws_Object s) -> pending h = None ->
  wp (write_object iter s) (assuming serving (fun h' r => pending h' = None /\ exists rmq', r = inl rmq')) h.
Proof.
  intros Hs Hr Hready Hup Hp. unfold write_object.
  eapply (wp_assuming_bind _ (serving_prefix st0) _ _ (fun h' r => attempted iter rmq st0 b h h' r /\ wrote h' r)).
  - apply (OnErrorS_wp _ _ (fun s0 h0 => serving h0 -> s0 = s /\ h0 = h)); [done|].
    intros s0 h0 H0.
    assert (wp (write_once iter s0) (assuming serving (fun h' r => attempted iter rmq st0 b h h' r /\ wrote h' r)) h0) as Hw.
    { apply (wp_assuming _ (serving_prefix st0)). intros Hh. destruct (H0 Hh) as [-> ->].
      apply wp_serving; [by eapply write_once_converges|by eapply write_once_completes]. }
    eapply wp_mono; [|exact Hw]. intros h1 r Hr1. split; [exact Hr1|]. destruct (snd r) as [x|e] eqn:E; [done|].
    intros _ Hh. destruct (Hr1 Hh) as (_ & _ & op & E1). by rewrite E in E1.
  - intros h1 [s1 w] [(Hl & _ & _ & Hop) (Hp1 & op & Ew)]. cbn [fst snd] in *. pose proof Hl as (Hm & Hid & _). subst w. cbn [write_error].
    eapply (wp_assuming_bind _ (serving_prefix st0) _ _ (fun h2 _ => told h2 = told h1 /\ pending h2 = None)).
    { unfold logAndRecordOperationResult, event_normal. destruct op; cbn [perform wp]; [by intros _| |];
        intros a _; by rewrite told_snoc, pending_snoc. }
    intros h2 u [E2 Hp2]. specialize (Hop op eq_refl).
    assert (is_Some (told h2 !! key b)) as Hin.
    { rewrite E2. case_decide; [destruct Hop as (o & ? & ? & Ho & _)|destruct Hop as (o & ? & Ho & _)]; by exists o. }
    eapply (wp_assuming_bind _ (serving_prefix st0)); [by eapply annotateIfNeeded_completes|].
    intros h3 r [-> Hp3]. cbn [wp]. intros _. split; [done|by eexists].
Qed.

(** ** The StatefulSet before it is written *)

(** A claim that was read. *)
Definition seen (h : history) (p : PersistentVolumeClaim) : Prop :=
  (om_Namespace (pvc_Meta p), om_Name (pvc_Meta p)) ∈ map fst (pvcs_read h).

Lemma seen_app p h t : seen h p -> seen (h ++ t) p.
Proof. unfold seen. rewrite pvcs_read_app, map_app. set_solver. Qed.

Lemma get_pvcs_completes i l h :
  pending h = None ->
  wp (get_pvcs i l) (assuming serving (fun h' r => pending h' = None /\ exists ps, r = Ok ps /\ Forall (seen h') ps)) h.
Proof.
  revert h. induction l as [|z l IH]; intros h Hp; cbn [get_pvcs].
  { intros _. split; [done|]. by exists []. }
  apply (wp_assuming_call _ (serving_prefix st0)). intros a (_ & _ & Ha)%serving_snoc. set (h1 := h ++ _).
  assert (pending h1 = None) as Hp1 by (unfold h1; by rewrite pending_snoc).
  destruct (IgnoreNotFound a) as [e|] eqn:Ei.
  { destruct a as [p|e']; [done|]. cbn in Ei, Ha. destruct Ha as [E _]. by rewrite E in Ei. }
  destruct a as [p|e].
  - destruct Ha as (Hns & Hn & _).
    assert (seen h1 p) as Hseen.
    { unfold seen, h1. rewrite pvcs_read_app, map_app, Hns, Hn. cbn. set_solver. }
    eapply (wp_assuming_bind _ (serving_prefix st0) _ _ (fun h' r => seen h' p /\
      pending h' = None /\ exists ps, r = Ok ps /\ Forall (seen h') ps)).
    + eapply wp_mono; [|apply (wp_conj _ _ _ _ (wp_frame (get_pvcs i l) (fun _ _ => True) h1 (wp_true _ _)) (IH h1 Hp1))].
      intros h2 r [(t & -> & _) Hr] Hh. split; [by apply seen_app|by apply Hr].
    + intros h2 r (Hs2 & Hp2 & ps & -> & Hps). cbn [wp result_bind]. intros _. split; [done|]. exists (p :: ps). split; [done|].
      by constructor.
  - eapply (wp_assuming_bind _ (serving_prefix st0)); [by apply IH|]. intros h2 r Hr. by intros _.
Qed.

Lemma scaleUpPVCs_completes i ps d h :
  pending h = None -> Forall (seen h) ps ->
  wp (scaleUpPVCs i ps d) (assuming serving (fun h' r => r = Ok tt /\ pending h' = None)) h.
Proof.
  revert h. induction ps as [|p ps IH]; intros h Hp Hps; cbn [scaleUpPVCs]; [done|].
  apply Forall_cons in Hps as [Hseen Hps].
  apply (wp_assuming_call _ (serving_prefix st0)). intros a (_ & _ & Ha)%serving_snoc. set (h1 := h ++ _).
  destruct a as [latest|e]; [|by destruct Ha]. destruct Ha as (_ & _ & [requests ->]).
  apply (wp_assuming_call _ (serving_prefix st0)). intros a (_ & _ & Ha)%serving_snoc. destruct a as [x|e]; [|done].
  apply IH; [unfold h1; by rewrite !pending_snoc|].
  eapply Forall_impl; [exact Hps|]. intros q Hq. unfold h1. by apply seen_app, seen_app.
Qed.

(** Ten reads with a pause after each are enough. *)
Lemma retry_completes i n k h :
  n + k = 10 -> n <> 0 -> pending h = Some k ->
  wp (retryWithInterval n 3000 (sts_is_gone i)) (assuming serving (fun h' r => r = true /\ pending h' = None)) h.
Proof.
  revert k h. induction n as [|n IH]; intros k h Hn H0 Hp; [done|]. cbn [retryWithInterval]. unfold sts_is_gone at 1, getSts.
  cbn [bind perform wp]. intros a. apply wp_assuming; [exact (serving_prefix st0)|]. intros (_ & _ & Ha)%serving_snoc.
  destruct a as [s|e].
  - specialize (Ha k Hp). cbn [wp]. intros u.
    apply (IH (S k)); [lia|lia|]. rewrite !pending_snoc. cbn. by rewrite Hp.
  - destruct Ha as [-> _]. intros _. split; [done|]. by rewrite pending_snoc.
Qed.

Lemma deleteSts_completes i h :
  pending h = None -> wp (deleteSts i) (assuming serving (fun h' r => r = Ok tt /\ pending h' = None)) h.
Proof.
  intros Hp. unfold deleteSts, getSts. apply (wp_assuming_call _ (serving_prefix st0)). intros a (_ & _ & Ha)%serving_snoc.
  set (h1 := h ++ _). destruct a as [s|e].
  - apply (wp_assuming_call _ (serving_prefix st0)). intros a (_ & _ & Hd)%serving_snoc. destruct a as [u|e]; [|done].
    eapply (wp_assuming_bind _ (serving_prefix st0)).
    { apply (retry_completes i 10 0); [lia|lia|]. by rewrite pending_snoc. }
    intros h2 r [-> Hp2]. by intros _.
  - destruct Ha as [-> _]. intros _. split; [done|]. unfold h1. by rewrite pending_snoc.
Qed.

Lemma scale_pvcs_completes i d h :
  pending h = None -> wp (scale_pvcs i d) (assuming serving (fun h' r => r = Ok tt /\ pending h' = None)) h.
Proof.
  intros Hp. unfold scale_pvcs, getClusterPVCs.
  eapply (wp_assuming_bind _ (serving_prefix st0)); [by apply get_pvcs_completes|].
  intros h1 r (Hp1 & ps & -> & Hps). destruct (pvcsNeedingScaling ps d) as [|q qs] eqn:E; [done|].
  assert (Forall (seen h1) (q :: qs)) as Hqs.
  { rewrite <- E. unfold pvcsNeedingScaling. rewrite Forall_forall in *. intros x Hx. apply Hps.
    apply list_elem_of_In, filter_In in Hx as [Hx _]. by apply list_elem_of_In. }
  eapply (wp_assuming_bind _ (serving_prefix st0) _ _ (fun h' r => (r = Ok tt /\ pending h' = None) /\ Forall (seen h') (q :: qs))).
  - eapply wp_mono; [|apply (wp_conj _ _ _ _ (wp_frame (deleteSts i) (fun _ _ => True) h1 (wp_true _ _)) (deleteSts_completes i h1 Hp1))].
    intros h2 r [(t & -> & _) Hr] Hh. split; [by apply Hr|]. eapply Forall_impl; [exact Hqs|]. intros x. apply seen_app.
  - intros h2 r [[-> Hp2] Hq2]. by apply scaleUpPVCs_completes.
Qed.

(** A stored StatefulSet that admits it is expanded. *)
Lemma Scale_completes i d h :
  rmq_Meta i = rmq_Meta rmq -> d = wanted_capacity rmq -> pending h = None -> ready (told h) StatefulSetBuilder ->
  wp (Scale i d) (assuming serving (fun h' r => r = Ok tt /\ pending h' = None)) h.
Proof.
  intros Hm -> Hp Hr. assert (("StatefulSet", ChildResourceName i "server") = key StatefulSetBuilder) as Hk
    by (unfold built_name, ChildResourceName, rmq_Name; by rewrite Hm).
  unfold Scale, existingCapacity, getSts. cbn [bind perform wp]. intros a. set (h1 := h ++ [_]).
  apply wp_assuming; [exact (serving_prefix st0)|]. intros (_ & Ht & Ha)%serving_snoc.
  assert (pending h1 = None) as Hp1 by (unfold h1; rewrite pending_snoc; cbn; destruct a; by rewrite ?Hp).
  destruct a as [s|e]; cbn [bind].
  - cbn [truthful_answer Ev] in Ht. rewrite Hk in Ht. destruct Ht as (o & Ho & Hs).
    destruct (Hr o Ho) as [_ Hadm%(sts_admits_other_status _ _ Hs)]. destruct Hadm as (_ & Hzero & Hle).
    fold (sts_capacity s). destruct (_ && _) eqn:Ez.
    { apply andb_true_iff in Ez as [E1%Z.eqb_eq E2]. rewrite (Hzero (proj1 (q_Cmp_eq _ _) E1)) in E2. done. }
    destruct (_ =? 1)%Z eqn:E1; [|by apply scale_pvcs_completes].
    exfalso. apply Z.eqb_eq in E1. unfold q_Cmp in E1. destruct (Z.compare_spec (sts_capacity s) (wanted_capacity rmq)); lia.
  - destruct Ha as [-> _]. by apply scale_pvcs_completes.
Qed.

(** More replicas, or as many: the pass goes on with the cluster it has. *)
Lemma check_replicas_passes i cur sts c d :
  sp_Replicas (sts_Spec cur) = Some c -> sp_Replicas (sts_Spec sts) = Some d -> (c <= d)%Z -> (c = 0 <-> d = 0)%Z ->
  check_replicas i cur sts = Ret (inl (i, false)).
Proof.
  intros Hc Hd Hle Hz. unfold check_replicas. rewrite (replica_pair_some _ _ _ _ Hc Hd).
  unfold ScaleToZero, ScaleFromZero, scaleDown. rewrite !Z.gtb_ltb.
  destruct (Z.eqb_spec d 0), (Z.ltb_spec 0 c), (Z.ltb_spec d c); try lia; cbn [andb bind fst snd];
    destruct (Z.eqb_spec c 0), (Z.ltb_spec 0 d); try lia; done.
Qed.

(** The object that is about to be written can be updated and asks for the
    storage that is wanted. *)
Definition writable (s : WriteState) : Prop :=
  updatable StatefulSetBuilder (ws_Object s) /\
  forall sts, ws_Object s = OStatefulSet sts -> sts_capacity sts = wanted_capacity rmq.

Lemma like_sts s : like StatefulSetBuilder s -> exists sts, ws_Object s = OStatefulSet sts.
Proof. intros (_ & _ & Hk & _). unfold object_key in Hk. destruct (ws_Object s); try done. by eexists. Qed.

Lemma check_existing_completes s a :
  like StatefulSetBuilder s -> writable s -> (forall cur, a = Ok cur -> sts_admits (OStatefulSet cur)) ->
  exists s', check_existing_sts iter s a = Ret (inl s') /\ like StatefulSetBuilder s' /\ writable s'.
Proof.
  intros Hs Hw Hadm. unfold check_existing_sts. destruct a as [cur|e]; [|by exists s].
  destruct (mutate_succeeds _ _ Hs (proj1 Hw)) as [s1 Em]. rewrite Em.
  destruct (like_mutate _ _ iter_perm Hplain _ _ _ Hs Em) as (Hl & _ & Hmeets & Hup).
  destruct (like_sts _ Hl) as [sts Eo]. rewrite Eo in *. destruct Hmeets as [Hrep Hcap].
  destruct (Hadm cur eq_refl) as ((c & d & Hc & Hd & Hle & Hz) & _). rewrite Hd in Hrep.
  rewrite (check_replicas_passes _ _ _ _ _ Hc Hrep Hle Hz). cbn [bind].
  eexists. split; [reflexivity|]. destruct Hl as (H1 & H2 & H3 & H4 & H5). rewrite Eo in *. split.
  - unfold Convergence.like. cbn [ws_Instance ws_Builder ws_Object]. exact (conj H1 (conj H2 (conj H3 (conj H4 H5)))).
  - split; cbn [ws_Object]; [|by intros x [= <-]]. destruct Hup as [b2 HU]. by exists (OStatefulSet sts), b2.
Qed.

Lemma reads_expand_claims s : calls_only reads_sts (expand_claims s).
Proof.
  unfold expand_claims, reconcilePVC, Scale, existingCapacity, getSts, setReconcileSuccess, set_condition, patch_status, event_warning.
  pose proof reads_scale_pvcs. destruct (ws_Object s); calls; eauto.
Qed.

Lemma expand_claims_completes s h :
  like StatefulSetBuilder s -> writable s ->
  pending h = None -> ready (told h) StatefulSetBuilder ->
  wp (expand_claims s) (assuming serving (fun h' r => r = inl s /\ pending h' = None)) h.
Proof.
  intros Hs [_ Hcap] Hp Hr. destruct (like_sts _ Hs) as [sts Es]. pose proof (proj1 Hs) as Hm. unfold expand_claims, reconcilePVC, persistenceStorageCapacity. rewrite Es.
  fold (sts_capacity sts).
  eapply (wp_assuming_bind _ (serving_prefix st0) _ _ (fun h' r => r = Ok tt /\ pending h' = None)).
  - eapply (wp_assuming_bind _ (serving_prefix st0)); [apply Scale_completes; [exact Hm|by apply Hcap|done|done]|].
    intros h1 r [-> Hp1]. by intros _.
  - intros h1 r [-> Hp1]. by intros _.
Qed.

Lemma prepare_sts_completes s h :
  like StatefulSetBuilder s -> writable s -> pending h = None -> ready (told h) StatefulSetBuilder ->
  wp (prepare_sts iter s) (assuming serving (fun h' r => pending h' = None /\ ready (told h') StatefulSetBuilder /\
    exists s', r = inl s' /\ updatable StatefulSetBuilder (ws_Object s'))) h.
Proof.
  intros Hs Hw Hp Hr. unfold prepare_sts, statefulSet.
  assert (("StatefulSet", ChildResourceName (ws_Instance s) "server") = key StatefulSetBuilder) as Hk
    by (unfold built_name, ChildResourceName, rmq_Name; by rewrite (proj1 Hs)).
  apply (wp_assuming_call _ (serving_prefix st0) (GetSts _ _)). intros a Hh. set (h1 := h ++ _) in *.
  assert (ready (told h1) StatefulSetBuilder) as Hr1
    by (eapply ready_kept; [apply (effect_reads_sts st0 keyed0); [done|by apply serving_truthful]|done]).
  apply serving_snoc in Hh as (_ & Ht & Ha).
  assert (pending h1 = None) as Hp1 by (unfold h1; rewrite pending_snoc; cbn; destruct a; by rewrite ?Hp).
  assert (IgnoreNotFound a = None) as -> by (destruct a; [done|]; cbn; by destruct Ha as [-> _]).
  destruct (check_existing_completes s a Hs Hw) as (s' & -> & Hl & Hw').
  { intros cur ->. cbn [truthful_answer Ev] in Ht. rewrite Hk in Ht. destruct Ht as (o & Ho & Hsame).
    eapply sts_admits_other_status; [exact Hsame|]. by apply Hr. }
  cbn [bind]. eapply wp_assuming_mono; [|apply wp_serving;
    [apply (calls_reads_sts st0 keyed0), reads_expand_claims|by apply expand_claims_completes]].
  intros h2 r _ (Hk2 & -> & Hp2). split; [done|]. split; [by eapply ready_kept|]. exists s'. split; [done|]. apply Hw'.
Qed.

(** ** The builders *)

(** The cluster's own part: the builder makes an object it can update. *)
Definition buildable (b : ResourceBuilder) : Prop := exists o, Build rand rmq b = Ok o /\ updatable b o.

Lemma built_capacity s : sts_Build rmq = Ok s -> sts_capacity s = wanted_capacity rmq.
Proof.
  unfold sts_Build, persistentVolumeClaim, wanted_capacity, sts_capacity.
  destruct (per_Storage _) as [storage|]; cbn [or_panic result_bind]; [|done].
  destruct (Z.eqb_spec (q_Cmp storage 0%Z) 0%Z) as [->%q_Cmp_eq|_]; cbn [result_bind]; intros [= <-]; cbn; [done|].
  by unfold storage_of, rl_get.
Qed.

Lemma like_built b o : Build rand rmq b = Ok o -> like b (mkWrite rmq b o false).
Proof.
  intros EB. destruct (Build_id rand rmq b o EB) as (Hk & Hname & _).
  split; [done|]. split; [done|]. split; [unfold object_key; cbn [ws_Object]; by rewrite Hk, Hname|].
  split; cbn [ws_Object ws_Instance].
  - destruct o as [| | | | | |s]; try done. destruct b; try done. cbn [Build] in EB.
    destruct (sts_Build rmq) as [s1|] eqn:E; [|done]. injection EB as ->. by apply sts_Build_can_hold.
  - destruct (UpdateMayRequireStsRecreate b); [|done]. split; [apply Hplain|done].
Qed.

Lemma reconcile_builder_completes b h :
  b ∈ ResourceBuilders rmq -> buildable b -> steady rmq (told h) -> ready (told h) b -> pending h = None ->
  wp (reconcile_builder iter rand rmq b) (assuming serving (fun h' r => pending h' = None /\ exists rmq', r = inl rmq')) h.
Proof.
  intros Hb (o & EB & Hup) Hst Hr Hp. unfold reconcile_builder. rewrite EB.
  destruct (Build_id rand rmq b o EB) as (Hk & Hname & _).
  assert (like b (mkWrite rmq b o false)) as Hl by (by apply like_built).
  eapply (wp_assuming_bind _ (serving_prefix st0) _ _ (fun h' r => (forall s, r = inl s -> like b s /\ roomy (told h') b) /\
    pending h' = None /\ ready (told h') b /\ exists s, r = inl s /\ updatable b (ws_Object s))).
  - destruct (UpdateMayRequireStsRecreate b) eqn:Es.
    + apply is_sts in Es as ->. eapply wp_assuming_mono; [|apply wp_serving;
        [by eapply prepare_sts_converges|apply prepare_sts_completes; [exact Hl| |done|done]]].
      * intros h1 r _ [H1 (H2 & H3 & H4)]. split; [|done]. intros s E. by destruct (H1 s E) as (? & ? & _).
      * split; [exact Hup|]. intros sts Eo. cbn in Eo. subst o. cbn [Build] in EB.
        destruct (sts_Build rmq) as [s1|] eqn:E; [|done]. injection EB as ->. by apply built_capacity.
    + cbn [wp]. intros _. split; [|split; [done|split; [done|by eexists]]]. intros s [= <-]. split; [done|].
      intros x Hx. apply (told_keyed st0 keyed0) in Hx. destruct x; try done. by destruct b.
  - intros h1 r (Hr1 & Hp1 & Hready & s & -> & Hu). destruct (Hr1 s eq_refl) as [Hl1 Hroom].
    by eapply write_object_completes.
Qed.

Lemma ready_steady st : ready st StatefulSetBuilder -> steady rmq st.
Proof.
  intros Hr cur c d Hcur Hc Hd. destruct (Hr _ Hcur) as [_ [(c' & d' & Hc' & Hd' & _ & Hz) _]].
  rewrite Hc in Hc'. rewrite Hd in Hd'. by simplify_eq.
Qed.

Lemma reconcile_builders_complete bs pre h :
  ResourceBuilders rmq = pre ++ bs -> Forall buildable bs -> Forall (ready (told h)) bs -> pending h = None ->
  wp (reconcile_builders iter rand rmq bs) (assuming serving (fun h' r => exists rmq', r = inl rmq')) h.
Proof.
  revert pre h. induction bs as [|b bs IH]; intros pre h Epre Hbuild Hready Hp; cbn [reconcile_builders].
  { intros _. by eexists. }
  assert (steady rmq (told h)) as Hst.
  { apply ready_steady, (proj1 (Forall_forall _ _) Hready), last_Some_elem_of.
    rewrite <- (ResourceBuilders_last rmq), Epre. by rewrite last_app_cons. }
  apply Forall_cons in Hbuild as [Hb Hbuild]. apply Forall_cons in Hready as [Hr Hready].
  eapply (wp_assuming_bind _ (serving_prefix st0)).
  { apply wp_serving; [eapply reconcile_builder_converges|apply reconcile_builder_completes]; try done; rewrite Epre; set_solver. }
  intros h1 r (Hconv & Hp1 & rmq1 & ->). destruct (Hconv rmq1 eq_refl) as (_ & _ & Ho & Hi).
  destruct (decide (b = StatefulSetBuilder)) as [->|Hne].
  - pose proof (sts_last _ _ _ Epre) as ->. cbn [reconcile_builders wp]. intros _. by eexists.
  - rewrite (Hi Hne). apply (IH (pre ++ [b])); [by rewrite <- (assoc_L (++))|done| |done].
    apply Forall_forall. intros b' Hb'. eapply ready_others; [exact Ho| |by apply (proj1 (Forall_forall _ _) Hready)].
    apply list_elem_of_split in Hb' as (l1 & l2 & ->). intros E.
    apply (builders_differ rmq (pre ++ b :: l1) b' l2 b); [by rewrite <- (assoc_L (++))|set_solver|done].
Qed.
(** ** Passes that are interrupted

    Whatever the answers, a pass leaves each child as it was, gone, or as its
    builder leaves it. *)

Definition evolves (b : ResourceBuilder) (st st' : Store) : Prop :=
  others rmq b st st' /\
  forall o', st' !! key b = Some o' -> (exists o, st !! key b = Some o /\ same_but_status o o') \/ final iter rmq b o'.

Lemma evolves_refl b st : evolves b st st.
Proof. split; [apply others_refl|]. intros o Ho. left. exists o. split; [done|apply same_but_status_refl]. Qed.

Lemma evolves_trans b st1 st2 st3 : evolves b st1 st2 -> evolves b st2 st3 -> evolves b st1 st3.
Proof.
  intros [Ho1 H1] [Ho2 H2]. split; [by eapply others_trans|]. intros o3 E3.
  destruct (H2 o3 E3) as [(o2 & E2 & H23)|?]; [|by right]. destruct (H1 o2 E2) as [(o1 & E1 & H12)|Hf].
  - left. exists o1. split; [done|]. by eapply same_but_status_trans.
  - right. by eapply final_other_status.
Qed.

Lemma evolves_kept st st' : sts_kept st st' -> evolves StatefulSetBuilder st st'.
Proof.
  intros Hk. split; [by apply others_sts|]. intros o Ho. left. destruct (Hk (key StatefulSetBuilder)) as [E|[_ Hs]]; [|by apply Hs].
  exists o. rewrite <- E. split; [done|apply same_but_status_refl].
Qed.

Lemma evolves_final b st st' : others rmq b st st' -> kept iter rmq st' b -> evolves b st st'.
Proof. intros Ho Hk. split; [done|]. intros o E. right. by apply Hk. Qed.

Lemma final_ready b o : final iter rmq b o -> updatable b o /\ sts_admits o.
Proof.
  intros (Hm & b' & HU). split; [by exists o, b'|]. destruct o as [| | | | | |cur]; try done. destruct Hm as [Hrep Hcap].
  destruct (plain_replicas _ Hplain) as [d Hd]. cbn. rewrite Hcap. split; [|split; [done|lia]].
  exists d, d. rewrite Hrep. by repeat split.
Qed.

Lemma same_id b b' :
  b ∈ ResourceBuilders rmq -> b' ∈ ResourceBuilders rmq -> builder_id b' = builder_id b -> b' = b.
Proof. intros Hb%builder_in Hb'%builder_in. destruct b, b'; try done. by subst. Qed.

Lemma evolves_ready b st st' :
  b ∈ ResourceBuilders rmq -> evolves b st st' ->
  Forall (ready st) (ResourceBuilders rmq) -> Forall (ready st') (ResourceBuilders rmq).
Proof.
  intros Hb [Ho He] Hall. rewrite Forall_forall in *. intros b' Hb'. destruct (decide (builder_id b' = builder_id b)) as [Eid|Hne].
  - apply same_id in Eid as ->; [|done|done]. intros o E. destruct (He o E) as [(y & Hy & Hs)|Hf]; [|by apply final_ready].
    destruct (Hall b Hb y Hy). split; [by eapply updatable_other_status|by eapply sts_admits_other_status].
  - eapply ready_others; [exact Ho|done|by apply Hall].
Qed.

Lemma ready_roomy st b : ready st b -> roomy st b.
Proof. intros Hr o Ho. destruct (Hr o Ho) as [_ Ha]. destruct o; try done. by destruct Ha as (_ & ? & _). Qed.

Lemma evolves_roomy b st st' : evolves b st st' -> roomy st b -> roomy st' b.
Proof.
  intros [_ He] Hr o E. destruct (He o E) as [(y & Hy & Hs)|[Hm _]]; [|by apply meets_can_hold].
  eapply can_hold_other_status; [exact Hs|by apply Hr].
Qed.

(** Calls that say nothing of the children. *)
Definition childless (c : call) : Prop := forall a st, effect st (Ev c a) = st.

Lemma calls_childless {A} (p : prog A) h : calls_only childless p -> wp p (fun h' _ => told h' = told h) h.
Proof.
  intros Hp. eapply wp_mono; [|apply Hp]. intros h' r (t & -> & Ht).
  induction t as [|[c a] t IH] using rev_ind; [by rewrite app_nil_r|].
  apply Forall_app in Ht as [Ht Hc%Forall_inv]. rewrite (assoc_L (++)), told_snoc, IH by done. apply Hc.
Qed.

Lemma evolves_read b o a h :
  object_key o = key b -> truthful (h ++ [Ev (GetObject o) a]) ->
  evolves b (told h) (told (h ++ [Ev (GetObject o) a])).
Proof.
  intros Hk [_ Ha]%truthful_snoc. rewrite told_snoc. cbn [effect Ev]. rewrite Hk. destruct a as [x|e].
  - cbn in Ha. rewrite Hk in Ha.
    destruct (read_found id (key b) x (told h) (told_keyed st0 keyed0 h) Ha) as [-> _].
    split; [apply others_insert|]. intros o'. rewrite lookup_insert_eq. intros [= <-]. left. exact Ha.
  - cbn [read]. destruct (IsNotFound e); [|apply evolves_refl]. split; [apply others_delete|]. intros o'. by rewrite lookup_delete_eq.
Qed.

Lemma evolves_write b o h e (a : result ApiError Object) :
  e = Ev (CreateObject o) a \/ e = Ev (UpdateObject o) a -> object_key o = key b -> final iter rmq b o ->
  truthful (h ++ [e]) -> evolves b (told h) (told (h ++ [e])).
Proof.
  intros He Hk Hf Hh. destruct a as [x|er].
  - assert (fixed iter rmq (told (h ++ [e])) b /\ others rmq b (told h) (told (h ++ [e]))) as [Hfix Ho].
    { destruct He as [-> | ->].
      - destruct (told_accepted iter rmq st0 b o x h (CreateObject o) (Ok x)) as (? & _ & _ & ?); try done; by intros.
      - destruct (told_accepted iter rmq st0 b o x h (UpdateObject o) (Ok x)) as (? & _ & _ & ?); try done; by intros. }
    apply evolves_final; [done|by apply fixed_kept].
  - rewrite told_snoc. destruct He as [-> | ->]; apply evolves_refl.
Qed.

Lemma write_once_evolves b s h :
  like b s -> roomy (told h) b -> wp (write_once iter s) (assuming truthful (fun h' _ => evolves b (told h) (told h'))) h.
Proof.
  intros Hs Hr. pose proof Hs as (_ & _ & Hk & _). unfold write_once. rewrite wp_bind. apply CreateOrUpdate_wp.
  intros a. cbv zeta. set (h1 := h ++ [_]).
  assert (truthful h1 -> evolves b (told h) (told h1)) as Hread by (intros Hh; by apply evolves_read).
  assert (forall s0 s1 h2 e (a1 : result ApiError Object), like b s0 -> mutate iter s0 = (s1, None) ->
    e = Ev (CreateObject (ws_Object s1)) a1 \/ e = Ev (UpdateObject (ws_Object s1)) a1 ->
    h2 = h1 ++ [e] -> truthful h2 -> evolves b (told h) (told h2)) as Hwrite.
  { intros s0 s1 h2 e a1 Hl Em He -> Hh.
    destruct (like_mutate _ _ iter_perm Hplain _ _ _ Hl Em) as ((_ & _ & Hk1 & _) & _ & Hf).
    eapply evolves_trans; [apply Hread; by eapply truthful_prefix|]. by eapply evolves_write. }
  destruct a as [x|e].
  - destruct (mutate iter (put_object x s)) as [s1 [e1|]] eqn:Em; [exact Hread|]. split; intros _; [exact Hread|].
    intros a1 Hh. pose proof (truthful_prefix _ _ _ Hh) as Hh1.
    destruct (told_read _ _ keyed0 b _ x h Hk Hh1 Hr) as (_ & Hkx & Hhx).
    eapply Hwrite; [by apply like_put|exact Em|by right|done|done].
  - destruct (IsNotFound e); [|exact Hread]. destruct (mutate iter s) as [s1 [e1|]] eqn:Em; [exact Hread|].
    intros a1 Hh. eapply Hwrite; [exact Hs|exact Em|by left|done|done].
Qed.

Lemma annotateIfNeeded_evolves instance bb b op h :
  rmq_Meta instance = rmq_Meta rmq -> builder_id bb = builder_id b ->
  (if decide (op = OperationResultNone) then placed iter rmq (told h) b else fixed iter rmq (told h) b) ->
  wp (annotateIfNeeded instance bb op) (assuming truthful (fun h' _ => evolves b (told h) (told h'))) h.
Proof.
  intros Hm Hid Hop. unfold annotateIfNeeded. destruct (annotation_target instance bb op) as [[[cm name] k]|] eqn:Et.
  2:{ intros _. apply evolves_refl. }
  destruct (annotation_target_child _ _ _ _ _ _ _ _ Hm Hid Et) as (Hb & Hn & Hne). rewrite decide_False in Hop by done.
  apply (wp_assuming_call _ (truthful_prefix st0)). intros now _. destruct (told_aside st0 h Now now Logic.I) as [<- _].
  set (h1 := h ++ _) in *. assert (kept iter rmq (told h1) b) as Hk.
  { unfold h1. rewrite (proj1 (told_aside st0 h Now now Logic.I)). by apply fixed_kept. }
  eapply (wp_assuming_bind _ (truthful_prefix st0) _ _ (fun h' _ => evolves b (told h1) (told h'))).
  - unfold annotate_target. destruct cm; (eapply (wp_assuming_bind _ (truthful_prefix st0) _ _ (fun h' r => marked iter rmq st0 b h1 h' r));
      [eapply retried_marked; [|exact Hk]; intros h0 Hk0; first [by eapply annotate_once_cm|by eapply annotate_once_sts]|]);
      intros h2 r (Hk2 & Ho2 & _) _; by apply evolves_final.
  - intros h2 [x|e] He; [by intros _|]. unfold event_warning. apply (wp_assuming_call _ (truthful_prefix st0)).
    intros u _ _. by rewrite (proj1 (told_aside st0 h2 (Event _ _ _) u Logic.I)).
Qed.

Lemma childless_setReconcileSuccess i c reason msg : calls_only childless (setReconcileSuccess i c reason msg).
Proof. unfold setReconcileSuccess, set_condition, patch_status. calls; by intros ? ?. Qed.

Lemma write_object_evolves b s h :
  like b s -> roomy (told h) b -> wp (write_object iter s) (assuming truthful (fun h' _ => evolves b (told h) (told h'))) h.
Proof.
  intros Hs Hr. unfold write_object.
  eapply (wp_assuming_bind _ (truthful_prefix st0) _ _ (fun h' r => attempted iter rmq st0 b h h' r /\ evolves b (told h) (told h'))).
  - apply (OnErrorS_wp _ _ (fun s0 h0 => truthful h0 -> like b s0 /\ roomy (told h0) b /\ others rmq b (told h) (told h0) /\
      evolves b (told h) (told h0))).
    { intros _. split; [done|]. split; [done|]. split; [apply others_refl|apply evolves_refl]. }
    intros s0 h0 H0.
    assert (wp (write_once iter s0) (assuming truthful (fun h' r => attempted iter rmq st0 b h h' r /\ evolves b (told h) (told h'))) h0) as Hw.
    { apply (wp_assuming _ (truthful_prefix st0)). intros (Hs0 & Hr0 & Ho0 & He0)%H0.
      eapply wp_mono; [|apply (wp_conj _ _ _ _ (write_once_converges iter rmq st0 iter_perm keyed0 Hplain b s0 h0 Hs0 Hr0)
        (write_once_evolves b s0 h0 Hs0 Hr0))].
      intros h1 r [H1 H2] Hh. destruct (H1 Hh) as (? & ? & ? & ?). split; [|by eapply evolves_trans, H2].
      split; [done|]. split; [done|]. split; [by eapply others_trans|done]. }
    eapply wp_mono; [|exact Hw]. intros h1 r Hr1. split; [exact Hr1|]. destruct (snd r) as [x|e]; [done|].
    intros _ Hh. by destruct (Hr1 Hh) as [(? & ? & ? & _) ?].
  - intros h1 [s1 w] [(Hl & _ & _ & Hop) He]. cbn [fst snd] in *. pose proof Hl as (Hm & Hid & _).
    destruct (write_error w) as [op err] eqn:Ew.
    eapply (wp_assuming_bind _ (truthful_prefix st0) _ _ (fun h2 _ => told h2 = told h1)).
    { eapply wp_mono; [|apply (calls_childless (logAndRecordOperationResult (ws_Object s1) op err) h1)]; [by intros h2 u E _|].
      unfold logAndRecordOperationResult, event_normal, event_warning. destruct err, op; calls; by intros ? ?. }
    intros h2 u E2. destruct err as [e|].
    { assert (forall reason msg, wp (setReconcileSuccess (ws_Instance s1) ConditionFalse reason msg)
        (assuming truthful (fun h3 _ => evolves b (told h) (told h3))) h2) as Hset.
      { intros reason msg. eapply wp_mono; [|apply calls_childless, childless_setReconcileSuccess].
        intros h3 x E3 _. by rewrite E3, E2. }
      destruct e as [|[]| |]; (eapply (wp_assuming_bind _ (truthful_prefix st0)); [apply Hset|]; intros h3 x H3; by intros _). }
    assert (w = Ok (op, None)) as -> by (destruct w as [[? [|]]|]; by injection Ew as <-).
    specialize (Hop op eq_refl). rewrite <- E2 in Hop, He.
    eapply (wp_assuming_bind _ (truthful_prefix st0)); [by eapply annotateIfNeeded_evolves|].
    intros h3 r H3. cbn [wp]. intros _. by eapply evolves_trans.
Qed.

Lemma reads_check_replicas i cur sts : calls_only reads_sts (check_replicas i cur sts).
Proof.
  unfold check_replicas, saveReplicasBeforeZero, scaleDown, scaleFromZeroToBeforeReplicasConfigured,
    removeReplicasBeforeZeroAnnotationIfExists, recordEventsAndSetCondition, updateAnnotation, deleteAnnotation,
    annotate_once, set_condition, patch_status, event_normal, event_warning.
  cbn [ko_get ko_update ko_meta ko_with_meta kobj_cluster]. calls.
Qed.

Lemma reads_prepare_sts s : calls_only reads_sts (prepare_sts iter s).
Proof.
  unfold prepare_sts, check_existing_sts, statefulSet. pose proof reads_check_replicas. pose proof reads_expand_claims.
  calls; eauto.
Qed.

Lemma reconcile_builder_evolves b h :
  b ∈ ResourceBuilders rmq -> Forall (ready (told h)) (ResourceBuilders rmq) ->
  wp (reconcile_builder iter rand rmq b) (assuming truthful (fun h' _ => evolves b (told h) (told h'))) h.
Proof.
  intros Hb Hall. pose proof (proj1 (Forall_forall _ _) Hall) as Hready. unfold reconcile_builder.
  destruct (Build rand rmq b) as [o|e] eqn:EB; [|intros _; apply evolves_refl].
  eapply (wp_assuming_bind _ (truthful_prefix st0) _ _ (fun h' r => evolves b (told h) (told h') /\
    forall s, r = inl s -> like b s /\ roomy (told h') b)).
  - destruct (UpdateMayRequireStsRecreate b) eqn:Es.
    + apply is_sts in Es as ->. eapply wp_mono; [|apply (wp_conj _ _ _ _ (calls_reads_sts st0 keyed0 _ h (reads_prepare_sts _))
        (prepare_sts_converges iter rmq st0 iter_perm keyed0 Hplain _ h (like_built _ _ EB) (ready_steady _ (Hready _ Hb))))].
      intros h1 r [H1 H2] Hh. split; [by apply evolves_kept, H1|]. intros s E. by destruct (H2 Hh s E) as (? & ? & _).
    + cbn [wp]. intros _. split; [apply evolves_refl|]. intros s [= <-]. split; [by apply like_built|].
      by apply ready_roomy, Hready.
  - intros h1 [s|r] [He Hs]; [|by intros _]. destruct (Hs s eq_refl) as [Hl Hr].
    eapply wp_assuming_mono; [|by apply write_object_evolves]. intros h2 r _ H2. by eapply evolves_trans.
Qed.

Lemma reconcile_builders_ready bs pre h :
  ResourceBuilders rmq = pre ++ bs -> Forall (ready (told h)) (ResourceBuilders rmq) ->
  wp (reconcile_builders iter rand rmq bs) (assuming truthful (fun h' _ => Forall (ready (told h')) (ResourceBuilders rmq))) h.
Proof.
  revert pre h. induction bs as [|b bs IH]; intros pre h Epre Hall; cbn [reconcile_builders]; [by intros _|].
  assert (b ∈ ResourceBuilders rmq) as Hb by (rewrite Epre; set_solver).
  assert (steady rmq (told h)) as Hst by (apply ready_steady, (proj1 (Forall_forall _ _) Hall); by apply builder_in).
  eapply (wp_assuming_bind _ (truthful_prefix st0) _ _ (fun h1 r => Forall (ready (told h1)) (ResourceBuilders rmq) /\
    forall rmq1, r = inl rmq1 -> b <> StatefulSetBuilder -> rmq1 = rmq)).
  - eapply wp_mono; [|apply (wp_conj _ _ _ _ (reconcile_builder_evolves b h Hb Hall)
      (reconcile_builder_converges iter rand rmq st0 iter_perm keyed0 Hplain b h Hb Hst))].
    intros h1 r [H1 H2] Hh. split; [by eapply evolves_ready, Hall; [|apply H1]|].
    intros rmq1 E. by destruct (H2 Hh rmq1 E) as (_ & _ & _ & ?).
  - intros h1 [rmq1|r] [H1 Hi]; [|by intros _]. destruct (decide (b = StatefulSetBuilder)) as [->|Hne].
    + pose proof (sts_last _ _ _ Epre) as ->. by intros _.
    + rewrite (Hi rmq1 eq_refl Hne). apply (IH (pre ++ [b])); [by rewrite <- (assoc_L (++))|done].
Qed.
End Completes.

(** ** Passes, one after the other *)

Lemma sts_kept_keyed st st' : well_keyed st -> sts_kept st st' -> well_keyed st'.
Proof.
  intros Hst Hk k o Ho. destruct (Hk k) as [E|[_ Hs]]; [apply Hst; by rewrite <- E|].
  destruct (Hs o Ho) as (y & Hy & Hyo). apply Hst in Hy as <-. by apply same_but_status_key.
Qed.

(** What an execution of a program may end with. *)
Definition outcome {A} (p : prog A) (h : history) (r : A) : Prop := forall Q, wp p Q [] -> Q h r.

Lemma run_outcome {S A} (handler : S -> forall c, S * answer c) (p : prog A) (s : S) :
  outcome p (snd (fst (run handler p s))) (snd (run handler p s)).
Proof. intros Q Hp. pose proof (wp_run handler p Q s Hp) as H. by destruct (run handler p s) as [[? ?] ?]. Qed.

Section Passes.
Context {I : Ini} {O : OwnerRefs} {OL : OwnerRefsLaws} {M : StrategicMerge} {V : Semver} {T : Rfc3339}
  {R : RetryLib} {RL : RetryLaws} {C : CreateOrUpdateLib} {CL : CreateOrUpdateLaws} {SL : SemanticLaws}
  (iter : gmap string ServicePort -> list (string * ServicePort)) (rand : RandSource) (rmq : RabbitmqCluster).

(** The children after any number of passes over the builders, each of which
    may have stopped anywhere, on any error.  Between two passes a deletion of
    the StatefulSet may come to its end. *)
Inductive after_passes (st0 : Store) : Store -> Prop :=
| no_pass : after_passes st0 st0
| one_more st h r st' :
    after_passes st0 st ->
    outcome (reconcile_builders iter rand rmq (ResourceBuilders rmq)) h r -> truthful st h ->
    sts_kept (told st h) st' -> after_passes st0 st'.

Lemma after_passes_ready st0 st :
  (forall m, iter m ≡ₚ map_to_list m) -> plain rmq -> well_keyed st0 ->
  Forall (ready iter rmq st0) (ResourceBuilders rmq) -> after_passes st0 st ->
  well_keyed st /\ Forall (ready iter rmq st) (ResourceBuilders rmq).
Proof.
  intros Hiter Hplain Hkeyed Hready. induction 1 as [|st h r st' _ [Hk Hr] Hout Hh Hkept]; [done|].
  split; [by eapply sts_kept_keyed, Hkept; apply told_keyed|].
  pose proof (Hout _ (reconcile_builders_ready iter rand rmq st Hiter Hk Hplain _ [] [] eq_refl Hr) Hh) as H.
  eapply Forall_impl; [exact H|]. intros b. by apply ready_kept.
Qed.
End Passes.


(** ** Deciding the conditions *)

Definition served_b (h : history) (st : Store) (e : event) : bool :=
  match e with
  | existT (CreateObject _) (Err _) | existT (UpdateObject _) (Err _) | existT (UpdateSts _) (Err _)
  | existT (UpdateConfigMap _) (Err _) | existT (DeleteSts _ _ _) (Err _) | existT (UpdatePVC _ _) (Err _) => false
  | existT (GetObject o) (Err e) => IsNotFound e && negb (bool_decide (is_Some (st !! object_key o)))
  | existT (GetConfigMap _ name) (Err e) => IsNotFound e && negb (bool_decide (is_Some (st !! ("ConfigMap", name))))
  | existT (GetSts _ name) (Err e) =>
      IsNotFound e && (negb (bool_decide (is_Some (st !! ("StatefulSet", name)))) || bool_decide (is_Some (pending h)))
  | existT (GetSts _ _) (Ok _) => match pending h with Some n => (n <? 9)%nat | None => true end
  | existT (GetPVC ns name) (Ok p) =>
      str_eqb (om_Namespace (pvc_Meta p)) ns && str_eqb (om_Name (pvc_Meta p)) name &&
      bool_decide (is_Some (pvcs_Requests (pvc_Spec p)))
  | existT (GetPVC ns name) (Err e) => IsNotFound e && bool_decide ((ns, name) ∉ map fst (pvcs_read h))
  | _ => true
  end.

Lemma not_there {A} (o : option A) : negb (bool_decide (is_Some o)) = true -> o = None.
Proof. rewrite negb_true_iff, bool_decide_eq_false. destruct o as [a|]; [|done]. intros H. exfalso. apply H. by eexists. Qed.

Lemma served_b_spec h st e : served_b h st e = true -> served h st e.
Proof.
  destruct e as [c a]; destruct c; try done; destruct a; try done; cbn [served_b served]; rewrite ?andb_true_iff.
  - destruct (pending h) as [n|]; [|by intros _ m [=]]. intros Hn m [= <-]. by apply Nat.ltb_lt.
  - intros [He [Hn%not_there|Hp%bool_decide_eq_true]%orb_true_iff]; (split; [done|]); [by left|right].
    by destruct Hp as [n ->].
  - intros [[H1%str_eqb_spec H2%str_eqb_spec] H3%bool_decide_eq_true]. done.
  - by intros [He Hn%bool_decide_eq_true].
  - by intros [He Hn%not_there].
  - by intros [He Hn%not_there].
Qed.

Fixpoint serving_b (before : history) (st : Store) (h : history) : bool :=
  match h with
  | [] => true
  | e :: h => truthful_answer_b st e && served_b before st e && serving_b (before ++ [e]) (effect st e) h
  end.

Lemma serving_b_spec st0 h : serving_b [] st0 h = true -> serving st0 h.
Proof.
  enough (forall before, serving_b before (told st0 before) h = true -> forall h1 e h2, h = h1 ++ e :: h2 ->
    truthful_answer (told st0 (before ++ h1)) e /\ served (before ++ h1) (told st0 (before ++ h1)) e) as Hgen
    by (intros H h1 e h2 E; exact (Hgen [] H h1 e h2 E)).
  induction h as [|e0 h IH]; intros before H h1 e h2 E; [by destruct h1|]. cbn [serving_b] in H.
  apply andb_true_iff in H as [[H1 H2]%andb_true_iff H3]. destruct h1 as [|e1 h1]; injection E as <- E.
  - rewrite app_nil_r. split; [by apply truthful_answer_b_spec|by apply served_b_spec].
  - specialize (IH (before ++ [e0])). rewrite told_snoc in IH. specialize (IH H3 h1 e h2 E).
    by rewrite <- !(assoc_L (++)) in IH.
Qed.

Section Deciding.
Context {I : Ini} {O : OwnerRefs} {M : StrategicMerge}
  (iter : gmap string ServicePort -> list (string * ServicePort)) (rand : RandSource)
  (rmq : RabbitmqCluster) (st : Store).

Definition sts_admits_b (o : Object) : bool :=
  match o with
  | OStatefulSet cur =>
      match sp_Replicas (sts_Spec cur), wanted_replicas rmq with
      | Some c, Some d => (c <=? d)%Z && Bool.eqb (c =? 0)%Z (d =? 0)%Z
      | _, _ => false
      end && (negb (sts_capacity cur =? 0)%Z || (wanted_capacity rmq =? 0)%Z) &&
      (sts_capacity cur <=? wanted_capacity rmq)%Z
  | _ => true
  end.

Lemma sts_admits_b_spec o : sts_admits_b o = true -> sts_admits rmq o.
Proof.
  destruct o as [| | | | | |cur]; try done. cbn [sts_admits_b sts_admits]. rewrite !andb_true_iff. intros [[H1 H2] H3].
  destruct (sp_Replicas _) as [c|]; [|done]. destruct (wanted_replicas rmq) as [d|]; [|done].
  apply andb_true_iff in H1 as [Hle Hz%eqb_prop]. split; [|split; [|lia]].
  - exists c, d. split; [done|]. split; [done|]. split; [lia|]. by rewrite <- !Z.eqb_eq, Hz.
  - intros Hc. rewrite Hc in H2. cbn in H2. lia.
Qed.

Definition admitted_b (b : ResourceBuilder) : bool :=
  match Build rand rmq b with Ok o => is_ok (Update iter rmq b o) | Err _ => false end &&
  match st !! built_name rmq b with
  | Some o => is_ok (Update iter rmq b o) && sts_admits_b o
  | None => true
  end.

Lemma is_ok_updatable b o : is_ok (Update iter rmq b o) = true -> updatable iter rmq b o.
Proof. unfold updatable. destruct (Update _ _ _ _) as [[o' b']|]; [by eexists _, _|done]. Qed.

Lemma admitted_b_spec bs :
  forallb admitted_b bs = true -> Forall (fun b => buildable iter rand rmq b /\ ready iter rmq st b) bs.
Proof.
  rewrite forallb_forall. intros H. apply Forall_forall. intros b Hb%list_elem_of_In. specialize (H b Hb).
  unfold admitted_b in H. apply andb_true_iff in H as [H1 H2]. split.
  - destruct (Build rand rmq b) as [o|] eqn:E; [|done]. exists o. split; [exact E|by apply is_ok_updatable].
  - intros o Ho. rewrite Ho in H2. apply andb_true_iff in H2 as [Hu Ha]. split; [by apply is_ok_updatable|by apply sts_admits_b_spec].
Qed.
End Deciding.
