(* ===== verification/Kubectl.v ===== *)
(** * The kubectl plugin

    kubectl-rabbitmq: kubectl.go (the executor), cluster.go (the cluster built
    from the flags of [create]), credentials.go, jobs.go and commands.go.  A
    command is a program over the tool calls of [Kube].  Library code: the
    validation of positional arguments (cobra), quantities and YAML. *)

From S2P Require Import Prelude.
From S2P Require Import Base64.
From S2P Require Import K8s.
From S2P Require Import Metadata.
From S2P Require Import Status.
From S2P Require Import Api.
From S2P Require Import Kube.

(** ** Errors *)

(** An error of a library, a file or a process is its text; [Wrapped] is
    [fmt.Errorf] with a [%w] and, where the text has one, a [%q]. *)
Inductive ToolError :=
| Plain (text : string)
| Wrapped (what : string) (quoted : option string) (cause : ToolError)
| IndexOutOfRange.

(** The error at the bottom of the wrapping. *)
Fixpoint cause_of (e : ToolError) : ToolError :=
  match e with Wrapped _ _ c => cause_of c | _ => e end.

Abbreviation outcome A := (prog (result ToolError A)).

(** [v, err := p; if err != nil { return ..., err' }] *)
Definition check {E A B} (p : prog (result E A)) (f : E -> ToolError) (k : A -> outcome B) : outcome B :=
  do r <- p in match r with Ok a => k a | Err e => Ret (Err (f e)) end.

Definition tool (c : tool_call) : prog (tool_answer c) := perform (Tool c).

Definition plain (r : result string unit) : result ToolError unit := map_err Plain r.

(** ** kubectl.go *)

Record kubectlExecutor := mkExecutor { namespace : string; allNamespaces : bool }.

Definition newKubectlExecutor (ns : string) (all : bool) : kubectlExecutor := mkExecutor ns all.

Definition buildArgs (k : kubectlExecutor) (args : list string) : list string :=
  match args with
  | [] => args
  | first :: rest =>
      let cmdArgs := [first] in
      let cmdArgs :=
        if allNamespaces k then cmdArgs ++ ["--all-namespaces"]
        else if negb (str_eqb (namespace k) "") then cmdArgs ++ ["-n"; namespace k]
        else cmdArgs in
      if (1 <? length args)%nat then cmdArgs ++ rest else cmdArgs
  end.

(** the trace of the debug variable, the same in both methods *)
Definition trace_command (cmdArgs : list string) : prog unit :=
  do debug <- tool (Getenv "KUBECTL_RABBITMQ_DEBUG") in
  if negb (str_eqb debug "")
  then tool (Stderr ("executing: kubectl " +:+ Join cmdArgs " " +:+ nl))
  else Ret tt.

Definition Execute (k : kubectlExecutor) (args : list string) : outcome unit :=
  let cmdArgs := buildArgs k args in
  do _ <- trace_command cmdArgs in
  do r <- tool (RunKubectl cmdArgs) in Ret (plain r).

Definition ExecuteWithOutput (k : kubectlExecutor) (args : list string) : outcome string :=
  let cmdArgs := buildArgs k args in
  do _ <- trace_command cmdArgs in
  do r <- tool (OutputKubectl cmdArgs) in Ret (map_err Plain r).

(** ** cluster.go: the options *)

Record clusterOptions := mkOptions {
  o_Replicas : Z;
  o_Image : string;
  o_ImagePullSecrets : list string;
  o_ServiceType : string;
  o_ServiceAnnotations : gmap string string;
  o_StorageClassName : string;
  o_StorageSize : string;
  o_UnlimitedResources : bool;
  o_MemoryLimit : string;
  o_MemoryRequest : string;
  o_CPULimit : string;
  o_CPURequest : string;
  o_TLSSecretName : string;
  o_TLSCASecretName : string;
  o_DisableNonTLSListeners : bool;
  o_AdditionalPlugins : list string;
  o_EnvConfig : gmap string string;
  o_AdditionalConfigFile : string;
  o_AdvancedConfigFile : string;
  o_TerminationGracePeriodSeconds : Z;
  o_DelayStartSeconds : Z;
  o_SkipPostDeploySteps : bool;
  o_AutoEnableAllFeatureFlags : bool;
  o_RabbitmqVersion : string;
}.

(** The defaults of the flags of [create], for a run without any flag. *)
Definition default_options : clusterOptions :=
  mkOptions 1 "" [] "ClusterIP" ∅ "" "10Gi" false "" "" "" "" "" "" false [] ∅ "" "" 0 0 false false "".

(** [resource.ParseQuantity] *)
Class QuantityLib : Type := { ParseQuantity : string -> result string Quantity }.

(** What is given to [yaml.Marshal]: the cluster with its type, or the nested
    maps of a Job.  A Go map is a list of entries with distinct keys. *)
Inductive Yaml :=
| YString (s : string)
| YInt (n : Z)
| YList (l : list Yaml)
| YMap (m : list (string * Yaml)).

Inductive Manifest :=
| ClusterManifest (apiVersion kind : string) (cluster : RabbitmqCluster)
| JobManifest (job : Yaml).

Class YamlLib : Type := { Marshal : Manifest -> result string string }.

(** The validators of positional arguments the commands use. *)
Inductive PositionalArgs := NoArgs | ExactArgs (n : nat) | MinimumNArgs (n : nat).

Class Cobra : Type := { validArgs : PositionalArgs -> list string -> bool }.

Class CobraLaws `{Cobra} : Prop := {
  NoArgs_law args : validArgs NoArgs args = true -> args = [];
  ExactArgs_law n args : validArgs (ExactArgs n) args = true -> length args = n;
  MinimumNArgs_law n args : validArgs (MinimumNArgs n) args = true -> (n <= length args)%nat
}.

(** ** cluster.go: building the cluster *)

(** [joinSorted] joins, and does not sort. *)
Definition joinSorted (lines : list string) : string :=
  fst (fold_left (fun '(res, i) line =>
         ((if (0 <? i)%nat then res +:+ nl else res) +:+ line, S i)) lines ("", 0%nat)).

Section Cluster.
Context `{QuantityLib}.
(** the order in which Go walks the map of environment variables *)
Context (env_iter : gmap string string -> list (string * string)).

Definition nonempty (s : string) : bool := negb (str_eqb s "").

(** [if s != "" { q, err := resource.ParseQuantity(s); ... }] *)
Definition optional_quantity (what s : string) : result ToolError (option Quantity) :=
  if nonempty s
  then map_err (fun e => Wrapped ("invalid " +:+ what) (Some s) (Plain e))
         (try q := ParseQuantity s in Ok (Some q))
  else Ok None.

Definition put_quantity (k : string) (q : option Quantity) (l : gmap string Quantity) : gmap string Quantity :=
  match q with Some v => <[k := v]> l | None => l end.

(** The branch on [opts.UnlimitedResources]. *)
Definition build_resources (opts : clusterOptions) : result ToolError (option ResourceRequirements) :=
  if o_UnlimitedResources opts then Ok (Some (mkResources (Some ∅) (Some ∅)))
  else
    try memReq := optional_quantity "memory request" (o_MemoryRequest opts) in
    try cpuReq := optional_quantity "cpu request" (o_CPURequest opts) in
    try memLimit := optional_quantity "memory limit" (o_MemoryLimit opts) in
    try cpuLimit := optional_quantity "cpu limit" (o_CPULimit opts) in
    let requests := put_quantity "cpu" cpuReq (put_quantity "memory" memReq ∅) in
    let limits := put_quantity "cpu" cpuLimit (put_quantity "memory" memLimit ∅) in
    let hasResources :=
      existsb (fun q => match q with Some _ => true | None => false end) [memReq; cpuReq; memLimit; cpuLimit] in
    Ok (if hasResources then Some (mkResources (Some limits) (Some requests)) else None).

Definition build_env_config (opts : clusterOptions) : string :=
  if (0 <? size (o_EnvConfig opts))%nat
  then joinSorted (map (fun e => fst e +:+ "=" +:+ snd e) (env_iter (o_EnvConfig opts)))
  else "".

Definition build_image (opts : clusterOptions) : string :=
  if nonempty (o_Image opts) then o_Image opts
  else if nonempty (o_RabbitmqVersion opts) then "rabbitmq:" +:+ o_RabbitmqVersion opts +:+ "-management"
  else "".

Definition build_annotations (opts : clusterOptions) : smap :=
  if nonempty (o_RabbitmqVersion opts) then Some {[RabbitmqVersionAnnotation := o_RabbitmqVersion opts]} else None.

(** [if file != "" { content, err := os.ReadFile(file); ... }] *)
Definition optional_file (what path : string) : outcome string :=
  if nonempty path
  then check (tool (ReadFile path)) (fun e => Wrapped ("failed to read " +:+ what) (Some path) (Plain e))
         (fun content => Ret (Ok content))
  else Ret (Ok "").

Definition positive (n : Z) : option Z := if (0 <? n)%Z then Some n else None.

Definition buildRabbitmqCluster (name : string) (opts : clusterOptions) : outcome RabbitmqCluster :=
  match
    (try size := optional_quantity "storage size" (o_StorageSize opts) in
     try resources := build_resources opts in Ok (size, resources))
  with
  | Err e => Ret (Err e)
  | Ok (size, resources) =>
      check (optional_file "additional config file" (o_AdditionalConfigFile opts)) id (fun additionalConfig =>
      check (optional_file "advanced config file" (o_AdvancedConfigFile opts)) id (fun advancedConfig =>
        let meta := om_with_annotations (build_annotations opts) (meta_named name "") in
        let spec :=
          mkSpec (positive (o_Replicas opts)) (build_image opts)
            (match o_ImagePullSecrets opts with [] => None | l => Some l end)
            (mkServiceSpec (o_ServiceType opts)
               (if (0 <? base.size (o_ServiceAnnotations opts))%nat then Some (o_ServiceAnnotations opts) else None)
               None None)
            (mkPersistence (if nonempty (o_StorageClassName opts) then Some (o_StorageClassName opts) else None)
               size None)
            resources None []
            (mkRmqConf (o_AdditionalPlugins opts) additionalConfig advancedConfig (build_env_config opts) "")
            (mkTLS (o_TLSSecretName opts) (o_TLSCASecretName opts) (o_DisableNonTLSListeners opts))
            (mkOverride None None) (o_SkipPostDeploySteps opts) (o_AutoEnableAllFeatureFlags opts)
            (positive (o_TerminationGracePeriodSeconds opts)) (positive (o_DelayStartSeconds opts))
            (mkBackend None "") in
        Ret (Ok (mkCluster meta spec (mkStatus [] None None 0 "" [])))))
  end.
End Cluster.

(** ** Applying a manifest: cluster.go and jobs.go *)

Section Commands.
Context `{QuantityLib} `{YamlLib} `{Cobra}.
Context (env_iter : gmap string string -> list (string * string)).

(** Marshal, write to a temporary file, close it, run [kubectl apply]; the
    deferred [os.Remove] runs on every path once the file exists.  The two
    callers differ in two texts. *)
Definition apply_manifest (what pattern : string) (k : kubectlExecutor) (m : Manifest) : outcome unit :=
  match Marshal m with
  | Err e => Ret (Err (Wrapped ("failed to marshal " +:+ what) None (Plain e)))
  | Ok yamlData =>
      check (tool (CreateTemp pattern)) (fun e => Wrapped "failed to create temp file" None (Plain e)) (fun tmpfile =>
        do written <- tool (WriteFile tmpfile yamlData) in
        do res <- match written with
                  | Err e =>
                      do _ <- tool (CloseFile tmpfile) in
                      Ret (Err (Wrapped "failed to write yaml to temp file" None (Plain e)))
                  | Ok _ =>
                      do closed <- tool (CloseFile tmpfile) in
                      match closed with
                      | Err e => Ret (Err (Wrapped "failed to close temp file" None (Plain e)))
                      | Ok _ => Execute k ["apply"; "-f"; tmpfile]
                      end
                  end in
        do _ <- tool (RemoveFile tmpfile) in
        Ret res)
  end.

Definition applyCluster (k : kubectlExecutor) (cluster : RabbitmqCluster) : outcome unit :=
  apply_manifest "cluster yaml" "rabbitmq-cluster-*.yaml" k
    (ClusterManifest "rabbitmq.com/v1beta1" "RabbitmqCluster" cluster).

Definition applyJobYAML (k : kubectlExecutor) (job : Yaml) : outcome unit :=
  apply_manifest "job yaml" "perf-test-job-*.yaml" k (JobManifest job).

(** ** credentials.go *)

Record credentials := mkCredentials { Username : string; Password : string }.

(** One entry of the Secret: fetched and decoded. *)
Definition secret_entry (k : kubectlExecutor) (secretName field : string) : outcome string :=
  check (ExecuteWithOutput k ["get"; "secret"; secretName; "-o"; "jsonpath={.data." +:+ field +:+ "}"])
    (Wrapped ("failed to get " +:+ field +:+ " from secret") None) (fun encoded =>
  match DecodeString StdEncoding encoded with
  | Err e => Ret (Err (Wrapped ("failed to decode " +:+ field) None (Plain e)))
  | Ok bytes => Ret (Ok (string_of_bytes bytes))
  end).

Definition getInstanceCredentials (k : kubectlExecutor) (instanceName : string) : outcome credentials :=
  let secretName := instanceName +:+ "-default-user" in
  check (secret_entry k secretName "username") id (fun username =>
  check (secret_entry k secretName "password") id (fun password =>
  Ret (Ok (mkCredentials username password)))).

(** ** jobs.go *)

Definition app_labels (app : string) : Yaml := YMap [("app", YString app)].

(** The Job both commands create; they differ in the application's name, in
    the container's name and image, and in whether it has ports. *)
Definition job_yaml (app container image : string) (ports : option Yaml) (jobArgs : list string) : Yaml :=
  let entry_ports := match ports with Some p => [("ports", p)] | None => [] end in
  YMap
    [ ("apiVersion", YString "batch/v1"); ("kind", YString "Job");
      ("metadata", YMap [("name", YString app); ("labels", app_labels app)]);
      ("spec", YMap
        [ ("completions", YInt 1); ("ttlSecondsAfterFinished", YInt 300);
          ("template", YMap
            [ ("metadata", YMap [("labels", app_labels app)]);
              ("spec", YMap
                [ ("restartPolicy", YString "Never");
                  ("containers", YList
                    [ YMap ([("name", YString container); ("image", YString image)] ++ entry_ports ++
                            [("args", YList (map YString jobArgs))]) ]) ]) ]) ]) ].

Definition perf_test_uri (scheme : string) (creds : credentials) (instance : string) : string :=
  scheme +:+ "://" +:+ Username creds +:+ ":" +:+ Password creds +:+ "@" +:+ instance.

Definition createPerfTestJob (k : kubectlExecutor) (instance : string) (creds : credentials) (args : list string)
  : outcome unit :=
  let jobArgs := ["--uri"; perf_test_uri "amqp" creds instance; "--metrics-prometheus"] ++ args in
  applyJobYAML k
    (job_yaml "perf-test" "rabbitmq-perf-test" "pivotalrabbitmq/perf-test"
       (Some (YList [YMap [("name", YString "prometheus"); ("containerPort", YInt 8080)]])) jobArgs).

Definition createStreamPerfTestJob (k : kubectlExecutor) (instance : string) (creds : credentials)
    (args : list string) : outcome unit :=
  let jobArgs := ["--uris"; perf_test_uri "rabbitmq-stream" creds instance] ++ args in
  applyJobYAML k
    (job_yaml "stream-perf-test" "rabbitmq-stream-perf-test" "pivotalrabbitmq/stream-perf-test" None jobArgs).

(** ** commands.go *)

(** A command: the first word of its usage line, the validator of its
    positional arguments and its [RunE].  [getExecutor()] reads the global
    flags when the command runs: it is the executor [k] below. *)
Record Command := mkCommand {
  cmd_Name : string;
  cmd_Args : PositionalArgs;
  cmd_RunE : list string -> outcome unit;
}.

(** [args[i]] panics out of range. *)
Definition arg {A} (args : list string) (i : nat) (f : string -> outcome A) : outcome A :=
  match args !! i with Some a => f a | None => Ret (Err IndexOutOfRange) end.

Section Executor.
Context (k : kubectlExecutor).

Definition newInstallClusterOperatorCmd : Command :=
  mkCommand "install-cluster-operator" NoArgs (fun _ =>
    Execute k ["apply"; "-f"; "https://github.com/rabbitmq/cluster-operator/releases/latest/download/cluster-operator-ghcr-io.yml"]).

Definition newListCmd : Command :=
  mkCommand "list" NoArgs (fun _ => Execute k ["get"; "rabbitmqclusters"; "--sort-by={.metadata.name}"]).

Definition newCreateCmd (opts : clusterOptions) : Command :=
  mkCommand "create" (ExactArgs 1) (fun args =>
    arg args 0 (fun instanceName =>
    check (buildRabbitmqCluster env_iter instanceName opts) (Wrapped "failed to build cluster" None) (fun cluster =>
    applyCluster k cluster))).

Fixpoint delete_each (clusters : list string) : outcome unit :=
  match clusters with
  | [] => Ret (Ok tt)
  | cluster :: rest => check (Execute k ["delete"; "rabbitmqcluster"; cluster]) id (fun _ => delete_each rest)
  end.

Definition newDeleteCmd : Command := mkCommand "delete" (MinimumNArgs 1) delete_each.

Definition name_selector (instance : string) : string := "app.kubernetes.io/name=" +:+ instance.

Definition newGetCmd : Command :=
  mkCommand "get" (ExactArgs 1) (fun args =>
    arg args 0 (fun instance =>
    Execute k ["get"; "pods,cm,sts,svc,secrets,rs"; "-l"; name_selector instance])).

Fixpoint debug_each (pods : list string) : outcome unit :=
  match pods with
  | [] => Ret (Ok tt)
  | pod :: rest =>
      if str_eqb pod "" then debug_each rest
      else
        do _ <- tool (Stdout (pod +:+ ": ")) in
        check (Execute k ["exec"; pod; "-c"; "rabbitmq"; "--"; "rabbitmqctl"; "set_log_level"; "debug"]) id
          (fun _ => debug_each rest)
  end.

Definition newDebugCmd : Command :=
  mkCommand "debug" (ExactArgs 1) (fun args =>
    arg args 0 (fun instance =>
    check (ExecuteWithOutput k ["get"; "pods"; "-l"; name_selector instance; "-o";
                                "custom-columns=name:.metadata.name"; "--no-headers"]) id (fun output =>
    debug_each (split_on newline (TrimSpace output))))).

Definition newTailCmd : Command :=
  mkCommand "tail" (ExactArgs 1) (fun args => arg args 0 (fun instance => Execute k ["tail"; "--svc"; instance])).

Definition newObserveCmd : Command :=
  mkCommand "observe" (ExactArgs 2) (fun args =>
    arg args 0 (fun instance => arg args 1 (fun node =>
    Execute k ["exec"; "-it"; instance +:+ "-server-" +:+ node; "-c"; "rabbitmq"; "--";
               "rabbitmq-diagnostics"; "observer"]))).

Definition newSecretsCmd : Command :=
  mkCommand "secrets" (ExactArgs 1) (fun args =>
    arg args 0 (fun instance =>
    check (getInstanceCredentials k instance) id (fun creds =>
    do _ <- tool (Stdout ("username: " +:+ Username creds +:+ nl)) in
    do _ <- tool (Stdout ("password: " +:+ Password creds +:+ nl)) in
    Ret (Ok tt)))).

Definition newEnableAllFeatureFlagsCmd : Command :=
  mkCommand "enable-all-feature-flags" (ExactArgs 1) (fun args =>
    arg args 0 (fun instance =>
    Execute k ["exec"; instance +:+ "-server-0"; "-c"; "rabbitmq"; "--"; "rabbitmqctl"; "enable_feature_flag"; "all"])).

Definition newPauseReconciliationCmd : Command :=
  mkCommand "pause-reconciliation" (ExactArgs 1) (fun args =>
    arg args 0 (fun instance =>
    Execute k ["label"; "rabbitmqclusters"; instance; "rabbitmq.com/pauseReconciliation=true"])).

Definition newResumeReconciliationCmd : Command :=
  mkCommand "resume-reconciliation" (ExactArgs 1) (fun args =>
    arg args 0 (fun instance =>
    Execute k ["label"; "rabbitmqclusters"; instance; "rabbitmq.com/pauseReconciliation-"])).

Definition newListPauseReconciliationInstancesCmd : Command :=
  mkCommand "list-pause-reconciliation-instances" NoArgs (fun _ =>
    Execute k ["get"; "rabbitmqclusters"; "-l"; "rabbitmq.com/pauseReconciliation=true"; "--show-labels"]).

(** *** Manage: a goroutine beside the main thread

    The two threads make their calls in an order the scheduler chooses; calls
    are recorded in the order in which they return, and the process ends with
    its main thread.  [schedule] says whose turn it is (true: the goroutine);
    after it only the main thread runs. *)
Fixpoint interleave {R} (schedule : list bool) (background : prog unit) (main : prog R) : prog R :=
  match schedule with
  | [] => main
  | turn :: schedule' =>
      match main with
      | Ret r => Ret r
      | Vis c km =>
          if turn then
            match background with
            | Ret _ => interleave schedule' background main
            | Vis c' kb => Vis c' (fun x => interleave schedule' (kb x) main)
            end
          else Vis c (fun x => interleave schedule' background (km x))
      end
  end.

Definition management_query (serviceName : string) : list string :=
  ["get"; "service"; serviceName; "-o"; "jsonpath={.spec.ports[?(@.name==" +:+ quoted "management-tls" +:+ ")]}"].

Definition open_command (GOOS : string) : string :=
  if str_eqb GOOS "darwin" then "open" else if str_eqb GOOS "linux" then "xdg-open" else "".

Definition newManageCmd (GOOS : string) (schedule : list bool) : Command :=
  mkCommand "manage" (ExactArgs 1) (fun args =>
    arg args 0 (fun instance =>
    let serviceName := instance in
    check (ExecuteWithOutput k (management_query serviceName)) id (fun output =>
    let '(mgmtPort, mgmtURL) :=
      if (0 <? String.length output)%nat then ("15671", "https://localhost:15671/")
      else ("15672", "http://localhost:15672/") in
    let openCmd := open_command GOOS in
    do _ <- (if str_eqb openCmd "" then tool (Stdout ("Please open your browser to " +:+ mgmtURL +:+ nl)) else Ret tt) in
    let forward := Execute k ["port-forward"; "service/" +:+ serviceName; mgmtPort] in
    if nonempty openCmd
    then interleave schedule
           (do _ <- perform (Sleep 2000) in do _ <- Execute k [openCmd; mgmtURL] in Ret tt) forward
    else forward))).

Definition newPerfTestCmd : Command :=
  mkCommand "perf-test" (MinimumNArgs 1) (fun args =>
    arg args 0 (fun instance =>
    let perfTestArgs := drop 1 args in
    check (getInstanceCredentials k instance) id (fun creds => createPerfTestJob k instance creds perfTestArgs))).

Definition newStreamPerfTestCmd : Command :=
  mkCommand "stream-perf-test" (MinimumNArgs 1) (fun args =>
    arg args 0 (fun instance =>
    let streamPerfTestArgs := drop 1 args in
    check (getInstanceCredentials k instance) id (fun creds =>
    createStreamPerfTestJob k instance creds streamPerfTestArgs))).

Definition newVersionCmd (version : string) : Command :=
  mkCommand "version" NoArgs (fun _ =>
    do _ <- tool (Stdout ("kubectl-rabbitmq " +:+ version +:+ nl)) in Ret (Ok tt)).

(** ** main.go: the subcommands, in the order they are added *)
Definition subcommands (opts : clusterOptions) (GOOS : string) (schedule : list bool) (pluginVersion : string)
  : list Command :=
  [ newInstallClusterOperatorCmd; newListCmd; newCreateCmd opts; newDeleteCmd; newGetCmd; newDebugCmd;
    newTailCmd; newObserveCmd; newSecretsCmd; newEnableAllFeatureFlagsCmd; newPauseReconciliationCmd;
    newResumeReconciliationCmd; newListPauseReconciliationInstancesCmd; newManageCmd GOOS schedule;
    newPerfTestCmd; newStreamPerfTestCmd; newVersionCmd pluginVersion ].
End Executor.

(** What cobra reads in the command line: the plugin's own flags, the command
    and its flags and arguments. *)
Record Invocation := mkInvocation {
  inv_namespace : string;
  inv_allNamespaces : bool;
  inv_options : clusterOptions;
  inv_Command : string;
  inv_args : list string;
}.

(** The parsing of cobra: an error for an unknown command or flag, nothing to
    run for what it answers itself (help, completion). *)
Class CommandLine : Type := { parse_command_line : list string -> result string (option Invocation) }.

(** The exit status of a command: a panic of Go exits with 2. *)
Definition exit_status (r : result ToolError unit) : Z :=
  match r with
  | Ok _ => 0
  | Err e => match cause_of e with IndexOutOfRange => 2 | _ => 1 end
  end.

(** [main]: the executor is made from the flags when the command runs. *)
Definition main `{CommandLine} (GOOS : string) (schedule : list bool) (pluginVersion : string)
    (argv : list string) : prog Z :=
  match parse_command_line argv with
  | Err _ => Ret 1%Z
  | Ok None => Ret 0%Z
  | Ok (Some inv) =>
      let getExecutor := newKubectlExecutor (inv_namespace inv) (inv_allNamespaces inv) in
      match find_first (fun cmd => str_eqb (cmd_Name cmd) (inv_Command inv))
              (subcommands getExecutor (inv_options inv) GOOS schedule pluginVersion) with
      | None => Ret 1%Z
      | Some cmd =>
          if validArgs (cmd_Args cmd) (inv_args inv)
          then do r <- cmd_RunE cmd (inv_args inv) in Ret (exit_status r)
          else Ret 1%Z
      end
  end.
End Commands.
