(* ===== verification/KubectlSpec.v ===== *)
(** * What the kubectl plugin's commands do

    Theorems on the commands of [Kubectl], for every answer of kubectl, of the
    file system and of the environment, and on how the plugin fits the
    operator: it looks up the Secret, the Service port, the label and the
    fields that the operator's controllers use. *)

From S2P Require Import Prelude.
From S2P Require Import Base64.
From S2P Require Import K8s.
From S2P Require Import Metadata.
From S2P Require Import Status.
From S2P Require Import Api.
From S2P Require Import Sanitize.
From S2P Require Import Webhook.
From S2P Require Import Services.
From S2P Require Import Ini.
From S2P Require Import Secrets.
From S2P Require Import ResourceBuilder.
From S2P Require Import Kube.
From S2P Require Import Client.
From S2P Require Import Reconcile.
From S2P Require Import Kubectl.

(** ** Reading a history of tool calls *)

(** Reading the debug variable and writing to the terminal is not an action. *)
Definition is_action (c : call) : bool :=
  match c with Tool (Getenv _) | Tool (Stdout _) | Tool (Stderr _) | Sleep _ => false | _ => true end.

Definition actions (h : history) : history := List.filter (fun e => is_action (projT1 e)) h.

Lemma actions_app h h' : actions (h ++ h') = actions h ++ actions h'.
Proof. apply List.filter_app. Qed.

Definition ran (args : list string) (a : result string unit) : event := Ev (Tool (RunKubectl args)) a.
Definition printed (args : list string) (a : result string string) : event := Ev (Tool (OutputKubectl args)) a.

(** The namespace flags of an executor. *)
Definition scope (k : kubectlExecutor) : list string :=
  if allNamespaces k then ["--all-namespaces"]
  else if str_eqb (namespace k) "" then [] else ["-n"; namespace k].

Lemma buildArgs_cons k sub rest : buildArgs k (sub :: rest) = sub :: scope k ++ rest.
Proof.
  unfold buildArgs, scope. destruct (allNamespaces k), (str_eqb (namespace k) ""), rest; cbn; done.
Qed.

(** ** Rules *)

(** What the rules know of the history: the new actions. *)
Lemma trace_command_wp args (Q : history -> unit -> Prop) h :
  (forall h', actions h' = actions h -> Q h' tt) -> wp (trace_command args) Q h.
Proof.
  intros HQ. unfold trace_command. cbn [bind perform tool wp]. intros debug.
  destruct (negb (str_eqb debug "")); cbn [wp bind perform tool].
  - intros []. apply HQ. by rewrite !actions_app, !app_nil_r.
  - apply HQ. by rewrite actions_app, app_nil_r.
Qed.

Lemma Execute_wp k args (Q : history -> result ToolError unit -> Prop) h :
  (forall h' a, actions h' = actions h ++ [ran (buildArgs k args) a] -> Q h' (plain a)) ->
  wp (Execute k args) Q h.
Proof.
  intros HQ. unfold Execute. apply wp_bind, trace_command_wp. intros h1 E a. apply HQ.
  by rewrite actions_app, E.
Qed.

Lemma ExecuteWithOutput_wp k args (Q : history -> result ToolError string -> Prop) h :
  (forall h' a, actions h' = actions h ++ [printed (buildArgs k args) a] -> Q h' (map_err Plain a)) ->
  wp (ExecuteWithOutput k args) Q h.
Proof.
  intros HQ. unfold ExecuteWithOutput. apply wp_bind, trace_command_wp. intros h1 E a. apply HQ.
  by rewrite actions_app, E.
Qed.

Lemma wp_tool c (Q : history -> tool_answer c -> Prop) h :
  (forall a, Q (h ++ [Ev (Tool c) a]) a) -> wp (tool c) Q h.
Proof. done. Qed.

Lemma wp_Ret {A} (a : A) (Q : history -> A -> Prop) h : Q h a -> wp (Ret a) Q h.
Proof. done. Qed.

Lemma check_wp {E A B} (p : prog (result E A)) (f : E -> ToolError) (k : A -> outcome B) Q h :
  wp p (fun h1 r => match r with Ok a => wp (k a) Q h1 | Err e => Q h1 (Err (f e)) end) h ->
  wp (check p f k) Q h.
Proof.
  intros Hp. unfold check. apply wp_bind. eapply wp_mono; [|exact Hp]. by intros h1 [a|e].
Qed.

(** ** Every kubectl command line *)

(** The kubectl commands the plugin uses, and the two programs [manage]
    passes to the executor to open a browser. *)
Definition kubectl_commands : list string :=
  ["apply"; "get"; "delete"; "exec"; "tail"; "label"; "port-forward"; "open"; "xdg-open"].

(** The namespace flags come right after the command, before anything else. *)
Definition scoped (k : kubectlExecutor) (args : list string) : Prop :=
  exists sub rest, args = sub :: scope k ++ rest /\ sub ∈ kubectl_commands.

Definition scoped_call (k : kubectlExecutor) (c : call) : Prop :=
  match c with
  | Tool (RunKubectl args) | Tool (OutputKubectl args) => scoped k args
  | Tool _ | Sleep _ => True
  | _ => False
  end.

Definition no_panic {A} (r : result ToolError A) : Prop :=
  match r with Ok _ => True | Err e => cause_of e <> IndexOutOfRange end.

(** Scoped command lines only, and no panic. *)
Definition safe (k : kubectlExecutor) {A} (p : outcome A) : Prop := always (scoped_call k) no_panic p.

Lemma safe_Ret k {A} (r : result ToolError A) : no_panic r -> safe k (Ret r).
Proof. done. Qed.

Lemma safe_tool k {A} (c : tool_call) (g : tool_answer c -> outcome A) :
  scoped_call k (Tool c) -> (forall a, safe k (g a)) -> safe k (bind (tool c) g).
Proof. done. Qed.

Lemma safe_bind k {A B} (p : outcome A) (g : result ToolError A -> outcome B) :
  safe k p -> (forall r, no_panic r -> safe k (g r)) -> safe k (bind p g).
Proof. apply always_bind. Qed.

Lemma safe_check k {A B} (p : outcome A) (f : ToolError -> ToolError) (g : A -> outcome B) :
  (forall e, cause_of (f e) = cause_of e) -> safe k p -> (forall a, safe k (g a)) -> safe k (check p f g).
Proof.
  intros Hf Hp Hg. apply safe_bind; [done|]. intros [a|e] Hr; [apply Hg|]. cbn in *. by rewrite Hf.
Qed.

(** A failing call whose error is wrapped. *)
Lemma safe_check_call k {E A B} (p : prog (result E A)) (f : E -> ToolError) (g : A -> outcome B) :
  always (scoped_call k) (fun _ => True) p -> (forall e, cause_of (f e) <> IndexOutOfRange) ->
  (forall a, safe k (g a)) -> safe k (check p f g).
Proof. intros Hp Hf Hg. eapply always_bind; [exact Hp|]. intros [a|e] _; [apply Hg | apply Hf]. Qed.

Lemma tool_scoped k c : scoped_call k (Tool c) -> always (scoped_call k) (fun _ => True) (tool c).
Proof. done. Qed.

Lemma trace_scoped k args : always (scoped_call k) (fun _ => True) (trace_command args).
Proof. cbn. split; [done|]. intros a. by destruct (negb _). Qed.

Lemma buildArgs_scoped k sub rest : sub ∈ kubectl_commands -> scoped k (buildArgs k (sub :: rest)).
Proof. intros H. exists sub, rest. by rewrite buildArgs_cons. Qed.

Lemma safe_Execute k sub rest : sub ∈ kubectl_commands -> safe k (Execute k (sub :: rest)).
Proof.
  intros H. eapply always_bind; [apply trace_scoped|]. intros _ _. apply safe_tool; [by apply buildArgs_scoped|].
  by intros [[]|e].
Qed.

Lemma safe_ExecuteWithOutput k sub rest : sub ∈ kubectl_commands -> safe k (ExecuteWithOutput k (sub :: rest)).
Proof.
  intros H. eapply always_bind; [apply trace_scoped|]. intros _ _. apply safe_tool; [by apply buildArgs_scoped|].
  by intros [s|e].
Qed.

Lemma safe_arg k {A} args i (f : string -> outcome A) :
  (i < length args)%nat -> (forall a, safe k (f a)) -> safe k (arg args i f).
Proof.
  intros Hi Hf. unfold arg. destruct (args !! i) eqn:E; [apply Hf|].
  apply lookup_ge_None in E. lia.
Qed.

Create HintDb tools.

(** Follow a command's program. *)
Ltac safe_step :=
  match goal with
  | |- safe _ (Ret _) => apply safe_Ret; done
  | |- safe _ (Execute _ (_ :: _)) => apply safe_Execute; unfold kubectl_commands; set_solver
  | |- safe _ (ExecuteWithOutput _ (_ :: _)) => apply safe_ExecuteWithOutput; unfold kubectl_commands; set_solver
  | |- safe _ (arg _ _ _) => apply safe_arg; [lia | intros]
  | |- safe _ (check (tool _) _ _) => apply safe_check_call; [by apply tool_scoped | done | intros]
  | |- safe _ (check _ _ _) => apply safe_check; [done | | intros]
  | |- safe _ (bind (tool _) _) => apply safe_tool; [done | intros]
  | |- safe _ _ => solve [auto with tools nocore]
  | |- safe _ (match ?x with _ => _ end) => destruct x
  | |- safe _ (let _ := _ in _) => cbv zeta
  end.
Ltac safe := repeat safe_step.

Section Commands.
Context `{QuantityLib} `{YamlLib} `{Cobra} `{!CobraLaws}.
Context (env_iter : gmap string string -> list (string * string)).

Lemma safe_apply what pattern k m : safe k (apply_manifest what pattern k m).
Proof.
  unfold apply_manifest. destruct (Marshal m); [|by apply safe_Ret].
  apply safe_check_call; [by apply tool_scoped | done | intros tmpfile].
  apply safe_tool; [done|]. intros written.
  assert (safe k match written with
    | Ok _ =>
        do closed <- tool (CloseFile tmpfile) in
        match closed with
        | Ok _ => Execute k ["apply"; "-f"; tmpfile]
        | Err e => Ret (Err (Wrapped "failed to close temp file" None (Plain e)))
        end
    | Err e =>
        do _ <- tool (CloseFile tmpfile) in
        Ret (Err (Wrapped "failed to write yaml to temp file" None (Plain e)))
    end) as Hw by safe.
  apply safe_bind; [done|]. intros r Hr. apply safe_tool; [done|]. intros; by apply safe_Ret.
Qed.
Hint Resolve safe_apply : tools.

Lemma safe_applyCluster k c : safe k (applyCluster k c).
Proof. apply safe_apply. Qed.
Lemma safe_applyJob k j : safe k (applyJobYAML k j).
Proof. apply safe_apply. Qed.

Lemma safe_secret_entry k n field : safe k (secret_entry k n field).
Proof. unfold secret_entry. safe. Qed.
Hint Resolve safe_applyCluster safe_applyJob safe_secret_entry : tools.

Lemma safe_credentials k n : safe k (getInstanceCredentials k n).
Proof. unfold getInstanceCredentials. cbv zeta. safe. Qed.

Lemma safe_optional_file k what path : safe k (optional_file what path).
Proof. unfold optional_file. safe. Qed.
Hint Resolve safe_credentials safe_optional_file : tools.

(** The flags that are parsed as quantities. *)
Definition quantity_flags (opts : clusterOptions) : list string :=
  o_StorageSize opts ::
  if o_UnlimitedResources opts then []
  else [o_MemoryRequest opts; o_CPURequest opts; o_MemoryLimit opts; o_CPULimit opts].

Definition bad_quantity (s : string) (e : string) : Prop := s <> "" /\ ParseQuantity s = Err e.

Lemma optional_quantity_err what s e :
  optional_quantity what s = Err e -> exists x, cause_of e = Plain x /\ bad_quantity s x.
Proof.
  unfold optional_quantity, nonempty. destruct (str_eqb s "") eqn:E; [done|]. cbn.
  destruct (ParseQuantity s) as [q|x] eqn:Eq; [done|]. intros [= <-]. exists x. split; [done|]. split; [|done].
  intros ->. done.
Qed.

Lemma optional_quantity_ok what s q :
  optional_quantity what s = Ok q ->
  match q with Some v => s <> "" /\ ParseQuantity s = Ok v | None => s = "" end.
Proof.
  unfold optional_quantity, nonempty. destruct (str_eqb s "") eqn:E.
  - apply str_eqb_spec in E. by intros [= <-].
  - cbn. destruct (ParseQuantity s) as [v|x] eqn:Eq; [|done]. intros [= <-]. split; [|done]. by intros ->.
Qed.

Lemma build_resources_err opts e :
  build_resources opts = Err e ->
  exists s x, s ∈ quantity_flags opts /\ cause_of e = Plain x /\ bad_quantity s x.
Proof.
  unfold build_resources, quantity_flags. destruct (o_UnlimitedResources opts); [done|].
  intros He. repeat
    (apply result_bind_err in He as [(? & Hx & Hb)%optional_quantity_err | (? & _ & He)];
     [eexists _, _; split; [|split; [exact Hx | exact Hb]]; set_solver|]).
  discriminate.
Qed.

Lemma quantities_err opts e :
  (try size := optional_quantity "storage size" (o_StorageSize opts) in
   try resources := build_resources opts in Ok (size, resources)) = Err e ->
  exists s x, s ∈ quantity_flags opts /\ cause_of e = Plain x /\ bad_quantity s x.
Proof.
  intros [(x & Hx & Hb)%optional_quantity_err | (size & _ & [He|(r & _ & He)]%result_bind_err)]%result_bind_err.
  - exists (o_StorageSize opts), x. split; [|done]. unfold quantity_flags. set_solver.
  - by apply build_resources_err.
  - done.
Qed.

Lemma safe_build k name opts : safe k (buildRabbitmqCluster env_iter name opts).
Proof.
  unfold buildRabbitmqCluster. destruct (result_bind _ _) as [[size res]|e] eqn:E.
  - safe.
  - apply safe_Ret. apply quantities_err in E as (s & x & _ & Hx & _). cbn. by rewrite Hx.
Qed.

Lemma safe_delete_each k l : safe k (delete_each k l).
Proof. induction l as [|c l IH]; cbn [delete_each]; [by apply safe_Ret|]. safe. Qed.

Lemma safe_debug_each k l : safe k (debug_each k l).
Proof. induction l as [|c l IH]; cbn [debug_each]; [by apply safe_Ret|]. destruct (str_eqb c ""); safe. Qed.
Hint Resolve safe_build safe_delete_each safe_debug_each : tools.

(** *** Threads *)

Lemma always_interleave P {R} (Q : R -> Prop) schedule (b : prog unit) (p : prog R) :
  always P (fun _ => True) b -> always P Q p -> always P Q (interleave schedule b p).
Proof.
  revert b p. induction schedule as [|turn schedule IH]; intros b p Hb Hp; cbn [interleave]; [done|].
  destruct p as [r|c km]; [done|]. destruct turn.
  - destruct b as [u|c' kb]; [by apply IH|]. destruct Hb as [Hc Hb]. split; [done|]. intros a. by apply IH.
  - destruct Hp as [Hc Hp]. split; [done|]. intros a. by apply IH.
Qed.

Lemma open_command_known GOOS : open_command GOOS <> "" -> open_command GOOS ∈ kubectl_commands.
Proof. unfold open_command, kubectl_commands. destruct (str_eqb GOOS "darwin"), (str_eqb GOOS "linux"); set_solver. Qed.

Lemma safe_manage k GOOS schedule args : length args = 1%nat -> safe k (cmd_RunE (newManageCmd k GOOS schedule) args).
Proof.
  intros Ha. cbn [cmd_RunE newManageCmd]. apply safe_arg; [lia|]. intros instance. cbv zeta.
  apply safe_check; [done | apply safe_ExecuteWithOutput; unfold kubectl_commands; set_solver |]. intros output.
  match goal with |- context [if ?b then ("15671", ?u) else ?y] =>
    destruct (if b then ("15671", u) else y) as [mgmtPort mgmtURL] end.
  assert (safe k (Execute k ["port-forward"; "service/" +:+ instance; mgmtPort])) as Hf by safe.
  unfold nonempty. destruct (str_eqb (open_command GOOS) "") eqn:E; cbn [negb].
  - by apply safe_tool.
  - cbn [bind]. apply always_interleave; [|done]. split; [done|]. intros ?.
    apply (always_bind _ no_panic); [|done]. apply safe_Execute, open_command_known.
    intros Ho. by rewrite Ho in E.
Qed.

Lemma commands_safe k opts GOOS schedule version :
  Forall (fun cmd => forall args, validArgs (cmd_Args cmd) args = true -> safe k (cmd_RunE cmd args))
    (subcommands env_iter k opts GOOS schedule version).
Proof.
  repeat apply Forall_cons_2; try apply Forall_nil_2; intros args Ha; cbn [cmd_Args cmd_RunE] in *;
    try (apply NoArgs_law in Ha); try (apply ExactArgs_law in Ha); try (apply MinimumNArgs_law in Ha);
    try (by apply safe_manage);
    unfold newInstallClusterOperatorCmd, newListCmd, newCreateCmd, newDeleteCmd, newGetCmd, newDebugCmd,
      newTailCmd, newObserveCmd, newSecretsCmd, newEnableAllFeatureFlagsCmd, newPauseReconciliationCmd,
      newResumeReconciliationCmd, newListPauseReconciliationInstancesCmd, newPerfTestCmd,
      newStreamPerfTestCmd, newVersionCmd in *; cbn [cmd_RunE cmd_Args] in *; safe; apply safe_applyJob.
Qed.

(** Every subcommand, run with arguments its validator accepts, does not
    panic; and every kubectl command line it runs, whatever kubectl, the
    files and the environment answer, starts with a command followed at once
    by the namespace flags of the plugin's own command line, so that they
    never end up behind a [--] or in another program's arguments. *)
Theorem commands_scoped (k : kubectlExecutor) (opts : clusterOptions) (GOOS : string) (schedule : list bool)
    (version : string) (cmd : Command) (args : list string) :
  cmd ∈ subcommands env_iter k opts GOOS schedule version -> validArgs (cmd_Args cmd) args = true ->
  wp (cmd_RunE cmd args) (fun h r =>
    no_panic r /\ forall c, c ∈ map (@projT1 call answer) h -> scoped_call k c) [].
Proof.
  intros Hcmd Hargs. apply (wp_mono _ (fun h' r => no_panic r /\ exists t, h' = [] ++ t /\
    Forall (fun e => scoped_call k (projT1 e)) t)).
  { intros h r (Hr & t & -> & Ht). split; [done|]. cbn. intros c (e & -> & He)%list_elem_of_fmap.
    rewrite Forall_forall in Ht. by apply Ht. }
  apply always_wp. by apply (proj1 (Forall_forall _ _) (commands_safe k opts GOOS schedule version) cmd Hcmd).
Qed.

(** The kubectl command lines of a command line of the plugin. *)
Definition scoped_by_flags `{CommandLine} (argv : list string) (c : call) : Prop :=
  exists inv, parse_command_line argv = Ok (Some inv) /\
    scoped_call (newKubectlExecutor (inv_namespace inv) (inv_allNamespaces inv)) c.

(** C25. The plugin from its command line to its exit status: whatever kubectl,
    the files and the environment answer, it exits with 0 or 1 and never
    panics; a command line that cobra refuses, or whose arguments the command's
    validator refuses, runs nothing; and every kubectl command line that is run
    starts with a command followed at once by the namespace flags of the
    plugin's own command line, so that they never end up behind a [--] or in
    another program's arguments. *)
Theorem main_scoped `{CommandLine} (GOOS : string) (schedule : list bool) (version : string) (argv : list string) :
  wp (main env_iter GOOS schedule version argv) (fun h code =>
    (code = 0 \/ code = 1)%Z /\
    (forall e, parse_command_line argv = Err e -> h = [] /\ code = 1%Z) /\
    (forall inv cmd, parse_command_line argv = Ok (Some inv) ->
       cmd ∈ subcommands env_iter (newKubectlExecutor (inv_namespace inv) (inv_allNamespaces inv))
               (inv_options inv) GOOS schedule version ->
       cmd_Name cmd = inv_Command inv -> validArgs (cmd_Args cmd) (inv_args inv) = false -> h = [] /\ code = 1%Z) /\
    forall c, c ∈ map (@projT1 call answer) h -> scoped_by_flags argv c) [].
Proof.
  unfold main, scoped_by_flags. destruct (parse_command_line argv) as [[inv|]|e] eqn:Ep.
  2,3: cbn [wp]; split_and!; [auto|by intros|by intros|set_solver].
  set (k := newKubectlExecutor _ _). set (cmds := subcommands _ _ _ _ _ _).
  pose proof (commands_safe k (inv_options inv) GOOS schedule version) as Hall. fold cmds in Hall.
  assert (forall cmd, cmd ∈ cmds -> cmd_Name cmd = inv_Command inv ->
    find_first (fun c => str_eqb (cmd_Name c) (inv_Command inv)) cmds = Some cmd) as Huniq.
  { intros cmd Hcmd Hname. unfold cmds, subcommands in *. rewrite <- Hname.
    repeat (apply elem_of_cons in Hcmd as [->|Hcmd]; [vm_compute; reflexivity|]). by apply not_elem_of_nil in Hcmd. }
  destruct (find_first _ cmds) as [cmd|] eqn:Ef.
  2:{ cbn [wp]. split_and!; [auto|by intros| |set_solver]. intros i c [= <-] Hc Hn. by specialize (Huniq c Hc Hn). }
  apply find_some in Ef as [Hcmd%list_elem_of_In Hname].
  destruct (validArgs (cmd_Args cmd) (inv_args inv)) eqn:Ea.
  2:{ cbn [wp]. split_and!; [auto|by intros|by auto|set_solver]. }
  rewrite wp_bind. eapply wp_mono; [|apply always_wp, (proj1 (Forall_forall _ _) Hall cmd Hcmd _ Ea)].
  intros h r (Hr & t & -> & Ht). cbn [wp app]. split_and!.
  - destruct r as [[]|e]; cbn; [by left|right]. cbn in Hr. by destruct (cause_of e).
  - by intros.
  - intros i c [= <-] Hc Hn Hv. specialize (Huniq c Hc Hn). injection Huniq as ->. by rewrite Ea in Hv.
  - intros c (e & -> & He)%list_elem_of_fmap. exists inv. split; [done|]. rewrite Forall_forall in Ht. by apply Ht.
Qed.

(** ** The cluster [create] builds *)

Lemma joinSorted_Join lines : joinSorted lines = Join lines nl.
Proof.
  unfold joinSorted.
  assert (forall l res i, fst (fold_left (fun '(res, i) line =>
      ((if (0 <? i)%nat then res +:+ nl else res) +:+ line, S i)) l (res, S i)) =
      res +:+ match l with [] => "" | _ => nl +:+ Join l nl end) as Hf.
  { induction l as [|x l IH]; intros res i; cbn [fold_left fst]; [by rewrite str_app_nil_r|].
    rewrite IH. cbn [Nat.ltb Nat.leb Join]. rewrite !str_app_assoc. destruct l; [by rewrite str_app_nil_r|done]. }
  destruct lines as [|x l]; [done|]. cbn [fold_left fst]. rewrite Hf. cbn [Nat.ltb Nat.leb].
  change ("" +:+ x) with x. destruct l; [by rewrite str_app_nil_r | done].
Qed.

(** The quantity a flag asks for. *)
Definition requested (s : string) : option Quantity :=
  if nonempty s then match ParseQuantity s with Ok q => Some q | Err _ => None end else None.

(** An entry of a resource list of the optional requirements. *)
Definition resource (field : ResourceRequirements -> ResourceList) (k : string) (r : option ResourceRequirements)
  : option Quantity :=
  match r with
  | Some res => match field res with Some l => l !! k | None => None end
  | None => None
  end.

Definition limit_of (c : RabbitmqCluster) (k : string) : option Quantity :=
  resource res_Limits k (spec_Resources (rmq_Spec c)).
Definition request_of (c : RabbitmqCluster) (k : string) : option Quantity :=
  resource res_Requests k (spec_Resources (rmq_Spec c)).

Definition unless_unlimited (opts : clusterOptions) (q : option Quantity) : option Quantity :=
  if o_UnlimitedResources opts then None else q.

(** What the operator sees of a cluster created with the options. *)
Definition cluster_matches (name : string) (opts : clusterOptions) (c : RabbitmqCluster) : Prop :=
  rmq_Name c = name /\ validatePodSpecOverride c = Ok tt /\
  spec_Replicas (rmq_Spec c) = positive (o_Replicas opts) /\
  SecretTLSEnabled c = nonempty (o_TLSSecretName opts) /\
  DisableNonTLSListeners c = o_DisableNonTLSListeners opts /\
  (forall plugin, AdditionalPluginEnabled c plugin = slice_contains (o_AdditionalPlugins opts) plugin) /\
  per_Storage (spec_Persistence (rmq_Spec c)) = requested (o_StorageSize opts) /\
  limit_of c "memory" = unless_unlimited opts (requested (o_MemoryLimit opts)) /\
  limit_of c "cpu" = unless_unlimited opts (requested (o_CPULimit opts)) /\
  request_of c "memory" = unless_unlimited opts (requested (o_MemoryRequest opts)) /\
  request_of c "cpu" = unless_unlimited opts (requested (o_CPURequest opts)) /\
  (exists lines, lines ≡ₚ map (fun e => fst e +:+ "=" +:+ snd e) (map_to_list (o_EnvConfig opts)) /\
     rc_EnvConfig (spec_Rabbitmq (rmq_Spec c)) = Join lines nl).

Lemma requested_ok what s q : optional_quantity what s = Ok q -> q = requested s.
Proof.
  intros Hq%optional_quantity_ok. unfold requested, nonempty. destruct q as [v|].
  - destruct Hq as [Hs ->]. destruct (str_eqb s "") eqn:E; [by apply str_eqb_spec in E | done].
  - by subst.
Qed.

Lemma put_quantity_lookup k k' q l :
  put_quantity k q l !! k' = if decide (k = k') then (match q with Some v => Some v | None => l !! k' end) else l !! k'.
Proof. destruct q as [v|]; cbn; destruct (decide (k = k')) as [->|]; by simplify_map_eq. Qed.

Lemma build_resources_ok opts res :
  build_resources opts = Ok res ->
  resource res_Limits "memory" res = unless_unlimited opts (requested (o_MemoryLimit opts)) /\
  resource res_Limits "cpu" res = unless_unlimited opts (requested (o_CPULimit opts)) /\
  resource res_Requests "memory" res = unless_unlimited opts (requested (o_MemoryRequest opts)) /\
  resource res_Requests "cpu" res = unless_unlimited opts (requested (o_CPURequest opts)).
Proof.
  unfold build_resources, unless_unlimited. destruct (o_UnlimitedResources opts).
  - intros [= <-]. by repeat split.
  - intros (mr & Hmr & (cr & Hcr & (ml & Hml & (cl & Hcl & [= <-])%result_bind_ok)%result_bind_ok)%result_bind_ok)%result_bind_ok.
    apply requested_ok in Hmr as <-, Hcr as <-, Hml as <-, Hcl as <-.
    destruct mr, cr, ml, cl; by repeat split.
Qed.

(** An error whose cause is a flag that is not a quantity, or a file that
    could not be read. *)
Definition refused (opts : clusterOptions) (h : history) (e : ToolError) : Prop :=
  exists x, cause_of e = Plain x /\
    ((exists s, s ∈ quantity_flags opts /\ bad_quantity s x) \/ exists path, Ev (Tool (ReadFile path)) (Err x) ∈ h).

Lemma build_spec name opts h :
  (forall m, env_iter m ≡ₚ map_to_list m) ->
  wp (buildRabbitmqCluster env_iter name opts) (fun h' r =>
    match r with
    | Ok c => cluster_matches name opts c
    | Err e => refused opts h' e
    end) h.
Proof.
  intros Hperm. unfold buildRabbitmqCluster. destruct (result_bind _ _) as [[size res]|e] eqn:E.
  2: { apply quantities_err in E as (s & x & Hs & Hx & Hb). exists x. eauto. }
  apply result_bind_ok in E as (sz & Hsz%requested_ok & (rs & (R1 & R2 & R3 & R4)%build_resources_ok & [= -> ->])%result_bind_ok).
  assert (forall what path (k : string -> outcome RabbitmqCluster) Q h,
    (forall h' content, wp (k content) Q h') ->
    (forall h' e x, cause_of e = Plain x -> (exists path, Ev (Tool (ReadFile path)) (Err x) ∈ h') -> Q h' (Err e)) ->
    wp (check (optional_file what path) id k) Q h) as Hfile.
  { intros what path k Q h0 Hk HQ. apply check_wp. unfold optional_file.
    destruct (nonempty path); [|apply Hk]. apply check_wp. cbn. intros [content|x]; [apply Hk|]. cbn.
    eapply HQ; [reflexivity|]. exists path. set_solver. }
  apply Hfile; [intros h1 additional; apply Hfile; [intros h2 advanced|]|].
  - cbn [wp]. unfold cluster_matches.
    do 7 (split; [done|]).
    split; [exact R1|]. split; [exact R2|]. split; [exact R3|]. split; [exact R4|].
    exists (map (fun e => fst e +:+ "=" +:+ snd e) (env_iter (o_EnvConfig opts))). split; [by rewrite Hperm|].
    cbn [rmq_Spec spec_Rabbitmq rc_EnvConfig]. unfold build_env_config. rewrite joinSorted_Join.
    destruct (decide (o_EnvConfig opts = ∅)) as [->|Hne].
    + specialize (Hperm ∅). rewrite map_to_list_empty in Hperm. apply Permutation_nil_r in Hperm. by rewrite Hperm.
    + apply map_size_non_empty_iff in Hne. by destruct (base.size (o_EnvConfig opts)).
  - intros h2 e x Hx Hr. exists x. eauto.
  - intros h2 e x Hx Hr. exists x. eauto.
Qed.

(** The comment of [joinSorted] promises an order that it does not make: the
    order of the lines is the one Go walks the map in. *)
Lemma joinSorted_not_sorted : exists l l', l ≡ₚ l' /\ joinSorted l <> joinSorted l'.
Proof. exists ["A=1"; "B=2"], ["B=2"; "A=1"]. split; [apply Permutation_swap | by vm_compute]. Qed.

(** Building the cluster fails only for a flag that is not a quantity or a
    file that cannot be read, the error naming that cause; otherwise the
    cluster is what the flags say as the operator will read it, and the
    operator's admission webhook accepts it. *)
Theorem buildRabbitmqCluster_spec (name : string) (opts : clusterOptions) :
  (forall m, env_iter m ≡ₚ map_to_list m) ->
  wp (buildRabbitmqCluster env_iter name opts) (fun h r =>
    match r with
    | Ok c => cluster_matches name opts c
    | Err e => refused opts h e
    end) [].
Proof. intros Hperm. by apply build_spec. Qed.

(** ** Applying a manifest *)

(** The runs of [apply_manifest]: its actions and its result. *)
Inductive applies (k : kubectlExecutor) (pattern : string) (m : Manifest)
  : history -> result ToolError unit -> Prop :=
| marshal_failed x e : Marshal m = Err x -> applies k pattern m [] (Err e)
| create_failed y x e :
    Marshal m = Ok y -> applies k pattern m [Ev (Tool (CreateTemp pattern)) (Err x)] (Err e)
| write_failed y f written closed removed e :
    Marshal m = Ok y -> is_ok written && is_ok closed = false ->
    applies k pattern m
      [ Ev (Tool (CreateTemp pattern)) (Ok f); Ev (Tool (WriteFile f y)) written;
        Ev (Tool (CloseFile f)) closed; Ev (Tool (RemoveFile f)) removed ] (Err e)
| applied y f answer removed :
    Marshal m = Ok y ->
    applies k pattern m
      [ Ev (Tool (CreateTemp pattern)) (Ok f); Ev (Tool (WriteFile f y)) (Ok tt);
        Ev (Tool (CloseFile f)) (Ok tt); ran (buildArgs k ["apply"; "-f"; f]) answer;
        Ev (Tool (RemoveFile f)) removed ] (plain answer).

Lemma apply_manifest_wp what pattern k m h :
  wp (apply_manifest what pattern k m) (fun h' r => exists t, actions h' = actions h ++ t /\ applies k pattern m t r) h.
Proof.
  unfold apply_manifest. destruct (Marshal m) as [y|x] eqn:Em.
  2: { exists []. rewrite app_nil_r. split; [done|]. by eapply marshal_failed. }
  apply check_wp. cbn [tool perform wp bind]. intros [f|x].
  2: { eexists. rewrite actions_app. split; [done|]. by eapply create_failed. }
  intros [[]|e].
  - intros [[]|e]; [apply wp_bind, Execute_wp; intros h1 a E; cbn [bind tool perform wp]|]; intros removed; eexists.
    + rewrite actions_app, E, !actions_app, <- !(assoc_L (++)). split; [reflexivity|]. by apply applied.
    + rewrite !actions_app, <- !(assoc_L (++)). split; [reflexivity|]. by eapply write_failed.
  - intros closed removed. eexists. rewrite !actions_app, <- !(assoc_L (++)). split; [reflexivity|].
    by eapply write_failed.
Qed.

Definition is_read (c : call) : Prop := exists path, c = Tool (ReadFile path).

Lemma build_reads name opts : always is_read (fun _ => True) (buildRabbitmqCluster env_iter name opts).
Proof.
  unfold buildRabbitmqCluster. destruct (result_bind _ _) as [[size res]|e]; [|done].
  assert (forall what path, always is_read (fun _ => True) (optional_file what path)) as Hf.
  { intros what path. unfold optional_file. destruct (nonempty path); [|done].
    split; [by exists path|]. by intros [content|x]. }
  eapply always_bind; [apply Hf|]. intros [additional|x] _; [|done].
  eapply always_bind; [apply Hf|]. by intros [advanced|x] _.
Qed.

Lemma reads_are_actions t : Forall (fun e => is_read (projT1 e)) t -> actions t = t.
Proof.
  induction 1 as [|e t [path He] _ IH]; [done|]. unfold actions in *. cbn. by rewrite He, IH.
Qed.


(** ** One kubectl run for each item *)

(** All items in order, or up to the first that failed. *)
Definition each_run (k : kubectlExecutor) (cmd : string -> list string) (items : list string)
    (t : history) (r : result ToolError unit) : Prop :=
  let done_for l := map (fun i => ran (buildArgs k (cmd i)) (Ok tt)) l in
  (r = Ok tt /\ t = done_for items) \/
  exists before i after x, items = before ++ i :: after /\ r = Err (Plain x) /\
    t = done_for before ++ [ran (buildArgs k (cmd i)) (Err x)].

Lemma each_run_nil k cmd : each_run k cmd [] [] (Ok tt).
Proof. by left. Qed.

Lemma each_run_fail k cmd i items x :
  each_run k cmd (i :: items) [ran (buildArgs k (cmd i)) (Err x)] (Err (Plain x)).
Proof. right. by exists [], i, items, x. Qed.

Lemma each_run_cons k cmd i items t r :
  each_run k cmd items t r -> each_run k cmd (i :: items) (ran (buildArgs k (cmd i)) (Ok tt) :: t) r.
Proof.
  intros [[-> ->] | (before & j & after & x & -> & -> & ->)]; [by left|]. right.
  by exists (i :: before), j, after, x.
Qed.

(** The step of both loops. *)
Lemma each_run_step k cmd i items (loop : outcome unit) h :
  (forall h', wp loop (fun h1 r => exists t, actions h1 = actions h' ++ t /\ each_run k cmd items t r) h') ->
  wp (check (Execute k (cmd i)) id (fun _ => loop))
    (fun h1 r => exists t, actions h1 = actions h ++ t /\ each_run k cmd (i :: items) t r) h.
Proof.
  intros Hloop. apply check_wp, Execute_wp. intros h1 [[]|x] E; cbn [plain map_err].
  - eapply wp_mono; [|apply Hloop]. intros h2 r (t & E2 & Ht). eexists. rewrite E2, E, <- (assoc_L (++)).
    split; [done|]. by apply each_run_cons.
  - eexists. split; [exact E|]. apply each_run_fail.
Qed.

Definition delete_args (cluster : string) : list string := ["delete"; "rabbitmqcluster"; cluster].
Definition debug_args (pod : string) : list string :=
  ["exec"; pod; "-c"; "rabbitmq"; "--"; "rabbitmqctl"; "set_log_level"; "debug"].

Lemma delete_each_wp k clusters h :
  wp (delete_each k clusters) (fun h' r => exists t, actions h' = actions h ++ t /\ each_run k delete_args clusters t r) h.
Proof.
  revert h. induction clusters as [|c l IH]; intros h; cbn [delete_each].
  - exists []. rewrite app_nil_r. split; [done|]. apply each_run_nil.
  - by apply (each_run_step k delete_args).
Qed.

Lemma debug_each_wp k pods h :
  wp (debug_each k pods) (fun h' r => exists t, actions h' = actions h ++ t /\
    each_run k debug_args (List.filter nonempty pods) t r) h.
Proof.
  revert h. induction pods as [|p l IH]; intros h; cbn [debug_each].
  - exists []. rewrite app_nil_r. split; [done|]. apply each_run_nil.
  - unfold nonempty at 1. cbn [List.filter]. destruct (str_eqb p "") eqn:E; cbn [negb]; [apply IH|].
    intros []. cbn [bind].
    eapply wp_mono; [|by apply (each_run_step k debug_args p (List.filter nonempty l) (debug_each k l))].
    intros h1 r (t & Et & Ht). exists t. split; [|done]. rewrite Et, actions_app. by rewrite app_nil_r.
Qed.

(** [delete] deletes the clusters of its command line one by one in that
    order, and [debug] sets the log level on the pods kubectl listed, in
    that order, skipping blank lines; both stop at the first failure and
    return it, and succeed only when every run did. *)
Theorem delete_and_debug_spec (k : kubectlExecutor) (instance : string) (clusters : list string) :
  wp (cmd_RunE (newDeleteCmd k) clusters) (fun h r => each_run k delete_args clusters (actions h) r) [] /\
  wp (cmd_RunE (newDebugCmd k) [instance]) (fun h r =>
    exists args a t, actions h = printed args a :: t /\
      match a with
      | Err x => t = [] /\ r = Err (Plain x)
      | Ok output => each_run k debug_args (List.filter nonempty (split_on newline (TrimSpace output))) t r
      end) [].
Proof.
  split.
  - eapply wp_mono; [|apply delete_each_wp]. by intros h r (t & -> & Ht).
  - cbn [cmd_RunE newDebugCmd arg lookup list_lookup]. apply check_wp, ExecuteWithOutput_wp. intros h1 a E.
    destruct a as [output|x]; cbn [map_err].
    + eapply wp_mono; [|apply debug_each_wp]. intros h2 r (t & E2 & Ht). rewrite E in E2.
      eexists _, _, t. split; [exact E2 | exact Ht].
    + eexists _, _, []. split; [exact E | done].
Qed.

(** ** Credentials *)

Definition entry_args (secretName field : string) : list string :=
  ["get"; "secret"; secretName; "-o"; "jsonpath={.data." +:+ field +:+ "}"].

(** What kubectl printed of a Secret is its data as the API server encodes
    it. *)
Definition shows (k : kubectlExecutor) (secret : Secret) (data : gmap string string) (h : history) : Prop :=
  forall field out, printed (buildArgs k (entry_args (om_Name (sec_Meta secret)) field)) (Ok out) ∈ actions h ->
    out = EncodeToString StdEncoding (bytes_of (entry data field)).

Lemma decode_shown s : DecodeString StdEncoding (EncodeToString StdEncoding (bytes_of s)) = Ok (bytes_of s).
Proof. apply DecodeString_EncodeToString; [apply StdEncoding_good | apply bytes_of_range]. Qed.

Definition kubectl_failed (h : history) : Prop := exists args x, printed args (Err x) ∈ actions h.

Lemma secret_entry_wp k secret data field h :
  wp (secret_entry k (om_Name (sec_Meta secret)) field) (fun h' r =>
    exists a, actions h' = actions h ++ [printed (buildArgs k (entry_args (om_Name (sec_Meta secret)) field)) a] /\
      (kubectl_failed h' \/ (shows k secret data h' -> r = Ok (entry data field)))) h.
Proof.
  apply check_wp, ExecuteWithOutput_wp. intros h1 a E. fold (entry_args (om_Name (sec_Meta secret)) field) in E.
  destruct a as [out|x]; cbn [map_err].
  - destruct (decide (out = EncodeToString StdEncoding (bytes_of (entry data field)))) as [->|Hne].
    + rewrite decode_shown. cbn [wp]. exists (Ok (EncodeToString StdEncoding (bytes_of (entry data field)))).
      split; [done|]. right. intros _. by rewrite string_of_bytes_of.
    + destruct (DecodeString StdEncoding out); cbn [wp]; exists (Ok out); (split; [done|]); right; intros Hs;
        destruct Hne; apply (Hs field); rewrite E; apply elem_of_app; right; by apply list_elem_of_singleton.
  - exists (Err x). split; [done|]. left. eexists _, x. rewrite E. apply elem_of_app. right. by apply list_elem_of_singleton.
Qed.

Lemma getInstanceCredentials_wp k instanceName secret data h :
  om_Name (sec_Meta secret) = instanceName +:+ "-default-user" ->
  wp (getInstanceCredentials k instanceName) (fun h' r =>
    kubectl_failed h' \/
    (shows k secret data h' -> r = Ok (mkCredentials (entry data "username") (entry data "password")))) h.
Proof.
  intros Hname. unfold getInstanceCredentials. cbv zeta. rewrite <- Hname.
  assert (forall h1 h2 t, actions h2 = actions h1 ++ t -> kubectl_failed h1 -> kubectl_failed h2) as Hf.
  { intros h1 h2 t E (args & x & Hin). exists args, x. rewrite E. apply elem_of_app. by left. }
  assert (forall h1 h2 t, actions h2 = actions h1 ++ t -> shows k secret data h2 -> shows k secret data h1) as Hsh.
  { intros h1 h2 t E Hs f out Hin. apply (Hs f). rewrite E. apply elem_of_app. by left. }
  apply check_wp. eapply wp_mono; [|apply (secret_entry_wp k secret data)].
  intros h1 r1 (a1 & E1 & Hu). destruct r1 as [u|e]; cbn [id].
  - apply check_wp. eapply wp_mono; [|apply (secret_entry_wp k secret data)].
    intros h2 r2 (a2 & E2 & Hp). destruct Hu as [Hu|Hu].
    + assert (kubectl_failed h2) by (by eapply Hf). destruct r2; cbn [wp id]; by left.
    + destruct r2 as [p|e]; cbn [wp id]; (destruct Hp as [Hp|Hp]; [by left|]); right; intros Hs;
        specialize (Hp Hs); specialize (Hu (Hsh _ _ _ E2 Hs)); simplify_eq. done.
  - destruct Hu as [Hu|Hu]; [by left|]. right. intros Hs. by specialize (Hu Hs).
Qed.

(** A character that cannot end the user information of a URI. *)
Definition userinfo_char (a : Ascii.ascii) : bool :=
  negb (slice_contains [":"; "@"; "/"; "?"; "#"] (String a "")).

Lemma str_forall_take p n s : str_forall p s = true -> str_forall p (str_take n s) = true.
Proof. revert n. induction s as [|a s IH]; intros [|n]; cbn; [done..|]. intros [-> Hs]%andb_prop. by apply IH. Qed.

Lemma str_forall_app p s t : str_forall p (s +:+ t) = str_forall p s && str_forall p t.
Proof.
  induction s as [|a s IH]; [done|]. change (String a s +:+ t) with (String a (s +:+ t)). cbn.
  by rewrite IH, andb_assoc.
Qed.

Lemma generated_userinfo rand n s :
  randomEncodedString rand n = Ok s \/ generateUsername rand n = Ok s -> str_forall userinfo_char s = true.
Proof.
  assert (forall bytes, str_forall userinfo_char (EncodeToString URLEncoding bytes) = true) as He
    by (intros; by apply EncodeToString_chars).
  intros [(bytes & _ & [= <-])%result_bind_ok | (enc & (bytes & _ & [= <-])%result_bind_ok & Hs)%result_bind_ok]; [done|].
  destruct (_ <? _)%nat in Hs; [done|]. injection Hs as <-. rewrite str_forall_app. by apply str_forall_take.
Qed.

Context `{Ini}.

(** C24. The plugin finds the operator's credentials: it asks for the Secret the
    operator builds for the instance, and when kubectl prints that Secret's
    data in base64, as the API server encodes it, the user name and the
    password it decodes are exactly the ones the operator stored, whatever
    characters they have; generated ones have no character that would end
    the user information of the URI they are put in for the performance
    tests. *)
Theorem credentials_found (k : kubectlExecutor) (rand : RandSource) (instance : RabbitmqCluster)
    (secret : Secret) (data : gmap string string) :
  secret_Build rand instance = Ok secret -> sec_Data secret = Some data ->
  wp (getInstanceCredentials k (rmq_Name instance)) (fun h r =>
    kubectl_failed h \/
    (shows k secret data h -> r = Ok (mkCredentials (entry data "username") (entry data "password")))) [] /\
  (configured_credentials (rc_AdditionalConfig (spec_Rabbitmq (rmq_Spec instance))) = Ok ("", "") ->
   str_forall userinfo_char (entry data "username") = true /\
   str_forall userinfo_char (entry data "password") = true).
Proof.
  intros (creds & Hc & (u & Hu & (p & Hp & (conf & _ & [= <-])%result_bind_ok)%result_bind_ok)%result_bind_ok)%result_bind_ok.
  intros [= <-]. split.
  - apply getInstanceCredentials_wp. cbn [sec_Meta om_Name meta_named]. by rewrite ChildResourceName_tail.
  - intros E. rewrite E in Hc. injection Hc as <-. cbn [fst snd] in *.
    unfold entry. rewrite !updateConnectionString_lookup_ne, !secret_updatePorts_lookup by done.
    split; eapply generated_userinfo; [right; exact Hu | left; exact Hp].
Qed.

(** ** Pausing and resuming *)

(** [kubectl label] and the selectors of [kubectl get -l]: documented to set,
    to remove and to compare one label. *)
Class LabelTool : Type := {
  label_with : string -> gmap string string -> gmap string string;
  selects : string -> gmap string string -> bool
}.

Definition no_equals (s : string) : bool := negb (Contains s "=").

Class LabelToolLaws `{LabelTool} : Prop := {
  label_set key value labels :
    no_equals key = true -> no_equals value = true ->
    label_with (key +:+ "=" +:+ value) labels = <[key := value]> labels;
  label_remove key labels : no_equals key = true -> label_with (key +:+ "-") labels = delete key labels;
  selects_law key value labels :
    no_equals key = true -> no_equals value = true ->
    selects (key +:+ "=" +:+ value) labels = bool_decide (labels !! key = Some value)
}.

Definition with_labels (l : gmap string string) (rmq : RabbitmqCluster) : RabbitmqCluster :=
  rmq_with_meta (om_with_labels (Some l) (rmq_Meta rmq)) rmq.

Lemma paused_labels rmq l : paused (with_labels l rmq) = bool_decide (l !! pauseReconciliationLabel = Some "true").
Proof.
  unfold paused, rmq_Labels. cbn [with_labels rmq_with_meta rmq_Meta om_with_labels om_Labels smap_get option_bind mbind].
  destruct (l !! pauseReconciliationLabel) as [v|]; [|done]. unfold str_eqb. apply bool_decide_ext. split; congruence.
Qed.


(** ** Port forwarding beside a goroutine *)

(** All executions of [p] when other threads add events in [N] before each of
    its calls. *)
Fixpoint wp_beside (N : event -> Prop) {R} (p : prog R) (Q : history -> R -> Prop) (h : history) : Prop :=
  match p with
  | Ret r => Q h r
  | Vis c f => forall n a, Forall N n -> wp_beside N (f a) Q (h ++ n ++ [Ev c a])
  end.

Lemma wp_beside_wp N {R} (p : prog R) Q h : wp_beside N p Q h -> wp p Q h.
Proof.
  revert h. induction p as [r|c f IH]; intros h; cbn; [done|]. intros Hp a. apply IH.
  by apply (Hp [] a).
Qed.

Lemma interleave_wp (P : call -> Prop) (N : event -> Prop) {R} schedule (b : prog unit) (p : prog R) Q h :
  (forall c a, P c -> N (Ev c a)) -> always P (fun _ => True) b ->
  wp_beside N p Q h -> wp (interleave schedule b p) Q h.
Proof.
  intros HN Hb Hp.
  assert (forall n, Forall N n -> (forall r, p = Ret r -> n = []) -> wp (interleave schedule b p) Q (h ++ n)) as Hgen.
  2: { specialize (Hgen [] (Forall_nil_2 _) (fun _ _ => eq_refl)). by rewrite app_nil_r in Hgen. }
  revert b p h Hb Hp. induction schedule as [|turn schedule IH]; intros b p h Hb Hp n Hn Hret; cbn [interleave].
  - destruct p as [r|c f]; [by rewrite (Hret r eq_refl), app_nil_r|].
    cbn. intros a. rewrite <- (assoc_L (++)). apply (wp_beside_wp N). by apply Hp.
  - destruct p as [r|c f]; [by rewrite (Hret r eq_refl), app_nil_r|]. destruct turn.
    + destruct b as [u|c' g]; [by apply IH|]. destruct Hb as [Hc Hb]. cbn. intros a.
      rewrite <- (assoc_L (++)). apply IH; [by apply Hb | done | | done].
      apply Forall_app. split; [done|]. apply Forall_singleton. by apply HN.
    + cbn. intros a. rewrite <- (app_nil_r ((h ++ n) ++ _)), <- (assoc_L (++) h). apply IH; [done | | done..].
      by apply Hp.
Qed.

(** The only thing the goroutine of [manage] does is to run its command. *)
Definition browser (k : kubectlExecutor) (GOOS mgmtURL : string) (e : event) : Prop :=
  exists a, e = ran (buildArgs k [open_command GOOS; mgmtURL]) a.

Definition noise (k : kubectlExecutor) (GOOS mgmtURL : string) (e : event) : Prop :=
  is_action (projT1 e) = false \/ browser k GOOS mgmtURL e.

Lemma noise_actions k GOOS url n : Forall (noise k GOOS url) n -> Forall (browser k GOOS url) (actions n).
Proof.
  induction 1 as [|e n [He|He] _ IH]; [done| |]; unfold actions in *; cbn; [by rewrite He|].
  destruct (is_action (projT1 e)); [by constructor | done].
Qed.

Definition background (k : kubectlExecutor) (GOOS url : string) : prog unit :=
  do _ <- perform (Sleep 2000) in do _ <- Execute k [open_command GOOS; url] in Ret tt.

Definition background_call (k : kubectlExecutor) (GOOS url : string) (c : call) : Prop :=
  is_action c = false \/ c = Tool (RunKubectl (buildArgs k [open_command GOOS; url])).

Lemma background_always k GOOS url : always (background_call k GOOS url) (fun _ => True) (background k GOOS url).
Proof.
  split; [by left|]. intros ?.
  change (always (background_call k GOOS url) (fun _ => True)
            (bind (Execute k [open_command GOOS; url]) (fun _ => Ret tt))).
  apply (always_bind _ (fun _ => True)); [|done].
  apply (always_bind _ (fun _ => True)).
  - split; [by left|]. intros debug. cbn [bind]. destruct (negb (str_eqb debug "")); [|done].
    split; [by left | done].
  - intros _ _. split; [by right | done].
Qed.

Lemma forward_beside k GOOS url args h :
  wp_beside (noise k GOOS url) (Execute k args) (fun h' r => exists bs b, actions h' = actions h ++ bs ++ [ran (buildArgs k args) b] /\
    Forall (browser k GOOS url) bs /\ r = plain b) h.
Proof.
  unfold Execute. cbn [bind tool perform trace_command wp_beside]. intros n1 debug Hn1.
  destruct (negb (str_eqb debug "")); cbn [bind perform tool wp_beside].
  - intros n2 u Hn2 n3 b Hn3. exists (actions n1 ++ actions n2 ++ actions n3), b. split; [|split; [|done]].
    + rewrite !actions_app. cbn [actions List.filter projT1 is_action Ev]. by rewrite !app_nil_r, <- !(assoc_L (++)).
    + apply Forall_app; split; [by apply noise_actions|]. apply Forall_app; split; by apply noise_actions.
  - intros n3 b Hn3. exists (actions n1 ++ actions n3), b. split; [|split; [|done]].
    + rewrite !actions_app. cbn [actions List.filter projT1 is_action Ev]. by rewrite !app_nil_r, <- !(assoc_L (++)).
    + apply Forall_app; split; by apply noise_actions.
Qed.

(** The ports of the operator's Service, as [manage] chooses between them. *)
Definition manage_port (tls : bool) : string := if tls then "15671" else "15672".
Definition manage_url (tls : bool) : string :=
  if tls then "https://localhost:15671/" else "http://localhost:15672/".

Definition has_port (name : string) (ports : list ServicePort) : bool :=
  existsb (fun p => str_eqb (port_Name p) name) ports.

Lemma management_ports instance :
  generateServicePortsMap instance !! "management-tls" =
    (if TLSEnabled instance then Some (tcp_port "management-tls" 15671 "https") else None) /\
  (DisableNonTLSListeners instance = false ->
   generateServicePortsMap instance !! "management" = Some (tcp_port "management" 15672 "http")).
Proof.
  unfold generateServicePortsMap. destruct (DisableNonTLSListeners instance), (TLSEnabled instance);
    PodTemplate.port_cases instance; by vm_compute.
Qed.

Lemma has_port_spec iter instance old name :
  (forall m, iter m ≡ₚ map_to_list m) ->
  has_port name (updatePorts iter instance old) = bool_decide (name ∈ dom (generateServicePortsMap instance)).
Proof.
  intros Hperm. destruct (updatePorts_facts iter Hperm instance old) as (_ & D & _).
  symmetry. unfold has_port. destruct (existsb _ _) eqn:E.
  - apply bool_decide_eq_true, D. apply existsb_exists in E as (p & Hp%list_elem_of_In & Hn%str_eqb_spec).
    apply list_elem_of_fmap. eauto.
  - apply bool_decide_eq_false. intros (p & -> & Hp)%D%list_elem_of_fmap.
    apply (proj2 (not_true_iff_false _)) in E. destruct E. apply existsb_exists. exists p.
    split; [by apply list_elem_of_In | by apply str_eqb_spec].
Qed.

Lemma manage_port_served iter instance old tls :
  (forall m, iter m ≡ₚ map_to_list m) -> (DisableNonTLSListeners instance = true -> TLSEnabled instance = true) ->
  tls = has_port "management-tls" (updatePorts iter instance old) ->
  exists p, p ∈ updatePorts iter instance old /\ Itoa (port_Port p) = manage_port tls.
Proof.
  intros Hperm Hlisteners ->. rewrite (has_port_spec _ _ _ _ Hperm).
  destruct (updatePorts_facts iter Hperm instance old) as (_ & D & P).
  assert (forall name q, generateServicePortsMap instance !! name = Some q ->
    exists p, p ∈ updatePorts iter instance old /\ port_Port p = port_Port q) as Hfind.
  { intros name q Hq. assert (name ∈ dom (generateServicePortsMap instance)) as Hin by (by eapply elem_of_dom_2).
    apply D, list_elem_of_fmap in Hin as (p & -> & Hp). exists p. split; [done|].
    destruct (P p Hp) as (q' & Hq' & ->). rewrite Hq in Hq'. by injection Hq' as <-. }
  destruct (management_ports instance) as [Htls Hplain]. 
  destruct (TLSEnabled instance) eqn:E.
  - rewrite bool_decide_eq_true_2 by (by eapply elem_of_dom_2).
    destruct (Hfind _ _ Htls) as (p & Hp & Hport). exists p. split; [done|]. by rewrite Hport.
  - rewrite bool_decide_eq_false_2 by (by apply not_elem_of_dom).
    destruct (DisableNonTLSListeners instance); [by specialize (Hlisteners eq_refl)|].
    destruct (Hfind _ _ (Hplain eq_refl)) as (p & Hp & Hport). exists p. split; [done|]. by rewrite Hport.
Qed.


End Commands.
