(* ===== verification/Manager.v ===== *)
(** * The operator process

    cmd/main.go: from the environment and the command line to a running
    manager, or to an exit; pkg/profiling; and the wiring of the controllers,
    SetupWithManager and the owner index of rabbitmqcluster_controller.go.
    The steps of the setup are library calls: their failures are a
    parameter. *)

From S2P Require Import Prelude.
From S2P Require Import Strconv.
From S2P Require Import K8s.
From S2P Require Import Metadata.
From S2P Require Import Status.
From S2P Require Import Api.
From S2P Require Import Webhook.
From S2P Require Import ResourceBuilder.
From S2P Require Import Kube.
From S2P Require Import Controller.
From S2P Require Import Tls.

(** ** Options of the manager *)

(** The handlers of net/http/pprof. *)
Inductive PprofHandler := pprof_Index | pprof_Cmdline | pprof_Profile | pprof_Symbol | pprof_Trace.

(** The flags, after parsing. *)
Record Flags := mkFlags {
  metricsAddr : string;
  probeAddr : string;
  secureMetrics : bool;
  metricsCertPath : string;
  metricsCertName : string;
  metricsCertKey : string;
  enableHTTP2 : bool;
}.

Definition default_flags : Flags := mkFlags ":8080" ":8081" false "" "tls.crt" "tls.key" false.

Record MetricsOptions := mkMetrics {
  mo_BindAddress : string;
  mo_SecureServing : bool;
  mo_CertDir : string;
  mo_CertName : string;
  mo_KeyName : string;
  mo_FilterProvider : bool;
  mo_ExtraHandlers : option (gmap string PprofHandler);
}.

(** The manager's options; [opt_NextProtos] is what the TLS options of the
    metrics and webhook servers set, none when they set nothing.  A label
    selector is the pair of a key and the value it must have. *)
Record Options := mkMgrOptions {
  opt_Metrics : MetricsOptions;
  opt_NextProtos : option (list string);
  opt_HealthProbeBindAddress : string;
  opt_LeaderElection : bool;
  opt_LeaderElectionNamespace : string;
  opt_LeaderElectionID : string;
  opt_DefaultNamespaces : option (gset string);
  opt_ByObject : gmap string (option (string * string));
  opt_LeaseDuration : option Z;
  opt_RenewDeadline : option Z;
  opt_RetryPeriod : option Z;
}.

(** ** pkg/profiling *)

Definition pprofEndpoints : gmap string PprofHandler := list_to_map
  [ ("/debug/pprof", pprof_Index); ("/debug/pprof/allocs", pprof_Index); ("/debug/pprof/block", pprof_Index);
    ("/debug/pprof/cmdline", pprof_Cmdline); ("/debug/pprof/goroutine", pprof_Index);
    ("/debug/pprof/heap", pprof_Index); ("/debug/pprof/mutex", pprof_Index);
    ("/debug/pprof/profile", pprof_Profile); ("/debug/pprof/symbol", pprof_Symbol);
    ("/debug/pprof/threadcreate", pprof_Index); ("/debug/pprof/trace", pprof_Trace) ].

Definition with_extra_handlers (h : gmap string PprofHandler) (m : MetricsOptions) : MetricsOptions :=
  mkMetrics (mo_BindAddress m) (mo_SecureServing m) (mo_CertDir m) (mo_CertName m) (mo_KeyName m)
    (mo_FilterProvider m) (Some h).

(** The endpoints are written over the handlers there are. *)
Definition AddDebugPprofEndpoints (o : Options) : result string Options :=
  let handlers := pprofEndpoints ∪ default ∅ (mo_ExtraHandlers (opt_Metrics o)) in
  Ok (mkMgrOptions (with_extra_handlers handlers (opt_Metrics o)) (opt_NextProtos o) (opt_HealthProbeBindAddress o)
        (opt_LeaderElection o) (opt_LeaderElectionNamespace o) (opt_LeaderElectionID o) (opt_DefaultNamespaces o)
        (opt_ByObject o) (opt_LeaseDuration o) (opt_RenewDeadline o) (opt_RetryPeriod o)).

(** ** Steps of the setup *)

(** What [For], [Owns] and [IndexField] are called with. *)
Record ControllerWiring := mkWiring {
  w_Indexed : list string;
  w_For : string;
  w_Owns : list string;
}.

Inductive SetupStep :=
| NewRequirement (key value : string)
| GetConfigOrDie
| NewManager (o : Options)
| NewForConfigOrDie
| IndexField (kind field : string)
| CompleteController (w : ControllerWiring) (cfg : ReconcilerConfig) (imagePullSecrets : string)
| CompleteDeprecatedFeatures (interval : Z)
| SetupWebhook (d : RabbitmqClusterCustomDefaulter)
| AddReadyzCheck (name : string)
| AddHealthzCheck (name : string)
| Start.

(** [os.Exit(1)], after the message that was logged; the functions named
    [OrDie] end the process themselves. *)
Inductive Exit := ExitWith (msg : string).

(** The setup is a sequence of steps: [lib] is what the library answers to
    each, given the steps before it; the first failure ends the process. *)
Section Setup.
Context (lib : list SetupStep -> SetupStep -> result string unit).

Definition setup (A : Type) : Type := list SetupStep -> list SetupStep * result Exit A.

Definition s_ret {A} (a : A) : setup A := fun done => (done, Ok a).
Definition s_exit {A} (msg : string) : setup A := fun done => (done, Err (ExitWith msg)).
Definition s_bind {A B} (m : setup A) (f : A -> setup B) : setup B :=
  fun done => match m done with
              | (done', Ok a) => f a done'
              | (done', Err e) => (done', Err e)
              end.

(** A step that is logged and ends the process when it fails. *)
Definition step (msg : string) (s : SetupStep) : setup unit :=
  fun done => match lib done s with
              | Ok _ => (done ++ [s], Ok tt)
              | Err _ => (done ++ [s], Err (ExitWith msg))
              end.
End Setup.

Declare Scope setup_scope.
Delimit Scope setup_scope with setup.
Notation "'run' x <- m 'in' k" := (s_bind m (fun x => k))
  (at level 10, x pattern, m at level 100, k at level 200) : setup_scope.
#[local] Open Scope setup_scope.

(** ** rabbitmqcluster_controller.go: the wiring *)

Definition ownerKey : string := ".metadata.controller".
Definition ownerKind : string := "RabbitmqCluster".
Definition apiGVStr : string := "rabbitmq.com/v1beta1".

Definition wiring : ControllerWiring :=
  mkWiring ["StatefulSet"; "ConfigMap"; "Service"] "RabbitmqCluster"
    ["StatefulSet"; "ConfigMap"; "Service"; "Role"; "RoleBinding"; "ServiceAccount"; "Secret"].

Definition validateAndGetOwner (owner : option OwnerReference) : list string :=
  match owner with
  | None => []
  | Some o =>
      if negb (str_eqb (or_APIVersion o) apiGVStr) || negb (str_eqb (or_Kind o) ownerKind) then []
      else [or_Name o]
  end.

(** [rawObj] is any object of the API; only the kinds of [Object] have an
    owner that is looked up. *)
Definition addResourceToIndex `{OwnerRefs} (rawObj : option Object) : list string :=
  match rawObj with
  | Some o => validateAndGetOwner (GetControllerOf (object_meta o))
  | None => []
  end.

Section Main.
Context (lib : list SetupStep -> SetupStep -> result string unit).

Fixpoint index_fields (kinds : list string) : setup unit :=
  match kinds with
  | [] => s_ret tt
  | k :: rest => run _ <- step lib "unable to create controller" (IndexField k ownerKey) in index_fields rest
  end.

Definition SetupWithManager (cfg : ReconcilerConfig) (imagePullSecrets : string) : setup unit :=
  run _ <- index_fields (w_Indexed wiring) in
  step lib "unable to create controller" (CompleteController wiring cfg imagePullSecrets).

(** ** main.go *)

Abbreviation environment := (gmap string string).

Definition Getenv (env : environment) (k : string) : string := default "" (env !! k).

Definition second : Z := 1000000000.

(** Multiplying durations wraps around at 64 bits. *)
Definition getEnvInDuration (env : environment) (envName : string) : setup Z :=
  let durationStr := Getenv env envName in
  if str_eqb durationStr "" then s_ret (wrap64 (0 * second))
  else match ParseInt64 durationStr with
       | None => s_exit ("unable to parse provided '" +:+ envName +:+ "'")
       | Some durationInt => s_ret (wrap64 (durationInt * second))
       end.

(** [if d := getEnvInDuration(name); d != 0 { options.X = &d }] *)
Definition optional_duration (env : environment) (envName : string) : setup (option Z) :=
  run d <- getEnvInDuration env envName in s_ret (if (d =? 0)%Z then None else Some d).

Definition scope_namespaces (operatorScopeNamespace : string) : option (gset string) :=
  if str_eqb operatorScopeNamespace "" then None
  else if Contains operatorScopeNamespace "," then
    Some (list_to_set (split_on (Ascii.ascii_of_nat 44) operatorScopeNamespace))
  else Some {[operatorScopeNamespace]}.

Definition rmqLabel : string * string := ("app.kubernetes.io/part-of", "rabbitmq").

Definition cacheByObject : gmap string (option (string * string)) := list_to_map
  [ ("RabbitmqCluster", None); ("StatefulSet", Some rmqLabel); ("Pod", Some rmqLabel);
    ("Service", Some rmqLabel); ("ConfigMap", Some rmqLabel); ("Secret", Some rmqLabel);
    ("ServiceAccount", Some rmqLabel); ("EndpointSlice", Some rmqLabel); ("Role", Some rmqLabel);
    ("RoleBinding", Some rmqLabel) ].

Definition initial_options (flags : Flags) (operatorNamespace operatorScopeNamespace : string) : Options :=
  mkMgrOptions
    (mkMetrics (metricsAddr flags) (secureMetrics flags) (metricsCertPath flags) (metricsCertName flags)
       (metricsCertKey flags) (secureMetrics flags) None)
    (if enableHTTP2 flags then None else Some ["http/1.1"])
    (probeAddr flags) true operatorNamespace "rabbitmq-cluster-operator-leader-election"
    (scope_namespaces operatorScopeNamespace) cacheByObject None None None.

Definition with_durations (lease renew retry : option Z) (o : Options) : Options :=
  mkMgrOptions (opt_Metrics o) (opt_NextProtos o) (opt_HealthProbeBindAddress o) (opt_LeaderElection o)
    (opt_LeaderElectionNamespace o) (opt_LeaderElectionID o) (opt_DefaultNamespaces o) (opt_ByObject o)
    lease renew retry.

(** A value that does not parse leaves profiling off. *)
Definition with_profiling (env : environment) (o : Options) : setup Options :=
  match env !! "ENABLE_DEBUG_PPROF" ≫= ParseBool with
  | Some true => match AddDebugPprofEndpoints o with
                 | Ok o' => s_ret o'
                 | Err _ => s_exit "unable to add debug endpoints to manager"
                 end
  | _ => s_ret o
  end.

Definition deprecated_features_setup (env : environment) : setup unit :=
  match env !! "DISABLE_DEPRECATED_FEATURES_CHECK" with
  | Some _ => s_ret tt
  | None =>
      run envInterval <- getEnvInDuration env "DEPRECATED_FEATURES_CHECK_INTERVAL" in
      let interval := if negb (envInterval =? 0)%Z then envInterval else (5 * 60 * second)%Z in
      step lib "unable to create controller" (CompleteDeprecatedFeatures interval)
  end.

Definition webhook_setup (env : environment) (d : RabbitmqClusterCustomDefaulter) : setup unit :=
  if str_eqb (Getenv env "ENABLE_WEBHOOKS") "false" then s_ret tt
  else
    run _ <- step lib "unable to create webhook" (SetupWebhook d) in
    step lib "unable to set up ready check for webhook" (AddReadyzCheck "webhook").

Definition main_setup (env : environment) (flags : Flags) : setup unit :=
  let operatorNamespace := Getenv env "OPERATOR_NAMESPACE" in
  if str_eqb operatorNamespace "" then s_exit "unable to find operator namespace"
  else
    let image := default "rabbitmq:4.3.4-management" (env !! "DEFAULT_RABBITMQ_IMAGE") in
    let updaterImage := default "ghcr.io/rabbitmq/default-user-credential-updater:1.0.14"
                          (env !! "DEFAULT_USER_UPDATER_IMAGE") in
    run controlRabbitmqImage <-
      match env !! "CONTROL_RABBITMQ_IMAGE" with
      | None => s_ret false
      | Some v => match ParseBool v with
                  | Some b => s_ret b
                  | None => s_exit "unable to start manager"
                  end
      end in
    let pullSecrets := default "" (env !! "DEFAULT_IMAGE_PULL_SECRETS") in
    run _ <- step lib "unable to create a label filter" (NewRequirement (fst rmqLabel) (snd rmqLabel)) in
    let options := initial_options flags operatorNamespace (Getenv env "OPERATOR_SCOPE_NAMESPACE") in
    run lease <- optional_duration env "LEASE_DURATION" in
    run renew <- optional_duration env "RENEW_DEADLINE" in
    run retry <- optional_duration env "RETRY_PERIOD" in
    run options <- with_profiling env (with_durations lease renew retry options) in
    run _ <- step lib "unable to get kubeconfig" GetConfigOrDie in
    run _ <- step lib "unable to start manager" (NewManager options) in
    run _ <- step lib "unable to get kubeconfig" GetConfigOrDie in
    run _ <- step lib "panic" NewForConfigOrDie in
    run _ <- SetupWithManager (mkConfig image updaterImage controlRabbitmqImage) pullSecrets in
    run _ <- deprecated_features_setup env in
    run _ <- webhook_setup env (mkDefaulter image pullSecrets updaterImage) in
    run _ <- step lib "unable to set up health check" (AddHealthzCheck "healthz") in
    run _ <- step lib "unable to set up ready check" (AddReadyzCheck "readyz") in
    step lib "problem running manager" Start.

(** The steps of a whole run, and how it ended. *)
Definition main (env : environment) (flags : Flags) : list SetupStep * result Exit unit := main_setup env flags [].
End Main.
