(* ===== verification/ManagerSpec.v ===== *)
(** * What the operator process promises

    Theorems on [Manager]: how the process starts or exits, the durations and
    namespaces it reads from the environment, and that the objects the
    builders write are objects the cached client and the owner index of the
    controller can see. *)

From S2P Require Import Prelude.
From S2P Require Import Strconv.
From S2P Require Import K8s.
From S2P Require Import Metadata.
From S2P Require Import Status.
From S2P Require Import Api.
From S2P Require Import Webhook.
From S2P Require Import Plugins.
From S2P Require Import Override.
From S2P Require Import Services.
From S2P Require Import Ini.
From S2P Require Import Secrets.
From S2P Require Import ServerConf.
From S2P Require Import StatefulSet.
From S2P Require Import Rbac.
From S2P Require Import ResourceBuilder.
From S2P Require Import Kube.
From S2P Require Import Controller.
From S2P Require Import Tls.
From S2P Require Import Manager.

(** ** Durations *)

(** The largest number of seconds an int64 number of nanoseconds can hold. *)
Definition max_seconds : Z := 9223372036.

Lemma seconds_fit n : (- max_seconds <= n <= max_seconds)%Z <-> int64_ok (n * second).
Proof. unfold max_seconds, int64_ok, second. lia. Qed.

Lemma wrap64_range n : int64_ok (wrap64 n).
Proof.
  unfold int64_ok, wrap64, wrap. pose proof (Z.mod_pos_bound (n + 2 ^ (64 - 1)) (2 ^ 64)) as H.
  specialize (H ltac:(lia)). lia.
Qed.

(** C35. A number of seconds of the environment is used as it is exactly when it
    lies within 9223372036 seconds of zero: a larger one that ParseInt still
    accepts silently becomes another duration, and one that does not fit 64
    bits ends the process. *)
Theorem getEnvInDuration_bounds (env : gmap string string) (envName : string) (n : Z) (before : list SetupStep) :
  env !! envName = Some (Itoa n) ->
  (int64_ok n -> getEnvInDuration env envName before = (before, Ok (wrap64 (n * second)))) /\
  (~ int64_ok n -> exists msg, getEnvInDuration env envName before = (before, Err (ExitWith msg))) /\
  (wrap64 (n * second) = (n * second)%Z <-> (- max_seconds <= n <= max_seconds)%Z).
Proof.
  intros Henv. assert (Itoa n <> "") as Hne by (intros E; pose proof (ParseInt_Itoa 64 n) as Hp;
    rewrite E in Hp; destruct n as [|p|p]; [done| |done];
    destruct (parse_unsigned_pretty p) as (a & s' & E' & _); change (Itoa (Z.pos p)) with (pretty (N.pos p)) in E;
    by rewrite E' in E).
  unfold getEnvInDuration, Getenv. rewrite Henv. change (default "" (Some (Itoa n))) with (Itoa n).
  assert (str_eqb (Itoa n) "" = false) as -> by (apply not_true_iff_false; intros E%str_eqb_spec; done).
  unfold ParseInt64. rewrite ParseInt_Itoa. split; [|split].
  - intros Hn. by rewrite in_width_ok.
  - intros Hn. destruct (in_width 64 n) as [m|] eqn:E; [|by eexists].
    apply in_width_some in E as [_ E]. destruct Hn. exact E.
  - rewrite seconds_fit. split; [|apply wrap64_id]. intros <-. apply wrap64_range.
Qed.

(** A timeout of three centuries asked for becomes a negative one. *)
Lemma getEnvInDuration_overflow :
  getEnvInDuration {["LEASE_DURATION" := "9223372037"]} "LEASE_DURATION" [] = ([], Ok (-9223372036709551616)%Z).
Proof. vm_compute. reflexivity. Qed.

(** ** The scope of the watch *)

Definition no_comma (s : string) : Prop := Contains s "," = false.

(** The operator watches the namespaces it is told to: all of them when
    the variable is not set, and otherwise exactly those of the comma
    separated list.  An empty item of the list is kept, as the name of no
    namespace, which the cache reads as all namespaces: a trailing comma
    undoes the restriction. *)
Theorem scope_namespaces_spec (namespaces : list string) :
  scope_namespaces "" = None /\
  (Forall no_comma namespaces -> namespaces <> [] -> namespaces <> [""] ->
   exists watched, scope_namespaces (Join namespaces ",") = Some watched /\
     forall ns, ns ∈ watched <-> ns ∈ namespaces).
Proof.
  split; [done|]. intros Hl Hne Hempty. unfold scope_namespaces.
  assert (Join namespaces "," <> "") as Hj.
  { destruct namespaces as [|s [|s' l]]; [done| |].
    - cbn. congruence.
    - change (Join (s :: s' :: l) ",") with (s +:+ "," +:+ Join (s' :: l) ","). by destruct s. }
  assert (str_eqb (Join namespaces ",") "" = false) as -> by (apply not_true_iff_false; intros E%str_eqb_spec; done).
  destruct (Contains (Join namespaces ",") ",") eqn:Ec.
  - eexists. split; [done|]. intros ns. rewrite (split_on_Join (Ascii.ascii_of_nat 44)) by done. apply elem_of_list_to_set.
  - destruct namespaces as [|s [|s' l]]; [done| |].
    + eexists. split; [done|]. set_solver.
    + change (Join (s :: s' :: l) ",") with (s +:+ String (Ascii.ascii_of_nat 44) (Join (s' :: l) ",")) in Ec.
      by rewrite (Contains_char_app (Ascii.ascii_of_nat 44)), orb_true_r in Ec.
Qed.

Lemma trailing_comma_watches_all : exists watched, scope_namespaces "team-a," = Some watched /\ "" ∈ watched.
Proof. eexists. split; [reflexivity|]. apply (bool_decide_unpack _). vm_compute. exact I. Qed.

(** ** Starting up *)

#[local] Open Scope setup_scope.

Section Startup.
Context (lib : list SetupStep -> SetupStep -> result string unit).

(** Every step was made after those before it, and succeeded. *)
Definition all_ok (steps : list SetupStep) : Prop :=
  forall before s after, steps = before ++ s :: after -> lib before s = Ok tt.

(** The same, but for a last step, which failed. *)
Definition stopped (steps : list SetupStep) : Prop :=
  all_ok steps \/ exists before s msg, steps = before ++ [s] /\ all_ok before /\ lib before s = Err msg.

Lemma all_ok_snoc steps s : all_ok steps -> lib steps s = Ok tt -> all_ok (steps ++ [s]).
Proof.
  intros H Hs before s' after E. destruct after as [|x after _] using rev_ind.
  - apply app_inj_tail in E as [-> <-]. done.
  - rewrite app_comm_cons, (assoc_L (++)) in E. apply app_inj_tail in E as [-> _]. by eapply H.
Qed.

Lemma all_ok_nil : all_ok [].
Proof. intros before s after E. by destruct before. Qed.

(** Setups that stop at the first failure. *)
Definition orderly {A} (m : setup A) : Prop := forall steps, all_ok steps ->
  match m steps with
  | (steps', Ok _) => all_ok steps'
  | (steps', Err _) => stopped steps'
  end.

Lemma orderly_ret {A} (a : A) : orderly (s_ret a).
Proof. by intros steps H. Qed.

Lemma orderly_exit {A} msg : orderly (@s_exit A msg).
Proof. intros steps H. by left. Qed.

Lemma orderly_bind {A B} (m : setup A) (f : A -> setup B) :
  orderly m -> (forall a, orderly (f a)) -> orderly (s_bind m f).
Proof.
  intros Hm Hf steps H. unfold s_bind. specialize (Hm steps H).
  destruct (m steps) as [steps' [a|e]]; [by apply Hf | done].
Qed.

Lemma orderly_step msg s : orderly (step lib msg s).
Proof.
  intros steps H. unfold step. destruct (lib steps s) as [[]|e] eqn:E; [by apply all_ok_snoc|].
  right. by exists steps, s, e.
Qed.

Lemma s_bind_ok {A B} (m : setup A) (f : A -> setup B) steps steps' b :
  s_bind m f steps = (steps', Ok b) -> exists s1 a, m steps = (s1, Ok a) /\ f a s1 = (steps', Ok b).
Proof. unfold s_bind. destruct (m steps) as [s1 [a|e]]; [|done]. intros E. by exists s1, a. Qed.

Lemma step_ok_inv msg s steps steps' u : step lib msg s steps = (steps', Ok u) -> steps' = steps ++ [s].
Proof. unfold step. destruct (lib steps s); by intros [= <-]. Qed.

Lemma duration_pure env n steps steps' d : getEnvInDuration env n steps = (steps', Ok d) -> steps' = steps.
Proof.
  unfold getEnvInDuration. destruct (str_eqb _ _); [by intros [= <-]|].
  destruct (ParseInt64 _); [by intros [= <-] | done].
Qed.

Lemma optional_duration_pure env n steps steps' d :
  optional_duration env n steps = (steps', Ok d) -> steps' = steps.
Proof. intros (s1 & a & Ha%duration_pure & [= <- <-])%s_bind_ok. done. Qed.

Hint Resolve orderly_ret orderly_exit orderly_step : tools.

Lemma orderly_duration env n : orderly (getEnvInDuration env n).
Proof. unfold getEnvInDuration. destruct (str_eqb _ _); [auto with tools|]. destruct (ParseInt64 _); auto with tools. Qed.
Lemma orderly_optional env n : orderly (optional_duration env n).
Proof. apply orderly_bind; [apply orderly_duration | auto with tools]. Qed.
Hint Resolve orderly_duration orderly_optional : tools.

Lemma orderly_main env flags : orderly (main_setup lib env flags).
Proof.
  unfold main_setup, SetupWithManager, deprecated_features_setup, webhook_setup, with_profiling. cbn [index_fields w_Indexed wiring].
  repeat first
    [ solve [auto with tools]
    | apply orderly_bind; [|intros]
    | match goal with |- orderly (match ?x with _ => _ end) => destruct x end
    | progress cbv zeta ].
Qed.

(** The deprecated features controller and the webhook, when enabled. *)
Definition deprecated_steps (env : gmap string string) (steps : list SetupStep) : Prop :=
  match env !! "DISABLE_DEPRECATED_FEATURES_CHECK" with
  | Some _ => steps = []
  | None => exists interval, steps = [CompleteDeprecatedFeatures interval] /\ interval <> 0%Z
  end.

Definition webhook_steps (env : gmap string string) (d : RabbitmqClusterCustomDefaulter) : list SetupStep :=
  if str_eqb (Getenv env "ENABLE_WEBHOOKS") "false" then [] else [SetupWebhook d; AddReadyzCheck "webhook"].

Lemma index_fields_steps kinds steps steps' u :
  index_fields lib kinds steps = (steps', Ok u) -> steps' = steps ++ map (fun k => IndexField k ownerKey) kinds.
Proof.
  revert steps. induction kinds as [|k kinds IH]; intros steps; cbn [index_fields map].
  - intros [= <-]. by rewrite app_nil_r.
  - intros (s1 & a & ->%step_ok_inv & ->%IH)%s_bind_ok. by rewrite <- (assoc_L (++)).
Qed.

Lemma deprecated_setup_steps env steps steps' u :
  deprecated_features_setup lib env steps = (steps', Ok u) ->
  exists t, steps' = steps ++ t /\ deprecated_steps env t.
Proof.
  unfold deprecated_features_setup, deprecated_steps. destruct (env !! _).
  - intros [= <-]. exists []. by rewrite app_nil_r.
  - intros (s1 & d & ->%duration_pure & ->%step_ok_inv)%s_bind_ok. eexists. split; [done|]. eexists. split; [done|].
    destruct (d =? 0)%Z eqn:E; cbn; [done | by apply Z.eqb_neq].
Qed.

Lemma webhook_setup_steps env d steps steps' u :
  webhook_setup lib env d steps = (steps', Ok u) -> steps' = steps ++ webhook_steps env d.
Proof.
  unfold webhook_setup, webhook_steps. destruct (str_eqb _ _).
  - intros [= <-]. by rewrite app_nil_r.
  - intros (s1 & a & ->%step_ok_inv & ->%step_ok_inv)%s_bind_ok. by rewrite <- (assoc_L (++)).
Qed.

(** The options of a manager of this operator. *)
Definition our_options (env : gmap string string) (flags : Flags) (o : Options) : Prop :=
  opt_LeaderElection o = true /\ opt_LeaderElectionNamespace o = Getenv env "OPERATOR_NAMESPACE" /\
  opt_LeaderElectionNamespace o <> "" /\ opt_ByObject o = cacheByObject /\
  opt_DefaultNamespaces o = scope_namespaces (Getenv env "OPERATOR_SCOPE_NAMESPACE") /\
  (enableHTTP2 flags = false -> opt_NextProtos o = Some ["http/1.1"]) /\
  mo_FilterProvider (opt_Metrics o) = mo_SecureServing (opt_Metrics o) /\
  mo_SecureServing (opt_Metrics o) = secureMetrics flags /\
  (forall path, match mo_ExtraHandlers (opt_Metrics o) with
    | Some handlers => handlers !! path = pprofEndpoints !! path
    | None => True end).

Lemma profiling_options env flags o steps steps' ns lease renew retry :
  ns = Getenv env "OPERATOR_NAMESPACE" -> ns <> "" ->
  with_profiling env (with_durations lease renew retry
    (initial_options flags ns (Getenv env "OPERATOR_SCOPE_NAMESPACE"))) steps = (steps', Ok o) ->
  steps' = steps /\ our_options env flags o.
Proof.
  intros -> Hns. unfold with_profiling. destruct (_ ≫= ParseBool) as [[]|]; intros [= <- <-];
    (split; [done|]); unfold our_options; cbn; (repeat (split; [done|])).
  all: split; [by intros -> | by repeat split].
Qed.

(** The process runs only when it was set up in full, and exits otherwise:
    a run that did not exit made exactly these steps, in this order, each
    successful; the reconciler and the defaulting webhook were given the
    same images and pull secrets; and in a run that exited, every step but
    at most the last had succeeded. *)
Theorem main_starts_in_full (env : gmap string string) (flags : Flags) :
  match main lib env flags with
  | (steps, Ok _) =>
      all_ok steps /\
      exists o image updaterImage control pullSecrets deprecated,
        our_options env flags o /\ deprecated_steps env deprecated /\
        steps = [NewRequirement "app.kubernetes.io/part-of" "rabbitmq"; GetConfigOrDie; NewManager o;
                 GetConfigOrDie; NewForConfigOrDie] ++
          map (fun k => IndexField k ownerKey) (w_Indexed wiring) ++
          [CompleteController wiring (mkConfig image updaterImage control) pullSecrets] ++
          deprecated ++ webhook_steps env (mkDefaulter image pullSecrets updaterImage) ++
          [AddHealthzCheck "healthz"; AddReadyzCheck "readyz"; Start]
  | (steps, Err _) => stopped steps
  end.
Proof.
  unfold main. pose proof (orderly_main env flags [] all_ok_nil) as Ho.
  destruct (main_setup lib env flags []) as [steps [[]|e]] eqn:E; [|exact Ho]. split; [exact Ho|].
  revert E. unfold main_setup. cbv zeta.
  destruct (str_eqb (Getenv env "OPERATOR_NAMESPACE") "") eqn:Ens; [done|].
  assert (Getenv env "OPERATOR_NAMESPACE" <> "") as Hns by (intros E; by rewrite E in Ens).
  intros (s1 & control & Hs1 & E)%s_bind_ok. assert (s1 = []) as ->.
  { destruct (env !! "CONTROL_RABBITMQ_IMAGE") as [v|]; [destruct (ParseBool v)|]; by injection Hs1. }
  apply s_bind_ok in E as (s2 & [] & ->%step_ok_inv & E).
  apply s_bind_ok in E as (s3 & lease & ->%optional_duration_pure & E).
  apply s_bind_ok in E as (s4 & renew & ->%optional_duration_pure & E).
  apply s_bind_ok in E as (s5 & retry & ->%optional_duration_pure & E).
  apply s_bind_ok in E as (s6 & o & (-> & Hopts)%profiling_options & E); [|done..].
  apply s_bind_ok in E as (s7 & [] & ->%step_ok_inv & E).
  do 3 (apply s_bind_ok in E as (? & [] & ->%step_ok_inv & E)).
  apply s_bind_ok in E as (s8 & [] & (s8' & [] & ->%index_fields_steps & ->%step_ok_inv)%s_bind_ok & E).
  apply s_bind_ok in E as (s9 & [] & (deprecated & -> & Hdep)%deprecated_setup_steps & E).
  apply s_bind_ok in E as (s10 & [] & ->%webhook_setup_steps & E).
  apply s_bind_ok in E as (s11 & [] & ->%step_ok_inv & (s12 & [] & ->%step_ok_inv & ->%step_ok_inv)%s_bind_ok).
  exists o. do 4 eexists. exists deprecated. split; [exact Hopts|]. split; [exact Hdep|].
  rewrite <- !(assoc_L (++)). reflexivity.
Qed.

(** *** Nothing else stops it *)

Definition duration_ok (env : gmap string string) (k : string) : bool :=
  str_eqb (Getenv env k) "" || match ParseInt64 (Getenv env k) with Some _ => true | None => false end.

(** An environment the process can start in. *)
Definition env_ok (env : gmap string string) : bool :=
  negb (str_eqb (Getenv env "OPERATOR_NAMESPACE") "") &&
  match env !! "CONTROL_RABBITMQ_IMAGE" with
  | Some v => match ParseBool v with Some _ => true | None => false end
  | None => true
  end &&
  duration_ok env "LEASE_DURATION" && duration_ok env "RENEW_DEADLINE" && duration_ok env "RETRY_PERIOD" &&
  match env !! "DISABLE_DEPRECATED_FEATURES_CHECK" with
  | Some _ => true
  | None => duration_ok env "DEPRECATED_FEATURES_CHECK_INTERVAL"
  end.
End Startup.

(** Whether a setup goes on does not depend on the steps made when the
    library never fails. *)
Definition never_fails : list SetupStep -> SetupStep -> result string unit := fun _ _ => Ok tt.

Definition goes_on {A} (b : bool) (m : setup A) : Prop := forall steps, is_ok (snd (m steps)) = b.

Lemma goes_on_bind {A B} b1 b2 (m : setup A) (f : A -> setup B) :
  goes_on b1 m -> (forall a, goes_on b2 (f a)) -> goes_on (b1 && b2) (s_bind m f).
Proof.
  intros Hm Hf steps. unfold s_bind. specialize (Hm steps). destruct (m steps) as [s1 [a|e]]; cbn in *; subst; [apply Hf|done].
Qed.

Lemma goes_on_step msg s : goes_on true (step never_fails msg s).
Proof. done. Qed.

Lemma goes_on_after_step {A} b msg s (f : unit -> setup A) :
  goes_on b (f tt) -> goes_on b (s_bind (step never_fails msg s) f).
Proof. intros Hf steps. apply Hf. Qed.

Lemma goes_on_profiling env o : goes_on true (with_profiling env o).
Proof. intros steps. unfold with_profiling. by destruct (_ ≫= ParseBool) as [[]|]. Qed.

Lemma goes_on_duration env k : goes_on (duration_ok env k) (getEnvInDuration env k).
Proof.
  intros steps. unfold getEnvInDuration, duration_ok. destruct (str_eqb _ _); [done|]. by destruct (ParseInt64 _).
Qed.

Lemma goes_on_optional env k : goes_on (duration_ok env k) (optional_duration env k).
Proof.
  rewrite <- (andb_true_r (duration_ok env k)). apply goes_on_bind; [apply goes_on_duration|]. by intros d steps.
Qed.

(** The environment alone decides: when no step fails, the process reaches
    its last step and runs exactly when the operator's namespace is set and
    every number and boolean that is read parses. *)
Theorem main_reaches_start (env : gmap string string) (flags : Flags) :
  let '(steps, r) := main never_fails env flags in
  is_ok r = env_ok env /\ (env_ok env = true -> last steps = Some Start).
Proof.
  pose proof (main_starts_in_full never_fails env flags) as Hfull.
  assert (goes_on (env_ok env) (main_setup never_fails env flags)) as Hgo.
  { unfold env_ok, main_setup. cbv zeta. destruct (str_eqb _ ""); [done|].
    rewrite <- !andb_assoc. change (negb false && ?b) with b.
    apply goes_on_bind; [|intros control].
    { destruct (env !! "CONTROL_RABBITMQ_IMAGE") as [v|]; [destruct (ParseBool v)|]; done. }
    apply goes_on_after_step. cbv zeta.
    apply goes_on_bind; [apply goes_on_optional | intros lease].
    apply goes_on_bind; [apply goes_on_optional | intros renew].
    apply goes_on_bind; [apply goes_on_optional | intros retry].
    apply (goes_on_bind true); [by apply goes_on_profiling | intros o].
    do 4 apply goes_on_after_step. apply (goes_on_bind true); [done | intros _].
    match goal with |- goes_on ?b _ => rewrite <- (andb_true_r b) end. apply goes_on_bind; [|intros _].
    - unfold deprecated_features_setup. destruct (env !! _); [done|].
      rewrite <- (andb_true_r (duration_ok _ _)). apply goes_on_bind; [apply goes_on_duration | done].
    - unfold webhook_setup. by destruct (str_eqb _ _). }
  specialize (Hgo []). unfold main in *. destruct (main_setup never_fails env flags []) as [steps [u|e]]; cbn in Hgo.
  - split; [done|]. intros _. destruct Hfull as (_ & o & im & up & c & ps & d & _ & _ & ->).
    rewrite !(assoc_L (++)). by rewrite last_app.
  - by rewrite <- Hgo.
Qed.

(** ** Children are seen *)

(** Whether the manager's cache holds an object. *)
Definition cache_sees (o : Object) : bool :=
  match cacheByObject !! object_kind o with
  | Some (Some (key, value)) => bool_decide (smap_get (om_Labels (object_meta o)) key = Some value)
  | _ => true
  end.

Lemma cache_sees_label o :
  cache_sees o = bool_decide (smap_get (om_Labels (object_meta o)) (fst rmqLabel) = Some (snd rmqLabel)).
Proof. by destruct o. Qed.

(** The labels an override puts on what a builder writes. *)
Definition label_override (instance : RabbitmqCluster) (b : ResourceBuilder) : smap :=
  match b with
  | ServiceBuilder =>
      match ov_Service (spec_Override (rmq_Spec instance)) with
      | Some o => match osv_LabelsAnnotations o with Some la => ela_Labels la | None => None end
      | None => None
      end
  | StatefulSetBuilder =>
      match ov_StatefulSet (spec_Override (rmq_Spec instance)) with
      | Some o => match ost_LabelsAnnotations o with Some la => ela_Labels la | None => None end
      | None => None
      end
  | _ => None
  end.

(** The builders of ConfigMaps label what they build, and leave the labels of
    what they update. *)
Definition keeps_labels (b : ResourceBuilder) : bool :=
  match b with RabbitmqPluginsConfigMapBuilder | ServerConfigMapBuilder _ => true | _ => false end.

Definition part_of (m : ObjectMeta) : option string := smap_get (om_Labels m) (fst rmqLabel).

Lemma labels_part_of n l m : om_Labels m = Some (GetLabels n l) -> part_of m = Some "rabbitmq".
Proof. intros E. unfold part_of. rewrite E, smap_get_some. by rewrite GetLabels_lookup. Qed.

Section Children.
Context {I : Ini} {O : OwnerRefs} {OL : OwnerRefsLaws} {M : StrategicMerge}
  (iter : gmap string ServicePort -> list (string * ServicePort)) (rand : RandSource).

Lemma with_override m la v :
  part_of m = Some v ->
  part_of (match la with Some l => copyLabelsAnnotations m l | None => m end) =
    match smap_get (match la with Some l => ela_Labels l | None => None end) (fst rmqLabel) with
    | Some w => Some w
    | None => Some v
    end.
Proof.
  intros Hm. destruct la as [l|]; [|exact Hm]. unfold part_of.
  destruct (copyLabelsAnnotations_spec m l (fst rmqLabel)) as [-> _].
  unfold part_of in Hm. by rewrite Hm.
Qed.

Lemma service_desired_part_of instance s : part_of (svc_Meta (service_desired iter instance s)) = Some "rabbitmq".
Proof.
  unfold part_of, service_desired. cbn [svc_Meta om_Labels om_with_labels smap_get option_bind mbind].
  by rewrite add_service_labels_lookup, GetLabels_lookup.
Qed.

Lemma applySvcOverride_meta s o s' :
  applySvcOverride s o = Ok s' ->
  svc_Meta s' = match osv_LabelsAnnotations o with
                | Some la => copyLabelsAnnotations (svc_Meta s) la
                | None => svc_Meta s end.
Proof.
  unfold applySvcOverride. destruct (osv_Spec o); [|by intros [= <-]].
  by intros (p & _ & [= <-])%result_bind_ok.
Qed.

Lemma sts_desired_part_of instance s d : sts_desired instance s = Ok d -> part_of (sts_Meta d) = Some "rabbitmq".
Proof. intros (p & _ & (t & _ & [= <-])%result_bind_ok)%result_bind_ok. by eapply labels_part_of. Qed.

(** The metadata an update writes: what the owner reference was set on, and
    the label the cache selects by. *)
Lemma Update_meta instance b obj o' b' :
  Update iter instance b obj = Ok (o', b') ->
  object_kind o' = fst (builder_id b) /\
  exists m, SetControllerReference (rmq_Meta instance) m = Ok (object_meta o') /\
    part_of m = match smap_get (label_override instance b) (fst rmqLabel) with
                | Some v => Some v
                | None => if keeps_labels b then part_of (object_meta obj) else Some "rabbitmq"
                end.
Proof.
  destruct b, obj; try done; cbn [Update]; intros HU;
    try (apply map_err_ok in HU); apply result_bind_ok in HU as (x & HU & [= <- <-]); (split; [done|]).
  - apply result_bind_ok in HU as (m & Hm%map_err_ok & [= <-]). eexists. split; [exact Hm|]. by eapply labels_part_of.
  - apply result_bind_ok in HU as (y & Hy & (m & Hm%map_err_ok & [= <-])%result_bind_ok).
    eexists. split; [exact Hm|]. cbn [label_override keeps_labels].
    destruct (ov_Service _) as [o|]; [|injection Hy as <-; apply service_desired_part_of].
    apply map_err_ok, applySvcOverride_meta in Hy as ->. apply with_override, service_desired_part_of.
  - apply result_bind_ok in HU as (m & Hm%map_err_ok & [= <-]). eexists. split; [exact Hm|]. by eapply labels_part_of.
  - unfold secret_Update in HU. destruct (sec_Data s); [|done].
    apply result_bind_ok in HU as (m & Hm%map_err_ok & [= <-]). eexists. split; [exact Hm|]. by eapply labels_part_of.
  - apply result_bind_ok in HU as (m & Hm%map_err_ok & [= <-]). by eexists.
  - apply result_bind_ok in HU as (data & _ & (m & Hm%map_err_ok & Hr)%result_bind_ok). eexists. split; [|reflexivity].
    cbn zeta in Hr. apply result_bind_ok in Hr as (p & _ & (u & _ & [= <-])%result_bind_ok). exact Hm.
  - apply result_bind_ok in HU as (m & Hm%map_err_ok & [= <-]). eexists. split; [exact Hm|]. by eapply labels_part_of.
  - apply result_bind_ok in HU as (m & Hm%map_err_ok & [= <-]). eexists. split; [exact Hm|]. by eapply labels_part_of.
  - apply result_bind_ok in HU as (m & Hm%map_err_ok & [= <-]). eexists. split; [exact Hm|]. by eapply labels_part_of.
  - destruct (sts_Update_ok _ _ _ HU) as (d & o & Hd & Ho & Hm & _ & _). eexists. split; [exact Hm|].
    apply sts_desired_part_of in Hd. cbn [label_override keeps_labels].
    destruct (ov_StatefulSet _) as [ov|]; [|by subst].
    apply applyStsOverride_ok in Ho as (-> & _). by apply with_override.
Qed.
Lemma Build_part_of instance b obj :
  Build rand instance b = Ok obj -> keeps_labels b = true -> part_of (object_meta obj) = Some "rabbitmq".
Proof. destruct b; try done; intros [= <-] _; by eapply labels_part_of. Qed.

(** C22. What the controller writes it can read again and hears about: every
    object an update leaves, of one built or one the cache held, is of a
    kind the controller owns, is indexed under its cluster, and is in the
    label-filtered cache of the manager, unless an override changes its
    part-of label, in which case it is not, so that the next pass takes it
    for missing. *)
Theorem children_watched (instance : RabbitmqCluster) (b b' : ResourceBuilder) (obj o' : Object) :
  Update iter instance b obj = Ok (o', b') ->
  Build rand instance b = Ok obj \/ cache_sees obj = true ->
  object_kind o' ∈ w_Owns wiring /\
  addResourceToIndex (Some o') = [rmq_Name instance] /\
  cache_sees o' = match smap_get (label_override instance b) "app.kubernetes.io/part-of" with
                  | Some v => str_eqb v "rabbitmq"
                  | None => true
                  end.
Proof.
  intros HU Hobj. destruct (Update_meta _ _ _ _ _ HU) as (Hkind & m & Hm & Hpart). split; [|split].
  - rewrite Hkind. destruct b; cbn; set_solver.
  - cbn [addResourceToIndex]. destruct (setref_controls _ _ _ Hm) as (r & -> & Ha & Hk & Hn).
    unfold validateAndGetOwner. by rewrite Ha, Hk, Hn.
  - rewrite cache_sees_label, (setref_labels _ _ _ Hm). fold (part_of m). rewrite Hpart.
    destruct (smap_get _ _) as [v|]; [unfold str_eqb; apply bool_decide_ext; split; [by intros [= ->] | by intros ->]|].
    apply bool_decide_eq_true. destruct (keeps_labels b) eqn:Ek; [|done].
    destruct Hobj as [Hb|Hc]; [by eapply Build_part_of|]. rewrite cache_sees_label in Hc.
    by apply bool_decide_eq_true in Hc.
Qed.
End Children.
