(* ===== verification/Memory.v ===== *)
(** * Memory

    Pointers, slices and maps of Go, what a value of a type holds when it is
    read through them, and the statement forms of the generated deep copies
    with the lemma that each of them is deep: it leaves the memory as it was and
    returns a value that reads the same from memory of its own. *)

From S2P Require Import Prelude.

(** ** Memory *)

Abbreviation loc := positive.

(** A value without what it points to: a struct lies in place; a pointer, a
    slice and a map are references that may be nil.  Numbers, booleans and
    strings are not told apart: an assignment copies any of them. *)
Inductive value :=
| Prim (s : string)
| Struct (fields : list (string * value))
| Ref (l : option loc).

(** The target of a pointer, the array behind a slice, a map of strings. *)
Inductive cell :=
| Cell (v : value)
| Array (vs : list value)
| Table (m : gmap string string).

Abbreviation heap := (gmap loc cell).

(** Programs over the memory; [None] is a panic. *)
Definition M (A : Type) : Type := heap -> option (heap * A).
Definition m_ret {A} (a : A) : M A := fun h => Some (h, a).
Definition m_bind {A B} (m : M A) (k : A -> M B) : M B :=
  fun h => match m h with Some (h', a) => k a h' | None => None end.
Definition m_panic {A} : M A := fun _ => None.

Declare Scope memory_scope.
Delimit Scope memory_scope with memory.
Notation "'var' x := m 'in' k" := (m_bind m (fun x => k))
  (at level 10, x pattern, m at level 100, k at level 200) : memory_scope.
#[local] Open Scope memory_scope.

Definition load (l : loc) : M cell :=
  fun h => match h !! l with Some c => Some (h, c) | None => None end.
Definition alloc (c : cell) : M loc := fun h => let l := fresh (dom h) in Some (<[l := c]> h, l).

(** ** Structs *)

Fixpoint assoc {A} (n : string) (l : list (string * A)) : option A :=
  match l with
  | [] => None
  | (m, a) :: rest => if str_eqb m n then Some a else assoc n rest
  end.

Fixpoint assoc_set {A} (n : string) (a : A) (l : list (string * A)) : list (string * A) :=
  match l with
  | [] => []
  | (m, b) :: rest => if str_eqb m n then (m, a) :: rest else (m, b) :: assoc_set n a rest
  end.

Definition get_field (n : string) (v : value) : M value :=
  match v with
  | Struct vs => match assoc n vs with Some x => m_ret x | None => m_panic end
  | _ => m_panic
  end.

Definition set_field (n : string) (x v : value) : M value :=
  match v with Struct vs => m_ret (Struct (assoc_set n x vs)) | _ => m_panic end.

(** ** Statements of a DeepCopyInto

    A statement sets one field of the struct behind [out] to a copy of that
    field of the struct behind [in]. *)

Definition statement : Type := string * (value -> M value).

Fixpoint run_statements (stmts : list statement) (inp out : value) : M value :=
  match stmts with
  | [] => m_ret out
  | (n, copy) :: rest =>
      var x := get_field n inp in
      var y := copy x in
      var out := set_field n y out in
      run_statements rest inp out
  end.

(** The struct behind [out] after the assignment of the whole struct behind
    [in] and the statements that follow it. *)
Definition copy_into (stmts : list statement) (inp : value) : M value := run_statements stmts inp inp.

(** An assignment: of a field, or of a pointer's target. *)
Definition assign (v : value) : M value := m_ret v.

(** When the pointer is not nil, a [new] one to a copy of its target.  (The code
    makes the new target before it fills it; no one else sees it in between.) *)
Definition pointer (copy : value -> M value) (v : value) : M value :=
  match v with
  | Ref None => m_ret v
  | Ref (Some l) =>
      var c := load l in
      match c with
      | Cell x =>
          var y := copy x in
          var l' := alloc (Cell y) in
          m_ret (Ref (Some l'))
      | _ => m_panic
      end
  | _ => m_panic
  end.

(** The loop over a slice: each element into the new one at its index. *)
Fixpoint copy_elements (copy : value -> M value) (vs : list value) : M (list value) :=
  match vs with
  | [] => m_ret []
  | v :: rest =>
      var y := copy v in
      var ys := copy_elements copy rest in
      m_ret (y :: ys)
  end.

(** When the slice is not nil, one of the same length, made and filled; the
    built-in [copy] assigns each element. *)
Definition slice (copy : value -> M value) (v : value) : M value :=
  match v with
  | Ref None => m_ret v
  | Ref (Some l) =>
      var c := load l in
      match c with
      | Array vs =>
          var ys := copy_elements copy vs in
          var l' := alloc (Array ys) in
          m_ret (Ref (Some l'))
      | _ => m_panic
      end
  | _ => m_panic
  end.

(** The loop over a map's entries, into an empty map. *)
Definition copy_entries (m : gmap string string) : gmap string string :=
  map_fold (fun key val out => <[key := val]> out) ∅ m.

Definition string_map (v : value) : M value :=
  match v with
  | Ref None => m_ret v
  | Ref (Some l) =>
      var c := load l in
      match c with
      | Table m =>
          var l' := alloc (Table (copy_entries m)) in
          m_ret (Ref (Some l'))
      | _ => m_panic
      end
  | _ => m_panic
  end.

(** ** Types *)

Inductive gotype :=
| TPrim
| TStruct (fields : list (string * gotype))
| TPtr (t : gotype)
| TSlice (t : gotype)
| TMap.

(** No reference inside. *)
Fixpoint is_flat (t : gotype) : bool :=
  match t with
  | TPrim => true
  | TStruct fs => forallb (fun f => is_flat (snd f)) fs
  | _ => false
  end.

(** What a value of a type holds, read through the memory. *)
Inductive tree :=
| Leaf (s : string)
| Node (fields : list (string * tree))
| Nil
| Target (t : tree)
| Elements (ts : list tree)
| Entries (m : gmap string string).

Section ReadAll.
Context (read : gotype -> value -> option (tree * list loc)).

Fixpoint read_fields (fs : list (string * gotype)) (vs : list (string * value))
    : option (list (string * tree) * list loc) :=
  match fs, vs with
  | [], [] => Some ([], [])
  | (n, t) :: fs, (m, v) :: vs =>
      if str_eqb m n then
        '(x, ls) ← read t v;
        '(xs, ls') ← read_fields fs vs;
        Some ((n, x) :: xs, ls ++ ls')
      else None
  | _, _ => None
  end.

Fixpoint read_elements (t : gotype) (vs : list value) : option (list tree * list loc) :=
  match vs with
  | [] => Some ([], [])
  | v :: vs =>
      '(x, ls) ← read t v;
      '(xs, ls') ← read_elements t vs;
      Some (x :: xs, ls ++ ls')
  end.
End ReadAll.

(** [read h t v]: the tree, and the locations it is read from; [None] when [v]
    is not a value of type [t] in the memory [h]. *)
Fixpoint read (h : heap) (t : gotype) (v : value) : option (tree * list loc) :=
  match t, v with
  | TPrim, Prim s => Some (Leaf s, [])
  | TStruct fs, Struct vs => '(xs, ls) ← read_fields (read h) fs vs; Some (Node xs, ls)
  | TPtr _, Ref None | TSlice _, Ref None | TMap, Ref None => Some (Nil, [])
  | TPtr t, Ref (Some l) =>
      match h !! l with
      | Some (Cell v) => '(x, ls) ← read h t v; Some (Target x, l :: ls)
      | _ => None
      end
  | TSlice t, Ref (Some l) =>
      match h !! l with
      | Some (Array vs) => '(xs, ls) ← read_elements (read h) t vs; Some (Elements xs, l :: ls)
      | _ => None
      end
  | TMap, Ref (Some l) =>
      match h !! l with Some (Table m) => Some (Entries m, [l]) | _ => None end
  | _, _ => None
  end.

Definition unused (h : heap) (ls : list loc) : Prop := Forall (fun l => h !! l = None) ls.

(** [copy] is a deep copier of values of type [t]: on any of them, in any
    memory, it succeeds, changes nothing that was there, and its result reads
    the same, from locations that were not in use. *)
Definition deep (t : gotype) (copy : value -> M value) : Prop :=
  forall h v x ls, read h t v = Some (x, ls) ->
  exists h' v' ls', copy v h = Some (h', v') /\ h ⊆ h' /\
    read h' t v' = Some (x, ls') /\ unused h ls'.

(** ** Reading *)

(** Induction over types, through the fields of structs. *)
Lemma gotype_nested_ind (P : gotype -> Prop) :
  P TPrim -> (forall fs, Forall (fun f => P (snd f)) fs -> P (TStruct fs)) ->
  (forall t, P t -> P (TPtr t)) -> (forall t, P t -> P (TSlice t)) -> P TMap -> forall t, P t.
Proof.
  intros Hp Hs Hptr Hsl Hm. fix IH 1. intros [|fs|t|t|].
  - exact Hp.
  - apply Hs. induction fs as [|[n t] fs IHfs]; constructor; [apply IH|apply IHfs].
  - apply Hptr, IH.
  - apply Hsl, IH.
  - exact Hm.
Qed.

Ltac read_inv :=
  repeat match goal with
  | H : Some _ = Some _ |- _ => injection H as H; subst
  | H : None = Some _ |- _ => discriminate H
  | H : _ ≫= _ = Some _ |- _ => apply bind_Some in H as [[? ?] [? ?]]
  | H : context [match ?h !! ?l with _ => _ end] |- _ => destruct (h !! l) as [[]|] eqn:?
  | H : context [if str_eqb ?a ?b then _ else _] |- _ => destruct (str_eqb a b) eqn:?
  end.

Section Readers.
Context (r1 r2 : gotype -> value -> option (tree * list loc)) (P : loc -> Prop).

Definition reads_through (t : gotype) : Prop :=
  forall v x ls, r1 t v = Some (x, ls) -> Forall P ls -> r2 t v = Some (x, ls).

Lemma read_fields_through fs vs xs ls :
  Forall (fun f => reads_through (snd f)) fs ->
  read_fields r1 fs vs = Some (xs, ls) -> Forall P ls -> read_fields r2 fs vs = Some (xs, ls).
Proof.
  intros IH. revert vs xs ls. induction IH as [|[n t] fs Ht _ IHfs];
    intros [|[m v] vs] xs ls Hr Hf; cbn [read_fields] in *; try done; read_inv.
  apply Forall_app in Hf as [Hf1 Hf2]. by erewrite Ht, IHfs by eassumption.
Qed.

Lemma read_elements_through t vs xs ls :
  reads_through t ->
  read_elements r1 t vs = Some (xs, ls) -> Forall P ls -> read_elements r2 t vs = Some (xs, ls).
Proof.
  intros Ht. revert xs ls. induction vs as [|v vs IHvs];
    intros xs ls Hr Hf; cbn [read_elements] in *; try done; read_inv.
  apply Forall_app in Hf as [Hf1 Hf2]. by erewrite Ht, IHvs by eassumption.
Qed.

Lemma read_fields_Forall fs vs xs ls :
  Forall (fun f => forall v x ls, r1 (snd f) v = Some (x, ls) -> Forall P ls) fs ->
  read_fields r1 fs vs = Some (xs, ls) -> Forall P ls.
Proof.
  intros IH. revert vs xs ls. induction IH as [|[n t] fs Ht _ IHfs];
    intros [|[m v] vs] xs ls Hr; cbn [read_fields] in *; try done; read_inv; eauto.
  apply Forall_app; eauto.
Qed.

Lemma read_elements_Forall t vs xs ls :
  (forall v x ls, r1 t v = Some (x, ls) -> Forall P ls) ->
  read_elements r1 t vs = Some (xs, ls) -> Forall P ls.
Proof.
  intros Ht. revert xs ls. induction vs as [|v vs IHvs];
    intros xs ls Hr; cbn [read_elements] in *; read_inv; [done|].
  apply Forall_app; eauto.
Qed.
End Readers.

(** The memory outside what a value is read from does not matter. *)
Lemma read_frame h h2 t v x ls :
  read h t v = Some (x, ls) -> Forall (fun l => h2 !! l = h !! l) ls -> read h2 t v = Some (x, ls).
Proof.
  revert v x ls. induction t as [|fs IH|t IH|t IH|] using gotype_nested_ind;
    intros [s|vs|[l|]] x ls Hr Hf; cbn [read] in *; try done; read_inv.
  - by erewrite read_fields_through by eassumption.
  - apply Forall_cons in Hf as [-> Hf]. rewrite Heqo. by erewrite IH by eassumption.
  - apply Forall_cons in Hf as [-> Hf]. rewrite Heqo. by erewrite read_elements_through by eassumption.
  - apply Forall_cons in Hf as [-> Hf]. by rewrite Heqo.
Qed.

(** A value is read from memory in use. *)
Lemma read_used h t v x ls : read h t v = Some (x, ls) -> Forall (fun l => is_Some (h !! l)) ls.
Proof.
  revert v x ls. induction t as [|fs IH|t IH|t IH|] using gotype_nested_ind;
    intros [s|vs|[l|]] x ls Hr; cbn [read] in *; try done; read_inv;
    repeat first [apply Forall_cons; split | apply Forall_nil]; eauto using read_fields_Forall, read_elements_Forall.
Qed.

Lemma read_mono h h2 t v x ls : h ⊆ h2 -> read h t v = Some (x, ls) -> read h2 t v = Some (x, ls).
Proof.
  intros Hs Hr. apply (read_frame h); [done|]. eapply Forall_impl; [by eapply read_used|].
  intros l [c Hc]. rewrite Hc. by eapply lookup_weaken.
Qed.

Lemma read_flat h t v x ls : is_flat t = true -> read h t v = Some (x, ls) -> ls = [].
Proof.
  enough (H : is_flat t = true -> forall v x ls, read h t v = Some (x, ls) -> Forall (fun _ => False) ls).
  { intros Hf Hr. specialize (H Hf v x ls Hr). by destruct ls; inversion H. }
  induction t as [|fs IH|t IH|t IH|] using gotype_nested_ind;
    intros Hf [s|ws|[l|]] y ks Hr; cbn [read is_flat] in *; try done; read_inv; [constructor|].
  eapply read_fields_Forall; [|eassumption].
  rewrite forallb_forall in Hf. apply Forall_forall. intros f Hin. rewrite Forall_forall in IH.
  apply IH, Hf, list_elem_of_In; done.
Qed.

(** ** The statement forms are deep *)

Lemma unused_mono h h2 ls : h ⊆ h2 -> unused h2 ls -> unused h ls.
Proof. intros Hs Hu. eapply Forall_impl; [exact Hu|]. intros l Hl. exact (lookup_weaken_None _ _ _ Hl Hs). Qed.

Lemma alloc_fresh (h : heap) : h !! fresh (dom h) = None.
Proof. apply not_elem_of_dom, is_fresh. Qed.

Lemma alloc_grows (h : heap) c : h ⊆ <[fresh (dom h) := c]> h.
Proof. apply insert_subseteq, alloc_fresh. Qed.

Lemma copy_entries_id m : copy_entries m = m.
Proof.
  unfold copy_entries. apply (map_fold_weak_ind (fun out m => out = m)); [done|].
  by intros i x m' r _ ->.
Qed.

Lemma deep_assign t : is_flat t = true -> deep t assign.
Proof.
  intros Hf h v x ls Hr. exists h, v, ls. repeat split; [done|done|].
  rewrite (read_flat _ _ _ _ _ Hf Hr). constructor.
Qed.

Lemma deep_pointer t copy : deep t copy -> deep (TPtr t) (pointer copy).
Proof.
  intros Hd h [s|vs|[l|]] x ls Hr; cbn [read] in Hr; read_inv.
  - destruct (Hd _ _ _ _ H) as (h' & y & ls' & Hc & Hs & Hr' & Hu).
    eexists _, _, _. split_and!.
    + cbn [pointer]. unfold m_bind at 1, load. rewrite Heqo. unfold m_bind at 1. by rewrite Hc.
    + etrans; [exact Hs|apply alloc_grows].
    + cbn [read]. rewrite lookup_insert_eq. by erewrite read_mono by (apply alloc_grows || eassumption).
    + apply Forall_cons; split; [|exact Hu]. exact (lookup_weaken_None _ _ _ (alloc_fresh _) Hs).
  - exists h, (Ref None), []. split_and!; [done..|constructor].
Qed.

Lemma deep_elements t copy h vs xs ls :
  deep t copy -> read_elements (read h) t vs = Some (xs, ls) ->
  exists h' ws ls', copy_elements copy vs h = Some (h', ws) /\ h ⊆ h' /\
    read_elements (read h') t ws = Some (xs, ls') /\ unused h ls'.
Proof.
  intros Hd. revert h xs ls. induction vs as [|v vs IH]; intros h xs ls Hr; cbn [read_elements] in Hr; read_inv.
  { exists h, [], []. split_and!; [done..|constructor]. }
  destruct (Hd _ _ _ _ H) as (h1 & w & ls1 & Hc & Hs & Hr1 & Hu1).
  assert (Hrs : read_elements (read h1) t vs = Some (l0, l1)).
  { eapply (read_elements_through (read h) _ (fun _ => True)); [|exact H0|by apply Forall_true].
    intros v' x' ls' Hv _. by eapply read_mono. }
  destruct (IH _ _ _ Hrs) as (h2 & ws & ls2 & Hcs & Hs2 & Hr2 & Hu2).
  exists h2, (w :: ws), (ls1 ++ ls2). split_and!.
  - cbn [copy_elements]. unfold m_bind at 1. rewrite Hc. unfold m_bind. by rewrite Hcs.
  - by etrans.
  - cbn [read_elements]. erewrite read_mono by eassumption. cbn. by rewrite Hr2.
  - apply Forall_app; split; [done|]. by eapply unused_mono.
Qed.

Lemma deep_slice t copy : deep t copy -> deep (TSlice t) (slice copy).
Proof.
  intros Hd h [s|vs|[l|]] x ls Hr; cbn [read] in Hr; read_inv.
  - destruct (deep_elements _ _ _ _ _ _ Hd H) as (h' & ys & ls' & Hc & Hs & Hr' & Hu).
    eexists _, _, _. split_and!.
    + cbn [slice]. unfold m_bind at 1, load. rewrite Heqo. unfold m_bind at 1. by rewrite Hc.
    + etrans; [exact Hs|apply alloc_grows].
    + cbn [read]. rewrite lookup_insert_eq.
      erewrite (read_elements_through (read h') _ (fun _ => True)); [done| |eassumption|by apply Forall_true].
      intros v' x' ls'' Hv _. eapply read_mono; [apply alloc_grows|done].
    + apply Forall_cons; split; [|exact Hu]. exact (lookup_weaken_None _ _ _ (alloc_fresh _) Hs).
  - exists h, (Ref None), []. split_and!; [done..|constructor].
Qed.

Lemma deep_string_map : deep TMap string_map.
Proof.
  intros h [s|vs|[l|]] x ls Hr; cbn [read] in Hr; read_inv.
  - eexists _, _, _. split_and!.
    + cbn [string_map]. unfold m_bind at 1, load. by rewrite Heqo.
    + apply alloc_grows.
    + cbn [read]. by rewrite lookup_insert_eq, copy_entries_id.
    + constructor; [apply alloc_fresh|done].
  - exists h, (Ref None), []. split_and!; [done..|constructor].
Qed.

(** *** Structs *)

(** The fields of a type, of the struct read, of the struct written and of the
    tree, in step. *)
Section FieldsRel.
Context (P : string -> gotype -> value -> value -> tree -> Prop).

Inductive fields_rel :
    list (string * gotype) -> list (string * value) -> list (string * value) -> list (string * tree) -> Prop :=
| fields_nil : fields_rel [] [] [] []
| fields_cons n t v w x fs vs ws xs :
    P n t v w x -> fields_rel fs vs ws xs ->
    fields_rel ((n, t) :: fs) ((n, v) :: vs) ((n, w) :: ws) ((n, x) :: xs).
End FieldsRel.

Lemma fields_rel_impl P Q fs vs ws xs :
  (forall n t v w x, (n, t) ∈ fs -> P n t v w x -> Q n t v w x) ->
  fields_rel P fs vs ws xs -> fields_rel Q fs vs ws xs.
Proof.
  intros HPQ Hr. induction Hr as [|n t v w x fs vs ws xs HP Hr IH]; constructor.
  - apply HPQ; [constructor|done].
  - apply IH. intros. apply HPQ; [by constructor|done].
Qed.

Lemma fields_rel_lookup P fs vs ws xs n t :
  fields_rel P fs vs ws xs -> assoc n fs = Some t ->
  exists v w x, assoc n vs = Some v /\ assoc n xs = Some x /\ P n t v w x.
Proof.
  intros Hr. induction Hr as [|m t' v w x fs vs ws xs HP Hr IH]; [done|]; cbn [assoc].
  destruct (str_eqb m n) eqn:E; [|auto].
  apply str_eqb_spec in E as ->. intros [= ->]. eauto 6.
Qed.

Lemma fields_rel_set P Q fs vs ws xs n t v y x :
  NoDup fs.*1 -> assoc n fs = Some t -> assoc n vs = Some v -> assoc n xs = Some x ->
  Q n t v y x -> (forall n' t' v' w' x', n' <> n -> P n' t' v' w' x' -> Q n' t' v' w' x') ->
  fields_rel P fs vs ws xs -> fields_rel Q fs vs (assoc_set n y ws) xs.
Proof.
  intros Hnd Ht Hv Hx HQ HPQ Hr.
  induction Hr as [|m t' v' w' x' fs vs ws xs HP Hr IH]; [constructor|].
  cbn [assoc assoc_set fmap list_fmap] in *. apply NoDup_cons in Hnd as [Hm Hnd].
  destruct (str_eqb m n) eqn:E.
  - apply str_eqb_spec in E as ->. simplify_eq. constructor; [done|].
    eapply fields_rel_impl; [|exact Hr]. intros n' t' v' w'' x'' Hin. apply HPQ. intros ->.
    apply Hm. by apply (list_elem_of_fmap_2' fst _ _ _ Hin).
  - constructor; [apply HPQ; [|done]|auto].
    intros ->. by rewrite (proj2 (str_eqb_spec n n)) in E.
Qed.

(** From the memory [h0], in the memory [h], with the fields in [done] set. *)
Definition copied (h0 h : heap) (done : list string) (n : string) (t : gotype) (v w : value) (x : tree) : Prop :=
  (exists ls, read h0 t v = Some (x, ls)) /\
  exists ls, read h t w = Some (x, ls) /\ (n ∈ done \/ is_flat t = true -> unused h0 ls).

Lemma copied_start h fs vs xs ls :
  read_fields (read h) fs vs = Some (xs, ls) -> fields_rel (copied h h []) fs vs vs xs.
Proof.
  revert vs xs ls. induction fs as [|[n t] fs IH]; intros [|[m v] vs] xs ls Hr; cbn [read_fields] in Hr;
    try done; read_inv; [constructor|].
  apply str_eqb_spec in Heqb as ->. constructor; [|by eapply IH].
  split; [by eexists|]. eexists. split; [done|]. intros [Hin|Hf]; [by apply not_elem_of_nil in Hin|].
  rewrite (read_flat _ _ _ _ _ Hf H). constructor.
Qed.

Lemma copied_end h0 h fs vs ws xs :
  fields_rel (fun _ t _ w x => exists ls, read h t w = Some (x, ls) /\ unused h0 ls) fs vs ws xs ->
  exists ls, read_fields (read h) fs ws = Some (xs, ls) /\ unused h0 ls.
Proof.
  induction 1 as [|n t v w x fs vs ws xs (ls1 & Hr1 & Hu1) _ (ls2 & Hr2 & Hu2)].
  - exists []. split; [done|constructor].
  - exists (ls1 ++ ls2). cbn [read_fields]. rewrite (proj2 (str_eqb_spec n n) eq_refl), Hr1. cbn.
    rewrite Hr2. split; [done|]. by apply Forall_app.
Qed.

Definition deep_statement (fs : list (string * gotype)) (stmt : statement) : Prop :=
  exists t, assoc (fst stmt) fs = Some t /\ deep t (snd stmt).

Lemma run_statements_copied fs vs xs h0 stmts :
  NoDup fs.*1 -> Forall (deep_statement fs) stmts ->
  forall h done ws, h0 ⊆ h -> fields_rel (copied h0 h done) fs vs ws xs ->
  exists h' ws', run_statements stmts (Struct vs) (Struct ws) h = Some (h', Struct ws') /\ h ⊆ h' /\
    fields_rel (copied h0 h' (done ++ stmts.*1)) fs vs ws' xs.
Proof.
  intros Hnd Hd. induction Hd as [|[n copy] stmts (t & Ht & Hdeep) _ IH]; intros h done ws Hs Hrel.
  { exists h, ws. by rewrite app_nil_r. }
  cbn [fst snd] in *.
  destruct (fields_rel_lookup _ _ _ _ _ _ _ Hrel Ht) as (v & w & x & Hv & Hx & (ls & Hr) & _).
  destruct (Hdeep h v x ls) as (h1 & y & ls1 & Hc & Hs1 & Hr1 & Hu1); [by eapply read_mono|].
  destruct (IH h1 (done ++ [n]) (assoc_set n y ws)) as (h2 & ws2 & Hrun & Hs2 & Hrel2); [by etrans| |].
  { eapply fields_rel_set; [done..| | |exact Hrel].
    - split; [by eexists|]. eexists. split; [exact Hr1|]. intros _. by eapply unused_mono.
    - intros n' t' v' w' x' Hn [Hv' (ls' & Hr' & Hu')]. split; [done|]. exists ls'.
      split; [by eapply read_mono|]. intros Hor. apply Hu'. set_solver. }
  exists h2, ws2. split; [|split].
  - cbn [run_statements get_field]. rewrite Hv. unfold m_bind at 1, m_ret at 1. unfold m_bind at 1.
    cbn in Hc. by rewrite Hc.
  - by etrans.
  - by rewrite <- app_assoc in Hrel2.
Qed.

Definition listed (stmts : list statement) (f : string * gotype) : bool :=
  existsb (fun stmt => str_eqb (fst stmt) (fst f)) stmts || is_flat (snd f).

(** A struct is copied deeply when each statement is deep for its field and the
    fields without a statement hold no reference. *)
Lemma deep_copy_into fs stmts :
  bool_decide (NoDup fs.*1) = true -> Forall (deep_statement fs) stmts ->
  forallb (listed stmts) fs = true -> deep (TStruct fs) (copy_into stmts).
Proof.
  intros Hnd Hd Hall h [s|vs|[l|]] x ls Hr; cbn [read] in Hr; try done; read_inv.
  apply bool_decide_eq_true in Hnd.
  destruct (run_statements_copied _ _ _ h _ Hnd Hd h [] vs (reflexivity h) (copied_start _ _ _ _ _ H))
    as (h' & ws & Hrun & Hs & Hrel).
  destruct (copied_end h h' fs vs ws l) as (ls' & Hr' & Hu).
  { eapply fields_rel_impl; [|exact Hrel]. intros n t v w x Hin (_ & ls' & Hr' & Hu').
    exists ls'. split; [done|]. apply Hu'. rewrite forallb_forall in Hall.
    apply list_elem_of_In, Hall, orb_true_iff in Hin as [Hin|Hf]; [left|by right].
    apply existsb_exists in Hin as ([m copy] & Hin & E). apply str_eqb_spec in E. cbn in E. subst m.
    apply list_elem_of_In in Hin. by apply (list_elem_of_fmap_2' fst _ _ _ Hin). }
  exists h', (Struct ws), ls'. split_and!; [done|done| |done].
  cbn [read]. by rewrite Hr'.
Qed.

(** ** Whole copies *)

(** [DeepCopy]: nil for a nil pointer, else a pointer to a [new] struct filled
    by [DeepCopyInto]. *)
Definition DeepCopy (DeepCopyInto : value -> M value) (inp : value) : M value := pointer DeepCopyInto inp.

(** An interface value: nil, or an object. *)
Inductive object := NilObject | SomeObject (v : value).

(** [DeepCopyObject]: a nil pointer gives a nil interface, not an interface
    that holds a nil pointer. *)
Definition DeepCopyObject (DeepCopyInto : value -> M value) (inp : value) : M object :=
  var c := DeepCopy DeepCopyInto inp in
  m_ret (match c with Ref None => NilObject | _ => SomeObject c end).

(** Copiers that are deep, found by type class search. *)
Class Deep (t : gotype) (copy : value -> M value) : Prop := is_deep : deep t copy.

#[export] Instance Deep_pointer t copy : Deep t copy -> Deep (TPtr t) (pointer copy).
Proof. apply deep_pointer. Qed.
#[export] Instance Deep_slice t copy : Deep t copy -> Deep (TSlice t) (slice copy).
Proof. apply deep_slice. Qed.
#[export] Instance Deep_string_map : Deep TMap string_map.
Proof. apply deep_string_map. Qed.
#[export] Instance Deep_prim : Deep TPrim assign.
Proof. by apply deep_assign. Qed.

(** [h2] has what [h'] added to [h]: the memory in use before may have changed,
    and more may have been taken. *)
Definition keeps_new (h h' h2 : heap) : Prop :=
  forall l, h !! l = None -> is_Some (h' !! l) -> h2 !! l = h' !! l.

(** [h2] has what [h] has, whatever else it has. *)
Definition keeps_old (h h2 : heap) : Prop := forall l, is_Some (h !! l) -> h2 !! l = h !! l.

(** The copy of a pointer and what it points to share no memory. *)
Lemma DeepCopy_isolates t DeepCopyInto h p x ls :
  deep t DeepCopyInto -> read h (TPtr t) p = Some (x, ls) ->
  exists h' p' ls', DeepCopy DeepCopyInto p h = Some (h', p') /\ keeps_old h h' /\
    (forall h2, keeps_new h h' h2 -> read h2 (TPtr t) p' = Some (x, ls')) /\
    (forall h2, keeps_old h h2 -> read h2 (TPtr t) p = Some (x, ls)).
Proof.
  intros Hd Hr. destruct (deep_pointer _ _ Hd _ _ _ _ Hr) as (h' & p' & ls' & Hc & Hs & Hr' & Hu).
  exists h', p', ls'. split_and!; [done| | |].
  - intros l [c Hl]. rewrite Hl. by eapply lookup_weaken.
  - intros h2 Hh. apply (read_frame h'); [done|].
    pose proof (read_used _ _ _ _ _ Hr') as Hus. unfold unused in Hu. rewrite Forall_forall in *. auto.
  - intros h2 Hh. apply (read_frame h); [done|]. eapply Forall_impl; [by eapply read_used|auto].
Qed.

Lemma DeepCopyObject_nil t DeepCopyInto h p x ls :
  deep t DeepCopyInto -> read h (TPtr t) p = Some (x, ls) ->
  exists h' o, DeepCopyObject DeepCopyInto p h = Some (h', o) /\ (o = NilObject <-> p = Ref None).
Proof.
  intros Hd Hr. destruct p as [s|vs|[l|]]; cbn [read] in Hr; read_inv.
  - destruct (Hd _ _ _ _ H) as (h' & y & ls' & Hc & _).
    eexists _, (SomeObject _). split; [|split; discriminate].
    unfold DeepCopyObject, DeepCopy. cbn [pointer]. unfold m_bind at 1 2, load. rewrite Heqo.
    unfold m_bind at 1. rewrite Hc. done.
  - exists h, NilObject. split; [reflexivity|tauto].
Qed.
