(* ===== verification/DeepCopy.v ===== *)
(** * Deep copies

    api/v1beta1/zz_generated.deepcopy.go and
    internal/status/zz_generated.deepcopy.go, over the memory of Memory.v.  The
    controllers take a deep copy of the cluster as the base of each patch of it
    and change the original in place: the patch holds the change only if
    the two share no memory. *)

From S2P Require Import Prelude.
From S2P Require Import Memory.

(** ** Types of the Kubernetes libraries

    The layout of each and its [DeepCopyInto] (for a [Quantity], its
    [DeepCopy]). *)

Class ApiMachinery := {
  lib_type : string -> gotype;
  lib_DeepCopyInto : string -> value -> M value;
}.

(** The types that the generated code copies by assignment. *)
Definition assigned_types : list string :=
  ["metav1.TypeMeta"; "corev1.LocalObjectReference"; "corev1.IPFamilyPolicy";
   "appsv1.StatefulSetPersistentVolumeClaimRetentionPolicy"].

(** What they promise: a deep copy of each type (the location of a time, which is
    shared, is never written and counts as part of its value); and
    structs of strings where an assignment is enough. *)
Class ApiMachineryOk `{ApiMachinery} : Prop := {
  lib_deep : forall n, deep (lib_type n) (lib_DeepCopyInto n);
  lib_flat : Forall (fun n => is_flat (lib_type n) = true) assigned_types;
}.

Section Generated.
Context `{ApiMachinery}.

(** ** Overrides *)

(** [EmbeddedLabelsAnnotations] *)
Definition EmbeddedLabelsAnnotations_type : gotype := TStruct
  [("Labels", TMap);
   ("Annotations", TMap)].
Definition EmbeddedLabelsAnnotations_DeepCopyInto : value -> M value := copy_into
  [("Labels", string_map);
   ("Annotations", string_map)].
Definition EmbeddedLabelsAnnotations_DeepCopy : value -> M value :=
  DeepCopy EmbeddedLabelsAnnotations_DeepCopyInto.

(** [EmbeddedObjectMeta] *)
Definition EmbeddedObjectMeta_type : gotype := TStruct
  [("Name", TPrim);
   ("Namespace", TPrim);
   ("Labels", TMap);
   ("Annotations", TMap)].
Definition EmbeddedObjectMeta_DeepCopyInto : value -> M value := copy_into
  [("Labels", string_map);
   ("Annotations", string_map)].
Definition EmbeddedObjectMeta_DeepCopy : value -> M value :=
  DeepCopy EmbeddedObjectMeta_DeepCopyInto.

(** [PersistentVolumeClaim] *)
Definition PersistentVolumeClaim_type : gotype := TStruct
  [("TypeMeta", lib_type "metav1.TypeMeta");
   ("EmbeddedObjectMeta", EmbeddedObjectMeta_type);
   ("Spec", lib_type "corev1.PersistentVolumeClaimSpec")].
Definition PersistentVolumeClaim_DeepCopyInto : value -> M value := copy_into
  [("TypeMeta", assign);
   ("EmbeddedObjectMeta", EmbeddedObjectMeta_DeepCopyInto);
   ("Spec", lib_DeepCopyInto "corev1.PersistentVolumeClaimSpec")].
Definition PersistentVolumeClaim_DeepCopy : value -> M value :=
  DeepCopy PersistentVolumeClaim_DeepCopyInto.

(** [PodTemplateSpec] *)
Definition PodTemplateSpec_type : gotype := TStruct
  [("EmbeddedObjectMeta", TPtr EmbeddedObjectMeta_type);
   ("Spec", TPtr (lib_type "corev1.PodSpec"))].
Definition PodTemplateSpec_DeepCopyInto : value -> M value := copy_into
  [("EmbeddedObjectMeta", pointer EmbeddedObjectMeta_DeepCopyInto);
   ("Spec", pointer (lib_DeepCopyInto "corev1.PodSpec"))].
Definition PodTemplateSpec_DeepCopy : value -> M value := DeepCopy PodTemplateSpec_DeepCopyInto.

(** [StatefulSetSpec] *)
Definition StatefulSetSpec_type : gotype := TStruct
  [("Replicas", TPtr TPrim);
   ("Selector", TPtr (lib_type "metav1.LabelSelector"));
   ("Template", TPtr PodTemplateSpec_type);
   ("VolumeClaimTemplates", TSlice PersistentVolumeClaim_type);
   ("ServiceName", TPrim);
   ("PodManagementPolicy", TPrim);
   ("UpdateStrategy", TPtr (lib_type "appsv1.StatefulSetUpdateStrategy"));
   ("MinReadySeconds", TPrim);
   ("PersistentVolumeClaimRetentionPolicy", TPtr (lib_type "appsv1.StatefulSetPersistentVolumeClaimRetentionPolicy"))].
Definition StatefulSetSpec_DeepCopyInto : value -> M value := copy_into
  [("Replicas", pointer assign);
   ("Selector", pointer (lib_DeepCopyInto "metav1.LabelSelector"));
   ("Template", pointer PodTemplateSpec_DeepCopyInto);
   ("VolumeClaimTemplates", slice PersistentVolumeClaim_DeepCopyInto);
   ("UpdateStrategy", pointer (lib_DeepCopyInto "appsv1.StatefulSetUpdateStrategy"));
   ("PersistentVolumeClaimRetentionPolicy", pointer assign)].
Definition StatefulSetSpec_DeepCopy : value -> M value := DeepCopy StatefulSetSpec_DeepCopyInto.

(** [StatefulSet], of the override *)
Definition StatefulSet_type : gotype := TStruct
  [("EmbeddedLabelsAnnotations", TPtr EmbeddedLabelsAnnotations_type);
   ("Spec", TPtr StatefulSetSpec_type)].
Definition StatefulSet_DeepCopyInto : value -> M value := copy_into
  [("EmbeddedLabelsAnnotations", pointer EmbeddedLabelsAnnotations_DeepCopyInto);
   ("Spec", pointer StatefulSetSpec_DeepCopyInto)].
Definition StatefulSet_DeepCopy : value -> M value := DeepCopy StatefulSet_DeepCopyInto.

(** [Service], of the override *)
Definition Service_type : gotype := TStruct
  [("EmbeddedLabelsAnnotations", TPtr EmbeddedLabelsAnnotations_type);
   ("Spec", TPtr (lib_type "corev1.ServiceSpec"))].
Definition Service_DeepCopyInto : value -> M value := copy_into
  [("EmbeddedLabelsAnnotations", pointer EmbeddedLabelsAnnotations_DeepCopyInto);
   ("Spec", pointer (lib_DeepCopyInto "corev1.ServiceSpec"))].
Definition Service_DeepCopy : value -> M value := DeepCopy Service_DeepCopyInto.

(** [RabbitmqClusterOverrideSpec] *)
Definition RabbitmqClusterOverrideSpec_type : gotype := TStruct
  [("StatefulSet", TPtr StatefulSet_type);
   ("Service", TPtr Service_type)].
Definition RabbitmqClusterOverrideSpec_DeepCopyInto : value -> M value := copy_into
  [("StatefulSet", pointer StatefulSet_DeepCopyInto);
   ("Service", pointer Service_DeepCopyInto)].
Definition RabbitmqClusterOverrideSpec_DeepCopy : value -> M value :=
  DeepCopy RabbitmqClusterOverrideSpec_DeepCopyInto.

(** ** Specification *)

(** [RabbitmqClusterConfigurationSpec] *)
Definition RabbitmqClusterConfigurationSpec_type : gotype := TStruct
  [("AdditionalPlugins", TSlice TPrim);
   ("AdditionalConfig", TPrim);
   ("AdvancedConfig", TPrim);
   ("EnvConfig", TPrim);
   ("ErlangInetConfig", TPrim)].
Definition RabbitmqClusterConfigurationSpec_DeepCopyInto : value -> M value := copy_into
  [("AdditionalPlugins", slice assign)].
Definition RabbitmqClusterConfigurationSpec_DeepCopy : value -> M value :=
  DeepCopy RabbitmqClusterConfigurationSpec_DeepCopyInto.

(** [RabbitmqClusterEmptyDirSpec]: a [Quantity] is copied by its own [DeepCopy], and the
    copy is pointed to *)
Definition RabbitmqClusterEmptyDirSpec_type : gotype := TStruct
  [("Medium", TPrim);
   ("SizeLimit", TPtr (lib_type "resource.Quantity"))].
Definition RabbitmqClusterEmptyDirSpec_DeepCopyInto : value -> M value := copy_into
  [("SizeLimit", pointer (lib_DeepCopyInto "resource.Quantity"))].
Definition RabbitmqClusterEmptyDirSpec_DeepCopy : value -> M value :=
  DeepCopy RabbitmqClusterEmptyDirSpec_DeepCopyInto.

(** [RabbitmqClusterPersistenceSpec] *)
Definition RabbitmqClusterPersistenceSpec_type : gotype := TStruct
  [("StorageClassName", TPtr TPrim);
   ("Storage", TPtr (lib_type "resource.Quantity"));
   ("EmptyDir", TPtr RabbitmqClusterEmptyDirSpec_type)].
Definition RabbitmqClusterPersistenceSpec_DeepCopyInto : value -> M value := copy_into
  [("StorageClassName", pointer assign);
   ("Storage", pointer (lib_DeepCopyInto "resource.Quantity"));
   ("EmptyDir", pointer RabbitmqClusterEmptyDirSpec_DeepCopyInto)].
Definition RabbitmqClusterPersistenceSpec_DeepCopy : value -> M value :=
  DeepCopy RabbitmqClusterPersistenceSpec_DeepCopyInto.

(** [RabbitmqClusterServiceSpec] *)
Definition RabbitmqClusterServiceSpec_type : gotype := TStruct
  [("Type", TPrim);
   ("Annotations", TMap);
   ("IPFamilyPolicy", TPtr (lib_type "corev1.IPFamilyPolicy"));
   ("Labels", TMap)].
Definition RabbitmqClusterServiceSpec_DeepCopyInto : value -> M value := copy_into
  [("Annotations", string_map);
   ("IPFamilyPolicy", pointer assign);
   ("Labels", string_map)].
Definition RabbitmqClusterServiceSpec_DeepCopy : value -> M value :=
  DeepCopy RabbitmqClusterServiceSpec_DeepCopyInto.

(** [TLSSpec] *)
Definition TLSSpec_type : gotype := TStruct
  [("SecretName", TPrim);
   ("CaSecretName", TPrim);
   ("DisableNonTLSListeners", TPrim)].
Definition TLSSpec_DeepCopyInto : value -> M value := copy_into [].
Definition TLSSpec_DeepCopy : value -> M value := DeepCopy TLSSpec_DeepCopyInto.

(** [VaultTLSSpec] *)
Definition VaultTLSSpec_type : gotype := TStruct
  [("PKIIssuerPath", TPrim);
   ("CommonName", TPrim);
   ("AltNames", TPrim);
   ("IpSans", TPrim);
   ("PKIRootPath", TPrim)].
Definition VaultTLSSpec_DeepCopyInto : value -> M value := copy_into [].
Definition VaultTLSSpec_DeepCopy : value -> M value := DeepCopy VaultTLSSpec_DeepCopyInto.

(** [VaultSpec] *)
Definition VaultSpec_type : gotype := TStruct
  [("Role", TPrim);
   ("Annotations", TMap);
   ("DefaultUserPath", TPrim);
   ("DefaultUserUpdaterImage", TPtr TPrim);
   ("TLS", VaultTLSSpec_type)].
Definition VaultSpec_DeepCopyInto : value -> M value := copy_into
  [("Annotations", string_map);
   ("DefaultUserUpdaterImage", pointer assign);
   ("TLS", assign)].
Definition VaultSpec_DeepCopy : value -> M value := DeepCopy VaultSpec_DeepCopyInto.

(** [SecretBackend] *)
Definition SecretBackend_type : gotype := TStruct
  [("Vault", TPtr VaultSpec_type);
   ("ExternalSecret", lib_type "corev1.LocalObjectReference")].
Definition SecretBackend_DeepCopyInto : value -> M value := copy_into
  [("Vault", pointer VaultSpec_DeepCopyInto);
   ("ExternalSecret", assign)].
Definition SecretBackend_DeepCopy : value -> M value := DeepCopy SecretBackend_DeepCopyInto.

(** [RabbitmqClusterSpec] *)
Definition RabbitmqClusterSpec_type : gotype := TStruct
  [("Replicas", TPtr TPrim);
   ("Image", TPrim);
   ("ImagePullSecrets", TSlice (lib_type "corev1.LocalObjectReference"));
   ("Service", RabbitmqClusterServiceSpec_type);
   ("Persistence", RabbitmqClusterPersistenceSpec_type);
   ("Resources", TPtr (lib_type "corev1.ResourceRequirements"));
   ("Affinity", TPtr (lib_type "corev1.Affinity"));
   ("Tolerations", TSlice (lib_type "corev1.Toleration"));
   ("Rabbitmq", RabbitmqClusterConfigurationSpec_type);
   ("TLS", TLSSpec_type);
   ("Override", RabbitmqClusterOverrideSpec_type);
   ("SkipPostDeploySteps", TPrim);
   ("AutoEnableAllFeatureFlags", TPrim);
   ("TerminationGracePeriodSeconds", TPtr TPrim);
   ("DelayStartSeconds", TPtr TPrim);
   ("SecretBackend", SecretBackend_type)].
Definition RabbitmqClusterSpec_DeepCopyInto : value -> M value := copy_into
  [("Replicas", pointer assign);
   ("ImagePullSecrets", slice assign);
   ("Service", RabbitmqClusterServiceSpec_DeepCopyInto);
   ("Persistence", RabbitmqClusterPersistenceSpec_DeepCopyInto);
   ("Resources", pointer (lib_DeepCopyInto "corev1.ResourceRequirements"));
   ("Affinity", pointer (lib_DeepCopyInto "corev1.Affinity"));
   ("Tolerations", slice (lib_DeepCopyInto "corev1.Toleration"));
   ("Rabbitmq", RabbitmqClusterConfigurationSpec_DeepCopyInto);
   ("TLS", assign);
   ("Override", RabbitmqClusterOverrideSpec_DeepCopyInto);
   ("TerminationGracePeriodSeconds", pointer assign);
   ("DelayStartSeconds", pointer assign);
   ("SecretBackend", SecretBackend_DeepCopyInto)].
Definition RabbitmqClusterSpec_DeepCopy : value -> M value :=
  DeepCopy RabbitmqClusterSpec_DeepCopyInto.

(** ** Status *)

(** [RabbitmqClusterCondition] *)
Definition RabbitmqClusterCondition_type : gotype := TStruct
  [("Type", TPrim);
   ("Status", TPrim);
   ("LastTransitionTime", lib_type "metav1.Time");
   ("Reason", TPrim);
   ("Message", TPrim)].
Definition RabbitmqClusterCondition_DeepCopyInto : value -> M value := copy_into
  [("LastTransitionTime", lib_DeepCopyInto "metav1.Time")].
Definition RabbitmqClusterCondition_DeepCopy : value -> M value :=
  DeepCopy RabbitmqClusterCondition_DeepCopyInto.

(** [ClusterAvailableConditionManager] *)
Definition ClusterAvailableConditionManager_type : gotype := TStruct
  [("condition", RabbitmqClusterCondition_type);
   ("endpointslice", TPtr (lib_type "discoveryv1.EndpointSlice"))].
Definition ClusterAvailableConditionManager_DeepCopyInto : value -> M value := copy_into
  [("condition", RabbitmqClusterCondition_DeepCopyInto);
   ("endpointslice", pointer (lib_DeepCopyInto "discoveryv1.EndpointSlice"))].
Definition ClusterAvailableConditionManager_DeepCopy : value -> M value :=
  DeepCopy ClusterAvailableConditionManager_DeepCopyInto.

(** [RabbitmqClusterSecretReference] *)
Definition RabbitmqClusterSecretReference_type : gotype := TStruct
  [("Name", TPrim);
   ("Namespace", TPrim);
   ("Keys", TMap)].
Definition RabbitmqClusterSecretReference_DeepCopyInto : value -> M value := copy_into
  [("Keys", string_map)].
Definition RabbitmqClusterSecretReference_DeepCopy : value -> M value :=
  DeepCopy RabbitmqClusterSecretReference_DeepCopyInto.

(** [RabbitmqClusterServiceReference] *)
Definition RabbitmqClusterServiceReference_type : gotype := TStruct
  [("Name", TPrim);
   ("Namespace", TPrim)].
Definition RabbitmqClusterServiceReference_DeepCopyInto : value -> M value := copy_into [].
Definition RabbitmqClusterServiceReference_DeepCopy : value -> M value :=
  DeepCopy RabbitmqClusterServiceReference_DeepCopyInto.

(** [RabbitmqClusterDefaultUser] *)
Definition RabbitmqClusterDefaultUser_type : gotype := TStruct
  [("SecretReference", TPtr RabbitmqClusterSecretReference_type);
   ("ServiceReference", TPtr RabbitmqClusterServiceReference_type)].
Definition RabbitmqClusterDefaultUser_DeepCopyInto : value -> M value := copy_into
  [("SecretReference", pointer RabbitmqClusterSecretReference_DeepCopyInto);
   ("ServiceReference", pointer assign)].
Definition RabbitmqClusterDefaultUser_DeepCopy : value -> M value :=
  DeepCopy RabbitmqClusterDefaultUser_DeepCopyInto.

(** [RabbitmqClusterStatus] *)
Definition RabbitmqClusterStatus_type : gotype := TStruct
  [("Conditions", TSlice RabbitmqClusterCondition_type);
   ("DefaultUser", TPtr RabbitmqClusterDefaultUser_type);
   ("Binding", TPtr (lib_type "corev1.LocalObjectReference"));
   ("ObservedGeneration", TPrim);
   ("QuorumStatus", TPrim);
   ("DeprecatedFeaturesUsed", TSlice TPrim)].
Definition RabbitmqClusterStatus_DeepCopyInto : value -> M value := copy_into
  [("Conditions", slice RabbitmqClusterCondition_DeepCopyInto);
   ("DefaultUser", pointer RabbitmqClusterDefaultUser_DeepCopyInto);
   ("Binding", pointer assign);
   ("DeprecatedFeaturesUsed", slice assign)].
Definition RabbitmqClusterStatus_DeepCopy : value -> M value :=
  DeepCopy RabbitmqClusterStatus_DeepCopyInto.

(** ** Custom resource *)

(** [RabbitmqCluster] *)
Definition RabbitmqCluster_type : gotype := TStruct
  [("TypeMeta", lib_type "metav1.TypeMeta");
   ("ObjectMeta", lib_type "metav1.ObjectMeta");
   ("Spec", RabbitmqClusterSpec_type);
   ("Status", RabbitmqClusterStatus_type)].
Definition RabbitmqCluster_DeepCopyInto : value -> M value := copy_into
  [("TypeMeta", assign);
   ("ObjectMeta", lib_DeepCopyInto "metav1.ObjectMeta");
   ("Spec", RabbitmqClusterSpec_DeepCopyInto);
   ("Status", RabbitmqClusterStatus_DeepCopyInto)].
Definition RabbitmqCluster_DeepCopy : value -> M value := DeepCopy RabbitmqCluster_DeepCopyInto.

Definition RabbitmqCluster_DeepCopyObject : value -> M object := DeepCopyObject RabbitmqCluster_DeepCopyInto.

(** [RabbitmqClusterList] *)
Definition RabbitmqClusterList_type : gotype := TStruct
  [("TypeMeta", lib_type "metav1.TypeMeta");
   ("ListMeta", lib_type "metav1.ListMeta");
   ("Items", TSlice RabbitmqCluster_type)].
Definition RabbitmqClusterList_DeepCopyInto : value -> M value := copy_into
  [("TypeMeta", assign);
   ("ListMeta", lib_DeepCopyInto "metav1.ListMeta");
   ("Items", slice RabbitmqCluster_DeepCopyInto)].
Definition RabbitmqClusterList_DeepCopy : value -> M value :=
  DeepCopy RabbitmqClusterList_DeepCopyInto.

Definition RabbitmqClusterList_DeepCopyObject : value -> M object :=
  DeepCopyObject RabbitmqClusterList_DeepCopyInto.

(** Every type with its copier. *)
Definition generated : list (string * gotype * (value -> M value)) :=
  [("EmbeddedLabelsAnnotations", EmbeddedLabelsAnnotations_type, EmbeddedLabelsAnnotations_DeepCopyInto);
   ("EmbeddedObjectMeta", EmbeddedObjectMeta_type, EmbeddedObjectMeta_DeepCopyInto);
   ("PersistentVolumeClaim", PersistentVolumeClaim_type, PersistentVolumeClaim_DeepCopyInto);
   ("PodTemplateSpec", PodTemplateSpec_type, PodTemplateSpec_DeepCopyInto);
   ("StatefulSetSpec", StatefulSetSpec_type, StatefulSetSpec_DeepCopyInto);
   ("StatefulSet", StatefulSet_type, StatefulSet_DeepCopyInto);
   ("Service", Service_type, Service_DeepCopyInto);
   ("RabbitmqClusterOverrideSpec", RabbitmqClusterOverrideSpec_type, RabbitmqClusterOverrideSpec_DeepCopyInto);
   ("RabbitmqClusterConfigurationSpec", RabbitmqClusterConfigurationSpec_type, RabbitmqClusterConfigurationSpec_DeepCopyInto);
   ("RabbitmqClusterEmptyDirSpec", RabbitmqClusterEmptyDirSpec_type, RabbitmqClusterEmptyDirSpec_DeepCopyInto);
   ("RabbitmqClusterPersistenceSpec", RabbitmqClusterPersistenceSpec_type, RabbitmqClusterPersistenceSpec_DeepCopyInto);
   ("RabbitmqClusterServiceSpec", RabbitmqClusterServiceSpec_type, RabbitmqClusterServiceSpec_DeepCopyInto);
   ("TLSSpec", TLSSpec_type, TLSSpec_DeepCopyInto);
   ("VaultTLSSpec", VaultTLSSpec_type, VaultTLSSpec_DeepCopyInto);
   ("VaultSpec", VaultSpec_type, VaultSpec_DeepCopyInto);
   ("SecretBackend", SecretBackend_type, SecretBackend_DeepCopyInto);
   ("RabbitmqClusterSpec", RabbitmqClusterSpec_type, RabbitmqClusterSpec_DeepCopyInto);
   ("RabbitmqClusterCondition", RabbitmqClusterCondition_type, RabbitmqClusterCondition_DeepCopyInto);
   ("ClusterAvailableConditionManager", ClusterAvailableConditionManager_type, ClusterAvailableConditionManager_DeepCopyInto);
   ("RabbitmqClusterSecretReference", RabbitmqClusterSecretReference_type, RabbitmqClusterSecretReference_DeepCopyInto);
   ("RabbitmqClusterServiceReference", RabbitmqClusterServiceReference_type, RabbitmqClusterServiceReference_DeepCopyInto);
   ("RabbitmqClusterDefaultUser", RabbitmqClusterDefaultUser_type, RabbitmqClusterDefaultUser_DeepCopyInto);
   ("RabbitmqClusterStatus", RabbitmqClusterStatus_type, RabbitmqClusterStatus_DeepCopyInto);
   ("RabbitmqCluster", RabbitmqCluster_type, RabbitmqCluster_DeepCopyInto);
   ("RabbitmqClusterList", RabbitmqClusterList_type, RabbitmqClusterList_DeepCopyInto)].
End Generated.

(** ** Proofs *)

Section Proofs.
Context `{ApiMachineryOk}.

#[local] Instance Deep_lib n : Deep (lib_type n) (lib_DeepCopyInto n).
Proof. apply lib_deep. Qed.

Lemma Deep_assigned n : n ∈ assigned_types -> Deep (lib_type n) assign.
Proof. intros Hin. apply deep_assign. by apply (proj1 (Forall_forall _ _) lib_flat). Qed.

#[local] Hint Extern 1 (Deep (lib_type _) assign) =>
  apply Deep_assigned; apply (bool_decide_eq_true_1 _); reflexivity : typeclass_instances.

(** Each statement is found deep by search. *)
Ltac deep_struct :=
  apply deep_copy_into;
  [ reflexivity
  | repeat (apply Forall_cons_2; [eexists; split; [reflexivity|cbn [snd]; apply is_deep]|]); apply Forall_nil_2
  | reflexivity ].

#[local] Instance Deep_EmbeddedLabelsAnnotations :
  Deep EmbeddedLabelsAnnotations_type EmbeddedLabelsAnnotations_DeepCopyInto.
Proof. deep_struct. Qed.
#[local] Instance Deep_EmbeddedObjectMeta :
  Deep EmbeddedObjectMeta_type EmbeddedObjectMeta_DeepCopyInto.
Proof. deep_struct. Qed.
#[local] Instance Deep_PersistentVolumeClaim :
  Deep PersistentVolumeClaim_type PersistentVolumeClaim_DeepCopyInto.
Proof. deep_struct. Qed.
#[local] Instance Deep_PodTemplateSpec : Deep PodTemplateSpec_type PodTemplateSpec_DeepCopyInto.
Proof. deep_struct. Qed.
#[local] Instance Deep_StatefulSetSpec : Deep StatefulSetSpec_type StatefulSetSpec_DeepCopyInto.
Proof. deep_struct. Qed.
#[local] Instance Deep_StatefulSet : Deep StatefulSet_type StatefulSet_DeepCopyInto.
Proof. deep_struct. Qed.
#[local] Instance Deep_Service : Deep Service_type Service_DeepCopyInto.
Proof. deep_struct. Qed.
#[local] Instance Deep_RabbitmqClusterOverrideSpec :
  Deep RabbitmqClusterOverrideSpec_type RabbitmqClusterOverrideSpec_DeepCopyInto.
Proof. deep_struct. Qed.
#[local] Instance Deep_RabbitmqClusterConfigurationSpec :
  Deep RabbitmqClusterConfigurationSpec_type RabbitmqClusterConfigurationSpec_DeepCopyInto.
Proof. deep_struct. Qed.
#[local] Instance Deep_RabbitmqClusterEmptyDirSpec :
  Deep RabbitmqClusterEmptyDirSpec_type RabbitmqClusterEmptyDirSpec_DeepCopyInto.
Proof. deep_struct. Qed.
#[local] Instance Deep_RabbitmqClusterPersistenceSpec :
  Deep RabbitmqClusterPersistenceSpec_type RabbitmqClusterPersistenceSpec_DeepCopyInto.
Proof. deep_struct. Qed.
#[local] Instance Deep_RabbitmqClusterServiceSpec :
  Deep RabbitmqClusterServiceSpec_type RabbitmqClusterServiceSpec_DeepCopyInto.
Proof. deep_struct. Qed.
#[local] Instance Deep_TLSSpec : Deep TLSSpec_type TLSSpec_DeepCopyInto.
Proof. deep_struct. Qed.
#[local] Instance Deep_VaultTLSSpec : Deep VaultTLSSpec_type VaultTLSSpec_DeepCopyInto.
Proof. deep_struct. Qed.
#[local] Instance Deep_VaultSpec : Deep VaultSpec_type VaultSpec_DeepCopyInto.
Proof. deep_struct. Qed.
#[local] Instance Deep_SecretBackend : Deep SecretBackend_type SecretBackend_DeepCopyInto.
Proof. deep_struct. Qed.
#[local] Instance Deep_RabbitmqClusterSpec :
  Deep RabbitmqClusterSpec_type RabbitmqClusterSpec_DeepCopyInto.
Proof. deep_struct. Qed.
#[local] Instance Deep_RabbitmqClusterCondition :
  Deep RabbitmqClusterCondition_type RabbitmqClusterCondition_DeepCopyInto.
Proof. deep_struct. Qed.
#[local] Instance Deep_ClusterAvailableConditionManager :
  Deep ClusterAvailableConditionManager_type ClusterAvailableConditionManager_DeepCopyInto.
Proof. deep_struct. Qed.
#[local] Instance Deep_RabbitmqClusterSecretReference :
  Deep RabbitmqClusterSecretReference_type RabbitmqClusterSecretReference_DeepCopyInto.
Proof. deep_struct. Qed.
#[local] Instance Deep_RabbitmqClusterServiceReference :
  Deep RabbitmqClusterServiceReference_type RabbitmqClusterServiceReference_DeepCopyInto.
Proof. deep_struct. Qed.
#[local] Instance Deep_RabbitmqClusterDefaultUser :
  Deep RabbitmqClusterDefaultUser_type RabbitmqClusterDefaultUser_DeepCopyInto.
Proof. deep_struct. Qed.
#[local] Instance Deep_RabbitmqClusterStatus :
  Deep RabbitmqClusterStatus_type RabbitmqClusterStatus_DeepCopyInto.
Proof. deep_struct. Qed.
#[local] Instance Deep_RabbitmqCluster : Deep RabbitmqCluster_type RabbitmqCluster_DeepCopyInto.
Proof. deep_struct. Qed.
#[local] Instance Deep_RabbitmqClusterList :
  Deep RabbitmqClusterList_type RabbitmqClusterList_DeepCopyInto.
Proof. deep_struct. Qed.

Lemma generated_deep : Forall (fun '(_, t, DeepCopyInto) => deep t DeepCopyInto) generated.
Proof. repeat constructor; apply is_deep. Qed.

(** C26. A deep copy of any type of the API or of the status conditions shares no
    memory with its original.  On a pointer that can be read, [DeepCopy]
    succeeds and changes nothing that was there; whatever is then done to the
    memory that existed before (the operator's changes of the original), the copy
    holds what the original held when it was made; and whatever is done to
    the rest (changes of the copy), the original holds what it held. *)
Theorem generated_copies_isolate name t DeepCopyInto h p x ls :
  (name, t, DeepCopyInto) ∈ generated -> read h (TPtr t) p = Some (x, ls) ->
  exists h' p' ls', DeepCopy DeepCopyInto p h = Some (h', p') /\ keeps_old h h' /\
    (forall h2, keeps_new h h' h2 -> read h2 (TPtr t) p' = Some (x, ls')) /\
    (forall h2, keeps_old h h2 -> read h2 (TPtr t) p = Some (x, ls)).
Proof.
  intros Hin. apply DeepCopy_isolates. pose proof generated_deep as Hd.
  rewrite Forall_forall in Hd. apply (Hd _ Hin).
Qed.

(** The objects handed to the API machinery: nil only for a nil pointer. *)
Theorem DeepCopyObject_spec h p x ls :
  (read h (TPtr RabbitmqCluster_type) p = Some (x, ls) ->
   exists h' o, RabbitmqCluster_DeepCopyObject p h = Some (h', o) /\ (o = NilObject <-> p = Ref None)) /\
  (read h (TPtr RabbitmqClusterList_type) p = Some (x, ls) ->
   exists h' o, RabbitmqClusterList_DeepCopyObject p h = Some (h', o) /\ (o = NilObject <-> p = Ref None)).
Proof. split; apply DeepCopyObject_nil, is_deep. Qed.
End Proofs.

(** ** A copied status *)

Module Sample.
(** A library whose types hold a name, the others also a map. *)
#[local] Instance plain_library : ApiMachinery := {|
  lib_type n := if bool_decide (n ∈ assigned_types) then TStruct [("Name", TPrim)]
                else TStruct [("Name", TPrim); ("Entries", TMap)];
  lib_DeepCopyInto n := if bool_decide (n ∈ assigned_types) then copy_into []
                        else copy_into [("Entries", string_map)];
|}.

#[local] Instance plain_library_ok : ApiMachineryOk.
Proof.
  split.
  - intros n. cbn. destruct (bool_decide _); apply deep_copy_into; try reflexivity; [constructor|].
    apply Forall_singleton. exists TMap. split; [reflexivity|apply deep_string_map].
  - apply Forall_forall. intros n Hin. cbn. by rewrite bool_decide_eq_true_2.
Qed.

Definition condition (ty status : string) : value :=
  Struct [("Type", Prim ty); ("Status", Prim status);
          ("LastTransitionTime", Struct [("Name", Prim "1970-01-01"); ("Entries", Ref None)]);
          ("Reason", Prim ""); ("Message", Prim "")].

(** A status at 1 with its conditions at 2 and its default user at 3. *)
Definition memory : heap := list_to_map
  [(1%positive, Cell (Struct [("Conditions", Ref (Some 2%positive)); ("DefaultUser", Ref (Some 3%positive));
                     ("Binding", Ref None); ("ObservedGeneration", Prim "4"); ("QuorumStatus", Prim "ok");
                     ("DeprecatedFeaturesUsed", Ref None)]));
   (2%positive, Array [condition "ReconcileSuccess" "Unknown"]);
   (3%positive, Cell (Struct [("SecretReference", Ref (Some 4%positive)); ("ServiceReference", Ref None)]));
   (4%positive, Cell (Struct [("Name", Prim "s"); ("Namespace", Prim "ns"); ("Keys", Ref (Some 5%positive))]));
   (5%positive, Table {["username" := "username"]})].

(** The operator's change of the original: the condition holds. *)
Definition reconciled (h : heap) : heap := <[2%positive := Array [condition "ReconcileSuccess" "True"]]> h.

Definition reads (h : heap) (p : value) : option tree := fst <$> read h (TPtr RabbitmqClusterStatus_type) p.

(** The base of the patch still holds the old condition, the status the new one. *)
Example base_of_patch :
  match RabbitmqClusterStatus_DeepCopy (Ref (Some 1%positive)) memory with
  | Some (h, base) =>
      reads (reconciled h) base = reads memory (Ref (Some 1%positive)) /\
      reads (reconciled h) (Ref (Some 1%positive)) = reads (reconciled memory) (Ref (Some 1%positive)) /\
      reads (reconciled h) base <> reads (reconciled h) (Ref (Some 1%positive)) /\
      is_Some (reads memory (Ref (Some 1%positive)))
  | None => False
  end.
Proof. vm_compute. split_and!; [reflexivity|reflexivity|discriminate|by eexists]. Qed.

Lemma generated_copies_isolate_witness :
  exists x ls h' p' ls', read memory (TPtr RabbitmqClusterStatus_type) (Ref (Some 1%positive)) = Some (x, ls) /\
    RabbitmqClusterStatus_DeepCopy (Ref (Some 1%positive)) memory = Some (h', p') /\
    read (reconciled h') (TPtr RabbitmqClusterStatus_type) p' = Some (x, ls').
Proof.
  destruct (read memory (TPtr RabbitmqClusterStatus_type) (Ref (Some 1%positive))) as [[x ls]|] eqn:Hr;
    [|vm_compute in Hr; discriminate].
  destruct (generated_copies_isolate "RabbitmqClusterStatus" RabbitmqClusterStatus_type
    RabbitmqClusterStatus_DeepCopyInto memory (Ref (Some 1%positive)) x ls) as (h' & p' & ls' & Hc & _ & Hn & _);
    [|exact Hr|].
  { unfold generated. repeat first [apply list_elem_of_here | apply list_elem_of_further]. }
  exists x, ls, h', p', ls'. split; [reflexivity|]. split; [exact Hc|]. apply Hn.
  intros l Hl _. unfold reconciled. rewrite lookup_insert_ne; [done|]. intros <-. vm_compute in Hl. discriminate.
Defined.
End Sample.
