(* ===== verification/Examples.v ===== *)
(** * Concrete clusters

    The theorems of the other files at concrete inputs: simple instances of
    the library interfaces, a sample cluster, a simulated API server, and for
    each theorem with hypotheses an instance where they hold. *)

From S2P Require Import Prelude.
From S2P Require Import Strconv.
From S2P Require Import K8s.
From S2P Require Import Metadata.
From S2P Require Import Status.
From S2P Require Import Api.
From S2P Require Import Sanitize.
From S2P Require Import Webhook.
From S2P Require Import Plugins.
From S2P Require Import Override.
From S2P Require Import Services.
From S2P Require Import Ini.
From S2P Require Import Secrets.
From S2P Require Import ServerConf.
From S2P Require Import PodTemplate.
From S2P Require Import StatefulSet.
From S2P Require Import Rbac.
From S2P Require Import ResourceBuilder.
From S2P Require Import Kube.
From S2P Require Import Scaling.
From S2P Require Import Expansion.
From S2P Require Import Controller.
From S2P Require Import Tls.
From S2P Require Import Replicas.
From S2P Require Import Client.
From S2P Require Import Quorum.
From S2P Require Import PostDeploy.
From S2P Require Import Deletion.
From S2P Require Import Reconcile.
From S2P Require Import Management.
From S2P Require Import Settled.
From S2P Require Import Convergence.
From S2P Require Import Completes.

(** ** Instances of the interfaces *)

(** Versions are not ordered here: the constraint holds of 4.1 and 4.2. *)
Definition simple_semver : Semver := {|
  version := string;
  semver_NewVersion v := Some v;
  constraint_Check _ v := HasPrefix v "4.1" || HasPrefix v "4.2"
|}.

Definition simple_client_lib : ClientLib := {|
  SystemCertPool := Ok tt;
  AppendCertsFromPEM _ := true;
  NewClient url user pass := Ok (mkClient url user pass None 0);
  NewTLSClient url user pass tr := Ok (mkClient url user pass tr 0)
|}.

Definition simple_client_lib_laws : @ClientLibLaws simple_client_lib.
Proof. split; cbn; [intros url user pass c [= <-] | intros url user pass tr c [= <-]]; by eexists. Defined.

(** Times as decimal numbers. *)
Definition simple_rfc3339 : Rfc3339 := {|
  format_time t := Itoa t;
  parse_time s := match ParseInt32 s with Some t => Ok t | None => Err "cannot parse" end
|}.

(** Objects are compared field by field. *)
Definition decided_create_or_update : CreateOrUpdateLib := create_or_update_lib (fun a b => bool_decide (a = b)).
Definition decided_create_or_update_laws : @CreateOrUpdateLaws decided_create_or_update := create_or_update_laws _.

Definition sample_rand : RandSource := fun n => Ok (repeat 65%Z n).
Definition sample_iter : gmap string ServicePort -> list (string * ServicePort) := map_to_list.

#[local] Existing Instances simple_semver simple_client_lib simple_client_lib_laws simple_rfc3339 simple_refs simple_refs_laws
  merge_keep retry5 retry5_laws line_ini_laws decided_create_or_update decided_create_or_update_laws.

(** ** A sample cluster *)

Definition sample_meta : ObjectMeta :=
  mkMeta "rabbit" "default" "uid-1" 3 None (Some {["team" := "queues"]})
    (Some {["example.com/note" := "sample"]}) [] [deletionFinalizer].

Definition sample_override (claims : list OverridePVC) (pod : option PodSpec) : RabbitmqClusterOverrideSpec :=
  mkOverride (Some (mkOSts None (Some
    (mkOSSpec None None (option_map (fun p => mkOPT None (Some p)) pod) claims "" "" None 0 None)))) None.

Definition sample_spec (replicas : Z) (tls : TLSSpec) (override : RabbitmqClusterOverrideSpec)
    (vault : option VaultSpec) : RabbitmqClusterSpec :=
  mkSpec (Some replicas) "rabbitmq:4.1" None (mkServiceSpec "ClusterIP" None None None)
    (mkPersistence None (Some (quantity_of_int 10)) None)
    (Some (mkResources (Some {["memory" := quantity_of_int 2000000000]})
             (Some {["memory" := quantity_of_int 2000000000]})))
    None [] (mkRmqConf ["rabbitmq_stream"; "rabbitmq_mqtt"] "channel_max = 1050" "" "" "")
    tls override false false (Some 604800%Z) (Some 30%Z) (mkBackend vault "").

Definition sample_status : RabbitmqClusterStatus :=
  mkStatus (map newRabbitmqClusterCondition [AllReplicasReady; ClusterAvailable; NoWarnings; ReconcileSuccess])
    None None 0 "" [].

Definition no_override : RabbitmqClusterOverrideSpec := mkOverride None None.
Definition sample_tls : TLSSpec := mkTLS "tls-secret" "ca-secret" true.

Definition sample : RabbitmqCluster :=
  mkCluster sample_meta (sample_spec 3 (mkTLS "" "" false) no_override None) sample_status.

(** mutual TLS without plain listeners *)
Definition sample_mtls : RabbitmqCluster :=
  mkCluster sample_meta (sample_spec 3 sample_tls no_override None) sample_status.

Definition sample_vault : RabbitmqCluster :=
  mkCluster sample_meta
    (sample_spec 3 (mkTLS "" "" false) no_override
       (Some (mkVault "rabbitmq" (Some {["example.com/vault" := "yes"]}) "secret/data/rabbitmq/config" None
                (mkVaultTLS "" "" "" "" ""))))
    sample_status.

(** an override that grows the claim named persistence *)
Definition sample_claim : OverridePVC :=
  mkOPVC (mkEOM "persistence" "" None None)
    (mkPVCSpec ["ReadWriteOnce"] (Some {["storage" := quantity_of_int 30]}) None None).
Definition sample_claims : RabbitmqCluster :=
  mkCluster sample_meta (sample_spec 3 (mkTLS "" "" false) (sample_override [sample_claim] None) None)
    sample_status.

(** ** A simulated API server

    It keeps the objects by kind and name, and the cluster; every pod of the
    StatefulSet is ready at once, and every other call succeeds. *)

Record SimState := mkSim { sim_cluster : RabbitmqCluster; sim_store : gmap (string * string) Object }.

Definition sim_key (o : Object) : string * string := (object_kind o, om_Name (object_meta o)).

Definition sim_ready (s : StatefulSet) : StatefulSet :=
  mkSts (sts_Meta s) (sts_Spec s) (mkStsStatus (default 0%Z (sp_Replicas (sts_Spec s))) "r1" "r1").

Definition sim_object (o : Object) : Object :=
  match o with OStatefulSet s => OStatefulSet (sim_ready s) | _ => o end.

Definition sim_put (o : Object) (st : SimState) : SimState :=
  mkSim (sim_cluster st) (<[sim_key o := sim_object o]> (sim_store st)).

Definition sim_get {A} (st : SimState) (kind name : string) (pick : Object -> option A) : result ApiError A :=
  match sim_store st !! (kind, name) ≫= pick with
  | Some a => Ok a
  | None => Err (NotFound (kind +:+ " not found"))
  end.

Definition pick_sts (o : Object) : option StatefulSet := match o with OStatefulSet s => Some s | _ => None end.
Definition pick_configmap (o : Object) : option ConfigMap := match o with OConfigMap c => Some c | _ => None end.
Definition pick_service (o : Object) : option Service := match o with OService s => Some s | _ => None end.

Definition sim_secret : Secret :=
  mkSecret (meta_named "rabbit-default-user" "default") "Opaque"
    (Some (<["username" := "u"]> (<["password" := "p"]> (<["tls.crt" := "c"]> (<["tls.key" := "k"]>
      {["ca.crt" := "ca"]}))))).

(** The terminal of the simulation: kubectl succeeds, and prints the
    credentials [u] and [p] when it is asked for those of a Secret. *)
Definition sim_tool (c : tool_call) : tool_answer c :=
  match c with
  | Getenv _ => ""
  | ReadFile _ => Ok "contents"
  | CreateTemp _ => Ok "/tmp/file.yaml"
  | OutputKubectl args =>
      Ok (if slice_contains args "jsonpath={.data.username}" then "dQ=="
          else if slice_contains args "jsonpath={.data.password}" then "cA=="
          else "rabbit-server-0")
  | WriteFile _ _ | CloseFile _ | RemoveFile _ | RunKubectl _ => Ok tt
  | Stdout _ | Stderr _ => tt
  end.

Definition sim (st : SimState) (c : call) : SimState * answer c :=
  match c with
  | GetCluster _ _ => (st, Ok (sim_cluster st))
  | UpdateCluster r | PatchStatus r => (mkSim r (sim_store st), Ok r)
  | GetSts _ n => (st, sim_get st "StatefulSet" n pick_sts)
  | UpdateSts s => (sim_put (OStatefulSet s) st, Ok s)
  | DeleteSts _ n _ => (mkSim (sim_cluster st) (delete ("StatefulSet", n) (sim_store st)), Ok tt)
  | GetPVC _ _ => (st, Err (NotFound "claim not found"))
  | UpdatePVC _ p => (st, Ok p)
  | GetSecret _ _ => (st, Ok sim_secret)
  | UpdateSecret s => (st, Ok s)
  | GetConfigMap _ n => (st, sim_get st "ConfigMap" n pick_configmap)
  | GetService _ n => (st, sim_get st "Service" n pick_service)
  | UpdateConfigMap c => (sim_put (OConfigMap c) st, Ok c)
  | ListEndpointSlices _ _ => (st, Ok [[mkEndpoint ["10.0.0.1"] (Some "rabbit-server-0") None]])
  | ListPods ns _ => (st, Ok [om_with_labels (Some {["app.kubernetes.io/name" := "rabbit"]})
                                (meta_named "rabbit-server-0" ns)])
  | UpdatePod _ | DeleteRbac _ _ _ | RemoveFinalizer _ _ _ => (st, Ok tt)
  | GetObject o => (st, sim_get st (object_kind o) (om_Name (object_meta o)) Some)
  | CreateObject o | UpdateObject o => (sim_put o st, Ok (sim_object o))
  | Exec _ _ _ _ => (st, Ok "true")
  | HealthCheckNodeIsQuorumCritical _ => (st, Ok true)
  | Overview _ => (st, Ok ("4.1.0", "27.0"))
  | ListDeprecatedFeaturesUsed _ => (st, Ok [])
  | Event _ _ _ => (st, tt)
  | Now => (st, 1000000%Z)
  | Sleep _ => (st, tt)
  | Tool c => (st, sim_tool c)
  end.

Definition empty_server (cluster : RabbitmqCluster) : SimState := mkSim cluster ∅.

Definition sim_run {R} (p : prog R) (st : SimState) : SimState * history * R := run sim p st.

Lemma wp_on_run {R} (p : prog R) (Q : history -> R -> Prop) (st : SimState) :
  wp p Q [] -> Q (snd (fst (sim_run p st))) (snd (sim_run p st)).
Proof.
  intros Hp. pose proof (wp_run sim p Q st Hp) as Hr. unfold sim_run.
  by destruct (run sim p st) as [[s h] r].
Qed.

(** ** The reconcile loop *)

Definition sample_config : ReconcilerConfig := mkConfig "rabbitmq:4.1" "updater:1" false.

Definition sample_reconcile : prog StepResult :=
  Reconcile sample_iter sample_rand (fun l => l) sample_config "default" "rabbit".

Definition sample_pass (cluster : RabbitmqCluster) : SimState * history * StepResult :=
  sim_run sample_reconcile (empty_server cluster).

(** The objects a history created and updated, in order. *)
Definition created (h : history) : list (string * string) :=
  concat (map (fun e => match projT1 e with CreateObject o => [sim_key o] | _ => [] end) h).
Definition updated (h : history) : list (string * string) :=
  concat (map (fun e => match projT1 e with UpdateObject o => [sim_key o] | _ => [] end) h).



(** the sample cluster with reconciliation paused *)
Definition sample_paused : RabbitmqCluster :=
  rmq_with_meta (om_with_labels (Some {[pauseReconciliationLabel := "true"]}) sample_meta) sample.


(** ** The sample cluster settles *)

(** The end of the first pass notes the version of RabbitMQ in an annotation of
    the cluster, which the second pass copies to the children. *)
Definition after_two_passes : SimState :=
  fst (fst (sim_run sample_reconcile (fst (fst (sample_pass sample))))).
Definition third_pass : SimState * history * StepResult := sim_run sample_reconcile after_two_passes.
Definition sample_store : Children :=
  mkChildren (fun k => sim_store after_two_passes !! k) (quantity_of_int 10).


Lemma update_is_projection_witness :
  exists o b, Update sample_iter sample ServiceBuilder (OService (service_Build sample)) = Ok (o, b) /\
    exists b', Update sample_iter sample ServiceBuilder o = Ok (o, b') /\ asks_no_restart b'.
Proof.
  destruct (Update sample_iter sample ServiceBuilder (OService (service_Build sample))) as [[o b]|e] eqn:E.
  - exists o, b. split; [reflexivity|].
    apply (update_is_projection sample_iter (fun m => reflexivity _) sample ServiceBuilder
             (OService (service_Build sample)) o b); [|exact E].
    split; [intros ? H; discriminate H | intros ? ? H; discriminate H].
  - exfalso. revert E. vm_compute. discriminate.
Defined.

(** ** Replicas *)

Definition ok_or {E A} (d : A) (r : result E A) : A := match r with Ok a => a | Err _ => d end.

Definition empty_sts : StatefulSet :=
  mkSts (meta_named "" "") (mkStsSpec None None empty_template [] "" "" (mkStrategy "" None None) 0 None)
    (mkStsStatus 0 "" "").

(** A StatefulSet with a number of replicas. *)
Definition sts_of (n : Z) : StatefulSet :=
  mkSts (meta_named "rabbit-server" "default")
    (mkStsSpec (Some n) None empty_template [] "" "" (mkStrategy "" None None) 0 None) (mkStsStatus n "r1" "r1").

Lemma scale_down_refused_witness :
  (0 < 3 < 5)%Z /\
  wp (check_replicas sample (sts_of 5) (sts_of 3)) (fun h r => r = inr step_ok /\
    exists st msg, writes h = [PatchStatus st] /\
      success_condition st = Some (ConditionFalse, "UnsupportedOperation", msg)) [].
Proof.
  split; [lia|]. apply (scale_down_refused sample (sts_of 5) (sts_of 3) 5 3); [reflexivity|reflexivity|lia|reflexivity].
Defined.

Lemma scale_to_zero_saves_witness :
  (0 < 3)%Z /\
  wp (check_replicas sample (sts_of 3) (sts_of 0)) (fun h r =>
    Forall (saves 3) (writes h) /\ (forall rmq', r = inl rmq' -> existsb accepted h = true)) [].
Proof. split; [lia|]. apply (scale_to_zero_saves sample (sts_of 3) (sts_of 0) 3); [reflexivity|reflexivity|lia]. Defined.

(** the sample cluster scaled to zero from three replicas *)
Definition sample_zero : RabbitmqCluster :=
  rmq_with_meta (om_with_annotations (Some {[beforeZeroReplicasConfigured := "3"]}) sample_meta) sample.

Lemma scale_from_zero_restores_witness :
  smap_get (rmq_Annotations sample_zero) beforeZeroReplicasConfigured = Some (Itoa 3) /\
  wp (check_replicas sample_zero (sts_of 0) (sts_of 3)) (fun h r => exists rmq' replaced, r = inl (rmq', replaced) /\
    writes h = [UpdateCluster (rmq_with_meta (drop_annotation beforeZeroReplicasConfigured (rmq_Meta sample_zero))
                                 sample_zero)]) [].
Proof.
  split; [vm_compute; reflexivity|].
  exact (scale_from_zero_restores sample_zero (sts_of 0) (sts_of 3) 3 3 eq_refl eq_refl
    ltac:(lia) ltac:(lia) ltac:(vm_compute; reflexivity)).
Defined.

(** ** Expansion of the claims *)

(** a claim of the sample cluster's replica *)
Definition replica_claim (storage i : Z) : PersistentVolumeClaim :=
  mkPVC (meta_named (PVCName sample i) "default")
    (mkPVCSpec ["ReadWriteOnce"] (Some {["storage" := storage]}) None None).

(** three claims of 10 units, and the StatefulSet that asked for them *)
Definition sample_world : World :=
  mkWorld
    (Some (mkSts (meta_named "rabbit-server" "default")
       (mkStsSpec (Some 3%Z) None empty_template
          [mkPVC (meta_named "persistence" "default") (mkPVCSpec [] (Some {["storage" := 10%Z]}) None None)]
          "" "" (mkStrategy "" None None) 0 None)
       (mkStsStatus 3 "r1" "r1")))
    (list_to_map (map (fun p => (pvc_key p, p)) (map (replica_claim 10) [0; 1; 2]%Z))).

Definition sample_other (c : call) : answer c := snd (sim (empty_server sample) c).

(** The n-th call fails, carried out or not; the others do not. *)
Definition fault_at (n : nat) (carried_out : bool) : Faults :=
  fun k => if (k =? n)%nat then Some (ApiFailure "timeout", carried_out) else None.

Definition storages_of (w : World) : list Quantity :=
  omap (fun k => option_map storage_of (w_PVCs w !! k)) (replica_keys sample).

(** The first pass fails at the deletion of the StatefulSet, which is gone
    nevertheless; the second at the second claim. *)
Lemma interrupted_expansion_completes_witness :
  let w1 := fold_left (interrupted sample_other sample 30%Z) [fault_at 5 true; fault_at 7 false] sample_world in
  storages_of sample_world = [10; 10; 10]%Z /\ storages_of w1 = [30; 10; 10]%Z /\ w_Sts w1 = None /\
  let '(w2, _, r) := run (honest sample_other) (Scale sample 30%Z) w1 in
  r = Ok tt /\ expanded sample 30%Z (w_PVCs w1) (w_PVCs w2) /\
  forall k, k ∈ replica_keys sample -> is_Some (w_PVCs sample_world !! k) ->
    exists p, w_PVCs w2 !! k = Some p /\ (30 <= storage_of p)%Z.
Proof.
  split; [vm_compute; reflexivity|]. split; [vm_compute; reflexivity|]. split; [vm_compute; reflexivity|].
  apply (interrupted_expansion_completes sample_other sample 30%Z sample_world
           [fault_at 5 true; fault_at 7 false]).
  split; [|vm_compute; split; [intros [E _]; discriminate E | intros E; discriminate E]]. assert (bool_decide (map_Forall (fun k p => pvc_key p = k /\ is_Some (pvcs_Requests (pvc_Spec p)))
    (w_PVCs sample_world)) = true) as E by (vm_compute; reflexivity).
  exact (bool_decide_eq_true_1 _ E).
Defined.

(** ** The StatefulSet *)

Definition built_sts (cluster : RabbitmqCluster) : StatefulSet := ok_or empty_sts (sts_Build cluster).
Definition updated_sts (cluster : RabbitmqCluster) : StatefulSet :=
  ok_or empty_sts (sts_Update cluster (built_sts cluster)).


Lemma sts_Update_claims_witness :
  sts_Update sample_claims (built_sts sample_claims) = Ok (updated_sts sample_claims) /\
  Forall2 (fun o p => pvc_Spec p = opvc_Spec o /\ om_Namespace (pvc_Meta p) = "default" /\
      Forall (fun r => or_BlockOwnerDeletion r = Some false) (om_OwnerReferences (pvc_Meta p)))
    [sample_claim] (sp_VolumeClaimTemplates (sts_Spec (updated_sts sample_claims))).
Proof.
  assert (sts_Update sample_claims (built_sts sample_claims) = Ok (updated_sts sample_claims)) as E
    by (vm_compute; reflexivity).
  split; [exact E|].
  exact (sts_Update_claims sample_claims (built_sts sample_claims) _ (quantity_of_int 10) E eq_refl).
Defined.

Lemma sts_recreate_capacity_witness :
  let storages s := map (fun t => rl_get (pvcs_Requests (pvc_Spec t)) "storage")
                      (sp_VolumeClaimTemplates (sts_Spec s)) in
  exists sts2, sts_Update_in_memory sample_claims (updated_sts sample_claims) = Ok sts2 /\
    storages (updated_sts sample_claims) = [quantity_of_int 30] /\ storages sts2 = [quantity_of_int 10].
Proof.
  exists (ok_or empty_sts (sts_Update_in_memory sample_claims (updated_sts sample_claims))).
  split; [vm_compute; reflexivity|].
  destruct (sts_recreate_capacity sample_claims (built_sts sample_claims) (updated_sts sample_claims)
    (ok_or empty_sts (sts_Update_in_memory sample_claims (updated_sts sample_claims)))
    (quantity_of_int 10) (mkOSSpec None None None [sample_claim] "" "" None 0 None) sample_claim
    {["storage" := quantity_of_int 30]}) as [E1 E2];
    [reflexivity | reflexivity | reflexivity | reflexivity | reflexivity | vm_compute; discriminate
    | vm_compute; reflexivity | vm_compute; reflexivity |].
  split; [|exact E2]. etransitivity; [exact E1 | vm_compute; reflexivity].
Defined.

Lemma sts_Update_identity_witness :
  sts_Update sample (built_sts sample) = Ok (updated_sts sample) /\
  ps_ServiceAccountName (pt_Spec (sp_Template (sts_Spec (updated_sts sample)))) = "rabbit-server".
Proof.
  assert (sts_Update sample (built_sts sample) = Ok (updated_sts sample)) as E by (vm_compute; reflexivity).
  split; [exact E|]. exact (proj1 (sts_Update_identity sample (built_sts sample) _ E)).
Defined.

(** ** Configuration, restarts and deletion *)

(** the server ConfigMap of a cluster after its first update *)
Definition first_configmap (cluster : RabbitmqCluster) : ConfigMap :=
  fst (ok_or (mkCM sample_meta None, false) (server_Update cluster true (server_Build cluster))).

Lemma restart_iff_stale_witness :
  wp (restartStatefulSetIfNeeded sample) (fun h r =>
    (forall h1 e h2, h = h1 ++ e :: h2 -> restart_event_ok h1 e) /\
    (forall t s0, conf_marks h = [t] -> head (sts_reads h) = Some s0 -> needs_restart t s0 = true ->
       r = step_ok -> existsb sts_accepted h = true)) [].
Proof. exact (restart_iff_stale sample). Defined.


(** The sample cluster with other replicas, extra configuration or Erlang
    settings. *)
Definition with_inetrc (text : string) (cluster : RabbitmqCluster) : RabbitmqCluster :=
  let s := rmq_Spec cluster in
  let r := spec_Rabbitmq s in
  rmq_with_spec
    (mkSpec (spec_Replicas s) (spec_Image s) (spec_ImagePullSecrets s) (spec_Service s) (spec_Persistence s)
       (spec_Resources s) (spec_Affinity s) (spec_Tolerations s)
       (mkRmqConf (rc_AdditionalPlugins r) (rc_AdditionalConfig r) (rc_AdvancedConfig r) (rc_EnvConfig r) text)
       (spec_TLS s) (spec_Override s) (spec_SkipPostDeploySteps s) (spec_AutoEnableAllFeatureFlags s)
       (spec_TerminationGracePeriodSeconds s) (spec_DelayStartSeconds s) (spec_SecretBackend s)) cluster.

(** the update of a ConfigMap for a cluster, with the builder's flag *)
Definition configmap_update (cluster : RabbitmqCluster) (cm : ConfigMap) : ConfigMap * bool :=
  ok_or (mkCM sample_meta None, true) (server_Update cluster true cm).

Lemma scaling_needs_no_restart_witness :
  server_Update (with_replicas 5 sample) true (first_configmap (with_replicas 3 sample)) =
    Ok (configmap_update (with_replicas 5 sample) (first_configmap (with_replicas 3 sample))) /\
  snd (configmap_update (with_replicas 5 sample) (first_configmap (with_replicas 3 sample))) = false.
Proof.
  split; [vm_compute; reflexivity|].
  refine (scaling_needs_no_restart sample 3 5 (server_Build (with_replicas 3 sample))
    (first_configmap (with_replicas 3 sample))
    (fst (configmap_update (with_replicas 5 sample) (first_configmap (with_replicas 3 sample))))
    true true _ _ _ _); [|vm_compute; reflexivity|vm_compute; reflexivity].
  intros k f t [-> | ->] Hf Ht; vm_compute in Hf; injection Hf as <-; vm_compute in Ht; injection Ht as <-;
    (split; [discriminate | vm_compute; reflexivity]).
Defined.


Definition sample_ini (r : result string (@ini line_ini)) : @ini line_ini := ok_or ini_Empty r.


Lemma operatorConfiguration_spec_witness :
  operatorConfiguration sample = Ok (sample_ini (operatorConfiguration sample)) /\
  exists n auth, Some 3%Z = Some n /\ areAuthMechanismsConfigued "channel_max = 1050" = Ok auth /\
    ini_Get (sample_ini (operatorConfiguration sample)) size_hint_key = Some (Itoa n).
Proof.
  assert (operatorConfiguration sample = Ok (sample_ini (operatorConfiguration sample))) as E
    by (vm_compute; reflexivity).
  split; [exact E|].
  destruct (operatorConfiguration_spec sample _ E) as (n & auth & Hn & Ha & Hs & _).
  exists n, auth. split; [exact Hn|]. split; [exact Ha | exact Hs].
Defined.

Lemma removeHeadroom_spec_witness :
  (0 <= quantity_of_int 2 < 2 ^ 63)%Z /\
  (0 <= removeHeadroom 2147483648 <= 2147483648)%Z.
Proof.
  split; [vm_compute; split; [discriminate | reflexivity]|].
  exact (proj1 (proj2 (removeHeadroom_spec 2147483648 ltac:(lia)))).
Defined.

(** ** Pods, Services and Secrets *)

Definition empty_pod : PodTemplateSpec := empty_template.
Definition pod_of (cluster : RabbitmqCluster) : PodTemplateSpec :=
  default empty_pod (podTemplateSpec cluster (Some {[stsRestartAnnotation := "1"]})).


Lemma pod_mounts_declared_witness :
  podTemplateSpec sample_mtls (Some {[stsRestartAnnotation := "1"]}) = Some (pod_of sample_mtls) /\
  NoDup (map v_Name (ps_Volumes (pt_Spec (pod_of sample_mtls)))).
Proof.
  assert (podTemplateSpec sample_mtls (Some {[stsRestartAnnotation := "1"]}) = Some (pod_of sample_mtls)) as E
    by (vm_compute; reflexivity).
  split; [exact E|]. exact (proj1 (pod_mounts_declared sample_mtls _ _ _ E eq_refl)).
Defined.

Lemma confd_mounts_projected_witness :
  podTemplateSpec sample (Some {[stsRestartAnnotation := "1"]}) = Some (pod_of sample) /\
  exists v, v ∈ ps_Volumes (pt_Spec (pod_of sample)) /\ v_Name v = "rabbitmq-confd" /\
    "default_user.conf" ∈ volume_paths v.
Proof.
  assert (podTemplateSpec sample (Some {[stsRestartAnnotation := "1"]}) = Some (pod_of sample)) as E
    by (vm_compute; reflexivity).
  split; [exact E|].
  refine (confd_mounts_projected sample _ _ (setupContainer sample)
    (mount_sub "rabbitmq-confd" "/tmp/default_user.conf" "default_user.conf") E _ _ eq_refl).
  - change (setupContainer sample ∈ setupContainer sample :: ps_Containers (pt_Spec (pod_of sample))). left.
  - apply (bool_decide_unpack _). vm_compute. exact I.
Defined.


Lemma pod_annotations_spec_witness :
  podTemplateSpec sample_vault (Some {[stsRestartAnnotation := "1"]}) = Some (pod_of sample_vault) /\
  smap_get (om_Annotations (pt_Meta (pod_of sample_vault))) stsRestartAnnotation = Some "1".
Proof.
  assert (podTemplateSpec sample_vault (Some {[stsRestartAnnotation := "1"]}) = Some (pod_of sample_vault)) as E
    by (vm_compute; reflexivity).
  split; [exact E|].
  etransitivity; [exact (pod_annotations_spec sample_vault _ _ stsRestartAnnotation E) | vm_compute; reflexivity].
Defined.

Lemma updatePorts_spec_witness :
  let ports := updatePorts sample_iter sample_mtls [mkSPort "amqp" "TCP" None 5672 (FromInt 5672) 30001] in
  NoDup (map port_Name ports) /\
  (forall k, k ∈ map port_Name ports <-> k ∈ dom (generateServicePortsMap sample_mtls)).
Proof.
  destruct (updatePorts_spec sample_iter (fun m => reflexivity _) sample_mtls
    [mkSPort "amqp" "TCP" None 5672 (FromInt 5672) 30001]) as (N & D & _).
  split; [exact N | exact D].
Defined.

Lemma service_desired_stable_witness :
  service_desired sample_iter sample (service_desired sample_iter sample (service_Build sample)) =
  service_desired sample_iter sample (service_Build sample).
Proof. exact (service_desired_stable sample_iter (fun m => reflexivity _) sample (service_Build sample)). Defined.

Definition built_secret (cluster : RabbitmqCluster) : Secret := ok_or sim_secret (secret_Build sample_rand cluster).

Lemma secret_Update_spec_witness :
  secret_Update sample (built_secret sample) = Ok (ok_or sim_secret (secret_Update sample (built_secret sample))) /\
  exists data', sec_Data (ok_or sim_secret (secret_Update sample (built_secret sample))) = Some data' /\
    data' !! "port" = Some "5672".
Proof.
  assert (secret_Update sample (built_secret sample) =
    Ok (ok_or sim_secret (secret_Update sample (built_secret sample)))) as E by (vm_compute; reflexivity).
  split; [exact E|].
  destruct (secret_Update_spec sample (built_secret sample) _ (smap_entries (sec_Data (built_secret sample)))
    ltac:(vm_compute; reflexivity) E) as (data' & Hd & _ & Hp & _).
  exists data'. split; [exact Hd | exact Hp].
Defined.

Lemma child_names_distinct_witness :
  Build sample_rand sample ErlangCookieBuilder = Ok (ok_or (OSecret sim_secret) (Build sample_rand sample ErlangCookieBuilder)) /\
  om_Namespace (object_meta (ok_or (OSecret sim_secret) (Build sample_rand sample ErlangCookieBuilder))) = "default".
Proof.
  assert (Build sample_rand sample ErlangCookieBuilder =
    Ok (ok_or (OSecret sim_secret) (Build sample_rand sample ErlangCookieBuilder))) as E by (vm_compute; reflexivity).
  split; [exact E|].
  refine (proj1 (child_names_distinct sample_rand sample ErlangCookieBuilder ErlangCookieBuilder _ _ _ _ E E));
    apply (bool_decide_unpack _); vm_compute; exact I.
Defined.

Lemma management_port_found_witness :
  managementPortFromService
    (mkSvc (meta_named "rabbit" "default") (svc_with_ports (updatePorts sample_iter sample_mtls [])
       (svc_Spec (service_Build sample_mtls)))) true = Ok 15671%Z.
Proof.
  refine (management_port_found sample_mtls _ sample_iter [] (fun m => reflexivity _) (fun _ => eq_refl) _).
  reflexivity.
Defined.

(** ** Status *)

Definition sample_clock : Clock4 := mkClock4 1 2 3 4.
Definition sample_children : list ChildResource :=
  [ResStatefulSet (Some (sim_ready (updated_sts sample)));
   ResEndpointSlice (Some [mkEndpoint ["10.0.0.1"] None None])].
Definition status_after (st : RabbitmqClusterStatus) : RabbitmqClusterStatus :=
  default st (SetConditions sample_clock sample_children st).

Lemma SetConditions_transition_times_witness :
  SetConditions sample_clock sample_children sample_status = Some (status_after sample_status) /\
  exists a c w r, st_Conditions (status_after sample_status) = [a; c; w; r] /\
    time_rule 1 (old_condition AllReplicasReady (st_Conditions sample_status)) a.
Proof.
  assert (SetConditions sample_clock sample_children sample_status = Some (status_after sample_status)) as E
    by (vm_compute; reflexivity).
  split; [exact E|].
  destruct (SetConditions_transition_times _ _ _ _ E) as (a & c & w & r & Hc & Ha & _).
  exists a, c, w, r. split; [exact Hc | exact Ha].
Defined.

Lemma conditions_meaning_witness :
  SetConditions sample_clock sample_children sample_status = Some (status_after sample_status) /\
  exists a c w r, st_Conditions (status_after sample_status) = [a; c; w; r] /\
    (Cond_Status a = ConditionTrue <-> 3%Z <> 0%Z /\ 3%Z = 3%Z).
Proof.
  assert (SetConditions sample_clock sample_children sample_status = Some (status_after sample_status)) as E
    by (vm_compute; reflexivity).
  split; [exact E|].
  destruct (conditions_meaning sample_clock _ _ _ _ E) as (a & c & w & r & Hc & (Ha & _) & _).
  exists a, c, w, r. split; [exact Hc | exact Ha].
Defined.

Lemma reachable_conditions_wf_witness :
  status_reachable (status_after (mkStatus [] None None 0 "" [])) /\
  conditions_wf (st_Conditions (status_after (mkStatus [] None None 0 "" []))).
Proof.
  assert (status_reachable (status_after (mkStatus [] None None 0 "" []))) as Hr.
  { eapply reach_step; [apply (reach_fresh (mkStatus [] None None 0 "" [])); reflexivity|].
    apply (step_SetConditions sample_clock sample_children). vm_compute. reflexivity. }
  split; [exact Hr | exact (reachable_conditions_wf _ Hr)].
Defined.

Lemma reconcileTLS_spec_witness :
  four_conditions sample_mtls /\
  tls_secrets_good sample_mtls (secrets_read (snd (fst (sim_run (reconcileTLS sample_mtls) (empty_server sample_mtls))))).
Proof.
  split; [reflexivity|].
  pose proof (wp_on_run _ _ (empty_server sample_mtls) (reconcileTLS_spec sample_mtls eq_refl)) as [_ Hr].
  revert Hr. destruct (fst (snd (sim_run (reconcileTLS sample_mtls) (empty_server sample_mtls)))) eqn:E.
  - intros [_ Hr]. apply Hr. reflexivity.
  - exfalso. vm_compute in E. discriminate E.
Defined.

(** The quorum check of a cluster with mutual TLS asks its pods. *)
Lemma management_requests_addressed_witness :
  let h := snd (fst (sim_run (updateQuorumStatus (fun l => l) sample_mtls) (empty_server sample_mtls))) in
  existsb (fun e => match projT1 e with HealthCheckNodeIsQuorumCritical _ => true | _ => false end) h = true /\
  history_ok (request_ok sample_mtls) h.
Proof.
  cbv zeta. split; [vm_compute; reflexivity|].
  exact (wp_on_run _ _ (empty_server sample_mtls)
    (proj1 (management_requests_addressed sample_mtls (fun l => l) 0 "default" "rabbit"))).
Defined.

(** ** Convergence *)

Definition decided_semantic_laws : @SemanticLaws decided_create_or_update.
Proof.
  split; cbn; [intros o; by apply bool_decide_eq_true|]. intros a b H. apply bool_decide_eq_true in H. by injection H as ->.
Defined.
#[local] Existing Instance decided_semantic_laws.

(** The sample cluster with one node. *)
Definition sample_small : RabbitmqCluster := with_replicas 1 sample.

Definition small_pass : SimState * history * StepResult := sample_pass sample_small.
Definition small_store : gmap (string * string) Object := told ∅ (snd (fst small_pass)).
Definition grown_builders : prog (RabbitmqCluster + StepResult) :=
  reconcile_builders sample_iter sample_rand sample (ResourceBuilders sample).
Definition grown_run : SimState * history * (RabbitmqCluster + StepResult) :=
  sim_run grown_builders (fst (fst small_pass)).

Lemma sample_plain : plain sample.
Proof.
  split.
  - split; [intros ? H; discriminate H | intros ? ? H; discriminate H].
  - intros os H. discriminate H.
  - split; [reflexivity | intros ? ? H; discriminate H].
  - exists 3%Z. reflexivity.
  - exists (built_sts sample), (updated_sts sample). split; vm_compute; reflexivity.
Qed.

Lemma no_children_keyed : well_keyed ∅.
Proof. intros k o H. by rewrite lookup_empty in H. Qed.


(** ** A server that takes its time

    The simulated server, with one claim, and a deleted StatefulSet that two
    more reads still find. *)
Record SlowState := mkSlow {
  slow_sim : SimState;
  slow_deleting : option nat;
  slow_claims : gmap (string * string) PersistentVolumeClaim
}.

Definition slow (st : SlowState) (c : call) : SlowState * answer c :=
  match c with
  | DeleteSts _ _ _ => (mkSlow (slow_sim st) (Some 2) (slow_claims st), Ok tt)
  | GetSts ns n =>
      match slow_deleting st with
      | Some (S k) => (mkSlow (slow_sim st) (Some k) (slow_claims st), snd (sim (slow_sim st) (GetSts ns n)))
      | Some O => (mkSlow (fst (sim (slow_sim st) (DeleteSts ns n Orphan))) None (slow_claims st),
                   Err (NotFound "StatefulSet not found"))
      | None => (st, snd (sim (slow_sim st) (GetSts ns n)))
      end
  | GetPVC ns n => (st, found (slow_claims st !! (ns, n)))
  | UpdatePVC _ p => (mkSlow (slow_sim st) (slow_deleting st) (<[pvc_key p := p]> (slow_claims st)), Ok p)
  | c => let r := sim (slow_sim st) c in (mkSlow (fst r) (slow_deleting st) (slow_claims st), snd r)
  end.

(** The sample cluster with smaller claims. *)
Definition with_storage (n : Z) (rmq : RabbitmqCluster) : RabbitmqCluster :=
  let sp := rmq_Spec rmq in
  mkCluster (rmq_Meta rmq)
    (mkSpec (spec_Replicas sp) (spec_Image sp) (spec_ImagePullSecrets sp) (spec_Service sp)
       (mkPersistence None (Some (quantity_of_int n)) None) (spec_Resources sp) (spec_Affinity sp)
       (spec_Tolerations sp) (spec_Rabbitmq sp) (spec_TLS sp) (spec_Override sp) (spec_SkipPostDeploySteps sp)
       (spec_AutoEnableAllFeatureFlags sp) (spec_TerminationGracePeriodSeconds sp) (spec_DelayStartSeconds sp)
       (spec_SecretBackend sp))
    (rmq_Status rmq).

Definition tight_pass : SimState * history * StepResult := sample_pass (with_storage 5 sample).
Definition tight_store : Store := told ∅ (snd (fst tight_pass)).
Definition tight_claim : PersistentVolumeClaim :=
  mkPVC (meta_named "persistence-rabbit-server-0" "default")
    (mkPVCSpec ["ReadWriteOnce"] (Some {["storage" := quantity_of_int 5]}) None None).
Definition tight_server : SlowState :=
  mkSlow (fst (fst tight_pass)) None {[("default", "persistence-rabbit-server-0") := tight_claim]}.

(** The same server, when it does not accept the write of a claim. *)
Definition broken (st : SlowState) (c : call) : SlowState * answer c :=
  match c with
  | UpdatePVC _ _ => (st, Err (ApiFailure "timeout"))
  | c => slow st c
  end.

Definition interrupted_run : SlowState * history * (RabbitmqCluster + StepResult) := run broken grown_builders tight_server.
Definition interrupted_store : Store := told tight_store (snd (fst interrupted_run)).
Definition resumed_run : SlowState * history * (RabbitmqCluster + StepResult) :=
  run slow grown_builders (fst (fst interrupted_run)).

