(* ===== verification/ToolExamples.v ===== *)
(** * The command line programs at concrete inputs

    Instances of the interfaces of [Kubectl], a terminal on which kubectl
    succeeds, and the theorems of [KubectlSpec] and [ManagerSpec] applied
    to them. *)

From S2P Require Import Prelude.
From S2P Require Import Base64.
From S2P Require Import Strconv.
From S2P Require Import K8s.
From S2P Require Import Metadata.
From S2P Require Import Status.
From S2P Require Import Api.
From S2P Require Import Webhook.
From S2P Require Import Override.
From S2P Require Import Services.
From S2P Require Import Ini.
From S2P Require Import Secrets.
From S2P Require Import ResourceBuilder.
From S2P Require Import Kube.
From S2P Require Import Tls.
From S2P Require Import Reconcile.
From S2P Require Import Kubectl.
From S2P Require Import KubectlSpec.
From S2P Require Import Manager.
From S2P Require Import ManagerSpec.
From S2P Require Import Examples.

(** ** Instances *)

Definition simple_cobra : Cobra := {|
  validArgs p args :=
    match p with
    | NoArgs => bool_decide (args = [])
    | ExactArgs n => bool_decide (length args = n)
    | MinimumNArgs n => (n <=? length args)%nat
    end
|}.

Lemma simple_cobra_laws : @CobraLaws simple_cobra.
Proof.
  constructor; cbn.
  - by intros args ?%bool_decide_eq_true.
  - by intros n args ?%bool_decide_eq_true.
  - intros n args. apply Nat.leb_le.
Qed.

(** Quantities in gibibytes only. *)
Definition simple_quantity : QuantityLib := {|
  ParseQuantity s :=
    if HasPrefix (TrimSuffix s "Gi") s then Err "quantities must match the regular expression"
    else match ParseInt32 (TrimSuffix s "Gi") with
         | Some n => Ok (quantity_of_int (n * 1073741824))
         | None => Err "quantities must match the regular expression"
         end
|}.

Definition simple_yaml : YamlLib := {|
  Marshal m := match m with
               | ClusterManifest v kind c => Ok (kind +:+ " " +:+ rmq_Name c)
               | JobManifest _ => Ok "kind: Job"
               end
|}.

Definition equals_char : Ascii.ascii := Ascii.ascii_of_nat 61.

Definition simple_label_tool : LabelTool := {|
  label_with spec labels :=
    match split_on equals_char spec with
    | [key; value] => <[key := value]> labels
    | _ => delete (TrimSuffix spec "-") labels
    end;
  selects selector labels :=
    match split_on equals_char selector with
    | [key; value] => bool_decide (labels !! key = Some value)
    | _ => false
    end
|}.

Lemma split_equals key value :
  no_equals key = true -> no_equals value = true ->
  split_on equals_char (key +:+ "=" +:+ value) = [key; value].
Proof.
  intros Hk%negb_true_iff Hv%negb_true_iff.
  change ("=" +:+ value) with (String equals_char value). by rewrite split_on_app, split_on_none.
Qed.

Lemma simple_label_tool_laws : @LabelToolLaws simple_label_tool.
Proof.
  constructor; cbn [label_with selects simple_label_tool].
  - intros key value labels Hk Hv. by rewrite split_equals.
  - intros key labels Hk%negb_true_iff.
    assert (Contains (key +:+ "-") (String equals_char "") = false) as Hn.
    { induction key as [|a key IH]; [done|]. change (String a key +:+ "-") with (String a (key +:+ "-")).
      change "=" with (String equals_char "") in Hk. rewrite Contains_char_cons in *.
      apply orb_false_iff in Hk as [-> Hk]. by apply IH. }
    rewrite split_on_none by exact Hn. change (key +:+ "-") with (key +:+ String (Ascii.ascii_of_nat 45) "").
    rewrite TrimSuffix_app.
    by rewrite str_app_nil_r.
  - intros key value labels Hk Hv. by rewrite split_equals.
Qed.

#[local] Existing Instances simple_cobra simple_cobra_laws simple_quantity simple_yaml simple_label_tool
  simple_label_tool_laws simple_refs simple_refs_laws merge_keep line_ini_laws.

(** ** The plugin *)

Definition in_namespace : kubectlExecutor := newKubectlExecutor "queues" false.
Definition env_order : gmap string string -> list (string * string) := map_to_list.

Definition on_terminal {A} (p : outcome A) : history * result ToolError A :=
  let '(_, h, r) := sim_run p (empty_server sample) in (h, r).

(** The kubectl command lines of a run. *)
Definition command_lines (h : history) : list (list string) :=
  concat (map (fun e => match projT1 e with
                        | Tool (RunKubectl args) | Tool (OutputKubectl args) => [args]
                        | _ => [] end) h).

Definition sample_options : clusterOptions :=
  mkOptions 3 "" [] "ClusterIP" {["example.com/lb" := "internal"]} "fast" "10Gi" false "4Gi" "2Gi" "" "" "" "" false
    ["rabbitmq_stream"] {["NODENAME" := "rabbit"]} "extra.conf" "" 60 0 false false "4.2.4".

Definition debug_line : list string :=
  ["exec"; "-n"; "queues"; "rabbit-server-0"; "-c"; "rabbitmq"; "--"; "rabbitmqctl"; "set_log_level"; "debug"].

Lemma commands_scoped_witness :
  last (command_lines (fst (on_terminal (cmd_RunE (newDebugCmd in_namespace) ["rabbit"])))) = Some debug_line /\
  wp (cmd_RunE (newDebugCmd in_namespace) ["rabbit"]) (fun h r =>
    no_panic r /\ forall c, c ∈ map (@projT1 call answer) h -> scoped_call in_namespace c) [].
Proof.
  split; [vm_compute; reflexivity|].
  apply (commands_scoped env_order in_namespace default_options "linux" [] "dev"); [|reflexivity].
  unfold subcommands. do 5 apply list_elem_of_further. apply list_elem_of_here.
Defined.

(** Command lines of the form [-n NAMESPACE COMMAND INSTANCE]. *)
Definition simple_command_line : CommandLine := {|
  parse_command_line argv :=
    match argv with
    | ["-n"; ns; cmd; instance] => Ok (Some (mkInvocation ns false default_options cmd [instance]))
    | _ => Err "unknown command"
    end
|}.
#[local] Existing Instance simple_command_line.

Definition debug_main : prog Z := Kubectl.main env_order "linux" [] "dev" ["-n"; "queues"; "debug"; "rabbit"].

Lemma main_scoped_witness :
  let ran := sim_run debug_main (empty_server sample) in
  last (command_lines (snd (fst ran))) = Some debug_line /\ snd ran = 0%Z /\
  forall c, c ∈ map (@projT1 call answer) (snd (fst ran)) ->
    scoped_by_flags ["-n"; "queues"; "debug"; "rabbit"] c.
Proof.
  cbv zeta. split; [vm_compute; reflexivity|]. split; [vm_compute; reflexivity|].
  exact (proj2 (proj2 (proj2 (wp_on_run debug_main _ (empty_server sample)
    (main_scoped env_order "linux" [] "dev" ["-n"; "queues"; "debug"; "rabbit"]))))).
Defined.

Lemma buildRabbitmqCluster_spec_witness :
  is_ok (snd (on_terminal (buildRabbitmqCluster env_order "rabbit" sample_options))) = true /\
  wp (buildRabbitmqCluster env_order "rabbit" sample_options) (fun h r =>
    match r with
    | Ok c => cluster_matches "rabbit" sample_options c
    | Err e => refused sample_options h e
    end) [].
Proof.
  split; [vm_compute; reflexivity|]. exact (buildRabbitmqCluster_spec env_order "rabbit" sample_options (fun m => reflexivity _)).
Defined.


(** Both lists in full: two clusters are deleted, one pod is debugged. *)
Lemma delete_and_debug_lines :
  command_lines (fst (on_terminal (cmd_RunE (newDeleteCmd in_namespace) ["one"; "two"]))) =
    [["delete"; "-n"; "queues"; "rabbitmqcluster"; "one"]; ["delete"; "-n"; "queues"; "rabbitmqcluster"; "two"]] /\
  length (command_lines (fst (on_terminal (cmd_RunE (newDebugCmd in_namespace) ["rabbit"])))) = 2%nat.
Proof. split; vm_compute; reflexivity. Qed.

Definition empty_secret : Secret := mkSecret (meta_named "" "") "" None.
Definition built_secret : Secret := ok_or empty_secret (secret_Build sample_rand sample).
Definition built_data : gmap string string := smap_entries (sec_Data built_secret).

Lemma credentials_found_witness :
  entry built_data "username" = "default_user_QUFBQUFBQUFBQUFBQUF" /\
  wp (getInstanceCredentials in_namespace "rabbit") (fun h r =>
    kubectl_failed h \/
    (shows in_namespace built_secret built_data h ->
     r = Ok (mkCredentials (entry built_data "username") (entry built_data "password")))) [] /\
  str_forall userinfo_char (entry built_data "password") = true.
Proof.
  split; [vm_compute; reflexivity|].
  assert (secret_Build sample_rand sample = Ok built_secret) as E by (vm_compute; reflexivity).
  assert (sec_Data built_secret = Some built_data) as D by (vm_compute; reflexivity).
  destruct (credentials_found in_namespace sample_rand sample built_secret built_data E D) as [Hfound Hsafe].
  split; [exact Hfound|]. apply Hsafe. vm_compute. reflexivity.
Defined.



(** ** The operator process *)

Definition sample_env : gmap string string := list_to_map
  [("OPERATOR_NAMESPACE", "rabbitmq-system"); ("LEASE_DURATION", "30"); ("OPERATOR_SCOPE_NAMESPACE", "team-a,team-b")].

Lemma getEnvInDuration_bounds_witness :
  getEnvInDuration sample_env "LEASE_DURATION" [] = ([], Ok 30000000000%Z) /\
  wrap64 (30 * second) = (30 * second)%Z.
Proof.
  destruct (getEnvInDuration_bounds sample_env "LEASE_DURATION" 30 [] ltac:(vm_compute; reflexivity)) as (Hok & _ & Hfit).
  split; [apply Hok; unfold int64_ok; lia | apply Hfit; unfold max_seconds; lia].
Defined.

Lemma scope_namespaces_spec_witness :
  exists watched, scope_namespaces "team-a,team-b" = Some watched /\
    forall ns, ns ∈ watched <-> ns ∈ ["team-a"; "team-b"].
Proof.
  apply (proj2 (scope_namespaces_spec ["team-a"; "team-b"])); [|discriminate|discriminate].
  repeat constructor.
Defined.

Lemma main_reaches_start_witness :
  last (fst (main never_fails sample_env default_flags)) = Some Start.
Proof.
  assert (env_ok sample_env = true) as Hok by (vm_compute; reflexivity).
  pose proof (main_reaches_start sample_env default_flags) as H.
  destruct (main never_fails sample_env default_flags) as [steps r]. exact (proj2 H Hok).
Defined.

Lemma children_watched_witness :
  object_kind (OStatefulSet (updated_sts sample)) = "StatefulSet" /\
  addResourceToIndex (Some (OStatefulSet (updated_sts sample))) = ["rabbit"] /\
  cache_sees (OStatefulSet (updated_sts sample)) = true.
Proof.
  split; [reflexivity|].
  assert (Update sample_iter sample StatefulSetBuilder (OStatefulSet (built_sts sample)) =
    Ok (OStatefulSet (updated_sts sample), StatefulSetBuilder)) as E by (vm_compute; reflexivity).
  assert (Build sample_rand sample StatefulSetBuilder = Ok (OStatefulSet (built_sts sample))) as B
    by (vm_compute; reflexivity).
  exact (proj2 (children_watched sample_iter sample_rand sample _ _ _ _ E (or_introl B))).
Defined.

(** An override of the part-of label takes the client Service out of the cache. *)
Definition sample_hidden : RabbitmqCluster :=
  rmq_with_spec
    (sample_spec 3 (mkTLS "" "" false)
       (mkOverride None (Some (mkOSvc (Some (mkELA (Some {["app.kubernetes.io/part-of" := "shop"]}) None)) None))) None)
    sample.

Lemma override_hides_service : exists s,
  service_Update sample_iter sample_hidden (service_Build sample_hidden) = Ok s /\ cache_sees (OService s) = false.
Proof. eexists. split; vm_compute; reflexivity. Qed.
